(** * QtVncClient: a shallow embedding of the RFB client and its DES adaptor

    The development follows the two translation units of the client
    and the tool set built on it:
    - [qvncdes_p.h]: the self-contained DES primitive and the VNC
      challenge encryption (module [Des]);
    - [qvncclient.cpp]: the protocol state machine, the rectangle decoders,
      the public setters and the input events (module [Client]);
    - [examples/mcp-vnc/tools.cpp]: the connect, pointer and keyboard
      tools (module [Tools]).

    Conventions.  A [quint8] is a [Z] in [0, 256); C arrays and
    [QByteArray]s are [list Z]; an in-place array update is stdpp's list
    insert.  A [for (i = lo; i < hi; i++)] loop is a left fold over
    [seqZ lo (hi - lo)]. *)

From Stdlib Require Import ZArith Lia Bool.
From stdpp Require Import base tactics option list list_numbers gmap.

Local Open Scope Z_scope.

(** ** Shared helpers for fixed-width data *)

(** [static_cast<quint8>(x)] and assignment to a [quint8]. *)
Definition quint8 (x : Z) : Z := Z.land x 255.

(** [a[i]] for an array of bytes; the index is a C [int]. *)
Definition at_ (a : list Z) (i : Z) : Z := default 0 (a !! Z.to_nat i).

(** [a[i] = v]. *)
Definition set_at (a : list Z) (i : Z) (v : Z) : list Z := <[Z.to_nat i := v]> a.

(** [for (int i = lo; i < hi; i++) body(i)] over a loop state. *)
Definition forZ {S : Type} (lo hi : Z) (body : Z → S → S) (s : S) : S :=
  fold_left (λ acc i, body i acc) (seqZ lo (hi - lo)) s.

(** A C condition: any non-zero [int] is true. *)
Definition truthy (x : Z) : bool := negb (x =? 0).

Module Des.

(** Initial Permutation (IP) *)
Definition IP_TABLE : list Z :=
  [58; 50; 42; 34; 26; 18; 10;  2;
   60; 52; 44; 36; 28; 20; 12;  4;
   62; 54; 46; 38; 30; 22; 14;  6;
   64; 56; 48; 40; 32; 24; 16;  8;
   57; 49; 41; 33; 25; 17;  9;  1;
   59; 51; 43; 35; 27; 19; 11;  3;
   61; 53; 45; 37; 29; 21; 13;  5;
   63; 55; 47; 39; 31; 23; 15;  7].

(** Final Permutation (IP^-1) *)
Definition FP_TABLE : list Z :=
  [40;  8; 48; 16; 56; 24; 64; 32;
   39;  7; 47; 15; 55; 23; 63; 31;
   38;  6; 46; 14; 54; 22; 62; 30;
   37;  5; 45; 13; 53; 21; 61; 29;
   36;  4; 44; 12; 52; 20; 60; 28;
   35;  3; 43; 11; 51; 19; 59; 27;
   34;  2; 42; 10; 50; 18; 58; 26;
   33;  1; 41;  9; 49; 17; 57; 25].

(** Expansion permutation (E) *)
Definition E_TABLE : list Z :=
  [32;  1;  2;  3;  4;  5;
    4;  5;  6;  7;  8;  9;
    8;  9; 10; 11; 12; 13;
   12; 13; 14; 15; 16; 17;
   16; 17; 18; 19; 20; 21;
   20; 21; 22; 23; 24; 25;
   24; 25; 26; 27; 28; 29;
   28; 29; 30; 31; 32;  1].

(** Permutation (P) *)
Definition P_TABLE : list Z :=
  [16;  7; 20; 21; 29; 12; 28; 17;
    1; 15; 23; 26;  5; 18; 31; 10;
    2;  8; 24; 14; 32; 27;  3;  9;
   19; 13; 30;  6; 22; 11;  4; 25].

(** Permuted Choice 1 (PC-1) *)
Definition PC1_TABLE : list Z :=
  [57; 49; 41; 33; 25; 17;  9;
    1; 58; 50; 42; 34; 26; 18;
   10;  2; 59; 51; 43; 35; 27;
   19; 11;  3; 60; 52; 44; 36;
   63; 55; 47; 39; 31; 23; 15;
    7; 62; 54; 46; 38; 30; 22;
   14;  6; 61; 53; 45; 37; 29;
   21; 13;  5; 28; 20; 12;  4].

(** Permuted Choice 2 (PC-2) *)
Definition PC2_TABLE : list Z :=
  [14; 17; 11; 24;  1;  5;
    3; 28; 15;  6; 21; 10;
   23; 19; 12;  4; 26;  8;
   16;  7; 27; 20; 13;  2;
   41; 52; 31; 37; 47; 55;
   30; 40; 51; 45; 33; 48;
   44; 49; 39; 56; 34; 53;
   46; 42; 50; 36; 29; 32].

(** Key rotation schedule *)
Definition KEY_SHIFTS : list Z :=
  [1; 1; 2; 2; 2; 2; 2; 2; 1; 2; 2; 2; 2; 2; 2; 1].

(** S-boxes, [S_BOXES[i][row][col]] *)
Definition S_BOXES : list (list (list Z)) :=
  [ (* S1 *)
    [ [14;  4; 13;  1;  2; 15; 11;  8;  3; 10;  6; 12;  5;  9;  0;  7];
      [ 0; 15;  7;  4; 14;  2; 13;  1; 10;  6; 12; 11;  9;  5;  3;  8];
      [ 4;  1; 14;  8; 13;  6;  2; 11; 15; 12;  9;  7;  3; 10;  5;  0];
      [15; 12;  8;  2;  4;  9;  1;  7;  5; 11;  3; 14; 10;  0;  6; 13] ];
    (* S2 *)
    [ [15;  1;  8; 14;  6; 11;  3;  4;  9;  7;  2; 13; 12;  0;  5; 10];
      [ 3; 13;  4;  7; 15;  2;  8; 14; 12;  0;  1; 10;  6;  9; 11;  5];
      [ 0; 14;  7; 11; 10;  4; 13;  1;  5;  8; 12;  6;  9;  3;  2; 15];
      [13;  8; 10;  1;  3; 15;  4;  2; 11;  6;  7; 12;  0;  5; 14;  9] ];
    (* S3 *)
    [ [10;  0;  9; 14;  6;  3; 15;  5;  1; 13; 12;  7; 11;  4;  2;  8];
      [13;  7;  0;  9;  3;  4;  6; 10;  2;  8;  5; 14; 12; 11; 15;  1];
      [13;  6;  4;  9;  8; 15;  3;  0; 11;  1;  2; 12;  5; 10; 14;  7];
      [ 1; 10; 13;  0;  6;  9;  8;  7;  4; 15; 14;  3; 11;  5;  2; 12] ];
    (* S4 *)
    [ [ 7; 13; 14;  3;  0;  6;  9; 10;  1;  2;  8;  5; 11; 12;  4; 15];
      [13;  8; 11;  5;  6; 15;  0;  3;  4;  7;  2; 12;  1; 10; 14;  9];
      [10;  6;  9;  0; 12; 11;  7; 13; 15;  1;  3; 14;  5;  2;  8;  4];
      [ 3; 15;  0;  6; 10;  1; 13;  8;  9;  4;  5; 11; 12;  7;  2; 14] ];
    (* S5 *)
    [ [ 2; 12;  4;  1;  7; 10; 11;  6;  8;  5;  3; 15; 13;  0; 14;  9];
      [14; 11;  2; 12;  4;  7; 13;  1;  5;  0; 15; 10;  3;  9;  8;  6];
      [ 4;  2;  1; 11; 10; 13;  7;  8; 15;  9; 12;  5;  6;  3;  0; 14];
      [11;  8; 12;  7;  1; 14;  2; 13;  6; 15;  0;  9; 10;  4;  5;  3] ];
    (* S6 *)
    [ [12;  1; 10; 15;  9;  2;  6;  8;  0; 13;  3;  4; 14;  7;  5; 11];
      [10; 15;  4;  2;  7; 12;  9;  5;  6;  1; 13; 14;  0; 11;  3;  8];
      [ 9; 14; 15;  5;  2;  8; 12;  3;  7;  0;  4; 10;  1; 13; 11;  6];
      [ 4;  3;  2; 12;  9;  5; 15; 10; 11; 14;  1;  7;  6;  0;  8; 13] ];
    (* S7 *)
    [ [ 4; 11;  2; 14; 15;  0;  8; 13;  3; 12;  9;  7;  5; 10;  6;  1];
      [13;  0; 11;  7;  4;  9;  1; 10; 14;  3;  5; 12;  2; 15;  8;  6];
      [ 1;  4; 11; 13; 12;  3;  7; 14; 10; 15;  6;  8;  0;  5;  9;  2];
      [ 6; 11; 13;  8;  1;  4; 10;  7;  9;  5;  0; 15; 14;  2;  3; 12] ];
    (* S8 *)
    [ [13;  2;  8;  4;  6; 15; 11;  1; 10;  9;  3; 14;  5;  0; 12;  7];
      [ 1; 15; 13;  8; 10;  3;  7;  4; 12;  5;  6; 11;  0; 14;  9;  2];
      [ 7; 11;  4;  1;  9; 12; 14;  2;  0;  6; 10; 13; 15;  3;  5;  8];
      [ 2;  1; 14;  7;  4; 10;  8; 13; 15; 12;  9;  0;  3;  5;  6; 11] ] ].

(** [S_BOXES[i][row][col]] *)
Definition sbox (i row col : Z) : Z :=
  at_ (default [] (default [] (S_BOXES !! Z.to_nat i) !! Z.to_nat row)) col.

(** Get bit at 1-indexed position from byte array *)
Definition desGetBit (data : list Z) (pos : Z) : Z :=
  Z.land (Z.shiftr (at_ data ((pos - 1) / 8)) (7 - ((pos - 1) mod 8))) 1.

(** Set bit at 1-indexed position in byte array *)
Definition desSetBit (data : list Z) (pos : Z) (val : Z) : list Z :=
  let byteIdx := (pos - 1) / 8 in
  let bitIdx := 7 - ((pos - 1) mod 8) in
  if truthy val
  then set_at data byteIdx (Z.lor (at_ data byteIdx) (quint8 (Z.shiftl 1 bitIdx)))
  else set_at data byteIdx (Z.land (at_ data byteIdx) (quint8 (Z.lnot (Z.shiftl 1 bitIdx)))).

(** The loop shape shared by every table-driven permutation of the file:
    [memset(dst, 0, n); for (i = 0; i < bits; i++)
       if (desGetBit(src, TABLE[i])) desSetBit(dst, i + 1, 1);] *)
Definition permute (table : list Z) (bits : Z) (src : list Z) (n : nat) : list Z :=
  forZ 0 bits
    (λ i dst, if truthy (desGetBit src (at_ table i)) then desSetBit dst (i + 1) 1 else dst)
    (replicate n 0).

(** One round of the key schedule: rotate [c] and [d], reconstitute the
    56-bit [cd] and apply PC-2.  Returns the new [(c, d)] and the subkey. *)
Definition desKeyRound (round : Z) (c d : Z) : Z * Z * list Z :=
  let shift := at_ KEY_SHIFTS round in
  let c := Z.land (Z.lor (Z.shiftl c shift) (Z.shiftr c (28 - shift))) 0x0FFFFFFF in
  let d := Z.land (Z.lor (Z.shiftl d shift) (Z.shiftr d (28 - shift))) 0x0FFFFFFF in
  let cd :=
    forZ 0 28
      (λ i cd,
         let cd := if truthy (Z.land c (Z.shiftl 1 (27 - i))) then desSetBit cd (i + 1) 1 else cd in
         if truthy (Z.land d (Z.shiftl 1 (27 - i))) then desSetBit cd (i + 29) 1 else cd)
      (replicate 7 0) in
  (c, d, permute PC2_TABLE 48 cd 6).

(** Generate 16 round subkeys from 8-byte key *)
Definition desKeySchedule (key : list Z) : list (list Z) :=
  let pc1 := permute PC1_TABLE 56 key 7 in
  let '(c, d) :=
    forZ 0 28
      (λ i '(c, d),
         let c := if truthy (desGetBit pc1 (i + 1)) then Z.lor c (Z.shiftl 1 (27 - i)) else c in
         let d := if truthy (desGetBit pc1 (i + 29)) then Z.lor d (Z.shiftl 1 (27 - i)) else d in
         (c, d))
      (0, 0) in
  let '(_, _, subkeys) :=
    forZ 0 16
      (λ round '(c, d, subkeys),
         let '(c, d, k) := desKeyRound round c d in
         (c, d, subkeys ++ [k]))
      (c, d, []) in
  subkeys.

(** [for (i = 0; i < n; i++) out[i] = a[i] ^ b[i]] *)
Definition xorBytes (n : Z) (a b : list Z) : list Z :=
  (λ i, Z.lxor (at_ a i) (at_ b i)) <$> seqZ 0 n.

(** Feistel function: takes 32-bit R and 48-bit subkey, produces 32-bit output *)
Definition desFeistel (rhalf subkey : list Z) : list Z :=
  let expanded := permute E_TABLE 48 rhalf 6 in
  let expanded := xorBytes 6 expanded subkey in
  let sboxOut :=
    forZ 0 8
      (λ i sboxOut,
         let bit := i * 6 + 1 in
         let row := desGetBit expanded bit * 2 + desGetBit expanded (bit + 5) in
         let col := desGetBit expanded (bit + 1) * 8
                    + desGetBit expanded (bit + 2) * 4
                    + desGetBit expanded (bit + 3) * 2
                    + desGetBit expanded (bit + 4) in
         let val := sbox i row col in
         let outBit := i * 4 + 1 in
         let sboxOut := desSetBit sboxOut outBit (Z.land (Z.shiftr val 3) 1) in
         let sboxOut := desSetBit sboxOut (outBit + 1) (Z.land (Z.shiftr val 2) 1) in
         let sboxOut := desSetBit sboxOut (outBit + 2) (Z.land (Z.shiftr val 1) 1) in
         desSetBit sboxOut (outBit + 3) (Z.land val 1))
      (replicate 4 0) in
  permute P_TABLE 32 sboxOut 4.

(** Encrypt a single 8-byte block with an 8-byte key using DES-ECB *)
(* [lhalf] and [rhalf] are the source's [left] and [right] arrays. *)
Definition desEncryptBlock (key input : list Z) : list Z :=
  let subkeys := desKeySchedule key in
  let ip := permute IP_TABLE 64 input 8 in
  let lhalf := take 4 ip in
  let rhalf := take 4 (drop 4 ip) in
  let '(lhalf, rhalf) :=
    forZ 0 16
      (λ round '(lhalf, rhalf),
         let fResult := desFeistel rhalf (default [] (subkeys !! Z.to_nat round)) in
         let newRight := xorBytes 4 lhalf fResult in
         (rhalf, newRight))
      (lhalf, rhalf) in
  let preOutput := rhalf ++ lhalf in
  permute FP_TABLE 64 preOutput 8.

(** Reverse bits in a byte (VNC uses non-standard bit ordering for DES keys) *)
Definition desReverseBits (b : Z) : Z :=
  let b := quint8 (Z.lor (Z.shiftr (Z.land b 0xF0) 4) (Z.shiftl (Z.land b 0x0F) 4)) in
  let b := quint8 (Z.lor (Z.shiftr (Z.land b 0xCC) 2) (Z.shiftl (Z.land b 0x33) 2)) in
  let b := quint8 (Z.lor (Z.shiftr (Z.land b 0xAA) 1) (Z.shiftl (Z.land b 0x55) 1)) in
  b.

(** [QString::toLatin1] (Qt): a [QString] is a sequence of UTF-16 code
    units; a unit above 0xFF has no Latin-1 encoding and becomes ['?']. *)
Definition toLatin1 (s : list Z) : list Z :=
  (λ c, if c >? 0xFF then 0x3F else c) <$> s.

(** Encrypt a 16-byte VNC challenge using the password.  The two output
    blocks are written at offsets 0 and 8 of the 16-byte response. *)
Definition vncEncryptChallenge (password challenge : list Z) : list Z :=
  let pwd := toLatin1 password in
  let key :=
    forZ 0 (Z.min (Z.of_nat (length pwd)) 8)
      (λ i key, set_at key i (desReverseBits (quint8 (at_ pwd i))))
      (replicate 8 0) in
  desEncryptBlock key challenge ++ desEncryptBlock key (drop 8 challenge).

End Des.

(** ** The client: [qvncclient.cpp]

    The client is modelled as built with [USE_ZLIB], on a little-endian
    host.  Its state is the record [Client]; a member function is a
    function from [Client] to [Client], or to [bool * Client] where the
    source returns [bool].  Signals are connected directly, so a slot
    runs inside the [emit].  zlib and the JPEG reader are parameters
    (classes [Zlib] and [JpegCodec]).  [qCDebug] output is not modelled. *)

Module Client.

(** *** Enumerations *)

(** States for the VNC protocol handshaking process. *)
Inductive HandshakingState :=
  | ProtocolVersionState
  | SecurityState
  | SecurityResultState
  | VncAuthenticationState
  | ClientInitState
  | ServerInitState
  | WaitingState.

(** Modelled from the spec: the public enum [QVncClient::ProtocolVersion]
    is declared in [qvncclient.h], which is not among the sources; the
    data model lists its values as 3.3, 3.7, 3.8 and Unknown. *)
Inductive ProtocolVersion :=
  | ProtocolVersionUnknown
  | ProtocolVersion33
  | ProtocolVersion37
  | ProtocolVersion38.

(** Modelled from the spec: the public enum [QVncClient::SecurityType] is
    declared in [qvncclient.h] as well; the data model gives Invalid = 0,
    None = 1, VncAuthentication = 2 and Unknown.  [parseSecurity33] casts
    an arbitrary 32-bit wire value to the enum, hence [SecurityTypeOther]. *)
Inductive SecurityType :=
  | SecurityTypeUnknwon
  | SecurityTypeInvalid
  | SecurityTypeNone
  | SecurityTypeVncAuthentication
  | SecurityTypeOther (n : Z).

Global Instance HandshakingState_eq_dec : EqDecision HandshakingState.
Proof. solve_decision. Defined.
Global Instance ProtocolVersion_eq_dec : EqDecision ProtocolVersion.
Proof. solve_decision. Defined.
Global Instance SecurityType_eq_dec : EqDecision SecurityType.
Proof. solve_decision. Defined.

(** [static_cast<SecurityType>(static_cast<unsigned int>(data))] *)
Definition securityTypeOfWire (n : Z) : SecurityType :=
  if n =? 0 then SecurityTypeInvalid
  else if n =? 1 then SecurityTypeNone
  else if n =? 2 then SecurityTypeVncAuthentication
  else SecurityTypeOther n.

(** [enum EncodingType] *)
Definition RawEncoding : Z := 0.
Definition CopyRect : Z := 1.
Definition RRE : Z := 2.
Definition Hextile : Z := 5.
Definition ZRLE : Z := 16.
Definition Tight : Z := 7.

(** [enum HextileSubencoding] *)
Definition RawSubencoding : Z := 1.
Definition BackgroundSpecified : Z := 2.
Definition ForegroundSpecified : Z := 4.
Definition AnySubrects : Z := 8.
Definition SubrectsColoured : Z := 16.

(** [enum ClientMessageType] and [enum ServerMessageType] *)
Definition SetPixelFormat : Z := 0x00.
Definition SetEncodings : Z := 0x02.
Definition FramebufferUpdateRequest : Z := 0x03.
Definition FramebufferUpdate : Z := 0x00.

(** *** Integers on the wire and in C *)

(** A C [int] after an arithmetic step that can leave its range, in the
    two's-complement reading. *)
Definition int32 (v : Z) : Z := (v + 2 ^ 31) mod 2 ^ 32 - 2 ^ 31.

(** Assignment to a [quint16_be]. *)
Definition quint16 (v : Z) : Z := v mod 2 ^ 16.

(** Big-endian and little-endian decoding of a byte sequence. *)
Definition be (bytes : list Z) : Z := fold_left (λ acc b, acc * 256 + b) bytes 0.
Definition le (bytes : list Z) : Z := be (reverse bytes).

(** Big-endian encoding of [v] on [n] bytes. *)
Fixpoint to_be (n : nat) (v : Z) : list Z :=
  match n with
  | O => []
  | S n' => to_be n' (v / 256) ++ [v mod 256]
  end.

(** *** Pixel formats and rectangles *)

(** [struct PixelFormat], 16 bytes on the wire. *)
Record PixelFormat := mkPixelFormat {
  bitsPerPixel : Z;
  depth : Z;
  bigEndianFlag : Z;
  trueColourFlag : Z;
  redMax : Z;
  greenMax : Z;
  blueMax : Z;
  redShift : Z;
  greenShift : Z;
  blueShift : Z;
  padding1 : Z;
  padding2 : Z;
  padding3 : Z
}.

(** The member initialisers of [struct PixelFormat]. *)
Definition pixelFormat0 : PixelFormat :=
  mkPixelFormat 0 0 0 0 0 0 0 0 0 0 0 0 0.

(** The struct as [read(&pixelFormat)] fills it from 16 bytes. *)
Definition pixelFormatOfBytes (b : list Z) : PixelFormat :=
  {| bitsPerPixel := at_ b 0; depth := at_ b 1;
     bigEndianFlag := at_ b 2; trueColourFlag := at_ b 3;
     redMax := be [at_ b 4; at_ b 5];
     greenMax := be [at_ b 6; at_ b 7];
     blueMax := be [at_ b 8; at_ b 9];
     redShift := at_ b 10; greenShift := at_ b 11; blueShift := at_ b 12;
     padding1 := at_ b 13; padding2 := at_ b 14; padding3 := at_ b 15 |}.

(** The struct as [write(pixelFormat)] lays it out. *)
Definition pixelFormatBytes (pf : PixelFormat) : list Z :=
  [bitsPerPixel pf; depth pf; bigEndianFlag pf; trueColourFlag pf]
  ++ to_be 2 (redMax pf) ++ to_be 2 (greenMax pf) ++ to_be 2 (blueMax pf)
  ++ [redShift pf; greenShift pf; blueShift pf; padding1 pf; padding2 pf; padding3 pf].

(** [struct Rectangle]: four [quint16_be]. *)
Record Rectangle := mkRectangle {
  rect_x : Z;
  rect_y : Z;
  rect_w : Z;
  rect_h : Z
}.

Definition rectangleOfBytes (b : list Z) : Rectangle :=
  {| rect_x := be [at_ b 0; at_ b 1]; rect_y := be [at_ b 2; at_ b 3];
     rect_w := be [at_ b 4; at_ b 5]; rect_h := be [at_ b 6; at_ b 7] |}.

Definition rectangleBytes (r : Rectangle) : list Z :=
  to_be 2 (rect_x r) ++ to_be 2 (rect_y r) ++ to_be 2 (rect_w r) ++ to_be 2 (rect_h r).

(** *** The framebuffer image *)

(** A [QImage] of format ARGB32: its size and its pixels, row-major. *)
Record Image := mkImage {
  img_width : Z;
  img_height : Z;
  img_pixels : list Z
}.

(** [QImage()] *)
Definition nullImage : Image := mkImage 0 0 [].

(** [QImage(w, h, Format_ARGB32)] followed by [fill(c)]. *)
Definition filledImage (w h c : Z) : Image :=
  mkImage w h (replicate (Z.to_nat (w * h)) c).

(** [QImage::setPixel]: a coordinate outside the image is refused. *)
Definition setPixel (x y c : Z) (img : Image) : Image :=
  if (0 <=? x) && (x <? img_width img) && (0 <=? y) && (y <? img_height img)
  then mkImage (img_width img) (img_height img)
               (set_at (img_pixels img) (y * img_width img + x) c)
  else img.

(** [QImage::pixel] inside the image. *)
Definition pixel (x y : Z) (img : Image) : Z :=
  at_ (img_pixels img) (y * img_width img + x).

(** [qRgb], [qRed], [qGreen], [qBlue] of QtGui. *)
Definition qRgb (r g b : Z) : Z :=
  Z.lor 0xFF000000
    (Z.lor (Z.shiftl (Z.land r 0xFF) 16)
       (Z.lor (Z.shiftl (Z.land g 0xFF) 8) (Z.land b 0xFF))).
Definition qRed (rgb : Z) : Z := Z.land (Z.shiftr rgb 16) 0xFF.
Definition qGreen (rgb : Z) : Z := Z.land (Z.shiftr rgb 8) 0xFF.
Definition qBlue (rgb : Z) : Z := Z.land rgb 0xFF.

(** [Qt::white] as an ARGB32 pixel. *)
Definition white : Z := 0xFFFFFFFF.

(** The conversion every decoder applies to a server pixel:
    [qRgb((color >> redShift) & redMax, ...)].  The shifts are the
    [quint8] fields received in ServerInit; C++ defines [>>] on a
    [quint32] for counts below 32 only, and the statements about painted
    colours assume that bound (see [shiftsDefined]). *)
Definition toRgb (pf : PixelFormat) (color : Z) : Z :=
  let r := Z.land (Z.shiftr color (redShift pf)) (redMax pf) in
  let g := Z.land (Z.shiftr color (greenShift pf)) (greenMax pf) in
  let b := Z.land (Z.shiftr color (blueShift pf)) (blueMax pf) in
  qRgb r g b.

(** [for (y < h) for (x < w) image.setPixel(x0 + x, y0 + y, rgb)] *)
Definition fillRect (x0 y0 w h rgb : Z) (img : Image) : Image :=
  forZ 0 h (λ y img, forZ 0 w (λ x img, setPixel (x0 + x) (y0 + y) rgb img) img) img.

(** *** The transport *)

(** The socket as the client sees it: whether it is in [ConnectedState],
    the buffered inbound queue and everything written so far. *)
Record Socket := mkSocket {
  connected : bool;
  inbound : list Z;
  outbound : list Z
}.

(** [socket->bytesAvailable()] *)
Definition bytesAvailable (s : Socket) : Z := Z.of_nat (length (inbound s)).

(** [socket->peek(n)] *)
Definition peek (n : Z) (s : Socket) : list Z := take (Z.to_nat n) (inbound s).

(** [socket->read(n)]: the bytes read and the socket after. *)
Definition sock_read (n : Z) (s : Socket) : list Z * Socket :=
  (take (Z.to_nat n) (inbound s),
   mkSocket (connected s) (drop (Z.to_nat n) (inbound s)) (outbound s)).

(** [socket->write(bytes)] *)
Definition sock_write (bytes : list Z) (s : Socket) : Socket :=
  mkSocket (connected s) (inbound s) (outbound s ++ bytes).

(** *** Signals and log *)

(** The [qCWarning] sites of the file. *)
Inductive Warning :=
  | UnsupportedProtocolVersion (value : list Z)
  | SecurityTypeNotSupported (t : SecurityType)
  | SecurityFailureReason (reason : list Z)
  | AuthenticationFailed
  | UnknownMessageType (messageType : Z)
  | UnsupportedEncoding (encoding : Z)
  | BitsPerPixelNotSupported (bpp : Z)
  | ZrleInitFailed
  | ZrleInflateFailed (ret : Z)
  | ZrleDecompressFailed
  | ZrleTruncated
  | ZrleUnsupportedSubencoding (subencoding : Z)
  | TightDecompressFailed
  | ZlibInflationFailed (result : Z)
  | JpegReadFailed
  | JpegDecodeFailed.

(** What an observer of the client sees: the signals of [QVncClient] and
    the warnings logged, in the order they happen. *)
Inductive Event :=
  | SigConnectionStateChanged (b : bool)
  | SigProtocolVersionChanged (v : ProtocolVersion)
  | SigSecurityTypeChanged (t : SecurityType)
  | SigPasswordChanged (p : list Z)
  | SigPasswordRequested
  | SigFramebufferSizeChanged (w h : Z)
  | SigImageChanged (x y w h : Z)
  | Warn (w : Warning).

(** *** The libraries the decoders call *)

(** zlib's inflate interface.  [inflate s input avail_out] is one call of
    [inflate(&s, Z_SYNC_FLUSH)] with [next_in/avail_in] set to [input] and
    [avail_out] bytes of room: it gives the return code, the bytes
    produced, the input left unconsumed and the stream after the call.
    [inflateInit] gives the return code of [inflateInit(&s)] and the
    stream it leaves.  The law is zlib's: a call that fills a 64 KiB
    output block has consumed some of its input. *)
Class Zlib := {
  ZStream : Type;
  inflateInit : Z * ZStream;
  inflate : ZStream → list Z → Z → Z * list Z * list Z * ZStream;
  inflate_progress : ∀ s inp,
    Z.of_nat (length (inflate s inp 65536).1.1.2) = 65536 →
    (length (inflate s inp 65536).1.2 < length inp)%nat
}.

Definition Z_OK : Z := 0.
Definition Z_STREAM_END : Z := 1.
Definition Z_BUF_ERROR : Z := -5.

(** [QImage::loadFromData(data, "JPEG")]: the decoded image, if any. *)
Class JpegCodec := {
  loadFromData : list Z → option Image
}.

Section WithLibraries.
Context {zl : Zlib} {jp : JpegCodec}.

(** *** The client's state *)

(** The anonymous struct [fbu]: framebuffer update state for
    non-blocking processing. *)
Record Fbu := mkFbu {
  totalRects : Z;
  currentRect : Z;
  rect : Rectangle;
  encoding : Z;
  active : bool;
  rectHeaderRead : bool;
  hextileTY : Z;
  hextileTX : Z;
  hextileBG : Z;
  hextileFG : Z
}.

(** The data members of [QVncClient::Private].  A zlib stream and its
    [...Active] flag are one [option]: [None] is an inactive stream.
    [trace] and [queuedReads] record what the object does to its
    environment: signals and warnings, and queued invocations of [read]. *)
Record Client := mkClient {
  state : HandshakingState;
  reading : bool;
  fbu : Fbu;
  pixelFormat : PixelFormat;
  socket : Socket;
  tightData : list (option ZStream);
  zrleStream : option ZStream;
  protocolVersion : ProtocolVersion;
  securityType : SecurityType;
  password : list Z;
  vncChallenge : list Z;
  image : Image;
  frameBufferWidth : Z;
  frameBufferHeight : Z;
  trace : list Event;
  queuedReads : nat
}.

(** Field updates. *)
Definition set_totalRects (v : Z) (f : Fbu) : Fbu :=
  {| totalRects := v; currentRect := currentRect f; rect := rect f;
     encoding := encoding f; active := active f;
     rectHeaderRead := rectHeaderRead f; hextileTY := hextileTY f;
     hextileTX := hextileTX f; hextileBG := hextileBG f;
     hextileFG := hextileFG f  |}.
Definition set_currentRect (v : Z) (f : Fbu) : Fbu :=
  {| totalRects := totalRects f; currentRect := v; rect := rect f;
     encoding := encoding f; active := active f;
     rectHeaderRead := rectHeaderRead f; hextileTY := hextileTY f;
     hextileTX := hextileTX f; hextileBG := hextileBG f;
     hextileFG := hextileFG f  |}.
Definition set_rect (v : Rectangle) (f : Fbu) : Fbu :=
  {| totalRects := totalRects f; currentRect := currentRect f; rect := v;
     encoding := encoding f; active := active f;
     rectHeaderRead := rectHeaderRead f; hextileTY := hextileTY f;
     hextileTX := hextileTX f; hextileBG := hextileBG f;
     hextileFG := hextileFG f  |}.
Definition set_encoding (v : Z) (f : Fbu) : Fbu :=
  {| totalRects := totalRects f; currentRect := currentRect f;
     rect := rect f; encoding := v; active := active f;
     rectHeaderRead := rectHeaderRead f; hextileTY := hextileTY f;
     hextileTX := hextileTX f; hextileBG := hextileBG f;
     hextileFG := hextileFG f  |}.
Definition set_active (v : bool) (f : Fbu) : Fbu :=
  {| totalRects := totalRects f; currentRect := currentRect f;
     rect := rect f; encoding := encoding f; active := v;
     rectHeaderRead := rectHeaderRead f; hextileTY := hextileTY f;
     hextileTX := hextileTX f; hextileBG := hextileBG f;
     hextileFG := hextileFG f  |}.
Definition set_rectHeaderRead (v : bool) (f : Fbu) : Fbu :=
  {| totalRects := totalRects f; currentRect := currentRect f;
     rect := rect f; encoding := encoding f; active := active f;
     rectHeaderRead := v; hextileTY := hextileTY f; hextileTX := hextileTX f;
     hextileBG := hextileBG f; hextileFG := hextileFG f  |}.
Definition set_hextileTY (v : Z) (f : Fbu) : Fbu :=
  {| totalRects := totalRects f; currentRect := currentRect f;
     rect := rect f; encoding := encoding f; active := active f;
     rectHeaderRead := rectHeaderRead f; hextileTY := v;
     hextileTX := hextileTX f; hextileBG := hextileBG f;
     hextileFG := hextileFG f  |}.
Definition set_hextileTX (v : Z) (f : Fbu) : Fbu :=
  {| totalRects := totalRects f; currentRect := currentRect f;
     rect := rect f; encoding := encoding f; active := active f;
     rectHeaderRead := rectHeaderRead f; hextileTY := hextileTY f;
     hextileTX := v; hextileBG := hextileBG f; hextileFG := hextileFG f  |}.
Definition set_hextileBG (v : Z) (f : Fbu) : Fbu :=
  {| totalRects := totalRects f; currentRect := currentRect f;
     rect := rect f; encoding := encoding f; active := active f;
     rectHeaderRead := rectHeaderRead f; hextileTY := hextileTY f;
     hextileTX := hextileTX f; hextileBG := v; hextileFG := hextileFG f  |}.
Definition set_hextileFG (v : Z) (f : Fbu) : Fbu :=
  {| totalRects := totalRects f; currentRect := currentRect f;
     rect := rect f; encoding := encoding f; active := active f;
     rectHeaderRead := rectHeaderRead f; hextileTY := hextileTY f;
     hextileTX := hextileTX f; hextileBG := hextileBG f; hextileFG := v  |}.

Definition set_state (v : HandshakingState) (c : Client) : Client :=
  {| state := v; reading := reading c; fbu := fbu c;
     pixelFormat := pixelFormat c; socket := socket c;
     tightData := tightData c; zrleStream := zrleStream c;
     protocolVersion := protocolVersion c; securityType := securityType c;
     password := password c; vncChallenge := vncChallenge c;
     image := image c; frameBufferWidth := frameBufferWidth c;
     frameBufferHeight := frameBufferHeight c; trace := trace c;
     queuedReads := queuedReads c  |}.
Definition set_reading (v : bool) (c : Client) : Client :=
  {| state := state c; reading := v; fbu := fbu c;
     pixelFormat := pixelFormat c; socket := socket c;
     tightData := tightData c; zrleStream := zrleStream c;
     protocolVersion := protocolVersion c; securityType := securityType c;
     password := password c; vncChallenge := vncChallenge c;
     image := image c; frameBufferWidth := frameBufferWidth c;
     frameBufferHeight := frameBufferHeight c; trace := trace c;
     queuedReads := queuedReads c  |}.
Definition set_fbu (v : Fbu) (c : Client) : Client :=
  {| state := state c; reading := reading c; fbu := v;
     pixelFormat := pixelFormat c; socket := socket c;
     tightData := tightData c; zrleStream := zrleStream c;
     protocolVersion := protocolVersion c; securityType := securityType c;
     password := password c; vncChallenge := vncChallenge c;
     image := image c; frameBufferWidth := frameBufferWidth c;
     frameBufferHeight := frameBufferHeight c; trace := trace c;
     queuedReads := queuedReads c  |}.
Definition set_pixelFormat (v : PixelFormat) (c : Client) : Client :=
  {| state := state c; reading := reading c; fbu := fbu c; pixelFormat := v;
     socket := socket c; tightData := tightData c;
     zrleStream := zrleStream c; protocolVersion := protocolVersion c;
     securityType := securityType c; password := password c;
     vncChallenge := vncChallenge c; image := image c;
     frameBufferWidth := frameBufferWidth c;
     frameBufferHeight := frameBufferHeight c; trace := trace c;
     queuedReads := queuedReads c  |}.
Definition set_socket (v : Socket) (c : Client) : Client :=
  {| state := state c; reading := reading c; fbu := fbu c;
     pixelFormat := pixelFormat c; socket := v; tightData := tightData c;
     zrleStream := zrleStream c; protocolVersion := protocolVersion c;
     securityType := securityType c; password := password c;
     vncChallenge := vncChallenge c; image := image c;
     frameBufferWidth := frameBufferWidth c;
     frameBufferHeight := frameBufferHeight c; trace := trace c;
     queuedReads := queuedReads c  |}.
Definition set_tightData (v : list (option ZStream)) (c : Client) : Client :=
  {| state := state c; reading := reading c; fbu := fbu c;
     pixelFormat := pixelFormat c; socket := socket c; tightData := v;
     zrleStream := zrleStream c; protocolVersion := protocolVersion c;
     securityType := securityType c; password := password c;
     vncChallenge := vncChallenge c; image := image c;
     frameBufferWidth := frameBufferWidth c;
     frameBufferHeight := frameBufferHeight c; trace := trace c;
     queuedReads := queuedReads c  |}.
Definition set_zrleStream (v : option ZStream) (c : Client) : Client :=
  {| state := state c; reading := reading c; fbu := fbu c;
     pixelFormat := pixelFormat c; socket := socket c;
     tightData := tightData c; zrleStream := v;
     protocolVersion := protocolVersion c; securityType := securityType c;
     password := password c; vncChallenge := vncChallenge c;
     image := image c; frameBufferWidth := frameBufferWidth c;
     frameBufferHeight := frameBufferHeight c; trace := trace c;
     queuedReads := queuedReads c  |}.
Definition set_protocolVersion (v : ProtocolVersion) (c : Client) : Client :=
  {| state := state c; reading := reading c; fbu := fbu c;
     pixelFormat := pixelFormat c; socket := socket c;
     tightData := tightData c; zrleStream := zrleStream c;
     protocolVersion := v; securityType := securityType c;
     password := password c; vncChallenge := vncChallenge c;
     image := image c; frameBufferWidth := frameBufferWidth c;
     frameBufferHeight := frameBufferHeight c; trace := trace c;
     queuedReads := queuedReads c  |}.
Definition set_securityType (v : SecurityType) (c : Client) : Client :=
  {| state := state c; reading := reading c; fbu := fbu c;
     pixelFormat := pixelFormat c; socket := socket c;
     tightData := tightData c; zrleStream := zrleStream c;
     protocolVersion := protocolVersion c; securityType := v;
     password := password c; vncChallenge := vncChallenge c;
     image := image c; frameBufferWidth := frameBufferWidth c;
     frameBufferHeight := frameBufferHeight c; trace := trace c;
     queuedReads := queuedReads c  |}.
Definition set_password (v : list Z) (c : Client) : Client :=
  {| state := state c; reading := reading c; fbu := fbu c;
     pixelFormat := pixelFormat c; socket := socket c;
     tightData := tightData c; zrleStream := zrleStream c;
     protocolVersion := protocolVersion c; securityType := securityType c;
     password := v; vncChallenge := vncChallenge c; image := image c;
     frameBufferWidth := frameBufferWidth c;
     frameBufferHeight := frameBufferHeight c; trace := trace c;
     queuedReads := queuedReads c  |}.
Definition set_vncChallenge (v : list Z) (c : Client) : Client :=
  {| state := state c; reading := reading c; fbu := fbu c;
     pixelFormat := pixelFormat c; socket := socket c;
     tightData := tightData c; zrleStream := zrleStream c;
     protocolVersion := protocolVersion c; securityType := securityType c;
     password := password c; vncChallenge := v; image := image c;
     frameBufferWidth := frameBufferWidth c;
     frameBufferHeight := frameBufferHeight c; trace := trace c;
     queuedReads := queuedReads c  |}.
Definition set_image (v : Image) (c : Client) : Client :=
  {| state := state c; reading := reading c; fbu := fbu c;
     pixelFormat := pixelFormat c; socket := socket c;
     tightData := tightData c; zrleStream := zrleStream c;
     protocolVersion := protocolVersion c; securityType := securityType c;
     password := password c; vncChallenge := vncChallenge c; image := v;
     frameBufferWidth := frameBufferWidth c;
     frameBufferHeight := frameBufferHeight c; trace := trace c;
     queuedReads := queuedReads c  |}.
Definition set_frameBufferWidth (v : Z) (c : Client) : Client :=
  {| state := state c; reading := reading c; fbu := fbu c;
     pixelFormat := pixelFormat c; socket := socket c;
     tightData := tightData c; zrleStream := zrleStream c;
     protocolVersion := protocolVersion c; securityType := securityType c;
     password := password c; vncChallenge := vncChallenge c;
     image := image c; frameBufferWidth := v;
     frameBufferHeight := frameBufferHeight c; trace := trace c;
     queuedReads := queuedReads c  |}.
Definition set_frameBufferHeight (v : Z) (c : Client) : Client :=
  {| state := state c; reading := reading c; fbu := fbu c;
     pixelFormat := pixelFormat c; socket := socket c;
     tightData := tightData c; zrleStream := zrleStream c;
     protocolVersion := protocolVersion c; securityType := securityType c;
     password := password c; vncChallenge := vncChallenge c;
     image := image c; frameBufferWidth := frameBufferWidth c;
     frameBufferHeight := v; trace := trace c;
     queuedReads := queuedReads c  |}.
Definition set_trace (v : list Event) (c : Client) : Client :=
  {| state := state c; reading := reading c; fbu := fbu c;
     pixelFormat := pixelFormat c; socket := socket c;
     tightData := tightData c; zrleStream := zrleStream c;
     protocolVersion := protocolVersion c; securityType := securityType c;
     password := password c; vncChallenge := vncChallenge c;
     image := image c; frameBufferWidth := frameBufferWidth c;
     frameBufferHeight := frameBufferHeight c; trace := v;
     queuedReads := queuedReads c  |}.
Definition set_queuedReads (v : nat) (c : Client) : Client :=
  {| state := state c; reading := reading c; fbu := fbu c;
     pixelFormat := pixelFormat c; socket := socket c;
     tightData := tightData c; zrleStream := zrleStream c;
     protocolVersion := protocolVersion c; securityType := securityType c;
     password := password c; vncChallenge := vncChallenge c;
     image := image c; frameBufferWidth := frameBufferWidth c;
     frameBufferHeight := frameBufferHeight c; trace := trace c;
     queuedReads := v  |}.

Definition upd_fbu (g : Fbu → Fbu) (c : Client) : Client := set_fbu (g (fbu c)) c.
Definition upd_socket (g : Socket → Socket) (c : Client) : Client :=
  set_socket (g (socket c)) c.
Definition upd_image (g : Image → Image) (c : Client) : Client :=
  set_image (g (image c)) c.

(** The member initialisers of [Private], around a given socket. *)
Definition initialClient (s : Socket) : Client :=
  {| state := ProtocolVersionState; reading := false;
     fbu := mkFbu 0 0 (mkRectangle 0 0 0 0) (-1) false false 0 0 0 0;
     pixelFormat := pixelFormat0; socket := s;
     tightData := replicate 4 None; zrleStream := None;
     protocolVersion := ProtocolVersionUnknown;
     securityType := SecurityTypeUnknwon;
     password := []; vncChallenge := []; image := nullImage;
     frameBufferWidth := 0; frameBufferHeight := 0;
     trace := []; queuedReads := 0 |}.

(** [emit q->signal(...)] and [qCWarning(...)], as seen from outside. *)
Definition emit (e : Event) (c : Client) : Client := set_trace (trace c ++ [e]) c.
Definition warn (w : Warning) (c : Client) : Client := emit (Warn w) c.

(** [isValid()] *)
Definition isValid (c : Client) : bool := connected (socket c).

(** The template [read(T *out)] for a [T] of [n] bytes whose storage
    holds [prior]: nothing happens unless [isValid()], and bytes that
    cannot be read leave the storage as it was.  Where the source leaves
    [*out] uninitialised, callers pass zero bytes for [prior]. *)
Definition readT (n : Z) (prior : list Z) (c : Client) : list Z * Client :=
  if isValid c
  then let '(bytes, s) := sock_read n (socket c) in
       (bytes ++ drop (length bytes) prior, set_socket s c)
  else (prior, c).

(** [socket->read(n)] returning a [QByteArray]. *)
Definition readBytes (n : Z) (c : Client) : list Z * Client :=
  let '(bytes, s) := sock_read n (socket c) in (bytes, set_socket s c).

(** The guarded [write] overloads of [Private]. *)
Definition write (bytes : list Z) (c : Client) : Client :=
  if isValid c then upd_socket (sock_write bytes) c else c.

(** A direct [socket->write(...)]. *)
Definition writeRaw (bytes : list Z) (c : Client) : Client :=
  upd_socket (sock_write bytes) c.

(** The transport delivers [bytes]: they join the inbound queue. *)
Definition arrive (bytes : list Z) (c : Client) : Client :=
  upd_socket (λ s, mkSocket (connected s) (inbound s ++ bytes) (outbound s)) c.

(** *** Handshaking messages *)

(** The banner ["RFB 003.00d\n"] for the ASCII digit [d]. *)
Definition banner (d : Z) : list Z := [82; 70; 66; 32; 48; 48; 51; 46; 48; 48; d; 10].

(** [QList<quint8>::contains] *)
Definition contains (l : list Z) (v : Z) : bool := existsb (Z.eqb v) l.

(** Sends the client initialization message to the server. *)
Definition clientInit (c : Client) : Client :=
  let sharedFlag := 1 in
  let c := write [sharedFlag] c in
  set_state ServerInitState c.

(** Parses and logs the reason for a security failure sent by the server. *)
Definition parseSecurityReason (c : Client) : Client :=
  if bytesAvailable (socket c) <? 4 then c
  else
    let '(b, c) := readT 4 (replicate 4 0) c in
    let reasonLength := be b in
    if bytesAvailable (socket c) <? reasonLength then c
    else
      let '(reason, c) := readBytes reasonLength c in
      warn (SecurityFailureReason reason) c.

(** Encrypts the stored VNC challenge with the password and sends the
    response. *)
Definition sendVncAuthResponse (c : Client) : Client :=
  let response := Des.vncEncryptChallenge (password c) (vncChallenge c) in
  let c := if isValid c then writeRaw response c else c in
  let c := set_vncChallenge [] c in
  match protocolVersion c with
  | ProtocolVersion33 =>
      let c := set_state ClientInitState c in
      clientInit c
  | ProtocolVersion37 | ProtocolVersion38 => set_state SecurityResultState c
  | ProtocolVersionUnknown => c
  end.

(** Parses the 16-byte VNC authentication challenge from the server. *)
Definition parseVncAuthentication (c : Client) : Client :=
  if bytesAvailable (socket c) <? 16 then c
  else
    let '(challenge, c) := readBytes 16 c in
    let c := set_vncChallenge challenge c in
    match password c with
    | [] => emit SigPasswordRequested c
    | _ => sendVncAuthResponse c
    end.

(** Handles protocol version changes by sending the appropriate response
    to the server. *)
Definition protocolVersionChanged (v : ProtocolVersion) (c : Client) : Client :=
  match v with
  | ProtocolVersion33 => set_state SecurityState (writeRaw (banner 51) c)
  | ProtocolVersion37 => set_state SecurityState (writeRaw (banner 55) c)
  | ProtocolVersion38 => set_state SecurityState (writeRaw (banner 56) c)
  | ProtocolVersionUnknown => c
  end.

(** Handles security type changes by sending the appropriate response to
    the server.  [write(securityType)] sends the selection byte. *)
Definition securityTypeChanged (t : SecurityType) (c : Client) : Client :=
  match t with
  | SecurityTypeUnknwon => c
  | SecurityTypeInvalid => parseSecurityReason c
  | SecurityTypeNone =>
      match protocolVersion c with
      | ProtocolVersion33 =>
          let c := set_state ClientInitState c in
          clientInit c
      | ProtocolVersion37 =>
          let c := set_state ClientInitState c in
          let c := write [1] c in
          clientInit c
      | ProtocolVersion38 =>
          let c := write [1] c in
          set_state SecurityResultState c
      | ProtocolVersionUnknown => c
      end
  | SecurityTypeVncAuthentication =>
      match protocolVersion c with
      | ProtocolVersion33 =>
          let c := set_state VncAuthenticationState c in
          parseVncAuthentication c
      | ProtocolVersion37 | ProtocolVersion38 =>
          let c := write [2] c in
          set_state VncAuthenticationState c
      | ProtocolVersionUnknown => c
      end
  | SecurityTypeOther _ => warn (SecurityTypeNotSupported t) c
  end.

(** The slot connected to [passwordChanged] in the constructor. *)
Definition passwordChangedSlot (c : Client) : Client :=
  if bool_decide (state c = VncAuthenticationState)
     && negb (bool_decide (vncChallenge c = []))
     && negb (bool_decide (password c = []))
  then sendVncAuthResponse c
  else c.

(** *** The public setters.  Each signal is connected, in the
    constructor, to the private slot of the same name, which runs inside
    the [emit]. *)

Definition setProtocolVersion (v : ProtocolVersion) (c : Client) : Client :=
  if bool_decide (protocolVersion c = v) then c
  else
    let c := set_protocolVersion v c in
    let c := emit (SigProtocolVersionChanged v) c in
    protocolVersionChanged v c.

Definition setSecurityType (t : SecurityType) (c : Client) : Client :=
  if bool_decide (securityType c = t) then c
  else
    let c := set_securityType t c in
    let c := emit (SigSecurityTypeChanged t) c in
    securityTypeChanged t c.

Definition setPassword (p : list Z) (c : Client) : Client :=
  if bool_decide (password c = p) then c
  else
    let c := set_password p c in
    let c := emit (SigPasswordChanged p) c in
    passwordChangedSlot c.

(** Parses the RFB protocol version string sent by the server. *)
Definition parseProtocolVersion (c : Client) : Client :=
  if bytesAvailable (socket c) <? 12 then c
  else
    let '(value, c) := readBytes 12 c in
    if bool_decide (value = banner 51) then setProtocolVersion ProtocolVersion33 c
    else if bool_decide (value = banner 55) then setProtocolVersion ProtocolVersion37 c
    else if bool_decide (value = banner 56) then setProtocolVersion ProtocolVersion38 c
    else warn (UnsupportedProtocolVersion value) c.

(** Parses security data for protocol version 3.3. *)
Definition parseSecurity33 (c : Client) : Client :=
  if bytesAvailable (socket c) <? 4 then c
  else
    let '(data, c) := readT 4 (replicate 4 0) c in
    setSecurityType (securityTypeOfWire (be data)) c.

(** Parses security data for protocol version 3.7 and later. *)
Definition parseSecurity37 (c : Client) : Client :=
  if bytesAvailable (socket c) <? 1 then c
  else
    let '(b, c) := readT 1 [0] c in
    let numberOfSecurityTypes := at_ b 0 in
    if numberOfSecurityTypes =? 0 then parseSecurityReason c
    else if bytesAvailable (socket c) <? numberOfSecurityTypes then c
    else
      let '(securityTypes, c) :=
        forZ 0 numberOfSecurityTypes
          (λ _ '(securityTypes, c),
             let '(t, c) := readT 1 [0] c in
             (securityTypes ++ [at_ t 0], c))
          ([], c) in
      if contains securityTypes 2
      then setSecurityType SecurityTypeVncAuthentication c
      else if contains securityTypes 1
      then setSecurityType SecurityTypeNone c
      else setSecurityType SecurityTypeInvalid c.

(** Dispatches to the appropriate security parsing method based on the
    protocol version. *)
Definition parseSecurity (c : Client) : Client :=
  match protocolVersion c with
  | ProtocolVersion33 => parseSecurity33 c
  | ProtocolVersion37 | ProtocolVersion38 => parseSecurity37 c
  | ProtocolVersionUnknown => c
  end.

(** Parses the SecurityResult message (u32) sent after authentication. *)
Definition parseSecurityResult (c : Client) : Client :=
  if bytesAvailable (socket c) <? 4 then c
  else
    let '(b, c) := readT 4 (replicate 4 0) c in
    let result := be b in
    if result =? 0
    then
      let c := set_state ClientInitState c in
      clientInit c
    else
      let c := warn AuthenticationFailed c in
      if bool_decide (protocolVersion c = ProtocolVersion38)
      then parseSecurityReason c
      else c.

(** *** Client to server messages *)

(** Sends a SetPixelFormat message to the server. *)
Definition setPixelFormat (c : Client) : Client :=
  let c := write [SetPixelFormat] c in
  let c := write [32; 32; 32] c in
  write (pixelFormatBytes (pixelFormat c)) c.

(** Sends a SetEncodings message to the server. *)
Definition setEncodings (encodings : list Z) (c : Client) : Client :=
  let c := write [SetEncodings] c in
  let c := write [32] c in
  let c := write (to_be 2 (quint16 (Z.of_nat (length encodings)))) c in
  fold_left (λ c e, write (to_be 4 (e mod 2 ^ 32)) c) encodings c.

(** Sends a FramebufferUpdateRequest message to the server, for the
    entire framebuffer (every caller leaves [rect] at its empty default). *)
Definition framebufferUpdateRequest (incremental : bool) (c : Client) : Client :=
  let c := write [FramebufferUpdateRequest] c in
  let c := write [if incremental then 1 else 0] c in
  let rectangle :=
    mkRectangle 0 0 (quint16 (frameBufferWidth c)) (quint16 (frameBufferHeight c)) in
  write (rectangleBytes rectangle) c.

(** *** Raw encoding *)

(** One server pixel read with [quint32_le color; read(&color)] and
    painted at [(px, py)]. *)
Definition readPixel32 (px py : Z) (c : Client) : Client :=
  let '(b, c) := readT 4 (replicate 4 0) c in
  let color := le b in
  upd_image (setPixel px py (toRgb (pixelFormat c) color)) c.

(** Handles raw-encoded rectangle data.  [false] is "not enough data". *)
Definition handleRawEncoding (r : Rectangle) (c : Client) : bool * Client :=
  let needed := rect_w r * rect_h r * bitsPerPixel (pixelFormat c) / 8 in
  if bytesAvailable (socket c) <? needed then (false, c)
  else if bitsPerPixel (pixelFormat c) =? 32
  then (true,
        forZ 0 (rect_h r)
          (λ y c, forZ 0 (rect_w r) (λ x c, readPixel32 (rect_x r + x) (rect_y r + y) c) c)
          c)
  else if (0 <? rect_h r) && (0 <? rect_w r)
  then (true, warn (BitsPerPixelNotSupported (bitsPerPixel (pixelFormat c))) c)
  else (true, c).

(** *** Hextile encoding *)

(** [sub & flag] as a condition. *)
Definition flagged (sub flag : Z) : bool := truthy (Z.land sub flag).

(** The size of a whole tile, computed from the peeked bytes before
    anything is consumed; [None] when the peek is too short to hold the
    subrectangle count. *)
Definition hextileTileBytes (pk : list Z) (tw th bpp : Z) : option Z :=
  let subencoding := at_ pk 0 in
  let tileBytes := 1 in
  if flagged subencoding RawSubencoding then Some (tileBytes + tw * th * bpp)
  else
    let tileBytes :=
      if flagged subencoding BackgroundSpecified then tileBytes + bpp else tileBytes in
    if flagged subencoding AnySubrects
    then
      let tileBytes :=
        if flagged subencoding ForegroundSpecified then tileBytes + bpp else tileBytes in
      let tileBytes := tileBytes + 1 in
      if Z.of_nat (length pk) <? tileBytes then None
      else
        let numSubrects := at_ pk (tileBytes - 1) in
        let subrectSize := if flagged subencoding SubrectsColoured then bpp + 2 else 2 in
        Some (tileBytes + numSubrects * subrectSize)
    else Some tileBytes.

(** One subrectangle of a tile. *)
Definition hextileSubrect (r : Rectangle) (ty th tx tw bpp sub : Z) (c : Client) : Client :=
  let color := hextileFG (fbu c) in
  let '(color, c) :=
    if flagged sub SubrectsColoured
    then if bpp =? 4
         then let '(b, c) := readT 4 (replicate 4 0) c in (le b, c)
         else (color, c)
    else (color, c) in
  let '(xy, c) := readT 1 [0] c in
  let '(wh, c) := readT 1 [0] c in
  let xy := at_ xy 0 in
  let wh := at_ wh 0 in
  let sx := Z.land (Z.shiftr xy 4) 0xf in
  let sy := Z.land xy 0xf in
  let sw := Z.land (Z.shiftr wh 4) 0xf + 1 in
  let sh := Z.land wh 0xf + 1 in
  upd_image
    (fillRect (rect_x r + tx + sx) (rect_y r + ty + sy)
       (Z.min sw (tw - sx)) (Z.min sh (th - sy)) (toRgb (pixelFormat c) color))
    c.

(** The body of the tile loop once the whole tile is buffered. *)
Definition hextileConsumeTile (r : Rectangle) (ty th tx tw bpp : Z) (c : Client) : Client :=
  let '(b, c) := readT 1 [0] c in
  let sub := at_ b 0 in
  if flagged sub RawSubencoding
  then
    forZ 0 th
      (λ y c,
         forZ 0 tw
           (λ x c,
              if bpp =? 4 then readPixel32 (rect_x r + tx + x) (rect_y r + ty + y) c else c)
           c)
      c
  else
    let c :=
      if flagged sub BackgroundSpecified
      then if bpp =? 4
           then let '(bg, c) := readT 4 (replicate 4 0) c in
                upd_fbu (set_hextileBG (le bg)) c
           else c
      else c in
    let c :=
      upd_image
        (fillRect (rect_x r + tx) (rect_y r + ty) tw th
           (toRgb (pixelFormat c) (hextileBG (fbu c))))
        c in
    if flagged sub AnySubrects
    then
      let c :=
        if flagged sub ForegroundSpecified
        then if bpp =? 4
             then let '(fg, c) := readT 4 (replicate 4 0) c in
                  upd_fbu (set_hextileFG (le fg)) c
             else c
        else c in
      let '(n, c) := readT 1 [0] c in
      let numSubrects := at_ n 0 in
      forZ 0 numSubrects (λ _ c, hextileSubrect r ty th tx tw bpp sub c) c
    else c.

(** One iteration of the tile loop: [false] is the early
    [return false], which leaves the client as it was. *)
Definition hextileTile (r : Rectangle) (ty th tx tw : Z) (c : Client) : bool * Client :=
  let bpp := bitsPerPixel (pixelFormat c) / 8 in
  if bytesAvailable (socket c) <? 1 then (false, c)
  else
    let pk := peek (Z.min (bytesAvailable (socket c)) 2048) (socket c) in
    match hextileTileBytes pk tw th bpp with
    | None => (false, c)
    | Some tileBytes =>
        if bytesAvailable (socket c) <? tileBytes then (false, c)
        else (true, hextileConsumeTile r ty th tx tw bpp c)
    end.

(** The number of iterations of [for (p = pos; p < extent; p += step)]. *)
Definition strides (pos extent step : Z) : nat :=
  Z.to_nat ((extent - pos + (step - 1)) / step).

(** [for (int &tx = fbu.hextileTX; tx < rect.w; tx += tileWidth)]: [n]
    counts the iterations left. *)
Fixpoint hextileRow (n : nat) (r : Rectangle) (ty th : Z) (c : Client) : bool * Client :=
  match n with
  | O => (true, c)
  | S n' =>
      let tx := hextileTX (fbu c) in
      let tw := Z.min 16 (rect_w r - tx) in
      let '(ok, c) := hextileTile r ty th tx tw c in
      if ok then hextileRow n' r ty th (upd_fbu (set_hextileTX (tx + 16)) c)
      else (false, c)
  end.

(** [for (int &ty = fbu.hextileTY; ty < rect.h; ty += tileHeight)] *)
Fixpoint hextileRows (n : nat) (r : Rectangle) (c : Client) : bool * Client :=
  match n with
  | O => (true, c)
  | S n' =>
      let ty := hextileTY (fbu c) in
      let th := Z.min 16 (rect_h r - ty) in
      let '(ok, c) := hextileRow (strides (hextileTX (fbu c)) (rect_w r) 16) r ty th c in
      if ok
      then
        let c := upd_fbu (set_hextileTX 0) c in
        hextileRows n' r (upd_fbu (set_hextileTY (ty + 16)) c)
      else (false, c)
  end.

(** Handles hextile-encoded rectangle data. *)
Definition handleHextileEncoding (r : Rectangle) (c : Client) : bool * Client :=
  let '(ok, c) := hextileRows (strides (hextileTY (fbu c)) (rect_h r) 16) r c in
  if ok then (true, upd_fbu (set_hextileTY 0) c) else (false, c).

(** *** ZRLE encoding *)

(** CPIXEL size: 3 bytes when bpp=32, trueColor, all maxes <= 255 *)
Definition cpixelSize (pf : PixelFormat) : Z :=
  if (bitsPerPixel pf =? 32) && truthy (trueColourFlag pf)
     && (redMax pf <=? 255) && (greenMax pf <=? 255) && (blueMax pf <=? 255)
  then 3 else bitsPerPixel pf / 8.

(** A pixel of [size] bytes at [buf + off], as the lambdas [readCPixel]
    and [readTPixel] assemble it.  [memcpy] into a [quint32] is read in
    the byte order of a little-endian host. *)
Definition pixelAt (pf : PixelFormat) (size : Z) (buf : list Z) (off : Z) : Z :=
  if size =? 3
  then if truthy (bigEndianFlag pf)
       then Z.lor (Z.shiftl (at_ buf off) 16)
              (Z.lor (Z.shiftl (at_ buf (off + 1)) 8) (at_ buf (off + 2)))
       else Z.lor (at_ buf off)
              (Z.lor (Z.shiftl (at_ buf (off + 1)) 8) (Z.shiftl (at_ buf (off + 2)) 16))
  else if size =? 4
  then le [at_ buf off; at_ buf (off + 1); at_ buf (off + 2); at_ buf (off + 3)]
  else if size =? 2
  then le [at_ buf off; at_ buf (off + 1)]
  else at_ buf off.

(** Helper to read a CPIXEL from the decompressed buffer: the colour and
    the new [dataOffset]; a CPIXEL that does not fit reads as 0. *)
Definition readCPixel (pf : PixelFormat) (buf : list Z) (dataOffset : Z) : Z * Z :=
  let bufSize := Z.of_nat (length buf) in
  if dataOffset + cpixelSize pf >? bufSize then (0, dataOffset)
  else (pixelAt pf (cpixelSize pf) buf dataOffset, dataOffset + cpixelSize pf).

(** [for (i = 0; i < paletteSize; i++) palette[i] = toRgb(readCPixel())] *)
Definition readPalette (pf : PixelFormat) (buf : list Z) (paletteSize dataOffset : Z)
  : list Z * Z :=
  forZ 0 paletteSize
    (λ _ '(palette, off),
       let '(color, off) := readCPixel pf buf off in
       (palette ++ [toRgb pf color], off))
    ([], dataOffset).

(** The zero-prolongable run length:
    [do { if (dataOffset >= bufSize) break; b = buf[dataOffset++];
          runLength += b; } while (b == 255);]
    [n] is the number of bytes left in the buffer. *)
Fixpoint runLengthLoop (n : nat) (buf : list Z) (dataOffset runLength : Z) : Z * Z :=
  match n with
  | O => (runLength, dataOffset)
  | S n' =>
      let b := at_ buf dataOffset in
      let runLength := int32 (runLength + b) in
      if b =? 255 then runLengthLoop n' buf (dataOffset + 1) runLength
      else (runLength, dataOffset + 1)
  end.

(** The run length after the final [runLength += 1]. *)
Definition readRunLength (buf : list Z) (dataOffset : Z) : Z * Z :=
  let '(runLength, off) :=
    runLengthLoop (Z.to_nat (Z.of_nat (length buf) - dataOffset)) buf dataOffset 0 in
  (int32 (runLength + 1), off).

(** [for (i = 0; i < runLength && pixels < totalPixels; i++, pixels++)
       image.setPixel(x0 + pixels % tw, y0 + pixels / tw, rgb);] *)
Definition paintRun (x0 y0 tw totalPixels pixels runLength rgb : Z) (img : Image)
  : Z * Image :=
  let n := Z.max 0 (Z.min runLength (totalPixels - pixels)) in
  (pixels + n,
   forZ pixels (pixels + n) (λ p img, setPixel (x0 + p mod tw) (y0 + p / tw) rgb img) img).

(** Plain RLE, [while (pixels < totalPixels)]; [fuel] bounds the
    iterations (see [plainRle_fuel]). *)
Fixpoint plainRleLoop (fuel : nat) (pf : PixelFormat) (buf : list Z)
    (x0 y0 tw totalPixels : Z) (dataOffset pixels : Z) (img : Image) : Z * Image :=
  if pixels <? totalPixels
  then match fuel with
       | O => (dataOffset, img)
       | S fuel' =>
           let '(color, off) := readCPixel pf buf dataOffset in
           let rgb := toRgb pf color in
           let '(runLength, off) := readRunLength buf off in
           let '(pixels, img) := paintRun x0 y0 tw totalPixels pixels runLength rgb img in
           plainRleLoop fuel' pf buf x0 y0 tw totalPixels off pixels img
       end
  else (dataOffset, img).

(** Every iteration of the plain RLE loop reads a byte or paints a pixel. *)
Definition plainRleFuel (buf : list Z) (totalPixels dataOffset pixels : Z) : nat :=
  Z.to_nat (Z.max 0 (Z.of_nat (length buf) - dataOffset) + Z.max 0 (totalPixels - pixels)).

(** The colour of a palette RLE entry:
    [(index < paletteSize) ? palette[index] : qRgb(0, 0, 0)] *)
Definition paletteColor (palette : list Z) (paletteSize index : Z) : Z :=
  if index <? paletteSize then at_ palette index else qRgb 0 0 0.

(** Palette RLE, [while (pixels < totalPixels)] with its
    [if (dataOffset >= bufSize) break;]; every iteration reads a byte,
    so [fuel] is the number of bytes left (see [paletteRle_fuel]). *)
Fixpoint paletteRleLoop (fuel : nat) (buf palette : list Z) (paletteSize : Z)
    (x0 y0 tw totalPixels : Z) (dataOffset pixels : Z) (img : Image) : Z * Image :=
  if (pixels <? totalPixels) && negb (dataOffset >=? Z.of_nat (length buf))
  then match fuel with
       | O => (dataOffset, img)
       | S fuel' =>
           let indexByte := at_ buf dataOffset in
           let off := dataOffset + 1 in
           if truthy (Z.land indexByte 0x80)
           then
             let paletteIndex := Z.land indexByte 0x7F in
             let '(runLength, off) := readRunLength buf off in
             let rgb := paletteColor palette paletteSize paletteIndex in
             let '(pixels, img) :=
               paintRun x0 y0 tw totalPixels pixels runLength rgb img in
             paletteRleLoop fuel' buf palette paletteSize x0 y0 tw totalPixels off pixels img
           else
             let rgb := paletteColor palette paletteSize indexByte in
             let img := setPixel (x0 + pixels mod tw) (y0 + pixels / tw) rgb img in
             paletteRleLoop fuel' buf palette paletteSize x0 y0 tw totalPixels
               off (pixels + 1) img
       end
  else (dataOffset, img).

(** One row of a packed palette tile: the loop over [x] with its
    [break], carried as a flag. *)
Definition packedRow (buf palette : list Z) (paletteSize bitsPerIndex : Z)
    (x0 py tw dataOffset : Z) (img : Image) : Image :=
  let '(_, _, img) :=
    forZ 0 tw
      (λ x '(bitPos, broken, img),
         if broken : bool then (bitPos, broken, img)
         else
           let byteIdx := dataOffset + bitPos / 8 in
           if byteIdx >=? Z.of_nat (length buf) then (bitPos, true, img)
           else
             let shift := 8 - bitsPerIndex - bitPos mod 8 in
             let mask := Z.shiftl 1 bitsPerIndex - 1 in
             let index := Z.land (Z.shiftr (at_ buf byteIdx) shift) mask in
             let bitPos := bitPos + bitsPerIndex in
             (bitPos, false,
              if index <? paletteSize then setPixel (x0 + x) py (at_ palette index) img
              else img))
      (0, false, img) in
  img.

(** The decoding of one 64x64 tile whose subencoding byte has been
    read: the new [dataOffset], the image, and the warning of a reserved
    subencoding. *)
Definition zrleTile (pf : PixelFormat) (buf : list Z) (x0 y0 tw th subencoding : Z)
    (dataOffset : Z) (img : Image) : Z * Image * list Warning :=
  if subencoding =? 0
  then
    let '(off, img) :=
      forZ 0 th
        (λ y '(off, img),
           forZ 0 tw
             (λ x '(off, img),
                let '(color, off) := readCPixel pf buf off in
                (off, setPixel (x0 + x) (y0 + y) (toRgb pf color) img))
             (off, img))
        (dataOffset, img) in
    (off, img, [])
  else if subencoding =? 1
  then
    let '(color, off) := readCPixel pf buf dataOffset in
    (off, fillRect x0 y0 tw th (toRgb pf color) img, [])
  else if (subencoding >=? 2) && (subencoding <=? 16)
  then
    let paletteSize := subencoding in
    let '(palette, off) := readPalette pf buf paletteSize dataOffset in
    let bitsPerIndex := if paletteSize =? 2 then 1 else if paletteSize <=? 4 then 2 else 4 in
    let bytesPerRow := (tw * bitsPerIndex + 7) / 8 in
    let '(off, img) :=
      forZ 0 th
        (λ y '(off, img),
           let rowStart := off in
           (rowStart + bytesPerRow,
            packedRow buf palette paletteSize bitsPerIndex x0 (y0 + y) tw off img))
        (off, img) in
    (off, img, [])
  else if subencoding =? 128
  then
    let totalPixels := tw * th in
    let '(off, img) :=
      plainRleLoop (plainRleFuel buf totalPixels dataOffset 0) pf buf
        x0 y0 tw totalPixels dataOffset 0 img in
    (off, img, [])
  else if subencoding >=? 130
  then
    let paletteSize := subencoding - 128 in
    let '(palette, off) := readPalette pf buf paletteSize dataOffset in
    let totalPixels := tw * th in
    let '(off, img) :=
      paletteRleLoop (Z.to_nat (Z.of_nat (length buf) - off)) buf palette paletteSize
        x0 y0 tw totalPixels off 0 img in
    (off, img, [])
  else (dataOffset, img, [ZrleUnsupportedSubencoding subencoding]).

(** The origins of [for (t = 0; t < extent; t += step)]. *)
Definition tileOrigins (extent step : Z) : list Z :=
  (λ i, i * step) <$> seqZ 0 ((extent + (step - 1)) / step).

(** The body of the tile loops over the decompressed buffer, for the
    tile at [(tx, ty)].  The loop state is the [return true] flag of a
    truncated stream (once set, nothing more is decoded), [dataOffset],
    the image and the warnings logged. *)
Definition zrleTileStep (pf : PixelFormat) (buf : list Z) (r : Rectangle) (ty th : Z)
    (acc : bool * Z * Image * list Warning) (tx : Z) : bool * Z * Image * list Warning :=
  let '(returned, dataOffset, img, ws) := acc in
  if returned then (returned, dataOffset, img, ws)
  else
    let tw := Z.min 64 (rect_w r - tx) in
    if dataOffset >=? Z.of_nat (length buf)
    then (true, dataOffset, img, ws ++ [ZrleTruncated])
    else
      let subencoding := at_ buf dataOffset in
      let '(off, img, w) :=
        zrleTile pf buf (rect_x r + tx) (rect_y r + ty) tw th subencoding
          (dataOffset + 1) img in
      (false, off, img, ws ++ w).

(** [for (ty = 0; ty < rect.h; ty += 64) for (tx = 0; tx < rect.w; tx += 64)]
    over the decompressed buffer. *)
Definition zrleDecode (pf : PixelFormat) (buf : list Z) (r : Rectangle) (img : Image)
  : bool * Z * Image * list Warning :=
  fold_left
    (λ acc ty,
       let th := Z.min 64 (rect_h r - ty) in
       fold_left (zrleTileStep pf buf r ty th) (tileOrigins (rect_w r) 64) acc)
    (tileOrigins (rect_h r) 64) (false, 0, img, []).

(** The decompression loop of the ZRLE handler:
    [do { ... inflate(&zrleStream, Z_SYNC_FLUSH) ... } while (avail_out == 0)]
    over 64 KiB output blocks.  The result is the failing return code, if
    any, the bytes decompressed and the stream.  A further iteration has
    less input than the one before, so [fuel] is the input length (see
    [zrleInflate_fuel]). *)
Fixpoint zrleInflate (fuel : nat) (s : ZStream) (input uncompressedData : list Z)
  : option Z * list Z * ZStream :=
  let '(ret, out, rest, s) := inflate s input 65536 in
  let uncompressedData := uncompressedData ++ out in
  if negb (ret =? Z_OK) && negb (ret =? Z_STREAM_END) && negb (ret =? Z_BUF_ERROR)
  then (Some ret, uncompressedData, s)
  else if (ret =? Z_STREAM_END) || bool_decide (rest = [])
  then (None, uncompressedData, s)
  else if Z.of_nat (length out) =? 65536
  then match fuel with
       | O => (None, uncompressedData, s)
       | S fuel' => zrleInflate fuel' s rest uncompressedData
       end
  else (None, uncompressedData, s).

(** Handles ZRLE-encoded rectangle data. *)
Definition handleZRLEEncoding (r : Rectangle) (c : Client) : bool * Client :=
  if bytesAvailable (socket c) <? 4 then (false, c)
  else
    let lenPeek := peek 4 (socket c) in
    let zlibDataLength := be lenPeek in
    if zlibDataLength =? 0
    then let '(_, c) := readBytes 4 c in (true, c)
    else if bytesAvailable (socket c) <? 4 + zlibDataLength then (false, c)
    else
      let '(b, c) := readT 4 lenPeek c in
      let zlibDataLength := be b in
      let '(compressedData, c) := readBytes zlibDataLength c in
      let started :=
        match zrleStream c with
        | Some s => Some s
        | None => let '(ret, s) := inflateInit in if ret =? Z_OK then Some s else None
        end in
      match started with
      | None => (true, warn ZrleInitFailed c)
      | Some s =>
          let '(failure, uncompressedData, s) :=
            zrleInflate (length compressedData) s compressedData [] in
          let c := set_zrleStream (Some s) c in
          match failure with
          | Some ret => (true, warn (ZrleInflateFailed ret) c)
          | None =>
              match uncompressedData with
              | [] => (true, warn ZrleDecompressFailed c)
              | _ =>
                  let '(_, _, img, ws) :=
                    zrleDecode (pixelFormat c) uncompressedData r (image c) in
                  let c := set_image img c in
                  (true, fold_left (λ c w, warn w c) ws c)
              end
          end
      end.

(** *** Tight encoding *)

(** TPIXEL size: 3 bytes when bpp=32, trueColor, all maxes == 255 *)
Definition tpixelSize (pf : PixelFormat) : Z :=
  if (bitsPerPixel pf =? 32) && truthy (trueColourFlag pf)
     && (redMax pf =? 255) && (greenMax pf =? 255) && (blueMax pf =? 255)
  then 3 else bitsPerPixel pf / 8.

(** Parse VNC compact length from a byte buffer at given offset.
    Returns bytes consumed, or 0 if not enough data, and [*length],
    which keeps its value [length0] when nothing is parsed. *)
Definition parseCompactLength (buf : list Z) (off : Z) (length0 : Z) : Z * Z :=
  if Z.of_nat (length buf) <=? off then (0, length0)
  else
    let b1 := at_ buf off in
    if negb (truthy (Z.land b1 0x80)) then (1, b1)
    else if Z.of_nat (length buf) <=? off + 1 then (0, length0)
    else
      let b2 := at_ buf (off + 1) in
      if negb (truthy (Z.land b2 0x80))
      then (2, Z.lor (Z.land b1 0x7F) (Z.shiftl b2 7))
      else if Z.of_nat (length buf) <=? off + 2 then (0, length0)
      else
        let b3 := at_ buf (off + 2) in
        (3, Z.lor (Z.land b1 0x7F)
              (Z.lor (Z.shiftl (Z.land b2 0x7F) 7) (Z.shiftl b3 14))).

(** [zlibStreamActive[i]], with the stream when it is active. *)
Definition streamAt (streams : list (option ZStream)) (i : Z) : option ZStream :=
  streams !! Z.to_nat i ≫= id.

(** Process stream reset flags (bits 0-3): [inflateEnd] on every active
    stream whose bit is set in the compression-control byte. *)
Definition resetFlaggedStreams (compControl : Z) (streams : list (option ZStream))
  : list (option ZStream) :=
  forZ 0 4
    (λ i streams,
       if truthy (Z.land compControl (Z.shiftl 1 i))
          && bool_decide (is_Some (streamAt streams i))
       then <[Z.to_nat i := None]> streams
       else streams)
    streams.


(** [TightData::resetZlibStreams] *)
Definition resetZlibStreams (streams : list (option ZStream)) : list (option ZStream) :=
  forZ 0 4
    (λ i streams,
       if bool_decide (is_Some (streamAt streams i))
       then <[Z.to_nat i := None]> streams
       else streams)
    streams.

(** [QPainter(&image).drawImage(x, y, src)] for an opaque source. *)
Definition drawImage (x y : Z) (src : Image) (dst : Image) : Image :=
  forZ 0 (img_height src)
    (λ j dst, forZ 0 (img_width src) (λ i dst, setPixel (x + i) (y + j) (pixel i j src) dst) dst)
    dst.

(** Processes a JPEG-compressed rectangle in Tight encoding. *)
Definition handleTightJpeg (r : Rectangle) (dataLength : Z) (c : Client) : bool * Client :=
  let '(jpegData, c) := readBytes dataLength c in
  if Z.of_nat (length jpegData) <? dataLength then (false, warn JpegReadFailed c)
  else
    match loadFromData jpegData with
    | None => (false, warn JpegDecodeFailed c)
    | Some jpegImage => (true, upd_image (drawImage (rect_x r) (rect_y r) jpegImage) c)
    end.

(** Decompresses zlib data for Tight encoding: the decompressed data, or
    an empty array on error. *)
Definition decompressTightData (streamId : Z) (data : list Z) (expectedBytes : Z)
    (c : Client) : list Z * Client :=
  match streamAt (tightData c) streamId with
  | None => ([], c)
  | Some s =>
      let '(result, out, _, s) := inflate s data expectedBytes in
      let c := set_tightData (<[Z.to_nat streamId := Some s]> (tightData c)) c in
      if negb (result =? Z_OK) && negb (result =? Z_STREAM_END)
      then ([], warn (ZlibInflationFailed result) c)
      else (out, c)
  end.

(** Palette filter, 1 bit per pixel, rows padded to byte boundary. *)
Definition tightPaletteBits (r : Rectangle) (pixelData palette : list Z) (numColors : Z)
    (img : Image) : Image :=
  let '(_, img) :=
    forZ 0 (rect_h r)
      (λ y '(byteIdx, img),
         let '(byteIdx, bitOff, _, img) :=
           forZ 0 (rect_w r)
             (λ x '(byteIdx, bitOff, broken, img),
                if broken : bool then (byteIdx, bitOff, broken, img)
                else if byteIdx >=? Z.of_nat (length pixelData)
                then (byteIdx, bitOff, true, img)
                else
                  let index := Z.land (Z.shiftr (at_ pixelData byteIdx) (7 - bitOff)) 1 in
                  let img :=
                    if index <? numColors
                    then setPixel (rect_x r + x) (rect_y r + y) (at_ palette index) img
                    else img in
                  if bitOff + 1 =? 8 then (byteIdx + 1, 0, false, img)
                  else (byteIdx, bitOff + 1, false, img))
             (byteIdx, 0, false, img) in
         (if bitOff >? 0 then byteIdx + 1 else byteIdx, img))
      (0, img) in
  img.

(** Palette filter, 8 bits per pixel. *)
Definition tightPaletteBytes (r : Rectangle) (pixelData palette : list Z) (numColors : Z)
    (img : Image) : Image :=
  forZ 0 (rect_h r)
    (λ y img,
       let '(_, img) :=
         forZ 0 (rect_w r)
           (λ x '(broken, img),
              if broken : bool then (broken, img)
              else
                let idx := y * rect_w r + x in
                if idx >=? Z.of_nat (length pixelData) then (true, img)
                else
                  let ci := at_ pixelData idx in
                  (false,
                   if ci <? numColors
                   then setPixel (rect_x r + x) (rect_y r + y) (at_ palette ci) img
                   else img))
           (false, img) in
       img)
    img.

(** [qBound(0, v, 255)] *)
Definition qBound255 (v : Z) : Z := Z.max 0 (Z.min v 255).

(** Gradient filter: predict pixel from neighbors, data is error term. *)
Definition tightGradient (pf : PixelFormat) (tps : Z) (r : Rectangle) (pixelData : list Z)
    (img : Image) : Image :=
  let w := rect_w r in
  let '(_, _, _, img) :=
    forZ 0 (rect_h r)
      (λ y '(prevRow, row, dOff, img),
         let '(row, dOff, img) :=
           forZ 0 w
             (λ x '(row, dOff, img),
                let est := pixelAt pf tps pixelData dOff in
                let dOff := dOff + tps in
                let eR := Z.land (Z.shiftr est (redShift pf)) 0xFF in
                let eG := Z.land (Z.shiftr est (greenShift pf)) 0xFF in
                let eB := Z.land (Z.shiftr est (blueShift pf)) 0xFF in
                let l := if x >? 0 then at_ row (x - 1) else 0 in
                let a := if y >? 0 then at_ prevRow x else 0 in
                let al := if (x >? 0) && (y >? 0) then at_ prevRow (x - 1) else 0 in
                let rgb :=
                  qRgb (Z.land (qBound255 (qRed l + qRed a - qRed al) + eR) 0xFF)
                       (Z.land (qBound255 (qGreen l + qGreen a - qGreen al) + eG) 0xFF)
                       (Z.land (qBound255 (qBlue l + qBlue a - qBlue al) + eB) 0xFF) in
                (set_at row x rgb, dOff, setPixel (rect_x r + x) (rect_y r + y) rgb img))
             (row, dOff, img) in
         (row, row, dOff, img))
      (replicate (Z.to_nat w) (qRgb 0 0 0), replicate (Z.to_nat w) 0, 0, img) in
  img.

(** Copy filter (filter 0 or default). *)
Definition tightCopy (pf : PixelFormat) (tps : Z) (r : Rectangle) (pixelData : list Z)
    (img : Image) : Image :=
  let '(_, img) :=
    forZ 0 (rect_h r)
      (λ y acc,
         forZ 0 (rect_w r)
           (λ x '(dOff, img),
              (dOff + tps,
               setPixel (rect_x r + x) (rect_y r + y)
                 (toRgb pf (pixelAt pf tps pixelData dOff)) img))
           acc)
      (0, img) in
  img.

(** What the Basic branch learns from the peeked header before it
    consumes anything: [None] is one of its [return false]. *)
Record TightHeader := mkTightHeader {
  th_off : Z;
  th_filterId : Z;
  th_numColors : Z;
  th_paletteDataBytes : Z;
  th_dataSize : Z;
  th_lenBytes : Z;
  th_compressedLength : Z;
  th_totalNeeded : Z
}.

Definition tightBasicHeader (pk : list Z) (tps : Z) (r : Rectangle) (hasFilter : bool)
  : option TightHeader :=
  let off := 1 in
  let filterId := 0 in
  let numColors := 0 in
  let paletteDataBytes := 0 in
  if hasFilter && (Z.of_nat (length pk) <=? off) then None
  else
    let '(filterId, off) := if hasFilter then (at_ pk off, off + 1) else (filterId, off) in
    if (filterId =? 1) && (Z.of_nat (length pk) <=? off) then None
    else
      let '(numColors, off) :=
        if filterId =? 1 then (at_ pk off + 1, off + 1) else (numColors, off) in
      let paletteDataBytes := if filterId =? 1 then numColors * tps else paletteDataBytes in
      if (filterId =? 1) && (Z.of_nat (length pk) <? off + paletteDataBytes) then None
      else
        let off := if filterId =? 1 then off + paletteDataBytes else off in
        let dataSize :=
          if filterId =? 1
          then if numColors <=? 2 then ((rect_w r + 7) / 8) * rect_h r
               else int32 (rect_w r * rect_h r)
          else int32 (int32 (rect_w r * rect_h r) * tps) in
        if dataSize <? 12
        then Some (mkTightHeader off filterId numColors paletteDataBytes dataSize 0 0
                     (off + dataSize))
        else
          let '(lenBytes, compressedLength) := parseCompactLength pk off 0 in
          if lenBytes =? 0 then None
          else Some (mkTightHeader off filterId numColors paletteDataBytes dataSize
                       lenBytes compressedLength (off + lenBytes + compressedLength)).

(** The Basic branch from [// --- All data available: consume ---] on. *)
Definition tightBasicConsume (tps : Z) (r : Rectangle) (streamId : Z) (hasFilter : bool)
    (h : TightHeader) (c : Client) : Client :=
  let pf := pixelFormat c in
  let '(_, c) := readBytes 1 c in
  let c := if hasFilter then (readBytes 1 c).2 else c in
  let '(palette, c) :=
    if th_filterId h =? 1
    then
      let '(_, c) := readBytes 1 c in
      let '(paletteRaw, c) := readBytes (th_paletteDataBytes h) c in
      (((λ i, toRgb pf (pixelAt pf tps paletteRaw (i * tps))) <$> seqZ 0 (th_numColors h)), c)
    else ([], c) in
  let '(pixelData, failed, c) :=
    if th_dataSize h <? 12
    then let '(pixelData, c) := readBytes (th_dataSize h) c in (pixelData, false, c)
    else
      let '(_, c) := readBytes (th_lenBytes h) c in
      let '(compressedData, c) := readBytes (th_compressedLength h) c in
      let c :=
        match streamAt (tightData c) streamId with
        | Some _ => c
        | None => set_tightData (<[Z.to_nat streamId := Some inflateInit.2]> (tightData c)) c
        end in
      let '(pixelData, c) := decompressTightData streamId compressedData (th_dataSize h) c in
      match pixelData with
      | [] => (pixelData, true, warn TightDecompressFailed c)
      | _ => (pixelData, false, c)
      end in
  if failed : bool then c
  else if th_filterId h =? 1
  then if th_numColors h <=? 2
       then upd_image (tightPaletteBits r pixelData palette (th_numColors h)) c
       else upd_image (tightPaletteBytes r pixelData palette (th_numColors h)) c
  else if th_filterId h =? 2
  then upd_image (tightGradient pf tps r pixelData) c
  else upd_image (tightCopy pf tps r pixelData) c.

(** The three compression types of [handleTightEncoding], from
    [// Extract compression type from bits 4-7] on: [pk] is the peeked
    header and [compControl] its first byte. *)
Definition tightDispatch (r : Rectangle) (pk : list Z) (compControl : Z) (c : Client)
  : bool * Client :=
  let pf := pixelFormat c in
  let tps := tpixelSize pf in
  let compType := Z.shiftr compControl 4 in
  if compType =? 0x08
  then
    let totalNeeded := 1 + tps in
    if bytesAvailable (socket c) <? totalNeeded then (false, c)
    else
      let '(_, c) := readBytes 1 c in
      let '(pixelData, c) := readBytes tps c in
      let rgb := toRgb pf (pixelAt pf tps pixelData 0) in
      (true, upd_image (fillRect (rect_x r) (rect_y r) (rect_w r) (rect_h r) rgb) c)
  else if compType =? 0x09
  then
    let '(lenBytes, dataLength) := parseCompactLength pk 1 0 in
    if lenBytes =? 0 then (false, c)
    else
      let totalNeeded := 1 + lenBytes + dataLength in
      if bytesAvailable (socket c) <? totalNeeded then (false, c)
      else
        let '(_, c) := readBytes 1 c in
        let '(_, c) := readBytes lenBytes c in
        (true, (handleTightJpeg r dataLength c).2)
  else
    let streamId := Z.land compType 0x03 in
    let hasFilter := truthy (Z.land compType 0x04) in
    match tightBasicHeader pk tps r hasFilter with
    | None => (false, c)
    | Some h =>
        if bytesAvailable (socket c) <? th_totalNeeded h then (false, c)
        else (true, tightBasicConsume tps r streamId hasFilter h c)
    end.

(** Handles Tight-encoded rectangle data. *)
Definition handleTightEncoding (r : Rectangle) (c : Client) : bool * Client :=
  if bytesAvailable (socket c) <? 1 then (false, c)
  else
    let tps := tpixelSize (pixelFormat c) in
    let peekSize := Z.min (bytesAvailable (socket c)) (1 + 1 + 1 + 256 * tps + 3) in
    let pk := peek peekSize (socket c) in
    match pk with
    | [] => (false, c)
    | _ =>
        let compControl := at_ pk 0 in
        let c := set_tightData (resetFlaggedStreams compControl (tightData c)) c in
        tightDispatch r pk compControl c
    end.

(** *** Server to client messages *)

(** The [if (!fbu.rectHeaderRead)] block of the rectangle loop, once the
    12 header bytes are buffered. *)
Definition readRectHeader (c : Client) : Client :=
  let '(b, c) := readT 8 (rectangleBytes (rect (fbu c))) c in
  let c := upd_fbu (set_rect (rectangleOfBytes b)) c in
  let '(e, c) := readT 4 (replicate 4 0) c in
  let encodingType := int32 (be e) in
  let c := upd_fbu (set_encoding encodingType) c in
  let c := upd_fbu (set_rectHeaderRead true) c in
  let c := upd_fbu (set_hextileTX 0) c in
  upd_fbu (set_hextileTY 0) c.

(** The [switch (fbu.encoding)] of the rectangle loop. *)
Definition decodeRect (c : Client) : bool * Client :=
  let e := encoding (fbu c) in
  if e =? ZRLE then handleZRLEEncoding (rect (fbu c)) c
  else if e =? Tight then handleTightEncoding (rect (fbu c)) c
  else if e =? Hextile then handleHextileEncoding (rect (fbu c)) c
  else if e =? RawEncoding then handleRawEncoding (rect (fbu c)) c
  else (true, warn (UnsupportedEncoding e) c).

(** [while (fbu.currentRect < fbu.totalRects)]: [n] counts the
    rectangles left; leaving the function early is "will resume on next
    readyRead". *)
Fixpoint rectLoop (n : nat) (c : Client) : Client :=
  match n with
  | O =>
      let c := upd_fbu (set_active false) c in
      framebufferUpdateRequest true c
  | S n' =>
      if negb (rectHeaderRead (fbu c)) && (bytesAvailable (socket c) <? 12) then c
      else
        let c := if negb (rectHeaderRead (fbu c)) then readRectHeader c else c in
        let '(ok, c) := decodeRect c in
        if negb ok then c
        else
          let r := rect (fbu c) in
          let c := emit (SigImageChanged (rect_x r) (rect_y r) (rect_w r) (rect_h r)) c in
          let c := upd_fbu (set_rectHeaderRead false) c in
          let c := upd_fbu (set_currentRect (currentRect (fbu c) + 1)) c in
          rectLoop n' c
  end.

Definition processFramebufferRects (c : Client) : Client :=
  rectLoop (Z.to_nat (totalRects (fbu c) - currentRect (fbu c))) c.

(** Processes a framebuffer update message. *)
Definition framebufferUpdate (c : Client) : Client :=
  if bytesAvailable (socket c) <? 3 then c
  else
    let '(_, c) := readBytes 1 c in
    let '(n, c) := readT 2 (replicate 2 0) c in
    let numberOfRectangles := be n in
    let c := upd_fbu (set_totalRects numberOfRectangles) c in
    let c := upd_fbu (set_currentRect 0) c in
    let c := upd_fbu (set_active true) c in
    let c := upd_fbu (set_rectHeaderRead false) c in
    processFramebufferRects c.

(** Parses and dispatches incoming server messages. *)
Definition parseServerMessages (c : Client) : Client :=
  if active (fbu c) then processFramebufferRects c
  else if bytesAvailable (socket c) <? 1 then c
  else
    let '(b, c) := readT 1 [0] c in
    let messageType := at_ b 0 in
    if messageType =? FramebufferUpdate then framebufferUpdate c
    else warn (UnknownMessageType messageType) c.

(** *** Initialisation messages *)

(** [QImage(w, h, Format_ARGB32)] filled with white; a zero dimension
    gives the null image. *)
Definition newFramebuffer (w h : Z) : Image :=
  if (w <=? 0) || (h <=? 0) then nullImage else filledImage w h white.

(** Parses the server initialization message containing framebuffer
    dimensions, pixel format, and the server name. *)
Definition parserServerInit (c : Client) : Client :=
  if bytesAvailable (socket c) <? 2 + 2 + 16 + 4 then c
  else
    let '(bw, c) := readT 2 (replicate 2 0) c in
    let framebufferWidth := be bw in
    let '(bh, c) := readT 2 (replicate 2 0) c in
    let framebufferHeight := be bh in
    let c := set_frameBufferWidth framebufferWidth c in
    let c := set_frameBufferHeight framebufferHeight c in
    let c := emit (SigFramebufferSizeChanged (frameBufferWidth c) (frameBufferHeight c)) c in
    let c := set_image (newFramebuffer framebufferWidth framebufferHeight) c in
    let '(pfb, c) := readT 16 (pixelFormatBytes (pixelFormat c)) c in
    let c := set_pixelFormat (pixelFormatOfBytes pfb) c in
    let '(nl, c) := readT 4 (replicate 4 0) c in
    let nameLength := be nl in
    if bytesAvailable (socket c) <? nameLength then c
    else
      let '(_, c) := readBytes nameLength c in
      let c := set_state WaitingState c in
      let c := setPixelFormat c in
      let c := setEncodings [Tight; ZRLE; Hextile; RawEncoding] c in
      framebufferUpdateRequest false c.

(** *** The dispatcher and the socket notifications *)

(** Main state machine dispatcher for handling incoming socket data based
    on the current protocol state. *)
Definition read (c : Client) : Client :=
  if reading c then c
  else
    let c := set_reading true c in
    let c :=
      match state c with
      | ProtocolVersionState => parseProtocolVersion c
      | SecurityState => parseSecurity c
      | VncAuthenticationState => parseVncAuthentication c
      | SecurityResultState => parseSecurityResult c
      | ServerInitState => parserServerInit c
      | WaitingState => parseServerMessages c
      | ClientInitState => (readBytes (bytesAvailable (socket c)) c).2
      end in
    let c := set_reading false c in
    if (bytesAvailable (socket c) >? 0) && negb (active (fbu c))
    then set_queuedReads (S (queuedReads c)) c
    else c.

(** [QVncClient::Private::reset] *)
Definition reset (c : Client) : Client :=
  let c := set_state ProtocolVersionState c in
  let c := setProtocolVersion ProtocolVersionUnknown c in
  let c := setSecurityType SecurityTypeUnknwon c in
  let c := set_vncChallenge [] c in
  let c := upd_fbu (set_active false) c in
  let c := set_frameBufferWidth 0 c in
  let c := set_frameBufferHeight 0 c in
  let c := set_image nullImage c in
  let c := set_zrleStream None c in
  emit (SigFramebufferSizeChanged 0 0) c.

(** The slot connected to [QTcpSocket::connected]. *)
Definition onConnected (c : Client) : Client :=
  let c := emit (SigConnectionStateChanged true) c in
  let c := set_state ProtocolVersionState c in
  let c := setProtocolVersion ProtocolVersionUnknown c in
  let c := setSecurityType SecurityTypeUnknwon c in
  read c.

(** The slot connected to [QTcpSocket::disconnected]. *)
Definition onDisconnected (c : Client) : Client :=
  let c := emit (SigConnectionStateChanged false) c in
  reset c.

(** The slot connected to [QTcpSocket::readyRead]. *)
Definition onReadyRead (c : Client) : Client := read c.

(** *** Input events

    The client of the model always has a socket, so the
    [if (!socket) return;] that opens both functions is not taken. *)

(** [Qt::Key] values of the keys in [keyList]. *)
Definition Key_Tab : Z := 0x01000001.
Definition Key_Backspace : Z := 0x01000003.
Definition Key_Return : Z := 0x01000004.
Definition Key_Enter : Z := 0x01000005.
Definition Key_Insert : Z := 0x01000006.
Definition Key_Delete : Z := 0x01000007.
Definition Key_Home : Z := 0x01000010.
Definition Key_End : Z := 0x01000011.
Definition Key_Left : Z := 0x01000012.
Definition Key_Up : Z := 0x01000013.
Definition Key_Right : Z := 0x01000014.
Definition Key_Down : Z := 0x01000015.
Definition Key_PageUp : Z := 0x01000016.
Definition Key_PageDown : Z := 0x01000017.
Definition Key_Shift : Z := 0x01000020.
Definition Key_Control : Z := 0x01000021.
Definition Key_Meta : Z := 0x01000022.
Definition Key_Alt : Z := 0x01000023.
Definition Key_F1 : Z := 0x01000030.
Definition Key_F2 : Z := 0x01000031.
Definition Key_F3 : Z := 0x01000032.
Definition Key_F4 : Z := 0x01000033.
Definition Key_F5 : Z := 0x01000034.
Definition Key_F6 : Z := 0x01000035.
Definition Key_F7 : Z := 0x01000036.
Definition Key_F8 : Z := 0x01000037.
Definition Key_F9 : Z := 0x01000038.
Definition Key_F10 : Z := 0x01000039.
Definition Key_F11 : Z := 0x0100003a.
Definition Key_F12 : Z := 0x0100003b.

(** Key mappings: a Qt key followed by its X11 keysym. *)
Definition keyList : list Z :=
  [ Key_Backspace; 0xff08;
    Key_Tab; 0xff09;
    Key_Return; 0xff0d;
    Key_Enter; 0xff0d;
    Key_Insert; 0xff63;
    Key_Delete; 0xffff;
    Key_Home; 0xff50;
    Key_End; 0xff57;
    Key_PageUp; 0xff55;
    Key_PageDown; 0xff56;
    Key_Left; 0xff51;
    Key_Up; 0xff52;
    Key_Right; 0xff53;
    Key_Down; 0xff54;
    Key_F1; 0xffbe;
    Key_F2; 0xffbf;
    Key_F3; 0xffc0;
    Key_F4; 0xffc1;
    Key_F5; 0xffc2;
    Key_F6; 0xffc3;
    Key_F7; 0xffc4;
    Key_F8; 0xffc5;
    Key_F9; 0xffc6;
    Key_F10; 0xffc7;
    Key_F11; 0xffc8;
    Key_F12; 0xffc9;
    Key_Shift; 0xffe1;
    Key_Control; 0xffe3;
    Key_Meta; 0xffe7;
    Key_Alt; 0xffe9 ].

(** [for (i = 0; i < keyList.length(); i += 2)
       keyMap.insert(keyList.at(i), keyList.at(i+1));] *)
Fixpoint insertKeys (l : list Z) (m : gmap Z Z) : gmap Z Z :=
  match l with
  | k :: v :: rest => insertKeys rest (<[k := v]> m)
  | _ => m
  end.

(** The [keyMap] the constructor builds. *)
Definition keyMap : gmap Z Z := insertKeys keyList ∅.

(** What [keyEvent] reads of a [QKeyEvent]: whether its type is
    [QEvent::KeyPress], its [key()] and its [text()], a sequence of
    UTF-16 code units. *)
Record KeyEvent := mkKeyEvent {
  key_press : bool;
  key_code : Z;
  key_text : list Z
}.

(** Translates Qt key events to VNC key events and sends them to the
    server.  [quint32_be code;] is declared without a value and assigned
    on two of three paths: [garbage] is what its storage holds on the
    third. *)
Definition keyEvent (e : KeyEvent) (garbage : Z) (c : Client) : Client :=
  let messageType := 0x04 in
  let c := write [messageType] c in
  let downFlag := if key_press e then 1 else 0 in
  let c := write [downFlag] c in
  let c := writeRaw [32; 32] c in
  let key := key_code e in
  let code :=
    match keyMap !! key with
    | Some keysym => keysym
    | None =>
        match key_text e with
        | ch :: _ => ch
        | [] => garbage
        end
    end in
  write (to_be 4 code) c.

(** [Qt::MouseButton] *)
Definition NoButton : Z := 0.
Definition LeftButton : Z := 1.
Definition RightButton : Z := 2.
Definition MiddleButton : Z := 4.

(** What [pointerEvent] reads of a [QMouseEvent]: its [buttons()] and
    its position, as [qRound(e->position().x())] and
    [qRound(e->position().y())]. *)
Record MouseEvent := mkMouseEvent {
  mouse_buttons : Z;
  mouse_x : Z;
  mouse_y : Z
}.

(** Translates Qt mouse events to VNC pointer events and sends them to
    the server. *)
Definition pointerEvent (e : MouseEvent) (c : Client) : Client :=
  let messageType := 0x05 in
  let c := write [messageType] c in
  let buttonMask := 0 in
  let buttonMask :=
    if truthy (Z.land (mouse_buttons e) LeftButton) then Z.lor buttonMask 1 else buttonMask in
  let buttonMask :=
    if truthy (Z.land (mouse_buttons e) MiddleButton) then Z.lor buttonMask 2 else buttonMask in
  let buttonMask :=
    if truthy (Z.land (mouse_buttons e) RightButton) then Z.lor buttonMask 4 else buttonMask in
  let c := write [buttonMask] c in
  let c := write (to_be 2 (quint16 (mouse_x e))) c in
  write (to_be 2 (quint16 (mouse_y e))) c.

(** [QVncClient::handleKeyEvent] and [QVncClient::handlePointerEvent] *)
Definition handleKeyEvent (e : KeyEvent) (garbage : Z) (c : Client) : Client :=
  keyEvent e garbage c.
Definition handlePointerEvent (e : MouseEvent) (c : Client) : Client :=
  pointerEvent e c.

End WithLibraries.

End Client.

(** ** The tool set of the MCP server: [examples/mcp-vnc/tools.cpp]

    [Tools::Private] holds the socket, the client around it, the preview
    widget and the pointer position of the last tool call.  The model
    keeps the client, which owns the socket, and the position; the
    preview widget is not modelled. *)

Module Tools.
Import Client.

Section WithLibraries.
Context {zl : Zlib} {jp : JpegCodec}.

Record Private := mkPrivate {
  vncClient : Client;
  pos : Z * Z
}.

Definition upd_vncClient (g : Client → Client) (d : Private) : Private :=
  mkPrivate (g (vncClient d)) (pos d).

(** [Tools::connect], up to [connectToHost]. *)
Definition connect (password : list Z) (d : Private) : Private :=
  match password with
  | [] => d
  | _ => upd_vncClient (setPassword password) d
  end.

(** The [Qt::MouseButton] of a button number. *)
Definition qtButtonOf (button : Z) : Z :=
  if button =? 2 then MiddleButton
  else if button =? 3 then RightButton
  else LeftButton.

(** [Tools::mouseMove] *)
Definition mouseMove (x y : Z) (d : Private) : Private :=
  let d := mkPrivate (vncClient d) (x, y) in
  let event := mkMouseEvent NoButton (pos d).1 (pos d).2 in
  upd_vncClient (handlePointerEvent event) d.

(** [Tools::mouseClick] *)
Definition mouseClick (x y button : Z) (d : Private) : Private :=
  let qtButton := qtButtonOf button in
  let d := mkPrivate (vncClient d) (x, y) in
  let pressEvent := mkMouseEvent qtButton (pos d).1 (pos d).2 in
  let d := upd_vncClient (handlePointerEvent pressEvent) d in
  let releaseEvent := mkMouseEvent NoButton (pos d).1 (pos d).2 in
  upd_vncClient (handlePointerEvent releaseEvent) d.

(** [Tools::dragAndDrop] *)
Definition dragAndDrop (x y button : Z) (d : Private) : Private :=
  let qtButton := qtButtonOf button in
  let endPos := (x, y) in
  let pressEvent := mkMouseEvent qtButton (pos d).1 (pos d).2 in
  let d := upd_vncClient (handlePointerEvent pressEvent) d in
  let moveEvent := mkMouseEvent qtButton endPos.1 endPos.2 in
  let d := upd_vncClient (handlePointerEvent moveEvent) d in
  let releaseEvent := mkMouseEvent NoButton endPos.1 endPos.2 in
  let d := upd_vncClient (handlePointerEvent releaseEvent) d in
  mkPrivate (vncClient d) endPos.

(** [Tools::sendKey]: the event carries [keysym] as its [key()] and an
    empty text. *)
Definition sendKey (keysym : Z) (down : bool) (garbage : Z) (d : Private) : Private :=
  let event := mkKeyEvent down keysym [] in
  upd_vncClient (handleKeyEvent event garbage) d.

(** [Tools::sendText]: a press and a release per character, each with
    key 0 and the character as its text. *)
Definition sendText (text : list Z) (garbage : Z) (d : Private) : Private :=
  fold_left
    (λ d ch,
       let pressEvent := mkKeyEvent true 0 [ch] in
       let d := upd_vncClient (handleKeyEvent pressEvent garbage) d in
       let releaseEvent := mkKeyEvent false 0 [ch] in
       upd_vncClient (handleKeyEvent releaseEvent garbage) d)
    text d.

End WithLibraries.

End Tools.

(** ** The specification's wording, for comparison with the code *)

Module Spec.

(** "Reverse the bit order of each byte of K independently
    (bit i -> bit 7-i)." *)
Definition reverseBits (b : Z) : Z :=
  fold_left (λ acc i, if Z.testbit b i then Z.lor acc (Z.shiftl 1 (7 - i)) else acc)
    (seqZ 0 8) 0.

(** "Build an 8-byte key K from the first 8 bytes of P interpreted as
    Latin-1 (truncate longer; right-pad with zero bytes)", then
    bit-reversed. *)
Definition vncKey (password : list Z) : list Z :=
  let latin1 := take 8 (Des.toLatin1 password) in
  reverseBits <$> (latin1 ++ replicate (8 - length latin1) 0).

(** "Produce the response as DES-ECB(K, C[0..8]) || DES-ECB(K, C[8..16])" *)
Definition vncResponse (password challenge : list Z) : list Z :=
  let K := vncKey password in
  Des.desEncryptBlock K (take 8 challenge)
  ++ Des.desEncryptBlock K (take 8 (drop 8 challenge)).

(** "Compact length encoding: 1 to 3 bytes; each byte contributes 7 bits
    little-endian; the high bit signals continuation": the value of the
    bytes [b1], [b2], [b3] under that reading. *)
Definition compactLength (b1 b2 b3 : Z) : Z :=
  Z.land b1 0x7F
  + (if Z.testbit b1 7
     then Z.land b2 0x7F * 2 ^ 7 + (if Z.testbit b2 7 then Z.land b3 0x7F * 2 ^ 14 else 0)
     else 0).





(** *** Hextile, as the specification words it

    These definitions follow the specification's description of the
    encoding, not [handleHextileEncoding]; the theorems on the Hextile
    colours compare the handler with them. *)

Section Hextile.
Import Client.

(** A Hextile tile as it is sent at four bytes per pixel: the
    subencoding byte and, under "Raw=1: tile is tw·th raw pixels", the
    pixels; else, under "BackgroundSpecified=2: next is a pixel that
    replaces the background", "ForegroundSpecified=4: next is a pixel
    that replaces the foreground (only when AnySubrects present)" and
    "AnySubrects=8: followed by a 1-byte subrect count, then each
    subrect: if SubrectsColoured=16: pixel + 2 bytes xy, wh; else: just
    the 2 bytes", the fields announced. *)
Record HexTile := mkHexTile {
  ht_sub : Z;
  ht_raw : list Z;
  ht_bg : list Z;
  ht_fg : list Z;
  ht_subrects : list (list Z * Z * Z)
}.

(** A Raw tile of [tw] by [th] pixels holds its pixels and nothing
    else. *)
Definition wfRawTile (tw th : Z) (t : HexTile) : Prop :=
  0 ≤ ht_sub t < 256
  ∧ flagged (ht_sub t) RawSubencoding = true
  ∧ 0 ≤ tw ∧ 0 ≤ th
  ∧ Z.of_nat (length (ht_raw t)) = th * (tw * 4)
  ∧ Forall (λ b, 0 ≤ b < 256) (ht_raw t)
  ∧ ht_bg t = [] ∧ ht_fg t = [] ∧ ht_subrects t = [].

(** The fields of a tile that is not Raw are those its subencoding byte
    announces, and are bytes. *)
Definition wfColourTile (t : HexTile) : Prop :=
  let sub := ht_sub t in
  0 ≤ sub < 256
  ∧ flagged sub RawSubencoding = false
  ∧ length (ht_bg t) = (if flagged sub BackgroundSpecified then 4 else 0)%nat
  ∧ length (ht_fg t)
    = (if flagged sub AnySubrects && flagged sub ForegroundSpecified then 4 else 0)%nat
  ∧ (flagged sub AnySubrects = false → ht_subrects t = [])
  ∧ (length (ht_subrects t) < 256)%nat
  ∧ Forall (λ b, 0 ≤ b < 256) (ht_bg t ++ ht_fg t)
  ∧ Forall (λ s : list Z * Z * Z,
              length s.1.1 = (if flagged sub SubrectsColoured then 4 else 0)%nat
              ∧ Forall (λ b, 0 ≤ b < 256) (s.1.1 ++ [s.1.2; s.2]))
      (ht_subrects t)
  ∧ ht_raw t = [].

Definition wfHexTile (tw th : Z) (t : HexTile) : Prop :=
  wfRawTile tw th t ∨ wfColourTile t.

(** The bytes of a tile on the wire. *)
Definition encodeSubrect (s : list Z * Z * Z) : list Z := s.1.1 ++ [s.1.2; s.2].

Definition encodeHexTile (t : HexTile) : list Z :=
  if flagged (ht_sub t) RawSubencoding then ht_sub t :: ht_raw t
  else
    ht_sub t :: ht_bg t
    ++ (if flagged (ht_sub t) AnySubrects
        then ht_fg t ++ Z.of_nat (length (ht_subrects t))
                        :: concat (encodeSubrect <$> ht_subrects t)
        else []).

(** "Background and foreground colors persist across tiles within the
    rectangle unless overridden": the colour in force once a tile has
    given [pixel], which is empty when the tile gives none. *)
Definition inherit (pixel : list Z) (previous : Z) : Z :=
  match pixel with
  | [] => previous
  | _ => le pixel
  end.

(** The pixels of a Raw tile, row by row: the pixel at [(x, y)] of the
    tile is the [(y * tw + x)]-th of [raw]. *)
Definition paintRaw (pf : PixelFormat) (x0 y0 tw th : Z) (raw : list Z) (img : Image) : Image :=
  forZ 0 th
    (λ y img,
       forZ 0 tw
         (λ x img,
            setPixel (x0 + x) (y0 + y)
              (toRgb pf (le (take 4 (drop (Z.to_nat (4 * (y * tw + x))) raw)))) img)
         img)
    img.

(** One subrectangle of the tile at [(x0, y0)]: "xy packs 4-bit x and
    4-bit y offsets; wh packs (w-1, h-1) as two 4-bit fields"; its
    colour is its own pixel or else the "current foreground".  What
    would leave the tile is cut off. *)
Definition paintSubrect (pf : PixelFormat) (x0 y0 tw th fg : Z) (img : Image)
    (s : list Z * Z * Z) : Image :=
  let sx := Z.land (Z.shiftr s.1.2 4) 0xf in
  let sy := Z.land s.1.2 0xf in
  let sw := Z.land (Z.shiftr s.2 4) 0xf + 1 in
  let sh := Z.land s.2 0xf + 1 in
  fillRect (x0 + sx) (y0 + sy) (Z.min sw (tw - sx)) (Z.min sh (th - sy))
    (toRgb pf (inherit s.1.1 fg)) img.

(** A tile: its raw pixels, or else the background and the
    subrectangles over it. *)
Definition paintHexTile (pf : PixelFormat) (x0 y0 tw th bg fg : Z) (t : HexTile)
    (img : Image) : Image :=
  if flagged (ht_sub t) RawSubencoding then paintRaw pf x0 y0 tw th (ht_raw t) img
  else fold_left (paintSubrect pf x0 y0 tw th fg) (ht_subrects t)
         (fillRect x0 y0 tw th (toRgb pf bg) img).

(** "The rectangle is divided into 16x16 tiles in row-major order (the
    trailing row/column may be narrower)": the tiles of a row from [tx]
    on, left to right, and the rows of a rectangle from [ty] on, top to
    bottom.  The state is the background, the foreground and the image;
    each tile is painted in the colours in force after its own flags and
    hands them on to the next. *)
Fixpoint paintHexRow (pf : PixelFormat) (r : Rectangle) (ty th tx : Z)
    (tiles : list HexTile) (st : Z * Z * Image) : Z * Z * Image :=
  match tiles with
  | [] => st
  | t :: tiles =>
      let bg := inherit (ht_bg t) st.1.1 in
      let fg := inherit (ht_fg t) st.1.2 in
      paintHexRow pf r ty th (tx + 16) tiles
        (bg, fg,
         paintHexTile pf (rect_x r + tx) (rect_y r + ty) (Z.min 16 (rect_w r - tx)) th
           bg fg t st.2)
  end.

Fixpoint paintHexRows (pf : PixelFormat) (r : Rectangle) (ty : Z)
    (rows : list (list HexTile)) (st : Z * Z * Image) : Z * Z * Image :=
  match rows with
  | [] => st
  | row :: rows =>
      paintHexRows pf r (ty + 16) rows
        (paintHexRow pf r ty (Z.min 16 (rect_h r - ty)) 0 row st)
  end.

(** The tiles of a row from [tx] on and the rows from [ty] on are well
    formed, each for the size its place in the rectangle gives it. *)
Fixpoint hexRowFits (r : Rectangle) (th tx : Z) (tiles : list HexTile) : Prop :=
  match tiles with
  | [] => True
  | t :: tiles =>
      wfHexTile (Z.min 16 (rect_w r - tx)) th t ∧ hexRowFits r th (tx + 16) tiles
  end.

Fixpoint hexRowsFitFrom (r : Rectangle) (ty : Z) (rows : list (list HexTile)) : Prop :=
  match rows with
  | [] => True
  | row :: rows =>
      length row = strides 0 (rect_w r) 16
      ∧ hexRowFits r (Z.min 16 (rect_h r - ty)) 0 row
      ∧ hexRowsFitFrom r (ty + 16) rows
  end.

(** The tiles of a rectangle: a row for every 16 lines begun, in each
    row a tile for every 16 columns begun, every tile well formed. *)
Definition hexRowsFit (r : Rectangle) (rows : list (list HexTile)) : Prop :=
  length rows = strides 0 (rect_h r) 16 ∧ hexRowsFitFrom r 0 rows.

(** The bytes of a rectangle: its tiles in row-major order. *)
Definition encodeHexRows (rows : list (list HexTile)) : list Z :=
  concat (encodeHexTile <$> concat rows).

End Hextile.

End Spec.

(** ** Libraries for the worked examples *)

(** A stand-in for zlib whose compressed form is the data itself: a call
    copies as much input as the output has room for. *)
Definition storedInflate (s : unit) (inp : list Z) (n : Z) : Z * list Z * list Z * unit :=
  (Client.Z_OK, take (Z.to_nat n) inp, drop (Z.to_nat n) inp, s).

#[export] Program Instance storedZlib : Client.Zlib :=
  {| Client.ZStream := unit;
     Client.inflateInit := (Client.Z_OK, tt);
     Client.inflate := storedInflate |}.
Next Obligation.
  intros s inp. simpl. rewrite length_take, length_drop. lia.
Qed.

(** No JPEG decoder. *)
#[export] Instance noJpeg : Client.JpegCodec := {| Client.loadFromData := λ _, None |}.

(** ** Worked examples: the inputs *)

Module Example.
Import Client.

(** A 3.8 client waiting for the security list, with only the count
    byte (two types offered) buffered. *)
Definition securityListClient : Client :=
  set_protocolVersion ProtocolVersion38
    (set_state SecurityState (initialClient (mkSocket true [2] []))).

(** The fixed 24 bytes of a ServerInit: a 2x1 framebuffer, 32 bpp
    true colour with maxima 255 and shifts 16/8/0, little-endian, and a
    name of 4 bytes that has not arrived. *)
Definition serverInitHeader : list Z :=
  [0; 2; 0; 1]
  ++ [32; 24; 0; 1; 0; 255; 0; 255; 0; 255; 16; 8; 0; 0; 0; 0]
  ++ [0; 0; 0; 4].

Definition serverInitClient : Client :=
  set_state ServerInitState (initialClient (mkSocket true serverInitHeader [])).

(** A running client whose Tight streams 0 and 2 and whose ZRLE stream
    are active. *)
Definition tightBusyClient : Client :=
  set_tightData [Some tt; None; Some tt; None]
    (set_zrleStream (Some tt)
       (set_state WaitingState (initialClient (mkSocket false [] [])))).

(** 32 bits per pixel, true colour, maxima 255, shifts 16/8/0,
    little-endian. *)
Definition rgb888 : PixelFormat := mkPixelFormat 32 24 0 1 255 255 255 16 8 0 0 0 0.


(** Scenario E4: a running client with a white 32x16 framebuffer and,
    buffered, the two tiles of a 32x16 Hextile rectangle: subencoding
    BackgroundSpecified with a red pixel, then subencoding 0. *)
Definition hextileE4Client : Client :=
  set_image (filledImage 32 16 white)
    (set_pixelFormat rgb888
       (set_state WaitingState
          (initialClient (mkSocket true [2; 0x00; 0x00; 0xFF; 0x00; 0] [])))).

(** A FramebufferUpdate message of one rectangle. *)
Definition fbuMessage (rx ry rw rh enc : Z) (payload : list Z) : list Z :=
  [FramebufferUpdate; 0; 0; 1]
  ++ to_be 2 rx ++ to_be 2 ry ++ to_be 2 rw ++ to_be 2 rh ++ to_be 4 enc ++ payload.

(** A client in the running state with a white [w] x [h] framebuffer in
    the [rgb888] format and [input] buffered. *)
Definition runningClient (w h : Z) (input : list Z) : Client :=
  set_frameBufferHeight h
    (set_frameBufferWidth w
       (set_image (filledImage w h white)
          (set_pixelFormat rgb888
             (set_state WaitingState (initialClient (mkSocket true input [])))))).

(** A running client with a white 32x16 framebuffer and, buffered, the
    two tiles of a 32x16 Hextile rectangle: the first gives a red
    background and a blue foreground and has no subrectangle, the second
    gives no colour and has one subrectangle, 8 wide and 16 high, at its
    left edge. *)
Definition hextileForegroundClient : Client :=
  set_image (filledImage 32 16 white)
    (set_pixelFormat rgb888
       (set_state WaitingState
          (initialClient
             (mkSocket true [14; 0; 0; 0xFF; 0; 0xFF; 0; 0; 0; 0; 8; 1; 0x00; 0x7F] [])))).

(** A running client with a white 34x1 framebuffer and, buffered, the
    three tiles of a 34x1 Hextile rectangle: the first gives a red
    background, the second is Raw and holds 16 green pixels, the third
    has subencoding 0. *)
Definition hextileRawClient : Client :=
  set_image (filledImage 34 1 white)
    (set_pixelFormat rgb888
       (set_state WaitingState
          (initialClient
             (mkSocket true
                ([2; 0x00; 0x00; 0xFF; 0x00]
                 ++ [1] ++ concat (replicate 16 [0x00; 0xFF; 0x00; 0x00])
                 ++ [0]) [])))).

(** A ServerInit for a 16x16 framebuffer in the [rgb888] format, with an
    empty name. *)
Definition serverInit16 : list Z :=
  [0; 16; 0; 16] ++ [32; 24; 0; 1; 0; 255; 0; 255; 0; 255; 16; 8; 0; 0; 0; 0] ++ [0; 0; 0; 0].

(** A client object over two connections.  On the first it receives a
    Hextile tile with a red background; the connection is lost; on the
    second it goes through the 3.8 handshake without authentication and
    receives a Hextile tile of subencoding 0. *)
Definition reconnectedClient : Client :=
  let c := read (runningClient 16 16
                   (fbuMessage 0 0 16 16 Hextile [2; 0x00; 0x00; 0xFF; 0x00])) in
  let c := onDisconnected c in
  let c := onConnected (set_socket (mkSocket true [] []) c) in
  let c := read (arrive (banner 56) c) in
  let c := read (arrive [1; 1] c) in
  let c := read (arrive [0; 0; 0; 0] c) in
  let c := read (arrive serverInit16 c) in
  read (arrive (fbuMessage 0 0 16 16 Hextile [0]) c).

End Example.

(** ** Vocabulary of the proofs *)

Section Vocabulary.
Import Client.
Context {zl : Zlib}.

(** A well-formed image holds [width * height] pixels. *)
Definition wfImage (img : Image) : Prop :=
  0 ≤ img_width img ∧ 0 ≤ img_height img
  ∧ Z.of_nat (length (img_pixels img)) = img_width img * img_height img.

(** What an image looks like after some loop has painted it: same
    size, and every pixel either painted [c] (inside the region) or
    as before. *)
Definition painted (region : Z → Z → bool) (c : Z) (img img' : Image) : Prop :=
  wfImage img'
  ∧ img_width img' = img_width img
  ∧ img_height img' = img_height img
  ∧ ∀ x y, 0 ≤ x < img_width img → 0 ≤ y < img_height img →
      pixel x y img' = if region x y then c else pixel x y img.

(** The pixel formats on which the colour conversion is defined:
    [quint32 >> n] needs [n < 32]. *)
Definition shiftsDefined (pf : PixelFormat) : Prop :=
  0 ≤ redShift pf < 32 ∧ 0 ≤ greenShift pf < 32 ∧ 0 ≤ blueShift pf < 32.

(** [lo <= v < lo + len] *)
Definition inSpan (lo len v : Z) : bool := (lo <=? v) && (v <? lo + len).

(** The client after [n] bytes have been read from its socket. *)
Definition consumed (n : Z) (c : Client) : Client :=
  set_socket (sock_read n (socket c)).2 c.

(** Two images of the same dimensions, holding as many pixels. *)
Definition sameShape (a b : Image) : Prop :=
  img_width b = img_width a ∧ img_height b = img_height a
  ∧ length (img_pixels b) = length (img_pixels a).

(** What decoding may change of a client: input is consumed from the
    front of the queue, pixels are repainted in place, the Hextile
    cursor and colours and the zlib streams move, warnings are logged.
    Everything else stays: nothing is written, no signal is emitted, the
    protocol state, the pixel format, the framebuffer size and the
    bookkeeping of the update are as before. *)
Definition decodes (c c' : Client) : Prop :=
  state c' = state c
  ∧ reading c' = reading c
  ∧ pixelFormat c' = pixelFormat c
  ∧ protocolVersion c' = protocolVersion c
  ∧ securityType c' = securityType c
  ∧ password c' = password c
  ∧ vncChallenge c' = vncChallenge c
  ∧ frameBufferWidth c' = frameBufferWidth c
  ∧ frameBufferHeight c' = frameBufferHeight c
  ∧ queuedReads c' = queuedReads c
  ∧ connected (socket c') = connected (socket c)
  ∧ outbound (socket c') = outbound (socket c)
  ∧ (∃ k, inbound (socket c') = drop k (inbound (socket c)))
  ∧ sameShape (image c) (image c')
  ∧ (∃ ws, trace c' = trace c ++ (Warn <$> ws))
  ∧ totalRects (fbu c') = totalRects (fbu c)
  ∧ currentRect (fbu c') = currentRect (fbu c)
  ∧ rect (fbu c') = rect (fbu c)
  ∧ encoding (fbu c') = encoding (fbu c)
  ∧ active (fbu c') = active (fbu c)
  ∧ rectHeaderRead (fbu c') = rectHeaderRead (fbu c).

(** The updates of [fbu] a decoder makes: the Hextile cursor and
    colours. *)
Definition hextileUpdate (g : Fbu → Fbu) : Prop :=
  ∀ f, totalRects (g f) = totalRects f ∧ currentRect (g f) = currentRect f
       ∧ rect (g f) = rect f ∧ encoding (g f) = encoding f
       ∧ active (g f) = active f ∧ rectHeaderRead (g f) = rectHeaderRead f.

(** The incremental request for the whole framebuffer. *)
Definition incrementalRequest (c : Client) : list Z :=
  [3; 1; 0; 0; 0; 0] ++ to_be 2 (frameBufferWidth c mod 2 ^ 16)
  ++ to_be 2 (frameBufferHeight c mod 2 ^ 16).

(** What a pass over the rectangles of an update keeps. *)
Definition keeps (c c' : Client) : Prop :=
  state c' = state c
  ∧ reading c' = reading c
  ∧ pixelFormat c' = pixelFormat c
  ∧ frameBufferWidth c' = frameBufferWidth c
  ∧ frameBufferHeight c' = frameBufferHeight c
  ∧ connected (socket c') = connected (socket c)
  ∧ sameShape (image c) (image c').

(** The pixel of a Raw rectangle at [(x, y)], as laid out in [data]. *)
Definition rawPixel (pf : PixelFormat) (r : Rectangle) (data : list Z) (x y : Z) : Z :=
  toRgb pf (le (take 4 (drop (Z.to_nat (4 * ((y - rect_y r) * rect_w r + (x - rect_x r)))) data))).

(** The state of the Raw loops after [n] pixels. *)
Definition rawDone (r : Rectangle) (c0 : Client) (region : Z → Z → bool) (n : Z)
    (c : Client) : Prop :=
  isValid c = true
  ∧ pixelFormat c = pixelFormat c0
  ∧ inbound (socket c) = drop (Z.to_nat (4 * n)) (inbound (socket c0))
  ∧ wfImage (image c)
  ∧ img_width (image c) = img_width (image c0)
  ∧ img_height (image c) = img_height (image c0)
  ∧ ∀ x y, 0 ≤ x < img_width (image c0) → 0 ≤ y < img_height (image c0) →
      pixel x y (image c)
      = if region x y then rawPixel (pixelFormat c0) r (inbound (socket c0)) x y
        else pixel x y (image c0).

(** The SetEncodings message announces Tight, ZRLE, Hextile and Raw, in
    this order. *)
Definition setEncodingsMessage : list Z :=
  [2; 32; 0; 4; 0; 0; 0; 7; 0; 0; 0; 16; 0; 0; 0; 5; 0; 0; 0; 0].

(** The sixteen bytes that type one character. *)
Definition typedChar (ch : Z) : list Z :=
  [4; 1; 32; 32] ++ to_be 4 ch ++ [4; 0; 32; 32] ++ to_be 4 ch.

(** The RFB button mask of a button number of the tool set. *)
Definition buttonMaskOf (button : Z) : Z :=
  if button =? 2 then 2 else if button =? 3 then 4 else 1.

(** The six bytes of a PointerEvent. *)
Definition pointerMessage (mask x y : Z) : list Z :=
  [5; mask] ++ to_be 2 (x mod 2 ^ 16) ++ to_be 2 (y mod 2 ^ 16).

(** A step of a decoder that reads [k] bytes: on a connected client
    that has them buffered it consumes exactly these, keeps the socket
    connected and the pixel format, and does the same whatever else is
    buffered behind them. *)
Definition readsAt (k : Z) (f : Client → Client) (c : Client) : Prop :=
  isValid c = true → k ≤ bytesAvailable (socket c) →
  isValid (f c) = true
  ∧ pixelFormat (f c) = pixelFormat c
  ∧ inbound (socket (f c)) = drop (Z.to_nat k) (inbound (socket c))
  ∧ ∀ more, f (arrive more c) = arrive more (f c).

(** The same at every client. *)
Definition reads (k : Z) (f : Client → Client) : Prop := ∀ c, readsAt k f c.

(** A handshake message that has begun to arrive: at least one byte
    and fewer than the parser of the state waits for. *)
Definition partialMessage (c : Client) : Prop :=
  let n := bytesAvailable (socket c) in
  0 < n
  ∧ ((state c = ProtocolVersionState ∧ n < 12)
     ∨ (state c = SecurityState ∧ protocolVersion c = ProtocolVersion33 ∧ n < 4)
     ∨ (state c = VncAuthenticationState ∧ n < 16)
     ∨ (state c = SecurityResultState ∧ n < 4)
     ∨ (state c = ServerInitState ∧ n < 24)).

(** The number of [imageChanged] signals in a trace. *)
Definition imageChanges (t : list Event) : Z :=
  Z.of_nat (length (List.filter (λ e, match e with
                                      | SigImageChanged _ _ _ _ => true
                                      | _ => false
                                      end) t)).

(** The Hextile state a tile leaves: colours and image. *)
Definition hexState (c : Client) : Z * Z * Image :=
  (hextileBG (fbu c), hextileFG (fbu c), image c).

(** [c'] is [c] after some tiles: connected, in the same pixel format,
    with [rest] left to read. *)
Definition hexAfter (c c' : Client) (rest : list Z) : Prop :=
  isValid c' = true
  ∧ pixelFormat c' = pixelFormat c
  ∧ inbound (socket c') = rest.

End Vocabulary.

(** ** Loops *)

Lemma forZ_nil {S : Type} (lo hi : Z) (body : Z → S → S) (s : S) :
  hi ≤ lo → forZ lo hi body s = s.
Proof. intros H. unfold forZ. rewrite seqZ_nil by lia. reflexivity. Qed.

Lemma forZ_ext {S : Type} (lo hi : Z) (f g : Z → S → S) (s : S) :
  (∀ i acc, lo ≤ i < hi → f i acc = g i acc) → forZ lo hi f s = forZ lo hi g s.
Proof.
  unfold forZ. intros H.
  assert (Hin : ∀ i, i ∈ seqZ lo (hi - lo) → lo ≤ i < hi).
  { intros i Hi. apply elem_of_seqZ in Hi. lia. }
  revert s Hin. induction (seqZ lo (hi - lo)) as [|i l IH]; intros s Hin; simpl.
  - reflexivity.
  - rewrite H by (apply Hin; left). apply IH. intros j Hj. apply Hin. by right.
Qed.

Lemma forZ_invariant {S : Type} (P : S → Prop) (lo hi : Z) (body : Z → S → S) (s : S) :
  P s → (∀ i acc, lo ≤ i < hi → P acc → P (body i acc)) → P (forZ lo hi body s).
Proof.
  unfold forZ. intros Hs H.
  assert (Hin : ∀ i, i ∈ seqZ lo (hi - lo) → lo ≤ i < hi).
  { intros i Hi. apply elem_of_seqZ in Hi. lia. }
  revert s Hs Hin. induction (seqZ lo (hi - lo)) as [|i l IH]; intros s Hs Hin; simpl.
  - exact Hs.
  - apply IH.
    + apply H; [apply Hin; left | exact Hs].
    + intros j Hj. apply Hin. by right.
Qed.

Lemma forZ_snoc {S : Type} (lo hi : Z) (body : Z → S → S) (s : S) :
  lo ≤ hi → forZ lo (hi + 1) body s = body hi (forZ lo hi body s).
Proof.
  intros H. unfold forZ.
  replace (hi + 1 - lo) with ((hi - lo) + 1) by lia.
  rewrite seqZ_app by lia. rewrite fold_left_app.
  replace (lo + (hi - lo)) with hi by lia. reflexivity.
Qed.

(** Induction on a loop with an invariant that follows the index. *)
Lemma forZ_ind {St : Type} (P : Z → St → Prop) (lo hi : Z) (body : Z → St → St) (s : St) :
  lo ≤ hi →
  P lo s →
  (∀ i acc, lo ≤ i < hi → P i acc → P (i + 1) (body i acc)) →
  P hi (forZ lo hi body s).
Proof.
  intros Hle H0 Hstep.
  assert (G : ∀ n : nat, lo + Z.of_nat n ≤ hi →
              P (lo + Z.of_nat n) (forZ lo (lo + Z.of_nat n) body s)).
  { induction n as [|n IH]; intros Hn.
    - rewrite Z.add_0_r, forZ_nil by lia. exact H0.
    - replace (lo + Z.of_nat (S n)) with (lo + Z.of_nat n + 1) by lia.
      rewrite forZ_snoc by lia. apply Hstep; [lia|]. apply IH. lia. }
  specialize (G (Z.to_nat (hi - lo))).
  replace (lo + Z.of_nat (Z.to_nat (hi - lo))) with hi in G by lia.
  apply G. lia.
Qed.

(** ** Images *)

Section Images.
Import Client.

Lemma wfImage_setPixel x y c img : wfImage img → wfImage (setPixel x y c img).
Proof.
  unfold wfImage, setPixel. intros H. destruct (_ && _); [|exact H].
  cbn. unfold set_at. rewrite length_insert. exact H.
Qed.

Lemma size_setPixel x y c img :
  img_width (setPixel x y c img) = img_width img
  ∧ img_height (setPixel x y c img) = img_height img.
Proof. unfold setPixel. destruct (_ && _); split; reflexivity. Qed.

Lemma pixel_setPixel x y c img x' y' :
  wfImage img →
  0 ≤ x' < img_width img → 0 ≤ y' < img_height img →
  pixel x' y' (setPixel x y c img)
  = if (x =? x') && (y =? y') then c else pixel x' y' img.
Proof.
  intros (Hw & Hh & Hl) Hx Hy. unfold setPixel.
  destruct (Z.leb_spec 0 x), (Z.ltb_spec x (img_width img)),
    (Z.leb_spec 0 y), (Z.ltb_spec y (img_height img)); cbn [andb];
    try (destruct (Z.eqb_spec x x'), (Z.eqb_spec y y'); cbn [andb]; try reflexivity; lia).
  unfold pixel, at_, set_at. cbn [img_width img_pixels].
  rewrite list_lookup_insert.
  destruct (Z.eqb_spec x x') as [->|Hnx], (Z.eqb_spec y y') as [->|Hny]; cbn [andb].
  - rewrite decide_True; [reflexivity|]. split; [reflexivity|]. nia.
  - rewrite decide_False; [reflexivity|]. intros [E _]. apply Z2Nat.inj in E; nia.
  - rewrite decide_False; [reflexivity|]. intros [E _]. apply Z2Nat.inj in E; nia.
  - rewrite decide_False; [reflexivity|]. intros [E _]. apply Z2Nat.inj in E; nia.
Qed.

Lemma painted_setPixel region c img img' px py :
  painted region c img img' →
  painted (λ x y, region x y || ((px =? x) && (py =? y))) c img (setPixel px py c img').
Proof.
  intros (Hwf & Hw & Hh & Hp).
  destruct (size_setPixel px py c img') as [Ew Eh].
  split; [apply wfImage_setPixel, Hwf|]. split; [congruence|]. split; [congruence|].
  intros x y Hx Hy. rewrite pixel_setPixel by (try exact Hwf; lia).
  rewrite Hp by assumption.
  destruct (region x y), ((px =? x) && (py =? y)); reflexivity.
Qed.

Lemma painted_ext region region' c img img' :
  (∀ x y, region x y = region' x y) → painted region c img img' → painted region' c img img'.
Proof.
  intros E (Hwf & Hw & Hh & Hp). repeat split; try assumption; try apply Hwf.
  intros x y Hx Hy. rewrite <- E. apply Hp; assumption.
Qed.

Lemma fillRow_painted region x0 py w c img img' :
  painted region c img img' →
  painted (λ x y, region x y || (inSpan x0 w x && (py =? y))) c img
    (forZ 0 w (λ x img, setPixel (x0 + x) py c img) img').
Proof.
  intros H. destruct (Z.le_gt_cases 0 w) as [Hw|Hw].
  - apply (forZ_ind
      (λ i im, painted (λ x y, region x y || (inSpan x0 i x && (py =? y))) c img im));
      [exact Hw | |].
    + eapply painted_ext; [|exact H]. intros x y. unfold inSpan.
      destruct (region x y), (Z.leb_spec x0 x), (Z.ltb_spec x (x0 + 0)), (py =? y);
        cbn; try reflexivity; lia.
    + intros i acc Hi Hacc. eapply painted_ext; [|apply painted_setPixel, Hacc].
      intros x y. cbv beta. unfold inSpan.
      destruct (region x y), (Z.leb_spec x0 x), (Z.ltb_spec x (x0 + i)),
        (Z.ltb_spec x (x0 + (i + 1))), (Z.eqb_spec (x0 + i) x), (py =? y);
        cbn; try reflexivity; lia.
  - rewrite forZ_nil by lia. eapply painted_ext; [|exact H]. intros x y. unfold inSpan.
    destruct (region x y), (Z.leb_spec x0 x), (Z.ltb_spec x (x0 + w)), (py =? y);
      cbn; try reflexivity; lia.
Qed.

Lemma fillRect_painted region x0 y0 w h c img img' :
  painted region c img img' →
  painted (λ x y, region x y || (inSpan x0 w x && inSpan y0 h y)) c img
    (fillRect x0 y0 w h c img').
Proof.
  intros H. unfold fillRect. destruct (Z.le_gt_cases 0 h) as [Hh|Hh].
  - apply (forZ_ind
      (λ j im, painted (λ x y, region x y || (inSpan x0 w x && inSpan y0 j y)) c img im));
      [exact Hh | |].
    + eapply painted_ext; [|exact H]. intros x y. unfold inSpan.
      destruct (region x y), (Z.leb_spec y0 y), (Z.ltb_spec y (y0 + 0));
        cbn; rewrite ?andb_false_r; try reflexivity; lia.
    + intros j acc Hj Hacc. eapply painted_ext; [|apply fillRow_painted, Hacc].
      intros x y. cbv beta. unfold inSpan.
      destruct (region x y), ((x0 <=? x) && (x <? x0 + w)), (Z.leb_spec y0 y),
        (Z.ltb_spec y (y0 + j)), (Z.ltb_spec y (y0 + (j + 1))), (Z.eqb_spec (y0 + j) y);
        cbn; try reflexivity; lia.
  - rewrite forZ_nil by lia. eapply painted_ext; [|exact H]. intros x y. unfold inSpan.
    destruct (region x y), (Z.leb_spec y0 y), (Z.ltb_spec y (y0 + h));
      cbn; rewrite ?andb_false_r; try reflexivity; lia.
Qed.

Lemma painted_refl c img : wfImage img → painted (λ _ _, false) c img img.
Proof. intros H. repeat split; try apply H. Qed.

(** [fillRect] paints exactly the rectangle, clipped to the image. *)
Lemma pixel_fillRect x0 y0 w h c img x y :
  wfImage img →
  0 ≤ x < img_width img → 0 ≤ y < img_height img →
  pixel x y (fillRect x0 y0 w h c img)
  = if inSpan x0 w x && inSpan y0 h y then c else pixel x y img.
Proof.
  intros Hwf Hx Hy.
  destruct (fillRect_painted _ x0 y0 w h c img img (painted_refl c img Hwf))
    as (_ & _ & _ & Hp).
  apply Hp; assumption.
Qed.

End Images.

(** ** DES *)

Section DesProofs.
Import Des.

Lemma at_take (l : list Z) (n : nat) (i : Z) :
  0 ≤ i < Z.of_nat n → at_ (take n l) i = at_ l i.
Proof. intros H. unfold at_. rewrite lookup_take_lt by lia. reflexivity. Qed.

Lemma length_desSetBit data pos val : length (desSetBit data pos val) = length data.
Proof. unfold desSetBit, set_at. destruct (truthy val); apply length_insert. Qed.

Lemma length_permute table bits src n : length (permute table bits src n) = n.
Proof.
  unfold permute. apply forZ_invariant.
  - apply length_replicate.
  - intros i acc _ H. destruct (truthy _); [rewrite length_desSetBit|]; exact H.
Qed.

Lemma length_desEncryptBlock key input : length (desEncryptBlock key input) = 8%nat.
Proof.
  unfold desEncryptBlock.
  destruct (forZ 0 16 _ _) as [l r]. apply length_permute.
Qed.

(** A permutation reads its source only at the bytes its table names. *)
Lemma permute_ext table bits src1 src2 n :
  bits ≤ Z.of_nat (length table) →
  Forall (λ t, at_ src1 ((t - 1) / 8) = at_ src2 ((t - 1) / 8)) table →
  permute table bits src1 n = permute table bits src2 n.
Proof.
  intros Hb Ht. unfold permute. apply forZ_ext. intros i acc Hi.
  assert (Hl : ∃ t, table !! Z.to_nat i = Some t).
  { apply lookup_lt_is_Some_2. lia. }
  destruct Hl as [t Hl].
  assert (Et : at_ table i = t) by (unfold at_; rewrite Hl; reflexivity).
  rewrite Et. unfold desGetBit.
  rewrite (proj1 (Forall_lookup _ _) Ht _ _ Hl). reflexivity.
Qed.

(** The block function reads the first eight bytes of its input. *)
Lemma desEncryptBlock_take8 key input :
  desEncryptBlock key input = desEncryptBlock key (take 8 input).
Proof.
  unfold desEncryptBlock.
  rewrite (permute_ext IP_TABLE 64 input (take 8 input) 8);
    [reflexivity | vm_compute; discriminate |].
  unfold IP_TABLE.
  repeat (apply Forall_cons; split;
          [symmetry; apply at_take; vm_compute; split; [discriminate | reflexivity] |]).
  apply Forall_nil_2.
Qed.

Lemma reverseBits_range_check :
  forallb (λ b, desReverseBits (quint8 b) =? Spec.reverseBits b) (seqZ 0 256) = true.
Proof. vm_compute. reflexivity. Qed.

(** [desReverseBits] sends bit i to bit 7-i. *)
Lemma desReverseBits_spec b :
  0 ≤ b < 256 → desReverseBits (quint8 b) = Spec.reverseBits b.
Proof.
  intros H. pose proof reverseBits_range_check as C.
  rewrite forallb_forall in C. apply Z.eqb_eq, C.
  apply list_elem_of_In, elem_of_seqZ. lia.
Qed.

Lemma toLatin1_range (s : list Z) :
  Forall (λ c, 0 ≤ c < 65536) s → Forall (λ c, 0 ≤ c < 256) (toLatin1 s).
Proof.
  unfold toLatin1. intros H. apply Forall_fmap. eapply Forall_impl; [exact H|].
  intros c Hc. unfold compose. cbv beta in *. destruct (Z.gtb_spec c 0xFF); lia.
Qed.

Lemma reverseBits_zero : Spec.reverseBits 0 = 0.
Proof. reflexivity. Qed.

(** The key loop of [vncEncryptChallenge] builds the key of the
    specification. *)
Lemma vnc_key_loop (pwd : list Z) :
  Forall (λ c, 0 ≤ c < 256) pwd →
  forZ 0 (Z.min (Z.of_nat (length pwd)) 8)
    (λ i key, set_at key i (desReverseBits (quint8 (at_ pwd i)))) (replicate 8 0)
  = Spec.reverseBits <$> (take 8 pwd ++ replicate (8 - length (take 8 pwd)) 0).
Proof.
  intros H.
  assert (R : ∀ b, 0 ≤ b < 256 → desReverseBits (quint8 b) = Spec.reverseBits b)
    by apply desReverseBits_spec.
  pose proof reverseBits_zero as Z0.
  generalize dependent desReverseBits. generalize dependent Spec.reverseBits.
  intros rb Z0 drb R.
  do 8 (destruct pwd as [|? pwd];
    [ repeat match goal with
             | H : Forall _ (_ :: _) |- _ => apply Forall_cons in H; destruct H
             end;
      vm_compute; rewrite ?Z0, <- ?R by assumption; reflexivity
    | ]).
  repeat match goal with
         | H : Forall _ (_ :: _) |- _ => apply Forall_cons in H; destruct H
         end.
  replace (Z.min _ 8) with 8 by (simpl length; lia).
  vm_compute. rewrite <- ?R by assumption. reflexivity.
Qed.

End DesProofs.

(** C1.  The DES-ECB block encryption function matches the published
    FIPS 46-3 test vectors: all-zero key and block give 8CA64DE9C1B123A7;
    key 0123456789ABCDEF on 4E6F772069732074 gives 3FA40E8A984D4815; the
    all-ones key and block give 7359B2163E4EDC58; key FEDCBA9876543210 on
    0123456789ABCDEF gives ED39D950FA74BCC4. *)
Theorem desEncryptBlock_fips_vectors :
  Des.desEncryptBlock (replicate 8 0x00) (replicate 8 0x00)
    = [0x8C; 0xA6; 0x4D; 0xE9; 0xC1; 0xB1; 0x23; 0xA7]
  ∧ Des.desEncryptBlock [0x01; 0x23; 0x45; 0x67; 0x89; 0xAB; 0xCD; 0xEF]
                        [0x4E; 0x6F; 0x77; 0x20; 0x69; 0x73; 0x20; 0x74]
    = [0x3F; 0xA4; 0x0E; 0x8A; 0x98; 0x4D; 0x48; 0x15]
  ∧ Des.desEncryptBlock (replicate 8 0xFF) (replicate 8 0xFF)
    = [0x73; 0x59; 0xB2; 0x16; 0x3E; 0x4E; 0xDC; 0x58]
  ∧ Des.desEncryptBlock [0xFE; 0xDC; 0xBA; 0x98; 0x76; 0x54; 0x32; 0x10]
                        [0x01; 0x23; 0x45; 0x67; 0x89; 0xAB; 0xCD; 0xEF]
    = [0xED; 0x39; 0xD9; 0x50; 0xFA; 0x74; 0xBC; 0xC4].
Proof. repeat split; vm_compute; reflexivity. Qed.

(** C2.  For every password P (a string of 16-bit code units) and every
    16-byte challenge C, the response of [vncEncryptChallenge] is
    DES-ECB(K, C[0..8]) followed by DES-ECB(K, C[8..16]), 16 bytes in
    all, where K is the first 8 Latin-1 bytes of P, zero-padded, each
    with its bit order reversed; for the empty password and the all-zero
    challenge it is 8CA64DE9C1B123A7 twice. *)
Theorem vncEncryptChallenge_spec (P C : list Z) :
  Forall (λ c, 0 ≤ c < 65536) P →
  length C = 16%nat →
  Des.vncEncryptChallenge P C = Spec.vncResponse P C
  ∧ length (Des.vncEncryptChallenge P C) = 16%nat
  ∧ Des.vncEncryptChallenge [] (replicate 16 0)
    = [0x8C; 0xA6; 0x4D; 0xE9; 0xC1; 0xB1; 0x23; 0xA7;
       0x8C; 0xA6; 0x4D; 0xE9; 0xC1; 0xB1; 0x23; 0xA7].
Proof.
  intros HP HC. split; [|split].
  - unfold Des.vncEncryptChallenge, Spec.vncResponse, Spec.vncKey. cbv zeta.
    rewrite (vnc_key_loop (Des.toLatin1 P) (toLatin1_range P HP)).
    apply (f_equal2 app); apply desEncryptBlock_take8.
  - unfold Des.vncEncryptChallenge. cbv zeta.
    rewrite length_app, !length_desEncryptBlock. reflexivity.
  - vm_compute. reflexivity.
Qed.

(** Vector 5 of the specification: the effective key of "password". *)
Lemma vncKey_password_vector :
  Spec.vncKey [0x70; 0x61; 0x73; 0x73; 0x77; 0x6F; 0x72; 0x64]
  = [0x0E; 0x86; 0xCE; 0xCE; 0xEE; 0xF6; 0x4E; 0x26].
Proof. reflexivity. Qed.

(** The theorem at the password "password" and the all-zero challenge. *)
Lemma vncEncryptChallenge_spec_witness :
  Forall (λ c, 0 ≤ c < 65536) [0x70; 0x61; 0x73; 0x73; 0x77; 0x6F; 0x72; 0x64]
  ∧ length (replicate 16 0) = 16%nat
  ∧ Des.vncEncryptChallenge [0x70; 0x61; 0x73; 0x73; 0x77; 0x6F; 0x72; 0x64] (replicate 16 0)
    = Spec.vncResponse [0x70; 0x61; 0x73; 0x73; 0x77; 0x6F; 0x72; 0x64] (replicate 16 0).
Proof.
  assert (H : Forall (λ c, 0 ≤ c < 65536) [0x70; 0x61; 0x73; 0x73; 0x77; 0x6F; 0x72; 0x64])
    by (repeat constructor; lia).
  split; [exact H | split; [reflexivity |]].
  exact (proj1 (vncEncryptChallenge_spec _ (replicate 16 0) H eq_refl)).
Defined.

(** ** The Tight compact length *)

Section CompactLength.
Import Client.

Lemma at_byte (buf : list Z) (i : Z) :
  Forall (λ b, 0 ≤ b < 256) buf → 0 ≤ at_ buf i < 256.
Proof.
  intros H. unfold at_. destruct (buf !! Z.to_nat i) eqn:E; simpl; [|lia].
  exact (proj1 (Forall_lookup _ _) H _ _ E).
Qed.

Lemma lor_mul_pow2 (a k n : Z) :
  0 ≤ n → 0 ≤ a < 2 ^ n → Z.lor a (k * 2 ^ n) = a + k * 2 ^ n.
Proof.
  intros Hn Ha.
  assert (E : Z.land a (k * 2 ^ n) = 0).
  { apply Z.bits_inj'. intros i Hi. rewrite Z.land_spec, Z.bits_0.
    destruct (Z.lt_ge_cases i n) as [Hlt|Hge].
    - rewrite Z.mul_pow2_bits_low by lia. apply andb_false_r.
    - rewrite <- (Z.mod_small a (2 ^ n)) by lia.
      rewrite Z.mod_pow2_bits_high by lia. reflexivity. }
  rewrite <- Z.lxor_lor by exact E. symmetry. apply Z.add_nocarry_lxor, E.
Qed.

Lemma high_bit_check :
  forallb (λ b, Bool.eqb (truthy (Z.land b 0x80)) (128 <=? b)) (seqZ 0 256) = true.
Proof. vm_compute. reflexivity. Qed.

Lemma high_bit (b : Z) : 0 ≤ b < 256 → truthy (Z.land b 0x80) = (128 <=? b).
Proof.
  intros H. pose proof high_bit_check as C. rewrite forallb_forall in C.
  apply Bool.eqb_prop, C, list_elem_of_In, elem_of_seqZ. lia.
Qed.

Lemma low_bits (b : Z) : Z.land b 0x7F = b mod 128.
Proof. change 0x7F with (Z.ones 7). rewrite Z.land_ones by lia. reflexivity. Qed.

(** C7, as the code has it.  The compact length takes 1 to 3 bytes,
    least significant first.  The first and the second byte contribute
    their low 7 bits and their high bit says that another byte follows;
    the third byte contributes all of its 8 bits (as bits 14 to 21) and
    nothing follows it.  The largest length is therefore 2^22 - 1 =
    4194303 (about 4 MiB), reached on FF FF FF.  No byte is consumed
    when the buffer ends before the length does. *)
Theorem parseCompactLength_spec (buf : list Z) (off : Z) :
  Forall (λ b, 0 ≤ b < 256) buf →
  0 ≤ off →
  let n := (parseCompactLength buf off 0).1 in
  let len := (parseCompactLength buf off 0).2 in
  let b1 := at_ buf off in
  let b2 := at_ buf (off + 1) in
  let b3 := at_ buf (off + 2) in
  let avail := Z.of_nat (length buf) - off in
  ((n = 0 ∧ len = 0 ∧ (avail ≤ 0 ∨ (128 ≤ b1 ∧ (avail ≤ 1 ∨ (128 ≤ b2 ∧ avail ≤ 2)))))
   ∨ (n = 1 ∧ 0 < avail ∧ b1 < 128 ∧ len = b1)
   ∨ (n = 2 ∧ 1 < avail ∧ 128 ≤ b1 ∧ b2 < 128 ∧ len = b1 mod 128 + 2 ^ 7 * b2)
   ∨ (n = 3 ∧ 2 < avail ∧ 128 ≤ b1 ∧ 128 ≤ b2
      ∧ len = b1 mod 128 + 2 ^ 7 * (b2 mod 128) + 2 ^ 14 * b3))
  ∧ 0 ≤ len ≤ 4194303
  ∧ parseCompactLength [0xFF; 0xFF; 0xFF] 0 0 = (3, 4194303).
Proof.
  intros Hbuf Hoff.
  pose proof (at_byte buf off Hbuf) as H1.
  pose proof (at_byte buf (off + 1) Hbuf) as H2.
  pose proof (at_byte buf (off + 2) Hbuf) as H3.
  cbv zeta. unfold parseCompactLength.
  rewrite !high_bit by assumption. rewrite !low_bits.
  rewrite !Z.shiftl_mul_pow2 by lia.
  destruct (Z.leb_spec (Z.of_nat (length buf)) off); cbn [fst snd negb].
  { split; [left; lia | split; [lia | reflexivity]]. }
  destruct (Z.leb_spec 128 (at_ buf off)); cbn [fst snd negb].
  2: { split; [right; left; lia | split; [lia | reflexivity]]. }
  destruct (Z.leb_spec (Z.of_nat (length buf)) (off + 1)); cbn [fst snd negb].
  { split; [left; lia | split; [lia | reflexivity]]. }
  destruct (Z.leb_spec 128 (at_ buf (off + 1))); cbn [fst snd negb].
  2: { rewrite lor_mul_pow2 by (pose proof (Z.mod_pos_bound (at_ buf off) 128); lia).
       pose proof (Z.mod_pos_bound (at_ buf off) 128).
       split; [right; right; left; lia | split; [lia | reflexivity]]. }
  destruct (Z.leb_spec (Z.of_nat (length buf)) (off + 2)); cbn [fst snd negb].
  { split; [left; lia | split; [lia | reflexivity]]. }
  pose proof (Z.mod_pos_bound (at_ buf off) 128).
  pose proof (Z.mod_pos_bound (at_ buf (off + 1)) 128).
  replace (at_ buf (off + 1) `mod` 128 * 2 ^ 7) with ((at_ buf (off + 1) `mod` 128) * 2 ^ 7) by reflexivity.
  rewrite (lor_mul_pow2 (at_ buf (off + 1) `mod` 128 * 2 ^ 7) (at_ buf (off + 2)) 14) by lia.
  replace (at_ buf (off + 1) `mod` 128 * 2 ^ 7 + at_ buf (off + 2) * 2 ^ 14)
    with ((at_ buf (off + 1) `mod` 128 + at_ buf (off + 2) * 2 ^ 7) * 2 ^ 7) by lia.
  rewrite lor_mul_pow2 by lia.
  split; [right; right; right; lia | split; [lia | reflexivity]].
Qed.

End CompactLength.

(** C7 as stated fails: on FF FF FF the code returns 2^22 - 1, where
    seven bits per byte would give 2^21 - 1, and that maximum is a
    quarter of 16 MiB. *)
Lemma compact_length_third_byte_has_eight_bits :
  Client.parseCompactLength [0xFF; 0xFF; 0xFF] 0 0 = (3, 4194303)
  ∧ Spec.compactLength 0xFF 0xFF 0xFF = 2097151
  ∧ 4 * 4194303 < 16 * 2 ^ 20.
Proof. vm_compute. repeat split; reflexivity. Qed.

(** The theorem at the two-byte length 90 4E (= 10000). *)
Lemma parseCompactLength_spec_witness :
  Forall (λ b, 0 ≤ b < 256) [0x90; 0x4E]
  ∧ 0 ≤ 0
  ∧ Client.parseCompactLength [0x90; 0x4E] 0 0 = (2, 10000)
  ∧ 0 ≤ (Client.parseCompactLength [0x90; 0x4E] 0 0).2 ≤ 4194303.
Proof.
  assert (H : Forall (λ b, 0 ≤ b < 256) [0x90; 0x4E]) by (repeat constructor; lia).
  split; [exact H | split; [lia | split; [reflexivity |]]].
  exact (proj1 (proj2 (parseCompactLength_spec [0x90; 0x4E] 0 H (Z.le_refl 0)))).
Defined.

(** ** The client *)

Section ClientProofs.
Import Client.
Context {zl : Zlib} {jp : JpegCodec}.

Lemma password_sendVncAuthResponse (c : Client) :
  password (sendVncAuthResponse c) = password c.
Proof.
  unfold sendVncAuthResponse, clientInit, write, writeRaw, isValid.
  destruct c as [? ? ? ? [[] ? ?] ? ? [] ? ? ? ? ? ? ? ?]; reflexivity.
Qed.

Lemma password_setPassword (p : list Z) (c : Client) :
  password (setPassword p c) = p.
Proof.
  unfold setPassword. case_bool_decide as E; [exact E|].
  unfold passwordChangedSlot. destruct (_ && _).
  - rewrite password_sendVncAuthResponse. reflexivity.
  - reflexivity.
Qed.

(** C10.  The public setters are change detectors: called with the
    value already stored, [setProtocolVersion], [setSecurityType] and
    [setPassword] return the client as it was, with no signal emitted and
    nothing written; in particular a second [setPassword] with the same
    password changes nothing, so no authentication response is sent
    again. *)
Theorem setters_same_value_noop (c : Client) :
  setProtocolVersion (protocolVersion c) c = c
  ∧ setSecurityType (securityType c) c = c
  ∧ setPassword (password c) c = c
  ∧ ∀ p, setPassword p (setPassword p c) = setPassword p c.
Proof.
  repeat split.
  - unfold setProtocolVersion. rewrite bool_decide_eq_true_2; reflexivity.
  - unfold setSecurityType. rewrite bool_decide_eq_true_2; reflexivity.
  - unfold setPassword. rewrite bool_decide_eq_true_2; reflexivity.
  - intros p. unfold setPassword at 1.
    rewrite bool_decide_eq_true_2 by apply password_setPassword. reflexivity.
Qed.

(** What the disconnect handler does, for every client: the full reset
    of the connection state, and no change to the Tight streams. *)
Lemma onDisconnected_effect (c : Client) :
  let c' := onDisconnected c in
  tightData c' = tightData c
  ∧ state c' = ProtocolVersionState
  ∧ protocolVersion c' = ProtocolVersionUnknown
  ∧ securityType c' = SecurityTypeUnknwon
  ∧ image c' = nullImage
  ∧ zrleStream c' = None
  ∧ vncChallenge c' = []
  ∧ active (fbu c') = false
  ∧ SigConnectionStateChanged false ∈ trace c'
  ∧ socket c' = socket c.
Proof.
  unfold onDisconnected, reset, setSecurityType, setProtocolVersion. cbv zeta.
  repeat case_bool_decide; cbn; repeat split; try reflexivity; try assumption;
    rewrite ?elem_of_app, ?list_elem_of_singleton; auto 10.
Qed.

(** *** Hextile *)

(** *** Reads *)

Lemma be_zeros (l : list Z) (n : nat) : be (replicate n 0 ++ l) = be l.
Proof.
  unfold be. rewrite fold_left_app.
  replace (fold_left (λ acc b, acc * 256 + b) (replicate n 0) 0) with 0; [reflexivity|].
  induction n as [|n IH]; simpl; [reflexivity | exact IH].
Qed.

Lemma le_pad (l : list Z) (k n : nat) : le (l ++ drop k (replicate n 0)) = le l.
Proof.
  unfold le. rewrite drop_replicate, reverse_app, reverse_replicate. apply be_zeros.
Qed.

Lemma readT_valid (n : Z) (prior : list Z) (c : Client) :
  isValid c = true →
  readT n prior c
  = (peek n (socket c) ++ drop (length (peek n (socket c))) prior, consumed n c).
Proof. intros H. unfold readT. rewrite H. reflexivity. Qed.

Lemma fbu_readT (n : Z) (prior : list Z) (c : Client) : fbu (readT n prior c).2 = fbu c.
Proof. unfold readT. destruct (isValid c); reflexivity. Qed.

Lemma fbu_forZ (lo hi : Z) (body : Z → Client → Client) (c : Client) :
  (∀ i c, fbu (body i c) = fbu c) → fbu (forZ lo hi body c) = fbu c.
Proof.
  intros H. apply (forZ_invariant (λ c', fbu c' = fbu c)); [reflexivity|].
  intros i acc _ E. rewrite H. exact E.
Qed.

Lemma fbu_readPixel32 (px py : Z) (c : Client) : fbu (readPixel32 px py c) = fbu c.
Proof.
  unfold readPixel32. pose proof (fbu_readT 4 (replicate 4 0) c) as E.
  destruct (readT 4 (replicate 4 0) c) as [b c1]. exact E.
Qed.

Lemma fbu_hextileSubrect r ty th tx tw bpp sub (c : Client) :
  fbu (hextileSubrect r ty th tx tw bpp sub c) = fbu c.
Proof.
  unfold hextileSubrect.
  assert (E1 : ∀ col0, fbu (if flagged sub SubrectsColoured
      then if bpp =? 4 then let '(b, c0) := readT 4 (replicate 4 0) c in (le b, c0) else (col0, c)
      else (col0, c)).2 = fbu c).
  { intros col0. destruct (flagged _ _); [|reflexivity]. destruct (bpp =? 4); [|reflexivity].
    pose proof (fbu_readT 4 (replicate 4 0) c) as E.
    destruct (readT 4 (replicate 4 0) c). exact E. }
  specialize (E1 (hextileFG (fbu c))).
  destruct (if flagged sub SubrectsColoured then _ else _) as [color c1].
  pose proof (fbu_readT 1 [0] c1) as E2. destruct (readT 1 [0] c1) as [xy c2].
  pose proof (fbu_readT 1 [0] c2) as E3. destruct (readT 1 [0] c2) as [wh c3].
  cbn in *. congruence.
Qed.


Lemma sub_byte (s : Socket) :
  at_ (peek 1 s ++ drop (length (peek 1 s)) [0]) 0 = at_ (inbound s) 0.
Proof. unfold peek. destruct (inbound s); reflexivity. Qed.

Lemma hextileConsumeTile_colours r ty th tx tw bpp (c : Client) :
  isValid c = true →
  let sub := at_ (inbound (socket c)) 0 in
  let c' := hextileConsumeTile r ty th tx tw bpp c in
  hextileBG (fbu c')
  = (if negb (flagged sub RawSubencoding) && flagged sub BackgroundSpecified && (bpp =? 4)
     then le (take 4 (drop 1 (inbound (socket c))))
     else hextileBG (fbu c))
  ∧ hextileFG (fbu c')
    = (if negb (flagged sub RawSubencoding) && flagged sub AnySubrects
          && flagged sub ForegroundSpecified && (bpp =? 4)
       then le (take 4 (drop (if flagged sub BackgroundSpecified then 5 else 1)
                          (inbound (socket c))))
       else hextileFG (fbu c)).
Proof.
  intros Hv. cbv zeta. unfold hextileConsumeTile.
  rewrite readT_valid by exact Hv. cbv beta iota. rewrite sub_byte.
  set (sub := at_ (inbound (socket c)) 0).
  assert (Hv1 : isValid (consumed 1 c) = true) by exact Hv.
  destruct (flagged sub RawSubencoding); cbn [negb andb].
  { rewrite fbu_forZ; [split; reflexivity|].
    intros y c0. apply fbu_forZ. intros x c1.
    destruct (bpp =? 4); [apply fbu_readPixel32 | reflexivity]. }
  assert (Hsub : ∀ n c0, fbu (forZ 0 n (λ _ c1, hextileSubrect r ty th tx tw bpp sub c1) c0)
                         = fbu c0).
  { intros n c0. apply fbu_forZ. intros. apply fbu_hextileSubrect. }
  assert (Hv2 : ∀ c0 : Client, socket c0 = socket c → isValid c0 = true).
  { intros c0 E. unfold isValid. rewrite E. exact Hv. }
  destruct (flagged sub BackgroundSpecified), (bpp =? 4) eqn:Ebpp; cbn [andb];
    destruct (flagged sub AnySubrects), (flagged sub ForegroundSpecified); cbn [andb];
    repeat (first [ rewrite (readT_valid _ _ (consumed _ _)) by exact Hv
                  | rewrite (readT_valid _ _ (upd_fbu _ _)) by exact Hv
                  | rewrite (readT_valid _ _ (upd_image _ _)) by exact Hv ];
            cbv beta iota);
    rewrite ?Hsub; cbn [fbu upd_fbu upd_image set_fbu set_image hextileBG hextileFG
                        set_hextileBG set_hextileFG consumed set_socket];
    rewrite ?le_pad; split; try reflexivity.
  all: unfold peek, upd_image, upd_fbu, consumed, sock_read;
    cbn [inbound socket snd set_socket set_image set_fbu]; rewrite ?drop_drop; reflexivity.
Qed.


Lemma hextileConsumeTile_solid r ty th tx tw bpp (c : Client) :
  isValid c = true →
  let sub := at_ (inbound (socket c)) 0 in
  let c' := hextileConsumeTile r ty th tx tw bpp c in
  flagged sub RawSubencoding = false →
  flagged sub AnySubrects = false →
  image c' = fillRect (rect_x r + tx) (rect_y r + ty) tw th
               (toRgb (pixelFormat c) (hextileBG (fbu c'))) (image c).
Proof.
  intros Hv. cbv zeta. intros Hraw Hany. unfold hextileConsumeTile.
  rewrite readT_valid by exact Hv. cbv beta iota. rewrite sub_byte, Hraw, Hany.
  destruct (flagged _ BackgroundSpecified), (bpp =? 4);
    rewrite ?(readT_valid _ _ (consumed _ _)) by exact Hv; reflexivity.
Qed.



Lemma fbu_readRectHeader (c : Client) :
  let c' := readRectHeader c in
  hextileBG (fbu c') = hextileBG (fbu c)
  ∧ hextileFG (fbu c') = hextileFG (fbu c)
  ∧ hextileTX (fbu c') = 0
  ∧ hextileTY (fbu c') = 0.
Proof.
  cbv zeta. unfold readRectHeader.
  pose proof (fbu_readT 8 (rectangleBytes (rect (fbu c))) c) as E1.
  destruct (readT 8 _ c) as [b c1].
  pose proof (fbu_readT 4 (replicate 4 0) (upd_fbu (set_rect (rectangleOfBytes b)) c1)) as E2.
  destruct (readT 4 _ _) as [e c2].
  cbn in *. rewrite E2. cbn. rewrite E1. repeat split.
Qed.



(** *** ZRLE *)

Lemma cpixelSize_nonneg (pf : PixelFormat) : 0 ≤ bitsPerPixel pf → 0 ≤ cpixelSize pf.
Proof.
  intros H. unfold cpixelSize. destruct (_ && _); [lia|]. apply Z.div_pos; lia.
Qed.

Lemma readCPixel_offset pf buf off :
  0 ≤ bitsPerPixel pf →
  off ≤ (readCPixel pf buf off).2 ≤ Z.max off (Z.of_nat (length buf)).
Proof.
  intros H. pose proof (cpixelSize_nonneg pf H). unfold readCPixel.
  destruct (Z.gtb_spec (off + cpixelSize pf) (Z.of_nat (length buf))); cbn; lia.
Qed.

Lemma runLengthLoop_offset n buf off acc :
  off ≤ (runLengthLoop n buf off acc).2 ≤ off + Z.of_nat n
  ∧ (n ≠ 0%nat → off < (runLengthLoop n buf off acc).2).
Proof.
  revert off acc. induction n as [|n IH]; intros off acc; cbn [runLengthLoop].
  - cbn. split; [lia | congruence].
  - destruct (at_ buf off =? 255).
    + specialize (IH (off + 1) (int32 (acc + at_ buf off))). split; [lia|]. intros _. lia.
    + cbn. split; [lia|]. intros _. lia.
Qed.

Lemma readRunLength_offset buf off :
  let len := Z.of_nat (length buf) in
  off ≤ (readRunLength buf off).2 ≤ Z.max off len
  ∧ (off < len → off < (readRunLength buf off).2)
  ∧ (len ≤ off → readRunLength buf off = (1, off)).
Proof.
  cbv zeta. unfold readRunLength.
  pose proof (runLengthLoop_offset (Z.to_nat (Z.of_nat (length buf) - off)) buf off 0) as [H1 H2].
  destruct (runLengthLoop _ buf off 0) as [rl off'] eqn:E. cbn [snd] in *.
  split; [lia|]. split.
  - intros Hlt. apply H2. lia.
  - intros Hge. replace (Z.to_nat (Z.of_nat (length buf) - off)) with 0%nat in E by lia.
    cbn in E. inversion E. reflexivity.
Qed.

Lemma paintRun_pixels x0 y0 tw total pixels rl rgb img :
  (paintRun x0 y0 tw total pixels rl rgb img).1
  = pixels + Z.max 0 (Z.min rl (total - pixels)).
Proof. reflexivity. Qed.

(** The plain RLE loop does not run out of fuel. *)
Lemma plainRle_fuel pf buf x0 y0 tw total (fuel1 fuel2 : nat) off pixels img :
  0 ≤ bitsPerPixel pf →
  (plainRleFuel buf total off pixels ≤ fuel1)%nat →
  (plainRleFuel buf total off pixels ≤ fuel2)%nat →
  plainRleLoop fuel1 pf buf x0 y0 tw total off pixels img
  = plainRleLoop fuel2 pf buf x0 y0 tw total off pixels img.
Proof.
  intros Hpf. revert fuel2 off pixels img.
  induction fuel1 as [|f1 IH]; intros fuel2 off pixels img H1 H2.
  - destruct fuel2 as [|f2]; [reflexivity|].
    cbn [plainRleLoop]. destruct (Z.ltb_spec pixels total); [|reflexivity].
    unfold plainRleFuel in H1. lia.
  - destruct fuel2 as [|f2].
    + cbn [plainRleLoop]. destruct (Z.ltb_spec pixels total); [|reflexivity].
      unfold plainRleFuel in H2. lia.
    + cbn [plainRleLoop]. destruct (Z.ltb_spec pixels total) as [Hlt|]; [|reflexivity].
      pose proof (readCPixel_offset pf buf off Hpf) as Hc.
      destruct (readCPixel pf buf off) as [color off1]. cbn [snd] in Hc.
      pose proof (readRunLength_offset buf off1) as (Hr1 & Hr2 & Hr3).
      destruct (readRunLength buf off1) as [rl off2] eqn:Er. cbn [snd] in *.
      pose proof (paintRun_pixels x0 y0 tw total pixels rl (toRgb pf color) img) as Hp.
      destruct (paintRun x0 y0 tw total pixels rl (toRgb pf color) img) as [pixels' img'].
      cbn [fst] in Hp.
      assert (Hm : (plainRleFuel buf total off2 pixels' < plainRleFuel buf total off pixels)%nat).
      { unfold plainRleFuel in *.
        destruct (Z.lt_ge_cases off1 (Z.of_nat (length buf))) as [Hlo|Hhi].
        - specialize (Hr2 Hlo). lia.
        - specialize (Hr3 Hhi). inversion Hr3; subst. lia. }
      apply IH; lia.
Qed.

(** The palette RLE loop does not run out of fuel. *)
Lemma paletteRle_fuel buf palette paletteSize x0 y0 tw total (fuel1 fuel2 : nat)
    off pixels img :
  (Z.to_nat (Z.of_nat (length buf) - off) ≤ fuel1)%nat →
  (Z.to_nat (Z.of_nat (length buf) - off) ≤ fuel2)%nat →
  paletteRleLoop fuel1 buf palette paletteSize x0 y0 tw total off pixels img
  = paletteRleLoop fuel2 buf palette paletteSize x0 y0 tw total off pixels img.
Proof.
  revert fuel2 off pixels img.
  induction fuel1 as [|f1 IH]; intros fuel2 off pixels img H1 H2.
  - destruct fuel2 as [|f2]; [reflexivity|].
    cbn [paletteRleLoop].
    destruct (Z.ltb_spec pixels total), (Z.geb_spec off (Z.of_nat (length buf)));
      cbn [andb negb]; try reflexivity. lia.
  - destruct fuel2 as [|f2]; cbn [paletteRleLoop];
      destruct (Z.ltb_spec pixels total), (Z.geb_spec off (Z.of_nat (length buf)));
      cbn [andb negb]; try reflexivity; [lia|].
    destruct (truthy (Z.land (at_ buf off) 128)).
    + pose proof (readRunLength_offset buf (off + 1)) as (Hr1 & _ & _).
      destruct (readRunLength buf (off + 1)) as [rl off2]. cbn [snd] in Hr1.
      destruct (paintRun _ _ _ _ _ _ _ _) as [pixels' img'].
      apply IH; lia.
    + apply IH; lia.
Qed.

(** The decompression loop does not run out of fuel. *)
Lemma zrleInflate_fuel (fuel1 fuel2 : nat) (s : ZStream) (input acc : list Z) :
  (length input ≤ fuel1)%nat →
  (length input ≤ fuel2)%nat →
  zrleInflate fuel1 s input acc = zrleInflate fuel2 s input acc.
Proof.
  revert fuel2 s input acc.
  induction fuel1 as [|f1 IH]; intros fuel2 s input acc H1 H2;
    destruct fuel2 as [|f2]; try reflexivity; cbn [zrleInflate];
    pose proof (inflate_progress s input) as Hp;
    destruct (inflate s input 65536) as [[[ret out] rest] s'] eqn:E; cbn [fst snd] in Hp;
    repeat (case_match; try reflexivity);
    match goal with H : (Z.of_nat (length out) =? 65536) = true |- _ =>
      apply Z.eqb_eq in H; specialize (Hp H) end;
    try lia.
  apply IH; lia.
Qed.


(** Once the length prefix and the compressed bytes are buffered, every
    path through the ZRLE handler ends in [return true]. *)
Lemma handleZRLEEncoding_result (r : Rectangle) (c : Client) :
  let avail := bytesAvailable (socket c) in
  let len := be (peek 4 (socket c)) in
  (handleZRLEEncoding r c).1
  = negb ((avail <? 4) || (negb (len =? 0) && (avail <? 4 + len))).
Proof.
  cbv zeta. unfold handleZRLEEncoding.
  repeat (case_match; cbn [fst andb orb negb]; try reflexivity).
Qed.

(** A loop that carries a value it never changes. *)
Lemma forZ_carry {A S : Type} (lo hi : Z) (a : A) (body : Z → A * S → A * S)
    (g : Z → S → S) (s : S) :
  (∀ i s, lo ≤ i < hi → body i (a, s) = (a, g i s)) →
  forZ lo hi body (a, s) = (a, forZ lo hi g s).
Proof.
  unfold forZ. intros H.
  assert (Hin : ∀ i, i ∈ seqZ lo (hi - lo) → lo ≤ i < hi).
  { intros i Hi. apply elem_of_seqZ in Hi. lia. }
  revert s Hin. induction (seqZ lo (hi - lo)) as [|i l IH]; intros s Hin; simpl.
  - reflexivity.
  - rewrite H by (apply Hin; left). apply IH. intros j Hj. apply Hin. by right.
Qed.

Lemma toRgb_zero (pf : PixelFormat) : toRgb pf 0 = qRgb 0 0 0.
Proof. unfold toRgb. rewrite !Z.shiftr_0_l. reflexivity. Qed.

Lemma readCPixel_missing pf buf off :
  Z.of_nat (length buf) < off + cpixelSize pf → readCPixel pf buf off = (0, off).
Proof.
  intros H. unfold readCPixel.
  destruct (Z.gtb_spec (off + cpixelSize pf) (Z.of_nat (length buf))); [reflexivity | lia].
Qed.

(** A raw or solid tile none of whose CPIXELs is left in the data. *)
Lemma zrleTile_padded pf buf x0 y0 tw th sub off img :
  sub = 0 ∨ sub = 1 →
  Z.of_nat (length buf) < off + cpixelSize pf →
  zrleTile pf buf x0 y0 tw th sub off img
  = (off, fillRect x0 y0 tw th (qRgb 0 0 0) img, []).
Proof.
  intros [-> | ->] H; unfold zrleTile; cbn [Z.eqb].
  - unfold fillRect.
    rewrite (forZ_carry 0 th off _
               (λ y img, forZ 0 tw (λ x img, setPixel (x0 + x) (y0 + y) (qRgb 0 0 0) img) img)).
    { reflexivity. }
    intros y s _.
    rewrite (forZ_carry 0 tw off _ (λ x img, setPixel (x0 + x) (y0 + y) (qRgb 0 0 0) img)).
    { reflexivity. }
    intros x s' _. rewrite readCPixel_missing by exact H. rewrite toRgb_zero. reflexivity.
  - rewrite readCPixel_missing by exact H. rewrite toRgb_zero. reflexivity.
Qed.

(** Once the stream has been found truncated nothing more is decoded. *)
Lemma zrleTileStep_returned pf buf r ty th off img ws (txs : list Z) :
  fold_left (zrleTileStep pf buf r ty th) txs (true, off, img, ws) = (true, off, img, ws).
Proof. induction txs as [|tx txs IH]; [reflexivity | exact IH]. Qed.

Lemma zrleRows_returned pf buf r off img ws (txs tys : list Z) :
  fold_left
    (λ acc ty, fold_left (zrleTileStep pf buf r ty (Z.min 64 (rect_h r - ty))) txs acc)
    tys (true, off, img, ws)
  = (true, off, img, ws).
Proof.
  induction tys as [|ty tys IH]; [reflexivity|].
  cbn [fold_left]. rewrite zrleTileStep_returned. exact IH.
Qed.

Lemma zrleTileStep_truncated pf buf r ty th off img ws tx :
  Z.of_nat (length buf) ≤ off →
  zrleTileStep pf buf r ty th (false, off, img, ws) tx = (true, off, img, ws ++ [ZrleTruncated]).
Proof.
  intros H. unfold zrleTileStep.
  destruct (Z.geb_spec off (Z.of_nat (length buf))); [reflexivity | lia].
Qed.

Lemma zrleDecode_truncated pf buf r img tys1 ty tys2 txs1 tx txs2 off img' ws :
  tileOrigins (rect_h r) 64 = tys1 ++ ty :: tys2 →
  tileOrigins (rect_w r) 64 = txs1 ++ tx :: txs2 →
  fold_left (zrleTileStep pf buf r ty (Z.min 64 (rect_h r - ty))) txs1
    (fold_left
       (λ acc ty,
          fold_left (zrleTileStep pf buf r ty (Z.min 64 (rect_h r - ty)))
            (tileOrigins (rect_w r) 64) acc)
       tys1 (false, 0, img, []))
  = (false, off, img', ws) →
  Z.of_nat (length buf) ≤ off →
  zrleDecode pf buf r img = (true, off, img', ws ++ [ZrleTruncated]).
Proof.
  intros Ey Ex E Hoff. unfold zrleDecode.
  set (row := λ acc ty,
                fold_left (zrleTileStep pf buf r ty (Z.min 64 (rect_h r - ty)))
                  (tileOrigins (rect_w r) 64) acc) in *.
  rewrite Ey, fold_left_app. cbn [fold_left].
  assert (Hrow : ∀ a y, row a y
                        = fold_left (zrleTileStep pf buf r y (Z.min 64 (rect_h r - y)))
                            (tileOrigins (rect_w r) 64) a) by reflexivity.
  rewrite (Hrow _ ty), Ex, fold_left_app, E. cbn [fold_left].
  rewrite zrleTileStep_truncated by exact Hoff.
  rewrite zrleTileStep_returned. unfold row. apply zrleRows_returned.
Qed.

Lemma paletteRle_black_single buf palette ps x0 y0 tw total off pixels img :
  pixels < total → off < Z.of_nat (length buf) →
  truthy (Z.land (at_ buf off) 0x80) = false →
  ps ≤ at_ buf off →
  paletteRleLoop (Z.to_nat (Z.of_nat (length buf) - off)) buf palette ps x0 y0 tw total
    off pixels img
  = paletteRleLoop (Z.to_nat (Z.of_nat (length buf) - (off + 1))) buf palette ps x0 y0 tw total
      (off + 1) (pixels + 1)
      (setPixel (x0 + pixels mod tw) (y0 + pixels / tw) (qRgb 0 0 0) img).
Proof.
  intros Hp Ho Hb Hi.
  destruct (Z.to_nat (Z.of_nat (length buf) - off)) as [|f] eqn:Ef; [lia|].
  cbn [paletteRleLoop].
  destruct (Z.ltb_spec pixels total); [|lia].
  destruct (Z.geb_spec off (Z.of_nat (length buf))); [lia|]. cbn [andb negb].
  rewrite Hb. unfold paletteColor.
  destruct (Z.ltb_spec (at_ buf off) ps); [lia|].
  apply paletteRle_fuel; lia.
Qed.

Lemma paletteRle_black_run buf palette ps x0 y0 tw total off pixels img :
  pixels < total → off < Z.of_nat (length buf) →
  truthy (Z.land (at_ buf off) 0x80) = true →
  ps ≤ Z.land (at_ buf off) 0x7F →
  let rl := readRunLength buf (off + 1) in
  let p := paintRun x0 y0 tw total pixels rl.1 (qRgb 0 0 0) img in
  paletteRleLoop (Z.to_nat (Z.of_nat (length buf) - off)) buf palette ps x0 y0 tw total
    off pixels img
  = paletteRleLoop (Z.to_nat (Z.of_nat (length buf) - rl.2)) buf palette ps x0 y0 tw total
      rl.2 p.1 p.2.
Proof.
  intros Hp Ho Hb Hi. cbv zeta.
  destruct (Z.to_nat (Z.of_nat (length buf) - off)) as [|f] eqn:Ef; [lia|].
  cbn [paletteRleLoop].
  destruct (Z.ltb_spec pixels total); [|lia].
  destruct (Z.geb_spec off (Z.of_nat (length buf))); [lia|]. cbn [andb negb].
  rewrite Hb. unfold paletteColor.
  destruct (Z.ltb_spec (Z.land (at_ buf off) 127) ps); [lia|].
  pose proof (readRunLength_offset buf (off + 1)) as (Hr1 & _ & _).
  destruct (readRunLength buf (off + 1)) as [rl off2]. cbn [fst snd] in *.
  destruct (paintRun x0 y0 tw total pixels rl (qRgb 0 0 0) img) as [pixels' img'].
  cbn [fst snd]. apply paletteRle_fuel; lia.
Qed.


(** C9, as the code has it.  The ZRLE decoder is total on malformed
    decompressed data and reports the rectangle as complete: once the
    compressed bytes are buffered the handler returns true whatever zlib
    produces.  In a palette RLE tile an index at or beyond the palette
    size, single or run, paints black and the loop goes on with the next
    byte.  A stream that ends where a tile should start logs the
    truncation warning and stops: nothing more is decoded, so the pixels
    written so far stay.  A stream that ends inside a tile gives no
    warning: a tile of a defined subencoding never warns, decoding goes
    on to the next tile, a CPIXEL that is not there whole reads as 0
    without moving on, and a raw or solid tile none of whose CPIXELs is
    there is painted black.  None of the decoder's loops depends on the
    fuel of the model (they terminate).  Worked: an out-of-range palette
    index, single and run, paints black; a stream holding one solid tile
    for a two-tile rectangle paints the first tile, leaves the second,
    warns, and the rectangle is counted as done with its input
    consumed. *)
Theorem zrle_tolerates_malformed_data (r : Rectangle) (c : Client) :
  (let avail := bytesAvailable (socket c) in
   let len := be (peek 4 (socket c)) in
   (handleZRLEEncoding r c).1
   = negb ((avail <? 4) || (negb (len =? 0) && (avail <? 4 + len))))
  ∧ (∀ buf palette ps x0 y0 tw total off pixels img,
       pixels < total → off < Z.of_nat (length buf) →
       let fuel := λ o, Z.to_nat (Z.of_nat (length buf) - o) in
       (truthy (Z.land (at_ buf off) 0x80) = false →
        ps ≤ at_ buf off →
        paletteRleLoop (fuel off) buf palette ps x0 y0 tw total off pixels img
        = paletteRleLoop (fuel (off + 1)) buf palette ps x0 y0 tw total
            (off + 1) (pixels + 1)
            (setPixel (x0 + pixels mod tw) (y0 + pixels / tw) (qRgb 0 0 0) img))
       ∧ (truthy (Z.land (at_ buf off) 0x80) = true →
          ps ≤ Z.land (at_ buf off) 0x7F →
          let rl := readRunLength buf (off + 1) in
          let p := paintRun x0 y0 tw total pixels rl.1 (qRgb 0 0 0) img in
          paletteRleLoop (fuel off) buf palette ps x0 y0 tw total off pixels img
          = paletteRleLoop (fuel rl.2) buf palette ps x0 y0 tw total rl.2 p.1 p.2))
  ∧ qRgb 0 0 0 = 0xFF000000
  ∧ (∀ pf buf img tys1 ty tys2 txs1 tx txs2 off img' ws,
       tileOrigins (rect_h r) 64 = tys1 ++ ty :: tys2 →
       tileOrigins (rect_w r) 64 = txs1 ++ tx :: txs2 →
       fold_left (zrleTileStep pf buf r ty (Z.min 64 (rect_h r - ty))) txs1
         (fold_left
            (λ acc ty,
               fold_left (zrleTileStep pf buf r ty (Z.min 64 (rect_h r - ty)))
                 (tileOrigins (rect_w r) 64) acc)
            tys1 (false, 0, img, []))
       = (false, off, img', ws) →
       Z.of_nat (length buf) ≤ off →
       zrleDecode pf buf r img = (true, off, img', ws ++ [ZrleTruncated]))
  ∧ (∀ pf buf ty th off img ws tx,
       off < Z.of_nat (length buf) →
       let t := zrleTile pf buf (rect_x r + tx) (rect_y r + ty) (Z.min 64 (rect_w r - tx)) th
                  (at_ buf off) (off + 1) img in
       zrleTileStep pf buf r ty th (false, off, img, ws) tx = (false, t.1.1, t.1.2, ws ++ t.2))
  ∧ (∀ pf buf x0 y0 tw th sub off img,
       sub = 0 ∨ sub = 1 ∨ 2 ≤ sub ≤ 16 ∨ sub = 128 ∨ 130 ≤ sub →
       (zrleTile pf buf x0 y0 tw th sub off img).2 = [])
  ∧ (∀ pf buf off,
       Z.of_nat (length buf) < off + cpixelSize pf → readCPixel pf buf off = (0, off))
  ∧ (∀ pf buf x0 y0 tw th sub off img,
       shiftsDefined pf →
       sub = 0 ∨ sub = 1 →
       Z.of_nat (length buf) < off + cpixelSize pf →
       zrleTile pf buf x0 y0 tw th sub off img
       = (off, fillRect x0 y0 tw th (qRgb 0 0 0) img, []))
  ∧ (∀ pf buf x0 y0 tw total off pixels img (k : nat),
       0 ≤ bitsPerPixel pf →
       plainRleLoop (plainRleFuel buf total off pixels + k) pf buf x0 y0 tw total
         off pixels img
       = plainRleLoop (plainRleFuel buf total off pixels) pf buf x0 y0 tw total
           off pixels img)
  ∧ (∀ buf palette paletteSize x0 y0 tw total off pixels img (k : nat),
       paletteRleLoop (Z.to_nat (Z.of_nat (length buf) - off) + k) buf palette paletteSize
         x0 y0 tw total off pixels img
       = paletteRleLoop (Z.to_nat (Z.of_nat (length buf) - off)) buf palette paletteSize
           x0 y0 tw total off pixels img)
  ∧ (∀ s input (k : nat),
       zrleInflate (length input + k) s input [] = zrleInflate (length input) s input [])
  ∧ zrleDecode Example.rgb888 [130; 0xFF; 0; 0; 0; 0xFF; 0; 0x05; 0x85; 0]
      (mkRectangle 0 0 2 1) (filledImage 2 1 white)
    = (false, 10, mkImage 2 1 [qRgb 0 0 0; qRgb 0 0 0], [])
  ∧ (let c0 := Example.runningClient 65 1
                 (Example.fbuMessage 0 0 65 1 ZRLE ([0; 0; 0; 4] ++ [1; 0; 0; 0xFF])) in
     let c1 := read c0 in
     image c1 = mkImage 65 1 (replicate 64 (qRgb 255 0 0) ++ [white])
     ∧ trace c1 = [Warn ZrleTruncated; SigImageChanged 0 0 65 1]
     ∧ inbound (socket c1) = []
     ∧ active (fbu c1) = false
     ∧ currentRect (fbu c1) = 1).
Proof.
  split; [apply handleZRLEEncoding_result|].
  split.
  { intros buf palette ps x0 y0 tw total off pixels img Hp Ho. cbv zeta. split.
    - intros Hb Hi. apply paletteRle_black_single; assumption.
    - intros Hb Hi. apply (paletteRle_black_run buf palette ps x0 y0 tw total off pixels img);
        assumption. }
  split; [reflexivity|].
  split; [intros; eapply zrleDecode_truncated; eassumption|].
  split.
  { intros pf buf ty th off img ws tx Ho. cbv zeta. unfold zrleTileStep.
    destruct (Z.geb_spec off (Z.of_nat (length buf))); [lia|].
    destruct (zrleTile _ _ _ _ _ _ _ _ _) as [[o i] w]. reflexivity. }
  split.
  { intros pf buf x0 y0 tw th sub off img Hs. unfold zrleTile.
    repeat (case_match; try reflexivity); lia. }
  split; [intros pf buf off Hl; apply readCPixel_missing; exact Hl|].
  split.
  { intros pf buf x0 y0 tw th sub off img _ Hs Hl. apply zrleTile_padded; assumption. }
  split.
  { intros. apply plainRle_fuel; [assumption | lia | lia]. }
  split.
  { intros. apply paletteRle_fuel; lia. }
  split.
  { intros. apply zrleInflate_fuel; lia. }
  split; [vm_compute; reflexivity|].
  vm_compute. repeat split; reflexivity.
Qed.


(** *** Tight: the stream-reset flags *)




















End ClientProofs.

(** C5 (the code departs from the claim).  A disconnect resets the
    connection state and ends the ZRLE stream, but the Tight streams that
    were active stay active: [reset] never calls
    [TightData::resetZlibStreams], which would have ended them. *)
Theorem disconnect_leaves_tight_streams_active :
  let c := Client.onDisconnected Example.tightBusyClient in
  Client.state c = Client.ProtocolVersionState
  ∧ Client.zrleStream c = None
  ∧ Client.tightData c = [Some tt; None; Some tt; None]
  ∧ Client.resetZlibStreams (Client.tightData c) = [None; None; None; None].
Proof. vm_compute. repeat split; reflexivity. Qed.

(** C3 (the code departs from the claim).  With the count byte of a
    3.8 security list buffered and the types missing, [parseSecurity37]
    consumes the count and waits; when the two types then arrive, the
    first of them is read as a count and nothing is selected, whereas the
    same three bytes delivered at once select VncAuthentication.  With
    the 24 header bytes of a ServerInit buffered and the name missing,
    [parserServerInit] consumes the header, resizes the framebuffer and
    emits [framebufferSizeChanged], and stays in [ServerInitState]. *)
Theorem parsers_consume_before_complete :
  (let c := Client.parseSecurity37 Example.securityListClient in
   Client.inbound (Client.socket Example.securityListClient) = [2]
   ∧ Client.inbound (Client.socket c) = []
   ∧ Client.state c = Client.SecurityState
   ∧ Client.securityType c = Client.SecurityTypeUnknwon)
  ∧ (let c := Client.read (Client.arrive [2; 1]
                             (Client.read Example.securityListClient)) in
     Client.securityType c = Client.SecurityTypeUnknwon
     ∧ Client.state c = Client.SecurityState
     ∧ Client.inbound (Client.socket c) = [1]
     ∧ Client.outbound (Client.socket c) = [])
  ∧ (let c := Client.read (Client.arrive [2; 1] Example.securityListClient) in
     Client.securityType c = Client.SecurityTypeVncAuthentication
     ∧ Client.state c = Client.VncAuthenticationState
     ∧ Client.inbound (Client.socket c) = []
     ∧ Client.outbound (Client.socket c) = [2])
  ∧ (let c := Client.parserServerInit Example.serverInitClient in
     Client.bytesAvailable (Client.socket Example.serverInitClient) = 24
     ∧ Client.inbound (Client.socket c) = []
     ∧ Client.state c = Client.ServerInitState
     ∧ Client.frameBufferWidth c = 2
     ∧ Client.frameBufferHeight c = 1
     ∧ Client.image c = Client.filledImage 2 1 Client.white
     ∧ Client.trace c = [Client.SigFramebufferSizeChanged 2 1]).
Proof. vm_compute. repeat split; reflexivity. Qed.




(** C9 as stated fails: the decompressed stream of this 2x1 rectangle
    holds the subencoding byte of its only tile and none of the two
    CPIXELs, so it ends before the tile is decoded; no warning is logged,
    the tile is painted black and the rectangle is announced. *)
Lemma zrle_stream_ending_in_tile_gives_no_warning :
  let c0 := Example.runningClient 2 1
              (Example.fbuMessage 0 0 2 1 Client.ZRLE ([0; 0; 0; 1] ++ [0])) in
  let c1 := Client.read c0 in
  Client.trace c1 = [Client.SigImageChanged 0 0 2 1]
  ∧ Client.image c1 = Client.mkImage 2 1 [Client.qRgb 0 0 0; Client.qRgb 0 0 0]
  ∧ Client.inbound (Client.socket c1) = []
  ∧ Client.active (Client.fbu c1) = false.
Proof. vm_compute. repeat split; reflexivity. Qed.

(** The theorem at a raw tile of which only the subencoding byte is
    left in the data. *)
Lemma zrle_tolerates_malformed_data_witness :
  shiftsDefined Example.rgb888
  ∧ Client.zrleTile Example.rgb888 [0] 0 0 2 1 0 1 (Client.filledImage 2 1 Client.white)
    = (1, Client.fillRect 0 0 2 1 (Client.qRgb 0 0 0) (Client.filledImage 2 1 Client.white), []).
Proof.
  assert (Hs : shiftsDefined Example.rgb888) by (unfold shiftsDefined; simpl; lia).
  split; [exact Hs|].
  apply (proj1 (proj2 (proj2 (proj2 (proj2 (proj2 (proj2 (proj2
           (zrle_tolerates_malformed_data
              (Client.mkRectangle 0 0 2 1) (Example.runningClient 2 1 [])))))))))).
  - exact Hs.
  - left; reflexivity.
  - vm_compute. reflexivity.
Defined.

(** * Further properties of the code *)

(** ** DES: key bits *)

Section DesMore.
Import Des.

(** A permutation reads its source only at the bits its table names. *)
Lemma permute_ext_bits table bits src1 src2 n :
  bits ≤ Z.of_nat (length table) →
  Forall (λ t, desGetBit src1 t = desGetBit src2 t) table →
  permute table bits src1 n = permute table bits src2 n.
Proof.
  intros Hb Ht. unfold permute. apply forZ_ext. intros i acc Hi.
  assert (Hl : ∃ t, table !! Z.to_nat i = Some t).
  { apply lookup_lt_is_Some_2. lia. }
  destruct Hl as [t Hl].
  assert (Et : at_ table i = t) by (unfold at_; rewrite Hl; reflexivity).
  rewrite Et. rewrite (proj1 (Forall_lookup _ _) Ht _ _ Hl). reflexivity.
Qed.

(** Bit 8 of a byte apart, [desGetBit] reads the byte without its least
    significant bit. *)
Lemma desGetBit_high (k1 k2 : list Z) (t : Z) :
  (t - 1) mod 8 ≠ 7 →
  at_ k1 ((t - 1) / 8) / 2 = at_ k2 ((t - 1) / 8) / 2 →
  desGetBit k1 t = desGetBit k2 t.
Proof.
  intros Hm E. unfold desGetBit.
  pose proof (Z.mod_pos_bound (t - 1) 8 ltac:(lia)) as Hb.
  replace (7 - (t - 1) mod 8) with (1 + (6 - (t - 1) mod 8)) by lia.
  rewrite <- !Z.shiftr_shiftr by lia.
  rewrite !(Z.shiftr_div_pow2 _ 1) by lia. change (2 ^ 1) with 2.
  rewrite E. reflexivity.
Qed.

Lemma PC1_skips_parity :
  forallb (λ t, (1 <=? t) && (t <=? 64) && negb ((t - 1) mod 8 =? 7)) PC1_TABLE = true.
Proof. vm_compute. reflexivity. Qed.

Lemma desKeySchedule_parity (key key' : list Z) :
  (∀ i, 0 ≤ i < 8 → at_ key i / 2 = at_ key' i / 2) →
  desKeySchedule key = desKeySchedule key'.
Proof.
  intros H. unfold desKeySchedule.
  rewrite (permute_ext_bits PC1_TABLE 56 key key' 7); [reflexivity | vm_compute; discriminate |].
  pose proof PC1_skips_parity as C. rewrite forallb_forall in C.
  apply Forall_forall. intros t Ht.
  specialize (C t (proj1 (list_elem_of_In _ _) Ht)).
  apply andb_prop in C as [C1 C3]. apply andb_prop in C1 as [C1 C2].
  apply Z.leb_le in C1, C2. apply negb_true_iff, Z.eqb_neq in C3.
  apply desGetBit_high; [exact C3|]. apply H.
  split; [apply Z.div_pos; lia | apply Z.div_lt_upper_bound; lia].
Qed.

Lemma reverseBits_low7_check :
  forallb (λ b, Spec.reverseBits b / 2 =? Spec.reverseBits (b mod 128) / 2) (seqZ 0 256) = true.
Proof. vm_compute. reflexivity. Qed.

Lemma reverseBits_low7 (b : Z) :
  0 ≤ b < 256 → Spec.reverseBits b / 2 = Spec.reverseBits (b mod 128) / 2.
Proof.
  intros H. pose proof reverseBits_low7_check as C. rewrite forallb_forall in C.
  apply Z.eqb_eq, C, list_elem_of_In, elem_of_seqZ. lia.
Qed.

(** The key of the specification, byte by byte. *)
Lemma at_vncKey (pwd : list Z) (i : Z) :
  0 ≤ i < 8 →
  at_ (Spec.reverseBits <$> (take 8 pwd ++ replicate (8 - length (take 8 pwd)) 0)) i
  = Spec.reverseBits (at_ pwd i).
Proof.
  intros Hi. unfold at_. rewrite list_lookup_fmap.
  destruct (decide (Z.to_nat i < length pwd)%nat) as [Hlt|Hge].
  - rewrite lookup_app_l by (rewrite length_take; lia).
    rewrite lookup_take_lt by lia.
    destruct (lookup_lt_is_Some_2 pwd (Z.to_nat i) Hlt) as [b ->]. reflexivity.
  - rewrite (lookup_ge_None_2 pwd) by lia.
    rewrite lookup_app_r by (rewrite length_take; lia).
    rewrite lookup_replicate_2 by (rewrite length_take; lia). reflexivity.
Qed.

(** X1.  DES uses 56 of the 64 key bits: the least significant bit of
    every key byte (the parity bit of the standard) has no effect on
    the key schedule, hence none on the encrypted block. *)
Theorem desEncryptBlock_ignores_parity_bits (key key' input : list Z) :
  (∀ i, 0 ≤ i < 8 → at_ key i / 2 = at_ key' i / 2) →
  desKeySchedule key = desKeySchedule key'
  ∧ desEncryptBlock key input = desEncryptBlock key' input.
Proof.
  intros H. pose proof (desKeySchedule_parity key key' H) as E.
  split; [exact E|]. unfold desEncryptBlock. rewrite E. reflexivity.
Qed.

(** X2.  The VNC response depends only on the low seven bits of the
    first eight Latin-1 characters of the password: the bit reversal
    moves bit 7 of each character to the position DES ignores, a missing
    character counts as NUL, and characters after the eighth are not
    read. *)
Theorem vncEncryptChallenge_effective_password (P P' C : list Z) :
  Forall (λ c, 0 ≤ c < 65536) P →
  Forall (λ c, 0 ≤ c < 65536) P' →
  (∀ i, 0 ≤ i < 8 → at_ (toLatin1 P) i mod 128 = at_ (toLatin1 P') i mod 128) →
  vncEncryptChallenge P C = vncEncryptChallenge P' C.
Proof.
  intros HP HP' H. unfold vncEncryptChallenge. cbv zeta.
  rewrite (vnc_key_loop (toLatin1 P) (toLatin1_range P HP)).
  rewrite (vnc_key_loop (toLatin1 P') (toLatin1_range P' HP')).
  assert (E : desKeySchedule
                (Spec.reverseBits <$>
                   (take 8 (toLatin1 P) ++ replicate (8 - length (take 8 (toLatin1 P))) 0))
              = desKeySchedule
                  (Spec.reverseBits <$>
                     (take 8 (toLatin1 P') ++ replicate (8 - length (take 8 (toLatin1 P'))) 0))).
  { apply desKeySchedule_parity. intros i Hi. rewrite !at_vncKey by exact Hi.
    rewrite (reverseBits_low7 (at_ (toLatin1 P) i))
      by (apply at_byte, toLatin1_range, HP).
    rewrite (reverseBits_low7 (at_ (toLatin1 P') i))
      by (apply at_byte, toLatin1_range, HP').
    rewrite H by exact Hi. reflexivity. }
  unfold desEncryptBlock. rewrite E. reflexivity.
Qed.

End DesMore.

Lemma desEncryptBlock_ignores_parity_bits_witness :
  Des.desEncryptBlock [0x01; 0x23; 0x45; 0x67; 0x89; 0xAB; 0xCD; 0xEF] (replicate 8 0)
  = Des.desEncryptBlock [0x00; 0x22; 0x44; 0x66; 0x88; 0xAA; 0xCC; 0xEE] (replicate 8 0).
Proof.
  apply (desEncryptBlock_ignores_parity_bits
           [0x01; 0x23; 0x45; 0x67; 0x89; 0xAB; 0xCD; 0xEF]
           [0x00; 0x22; 0x44; 0x66; 0x88; 0xAA; 0xCC; 0xEE]).
  intros i Hi.
  assert (Hc : i = 0 ∨ i = 1 ∨ i = 2 ∨ i = 3 ∨ i = 4 ∨ i = 5 ∨ i = 6 ∨ i = 7) by lia.
  destruct Hc as [->|[->|[->|[->|[->|[->|[->| ->]]]]]]]; reflexivity.
Defined.

(** The theorem at the password "password" and at the same password with
    bit 7 set on its first letter and a ninth character added. *)
Lemma vncEncryptChallenge_effective_password_witness :
  Des.vncEncryptChallenge [0x70; 0x61; 0x73; 0x73; 0x77; 0x6F; 0x72; 0x64] (replicate 16 0)
  = Des.vncEncryptChallenge [0xF0; 0x61; 0x73; 0x73; 0x77; 0x6F; 0x72; 0x64; 0x21]
      (replicate 16 0).
Proof.
  apply vncEncryptChallenge_effective_password.
  - repeat constructor; lia.
  - repeat constructor; lia.
  - intros i Hi.
    assert (Hc : i = 0 ∨ i = 1 ∨ i = 2 ∨ i = 3 ∨ i = 4 ∨ i = 5 ∨ i = 6 ∨ i = 7) by lia.
    destruct Hc as [->|[->|[->|[->|[->|[->|[->| ->]]]]]]]; reflexivity.
Defined.

(** ** DES: bit addressing *)

Section DesBits.
Import Des.

Lemma at_set_at (l : list Z) (i j v : Z) :
  0 ≤ i < Z.of_nat (length l) → 0 ≤ j →
  at_ (set_at l i v) j = if i =? j then v else at_ l j.
Proof.
  intros Hi Hj. unfold at_, set_at. rewrite list_lookup_insert.
  destruct (Z.eqb_spec i j) as [->|Hne].
  - rewrite decide_True; [reflexivity|]. split; [reflexivity | lia].
  - rewrite decide_False; [reflexivity|]. intros [E _]. apply Z2Nat.inj in E; lia.
Qed.

Lemma In_seqZ (v n : Z) : 0 ≤ v < n → In v (seqZ 0 n).
Proof. intros H. apply list_elem_of_In, elem_of_seqZ. lia. Qed.

Lemma bit_ops_check :
  forallb (λ b,
    forallb (λ k,
      (0 <=? Z.lor b (quint8 (Z.shiftl 1 k))) && (Z.lor b (quint8 (Z.shiftl 1 k)) <? 256)
      && (0 <=? Z.land b (quint8 (Z.lnot (Z.shiftl 1 k))))
      && (Z.land b (quint8 (Z.lnot (Z.shiftl 1 k))) <? 256)
      && forallb (λ k',
           (Z.land (Z.shiftr (Z.lor b (quint8 (Z.shiftl 1 k))) k') 1
            =? if k =? k' then 1 else Z.land (Z.shiftr b k') 1)
           && (Z.land (Z.shiftr (Z.land b (quint8 (Z.lnot (Z.shiftl 1 k)))) k') 1
               =? if k =? k' then 0 else Z.land (Z.shiftr b k') 1))
           (seqZ 0 8))
      (seqZ 0 8))
    (seqZ 0 256) = true.
Proof. vm_compute. reflexivity. Qed.

Lemma bit_ops (b k k' : Z) :
  0 ≤ b < 256 → 0 ≤ k < 8 → 0 ≤ k' < 8 →
  0 ≤ Z.lor b (quint8 (Z.shiftl 1 k)) < 256
  ∧ 0 ≤ Z.land b (quint8 (Z.lnot (Z.shiftl 1 k))) < 256
  ∧ Z.land (Z.shiftr (Z.lor b (quint8 (Z.shiftl 1 k))) k') 1
    = (if k =? k' then 1 else Z.land (Z.shiftr b k') 1)
  ∧ Z.land (Z.shiftr (Z.land b (quint8 (Z.lnot (Z.shiftl 1 k)))) k') 1
    = (if k =? k' then 0 else Z.land (Z.shiftr b k') 1).
Proof.
  intros Hb Hk Hk'. pose proof bit_ops_check as C.
  rewrite forallb_forall in C.
  specialize (C b (In_seqZ b 256 Hb)).
  rewrite forallb_forall in C.
  specialize (C k (In_seqZ k 8 Hk)).
  apply andb_prop in C as [C C5]. apply andb_prop in C as [C C4].
  apply andb_prop in C as [C C3]. apply andb_prop in C as [C1 C2].
  rewrite forallb_forall in C5.
  specialize (C5 k' (In_seqZ k' 8 Hk')).
  apply andb_prop in C5 as [C5 C6].
  apply Z.leb_le in C1, C3. apply Z.ltb_lt in C2, C4. apply Z.eqb_eq in C5, C6.
  repeat split; assumption.
Qed.

Lemma desSetBit_bytes (data : list Z) (pos val : Z) :
  1 ≤ pos →
  Forall (λ b, 0 ≤ b < 256) data → Forall (λ b, 0 ≤ b < 256) (desSetBit data pos val).
Proof.
  intros Hp H. unfold desSetBit, set_at.
  pose proof (Z.mod_pos_bound (pos - 1) 8 ltac:(lia)) as Hm.
  pose proof (at_byte data ((pos - 1) / 8) H) as Hb.
  destruct (bit_ops (at_ data ((pos - 1) / 8)) (7 - (pos - 1) mod 8) 0 Hb ltac:(lia) ltac:(lia))
    as (R1 & R2 & _).
  destruct (truthy val); apply Forall_insert; assumption.
Qed.

(** X3.  [desSetBit] and [desGetBit] address the same bit: in an array
    of bytes, writing bit [pos] (1-indexed, most significant bit of
    byte 0 first) makes [desGetBit] read 1 or 0 there, as the value
    written is non-zero or zero, leaves every other bit as it was, and
    keeps every element a byte. *)
Theorem desGetBit_desSetBit (data : list Z) (pos pos' val : Z) :
  Forall (λ b, 0 ≤ b < 256) data →
  1 ≤ pos ≤ 8 * Z.of_nat (length data) →
  1 ≤ pos' →
  desGetBit (desSetBit data pos val) pos'
  = (if pos' =? pos then (if truthy val then 1 else 0) else desGetBit data pos')
  ∧ Forall (λ b, 0 ≤ b < 256) (desSetBit data pos val)
  ∧ length (desSetBit data pos val) = length data.
Proof.
  intros H Hp Hp'. split; [|split; [apply desSetBit_bytes; [lia | exact H] | apply length_desSetBit]].
  pose proof (Z.mod_pos_bound (pos - 1) 8 ltac:(lia)) as Hm.
  pose proof (Z.mod_pos_bound (pos' - 1) 8 ltac:(lia)) as Hm'.
  pose proof (Z.div_mod (pos - 1) 8 ltac:(lia)) as Hd.
  pose proof (Z.div_mod (pos' - 1) 8 ltac:(lia)) as Hd'.
  assert (Hi : 0 ≤ (pos - 1) / 8 < Z.of_nat (length data)).
  { split; [apply Z.div_pos; lia | apply Z.div_lt_upper_bound; lia]. }
  assert (Hj : 0 ≤ (pos' - 1) / 8) by (apply Z.div_pos; lia).
  pose proof (at_byte data ((pos - 1) / 8) H) as Hb.
  destruct (bit_ops (at_ data ((pos - 1) / 8)) (7 - (pos - 1) mod 8) (7 - (pos' - 1) mod 8)
              Hb ltac:(lia) ltac:(lia)) as (_ & _ & R3 & R4).
  unfold desGetBit, desSetBit.
  destruct (truthy val); rewrite at_set_at by assumption.
  - destruct (Z.eqb_spec ((pos - 1) / 8) ((pos' - 1) / 8)) as [E|Hne].
    + rewrite R3.
      destruct (Z.eqb_spec (7 - (pos - 1) mod 8) (7 - (pos' - 1) mod 8)),
        (Z.eqb_spec pos' pos); try reflexivity; try lia.
      rewrite E. reflexivity.
    + destruct (Z.eqb_spec pos' pos); [subst; lia | reflexivity].
  - destruct (Z.eqb_spec ((pos - 1) / 8) ((pos' - 1) / 8)) as [E|Hne].
    + rewrite R4.
      destruct (Z.eqb_spec (7 - (pos - 1) mod 8) (7 - (pos' - 1) mod 8)),
        (Z.eqb_spec pos' pos); try reflexivity; try lia.
      rewrite E. reflexivity.
    + destruct (Z.eqb_spec pos' pos); [subst; lia | reflexivity].
Qed.

Lemma permute_bytes table bits src n :
  Forall (λ b, 0 ≤ b < 256) (permute table bits src n).
Proof.
  unfold permute. apply forZ_invariant.
  - apply Forall_replicate. lia.
  - intros i acc Hi H. destruct (truthy _); [|exact H].
    apply desSetBit_bytes; [lia | exact H].
Qed.

(** X4.  Whatever the password (code units above 0xFF included) and
    the sixteen bytes of the challenge, the response to the VNC
    challenge is sixteen bytes, each in [0, 256). *)
Theorem vncEncryptChallenge_bytes (password challenge : list Z) :
  length challenge = 16%nat →
  length (vncEncryptChallenge password challenge) = 16%nat
  ∧ Forall (λ b, 0 ≤ b < 256) (vncEncryptChallenge password challenge).
Proof.
  intros _. unfold vncEncryptChallenge. cbv zeta. split.
  - rewrite length_app, !length_desEncryptBlock. reflexivity.
  - apply Forall_app. split; unfold desEncryptBlock;
      destruct (forZ 0 16 _ _) as [l r]; apply permute_bytes.
Qed.

End DesBits.

Lemma desGetBit_desSetBit_witness :
  Des.desGetBit (Des.desSetBit [0; 0xFF] 10 0) 10 = 0
  ∧ Des.desGetBit (Des.desSetBit [0; 0xFF] 10 0) 9 = 1.
Proof.
  assert (H : Forall (λ b, 0 ≤ b < 256) [0; 0xFF]) by (repeat constructor; lia).
  split.
  - exact (proj1 (desGetBit_desSetBit [0; 0xFF] 10 10 0 H ltac:(simpl; lia) ltac:(lia))).
  - exact (proj1 (desGetBit_desSetBit [0; 0xFF] 10 9 0 H ltac:(simpl; lia) ltac:(lia))).
Defined.

(** ** What decoding keeps *)

Section Frame.
Import Client.
Context {zl : Zlib} {jp : JpegCodec}.

Lemma sameShape_refl a : sameShape a a.
Proof. repeat split. Qed.

Lemma sameShape_trans a b c : sameShape a b → sameShape b c → sameShape a c.
Proof. unfold sameShape. intros (?&?&?) (?&?&?). repeat split; congruence. Qed.

Lemma sameShape_setPixel a x y v img : sameShape a img → sameShape a (setPixel x y v img).
Proof.
  intros H. eapply sameShape_trans; [exact H|]. unfold sameShape, setPixel.
  destruct (_ && _); cbn; unfold set_at; rewrite ?length_insert; repeat split.
Qed.

Lemma sameShape_forZ {St : Type} (proj : St → Image) a lo hi (body : Z → St → St) s :
  sameShape a (proj s) →
  (∀ i acc, sameShape a (proj acc) → sameShape a (proj (body i acc))) →
  sameShape a (proj (forZ lo hi body s)).
Proof.
  intros H0 H. apply (forZ_invariant (λ st, sameShape a (proj st))); [exact H0|].
  intros i acc _. apply H.
Qed.

Lemma sameShape_fillRect a x0 y0 w h v img :
  sameShape a img → sameShape a (fillRect x0 y0 w h v img).
Proof.
  intros H. unfold fillRect. apply (sameShape_forZ id); [exact H|].
  intros y acc Hy. apply (sameShape_forZ id); [exact Hy|].
  intros x acc' Hx. apply sameShape_setPixel, Hx.
Qed.

Lemma decodes_refl c : decodes c c.
Proof.
  unfold decodes. repeat split; try apply sameShape_refl.
  - exists 0%nat. reflexivity.
  - exists []. cbn. rewrite app_nil_r. reflexivity.
Qed.

Lemma decodes_trans c1 c2 c3 : decodes c1 c2 → decodes c2 c3 → decodes c1 c3.
Proof.
  unfold decodes.
  intros (A1&A2&A3&A4&A5&A6&A7&A8&A9&A10&A11&A12&[k1 A13]&A14&[w1 A15]&A16&A17&A18&A19&A20&A21)
         (B1&B2&B3&B4&B5&B6&B7&B8&B9&B10&B11&B12&[k2 B13]&B14&[w2 B15]&B16&B17&B18&B19&B20&B21).
  repeat match goal with |- _ ∧ _ => split end; try congruence.
  - exists (k1 + k2)%nat. rewrite B13, A13, drop_drop. reflexivity.
  - eapply sameShape_trans; eassumption.
  - exists (w1 ++ w2). rewrite B15, A15, fmap_app, app_assoc. reflexivity.
Qed.

Lemma decodes_readT c0 n prior c : decodes c0 c → decodes c0 (readT n prior c).2.
Proof.
  intros H. eapply decodes_trans; [exact H|]. unfold readT.
  destruct (isValid c); [|apply decodes_refl].
  unfold decodes. cbn. repeat split; try apply sameShape_refl.
  - eexists. reflexivity.
  - exists []. cbn. rewrite app_nil_r. reflexivity.
Qed.

Lemma decodes_readBytes c0 n c : decodes c0 c → decodes c0 (readBytes n c).2.
Proof.
  intros H. eapply decodes_trans; [exact H|].
  unfold decodes. cbn. repeat split; try apply sameShape_refl.
  - eexists. reflexivity.
  - exists []. cbn. rewrite app_nil_r. reflexivity.
Qed.

Lemma decodes_upd_image c0 g c :
  (∀ a img, sameShape a img → sameShape a (g img)) →
  decodes c0 c → decodes c0 (upd_image g c).
Proof.
  intros Hg H. eapply decodes_trans; [exact H|].
  unfold decodes. cbn. repeat split; try (apply Hg, sameShape_refl).
  - exists 0%nat. reflexivity.
  - exists []. cbn. rewrite app_nil_r. reflexivity.
Qed.

Lemma decodes_set_image c0 img c :
  sameShape (image c) img → decodes c0 c → decodes c0 (set_image img c).
Proof.
  intros Hg H. eapply decodes_trans; [exact H|].
  unfold decodes. cbn. repeat split; try apply Hg.
  - exists 0%nat. reflexivity.
  - exists []. cbn. rewrite app_nil_r. reflexivity.
Qed.

Lemma decodes_warn c0 w c : decodes c0 c → decodes c0 (warn w c).
Proof.
  intros H. eapply decodes_trans; [exact H|].
  unfold decodes. cbn. repeat split; try apply sameShape_refl.
  - exists 0%nat. reflexivity.
  - exists [w]. reflexivity.
Qed.

Lemma decodes_upd_fbu c0 g c : hextileUpdate g → decodes c0 c → decodes c0 (upd_fbu g c).
Proof.
  intros Hg H. eapply decodes_trans; [exact H|].
  destruct (Hg (fbu c)) as (?&?&?&?&?&?).
  unfold decodes. cbn. repeat split; try apply sameShape_refl; try assumption.
  - exists 0%nat. reflexivity.
  - exists []. cbn. rewrite app_nil_r. reflexivity.
Qed.

Lemma hextileUpdate_TX v : hextileUpdate (set_hextileTX v).
Proof. intros f. repeat split. Qed.
Lemma hextileUpdate_TY v : hextileUpdate (set_hextileTY v).
Proof. intros f. repeat split. Qed.
Lemma hextileUpdate_BG v : hextileUpdate (set_hextileBG v).
Proof. intros f. repeat split. Qed.
Lemma hextileUpdate_FG v : hextileUpdate (set_hextileFG v).
Proof. intros f. repeat split. Qed.

Lemma decodes_set_tightData c0 v c : decodes c0 c → decodes c0 (set_tightData v c).
Proof.
  intros H. eapply decodes_trans; [exact H|].
  unfold decodes. cbn. repeat split; try apply sameShape_refl.
  - exists 0%nat. reflexivity.
  - exists []. cbn. rewrite app_nil_r. reflexivity.
Qed.

Lemma decodes_set_zrleStream c0 v c : decodes c0 c → decodes c0 (set_zrleStream v c).
Proof.
  intros H. eapply decodes_trans; [exact H|].
  unfold decodes. cbn. repeat split; try apply sameShape_refl.
  - exists 0%nat. reflexivity.
  - exists []. cbn. rewrite app_nil_r. reflexivity.
Qed.

Lemma decodes_forZ c0 lo hi (body : Z → Client → Client) c :
  (∀ i c, decodes c0 c → decodes c0 (body i c)) →
  decodes c0 c → decodes c0 (forZ lo hi body c).
Proof.
  intros Hb H. apply (forZ_invariant (decodes c0)); [exact H|].
  intros i acc _. apply Hb.
Qed.

Create HintDb frame.
Local Hint Resolve sameShape_setPixel sameShape_fillRect sameShape_refl : frame.
Local Hint Resolve decodes_refl decodes_warn decodes_set_tightData decodes_set_zrleStream
  hextileUpdate_TX hextileUpdate_TY hextileUpdate_BG hextileUpdate_FG : frame.

(** *** Raw and Hextile *)

Lemma decodes_readPixel32 c0 px py c : decodes c0 c → decodes c0 (readPixel32 px py c).
Proof.
  intros H. unfold readPixel32.
  pose proof (decodes_readT c0 4 (replicate 4 0) c H) as H1.
  destruct (readT 4 (replicate 4 0) c) as [b c1]. cbn [snd] in H1.
  apply decodes_upd_image; [|exact H1]. intros a img. apply sameShape_setPixel.
Qed.

Lemma decodes_handleRawEncoding r c : decodes c (handleRawEncoding r c).2.
Proof.
  unfold handleRawEncoding.
  repeat case_match; cbn [snd]; auto with frame.
  apply decodes_forZ; [|apply decodes_refl].
  intros y c1 H1. apply decodes_forZ; [|exact H1].
  intros x c2 H2. apply decodes_readPixel32, H2.
Qed.

Lemma decodes_hextileSubrect c0 r ty th tx tw bpp sub c :
  decodes c0 c → decodes c0 (hextileSubrect r ty th tx tw bpp sub c).
Proof.
  intros H. unfold hextileSubrect.
  assert (H1 : ∀ col0, decodes c0
            (if flagged sub SubrectsColoured
             then if bpp =? 4 then let '(b, c1) := readT 4 (replicate 4 0) c in (le b, c1)
                  else (col0, c)
             else (col0, c)).2).
  { intros col0. destruct (flagged _ _); [|exact H]. destruct (bpp =? 4); [|exact H].
    pose proof (decodes_readT c0 4 (replicate 4 0) c H) as H1.
    destruct (readT 4 (replicate 4 0) c). exact H1. }
  specialize (H1 (hextileFG (fbu c))).
  destruct (if flagged sub SubrectsColoured then _ else _) as [color c1]. cbn [snd] in H1.
  pose proof (decodes_readT c0 1 [0] c1 H1) as H2. destruct (readT 1 [0] c1) as [xy c2].
  pose proof (decodes_readT c0 1 [0] c2 H2) as H3. destruct (readT 1 [0] c2) as [wh c3].
  cbn [snd] in *. apply decodes_upd_image; [|exact H3].
  intros a img. apply sameShape_fillRect.
Qed.

Lemma decodes_hextileConsumeTile c0 r ty th tx tw bpp c :
  decodes c0 c → decodes c0 (hextileConsumeTile r ty th tx tw bpp c).
Proof.
  intros H. unfold hextileConsumeTile.
  pose proof (decodes_readT c0 1 [0] c H) as H1. destruct (readT 1 [0] c) as [b c1].
  cbn [snd] in H1. destruct (flagged _ RawSubencoding).
  { apply decodes_forZ; [|exact H1]. intros y c2 H2. apply decodes_forZ; [|exact H2].
    intros x c3 H3. destruct (bpp =? 4); [apply decodes_readPixel32|]; exact H3. }
  assert (H2 : decodes c0
            (if flagged (at_ b 0) BackgroundSpecified
             then if bpp =? 4
                  then let '(bg, c2) := readT 4 (replicate 4 0) c1 in
                       upd_fbu (set_hextileBG (le bg)) c2
                  else c1
             else c1)).
  { destruct (flagged _ _); [|exact H1]. destruct (bpp =? 4); [|exact H1].
    pose proof (decodes_readT c0 4 (replicate 4 0) c1 H1) as H2.
    destruct (readT 4 (replicate 4 0) c1). apply decodes_upd_fbu; auto with frame. }
  set (c2 := if flagged (at_ b 0) BackgroundSpecified then _ else _) in *. clearbody c2.
  assert (H3 : decodes c0 (upd_image
            (fillRect (rect_x r + tx) (rect_y r + ty) tw th
               (toRgb (pixelFormat c2) (hextileBG (fbu c2)))) c2)).
  { apply decodes_upd_image; [|exact H2]. intros a img. apply sameShape_fillRect. }
  set (c3 := upd_image _ c2) in *. clearbody c3.
  destruct (flagged _ AnySubrects); [|exact H3].
  assert (H4 : decodes c0
            (if flagged (at_ b 0) ForegroundSpecified
             then if bpp =? 4
                  then let '(fg, c4) := readT 4 (replicate 4 0) c3 in
                       upd_fbu (set_hextileFG (le fg)) c4
                  else c3
             else c3)).
  { destruct (flagged _ _); [|exact H3]. destruct (bpp =? 4); [|exact H3].
    pose proof (decodes_readT c0 4 (replicate 4 0) c3 H3) as H4.
    destruct (readT 4 (replicate 4 0) c3). apply decodes_upd_fbu; auto with frame. }
  set (c4 := if flagged (at_ b 0) ForegroundSpecified then _ else _) in *. clearbody c4.
  pose proof (decodes_readT c0 1 [0] c4 H4) as H5. destruct (readT 1 [0] c4) as [n c5].
  cbn [snd] in H5. apply decodes_forZ; [|exact H5].
  intros i c6 H6. apply decodes_hextileSubrect, H6.
Qed.

Lemma decodes_hextileTile c0 r ty th tx tw c :
  decodes c0 c → decodes c0 (hextileTile r ty th tx tw c).2.
Proof.
  intros H. unfold hextileTile. repeat case_match; cbn [snd]; try exact H.
  apply decodes_hextileConsumeTile, H.
Qed.

Lemma decodes_hextileRow c0 n r ty th c :
  decodes c0 c → decodes c0 (hextileRow n r ty th c).2.
Proof.
  revert c. induction n as [|n IH]; intros c H; cbn [hextileRow]; [exact H|].
  pose proof (decodes_hextileTile c0 r ty th (hextileTX (fbu c))
                (Z.min 16 (rect_w r - hextileTX (fbu c))) c H) as H1.
  destruct (hextileTile _ _ _ _ _ c) as [ok c1]. cbn [snd] in H1.
  destruct ok; [|exact H1]. apply IH, decodes_upd_fbu; auto with frame.
Qed.

Lemma decodes_hextileRows c0 n r c :
  decodes c0 c → decodes c0 (hextileRows n r c).2.
Proof.
  revert c. induction n as [|n IH]; intros c H; cbn [hextileRows]; [exact H|].
  pose proof (decodes_hextileRow c0 (strides (hextileTX (fbu c)) (rect_w r) 16) r
                (hextileTY (fbu c)) (Z.min 16 (rect_h r - hextileTY (fbu c))) c H) as H1.
  destruct (hextileRow _ _ _ _ c) as [ok c1]. cbn [snd] in H1.
  destruct ok; [|exact H1].
  apply IH, decodes_upd_fbu; [auto with frame|]. apply decodes_upd_fbu; auto with frame.
Qed.

Lemma decodes_handleHextileEncoding r c : decodes c (handleHextileEncoding r c).2.
Proof.
  unfold handleHextileEncoding.
  pose proof (decodes_hextileRows c (strides (hextileTY (fbu c)) (rect_h r) 16) r c
                (decodes_refl c)) as H.
  destruct (hextileRows _ r c) as [ok c1]. cbn [snd] in H.
  destruct ok; [|exact H]. apply decodes_upd_fbu; auto with frame.
Qed.

(** *** ZRLE *)

Lemma sameShape_paintRun a x0 y0 tw total pixels rl rgb img :
  sameShape a img → sameShape a (paintRun x0 y0 tw total pixels rl rgb img).2.
Proof.
  intros H. unfold paintRun. cbn [snd]. apply (sameShape_forZ id); [exact H|].
  intros p acc Hp. apply sameShape_setPixel, Hp.
Qed.

Lemma sameShape_plainRleLoop a fuel pf buf x0 y0 tw total off pixels img :
  sameShape a img →
  sameShape a (plainRleLoop fuel pf buf x0 y0 tw total off pixels img).2.
Proof.
  revert off pixels img. induction fuel as [|fuel IH]; intros off pixels img H;
    cbn [plainRleLoop]; destruct (pixels <? total); try exact H.
  destruct (readCPixel pf buf off) as [color off1].
  destruct (readRunLength buf off1) as [rl off2].
  pose proof (sameShape_paintRun a x0 y0 tw total pixels rl (toRgb pf color) img H) as H1.
  destruct (paintRun _ _ _ _ _ _ _ _) as [pixels' img']. apply IH, H1.
Qed.

Lemma sameShape_paletteRleLoop a fuel buf palette paletteSize x0 y0 tw total off pixels img :
  sameShape a img →
  sameShape a (paletteRleLoop fuel buf palette paletteSize x0 y0 tw total off pixels img).2.
Proof.
  revert off pixels img. induction fuel as [|fuel IH]; intros off pixels img H;
    cbn [paletteRleLoop]; destruct (_ && _); try exact H.
  destruct (truthy _).
  - destruct (readRunLength buf (off + 1)) as [rl off2].
    pose proof (sameShape_paintRun a x0 y0 tw total pixels rl
                  (paletteColor palette paletteSize (Z.land (at_ buf off) 127)) img H) as H1.
    destruct (paintRun _ _ _ _ _ _ _ _) as [pixels' img']. apply IH, H1.
  - apply IH, sameShape_setPixel, H.
Qed.

Lemma sameShape_packedRow a buf palette paletteSize bitsPerIndex x0 py tw off img :
  sameShape a img →
  sameShape a (packedRow buf palette paletteSize bitsPerIndex x0 py tw off img).
Proof.
  intros H. unfold packedRow.
  match goal with |- context [forZ 0 tw ?body ?s0] =>
    pose proof (sameShape_forZ snd a 0 tw body s0 H) as G end.
  destruct (forZ 0 tw _ _) as [[bitPos broken] img']. apply G.
  intros x [[bp br] im] Him. cbn [snd] in *.
  repeat case_match; cbn [snd]; auto using sameShape_setPixel.
Qed.

Lemma sameShape_zrleTile a pf buf x0 y0 tw th sub off img :
  sameShape a img → sameShape a (zrleTile pf buf x0 y0 tw th sub off img).1.2.
Proof.
  intros H. unfold zrleTile. repeat case_match; cbn [fst snd].
  all: first
    [ exact H
    | apply sameShape_fillRect, H
    | match goal with E : forZ 0 ?hi ?body ?s0 = _ |- _ =>
        pose proof (sameShape_forZ snd a 0 hi body s0 H) as G; rewrite E in G end;
      apply G; intros y [o im] Him; cbn [snd] in *;
      first [ apply sameShape_packedRow, Him
            | apply (sameShape_forZ snd); [exact Him|];
              intros x [o' im'] Him'; cbn [snd] in *; destruct (readCPixel _ _ o');
              cbn [snd]; apply sameShape_setPixel, Him' ]
    | match goal with E : plainRleLoop ?f ?pf' ?buf' ?x ?y ?w ?t ?o ?p ?im = _ |- _ =>
        pose proof (sameShape_plainRleLoop a f pf' buf' x y w t o p im H) as G;
        rewrite E in G end;
      exact G
    | match goal with E : paletteRleLoop ?f ?buf' ?pal ?ps ?x ?y ?w ?t ?o ?p ?im = _ |- _ =>
        pose proof (sameShape_paletteRleLoop a f buf' pal ps x y w t o p im H) as G;
        rewrite E in G end;
      exact G ].
Qed.

Lemma sameShape_fold_left {A St : Type} (proj : St → Image) a (f : St → A → St) l s :
  sameShape a (proj s) →
  (∀ acc x, sameShape a (proj acc) → sameShape a (proj (f acc x))) →
  sameShape a (proj (fold_left f l s)).
Proof.
  intros H0 H. revert s H0. induction l as [|x l IH]; intros s H0; cbn; [exact H0|].
  apply IH, H, H0.
Qed.

Lemma sameShape_zrleDecode a pf buf r img :
  sameShape a img → sameShape a (zrleDecode pf buf r img).1.2.
Proof.
  intros H. unfold zrleDecode.
  apply (sameShape_fold_left (λ st, st.1.2)); [exact H|].
  intros acc ty Hacc. apply (sameShape_fold_left (λ st, st.1.2)); [exact Hacc|].
  intros [[[ret off] im] ws] tx Him. cbn [fst snd] in Him. unfold zrleTileStep.
  destruct ret; [exact Him|]. destruct (_ >=? _); [exact Him|].
  pose proof (sameShape_zrleTile a pf buf (rect_x r + tx) (rect_y r + ty)
                (Z.min 64 (rect_w r - tx)) (Z.min 64 (rect_h r - ty))
                (at_ buf off) (off + 1) im Him) as G.
  destruct (zrleTile _ _ _ _ _ _ _ _ _) as [[o i] w]. exact G.
Qed.

Lemma decodes_warnings c0 ws c :
  decodes c0 c → decodes c0 (fold_left (λ c w, warn w c) ws c).
Proof.
  revert c. induction ws as [|w ws IH]; intros c H; cbn; [exact H|].
  apply IH, decodes_warn, H.
Qed.

Lemma decodes_handleZRLEEncoding r c : decodes c (handleZRLEEncoding r c).2.
Proof.
  unfold handleZRLEEncoding.
  destruct (_ <? 4); [apply decodes_refl|].
  destruct (_ =? 0).
  { pose proof (decodes_readBytes c 4 c (decodes_refl c)) as H.
    destruct (readBytes 4 c). exact H. }
  destruct (_ <? _); [apply decodes_refl|].
  pose proof (decodes_readT c 4 (peek 4 (socket c)) c (decodes_refl c)) as H1.
  destruct (readT 4 _ c) as [b c1]. cbn [snd] in H1.
  pose proof (decodes_readBytes c (be b) c1 H1) as H2.
  destruct (readBytes (be b) c1) as [data c2]. cbn [snd] in H2.
  destruct (match zrleStream c2 with Some s => Some s | None => _ end) as [s|];
    [|apply decodes_warn, H2].
  destruct (zrleInflate _ s data []) as [[failure out] s'].
  destruct failure; [apply decodes_warn, decodes_set_zrleStream, H2|].
  destruct out as [|o out]; [apply decodes_warn, decodes_set_zrleStream, H2|].
  pose proof (sameShape_zrleDecode (image c2) (pixelFormat (set_zrleStream (Some s') c2))
                (o :: out) r (image (set_zrleStream (Some s') c2)) (sameShape_refl _)) as G.
  destruct (zrleDecode _ _ r _) as [[[ret off] img] ws]. cbn [fst snd] in *.
  apply decodes_warnings, decodes_set_image; [exact G|].
  apply decodes_set_zrleStream, H2.
Qed.

(** *** Tight *)

Lemma sameShape_drawImage a x y src dst : sameShape a dst → sameShape a (drawImage x y src dst).
Proof.
  intros H. unfold drawImage. apply (sameShape_forZ id); [exact H|].
  intros j acc Hj. apply (sameShape_forZ id); [exact Hj|].
  intros i acc' Hi. apply sameShape_setPixel, Hi.
Qed.

Lemma decodes_handleTightJpeg c0 r n c : decodes c0 c → decodes c0 (handleTightJpeg r n c).2.
Proof.
  intros H. unfold handleTightJpeg.
  pose proof (decodes_readBytes c0 n c H) as H1. destruct (readBytes n c) as [d c1].
  cbn [snd] in H1. repeat case_match; cbn [snd]; auto with frame.
  apply decodes_upd_image; [|exact H1]. intros a img. apply sameShape_drawImage.
Qed.

Lemma decodes_decompressTightData c0 id data n c :
  decodes c0 c → decodes c0 (decompressTightData id data n c).2.
Proof.
  intros H. unfold decompressTightData. destruct (streamAt _ _); [|exact H].
  destruct (inflate _ _ _) as [[[res out] rest] s]. destruct (_ && _); cbn [snd];
    auto with frame.
Qed.

Lemma sameShape_tightPaletteBits a r data palette n img :
  sameShape a img → sameShape a (tightPaletteBits r data palette n img).
Proof.
  intros H. unfold tightPaletteBits.
  match goal with |- context [forZ 0 (rect_h r) ?body ?s0] =>
    pose proof (sameShape_forZ snd a 0 (rect_h r) body s0 H) as G end.
  destruct (forZ 0 (rect_h r) _ _) as [bi img']. apply G.
  intros y [bi0 im] Him. cbn [snd] in Him.
  match goal with |- context [forZ 0 (rect_w r) ?body ?s0] =>
    pose proof (sameShape_forZ snd a 0 (rect_w r) body s0 Him) as G2 end.
  destruct (forZ 0 (rect_w r) _ _) as [[[b1 b2] b3] im']. cbn [snd] in *. apply G2.
  intros x [[[q1 q2] q3] im2] Him2. cbn [snd] in *.
  repeat case_match; cbn [snd]; auto using sameShape_setPixel.
Qed.

Lemma sameShape_tightPaletteBytes a r data palette n img :
  sameShape a img → sameShape a (tightPaletteBytes r data palette n img).
Proof.
  intros H. unfold tightPaletteBytes. apply (sameShape_forZ id); [exact H|].
  intros y acc Hy. unfold id in *.
  match goal with |- context [forZ 0 (rect_w r) ?body ?s0] =>
    pose proof (sameShape_forZ snd a 0 (rect_w r) body s0 Hy) as G end.
  destruct (forZ 0 (rect_w r) _ _) as [br im]. apply G.
  intros x [q im2] Him2. cbn [snd] in *.
  repeat case_match; cbn [snd]; auto using sameShape_setPixel.
Qed.

Lemma sameShape_tightGradient a pf tps r data img :
  sameShape a img → sameShape a (tightGradient pf tps r data img).
Proof.
  intros H. unfold tightGradient. cbv zeta.
  match goal with |- context [forZ 0 (rect_h r) ?body ?s0] =>
    pose proof (sameShape_forZ snd a 0 (rect_h r) body s0 H) as G end.
  destruct (forZ 0 (rect_h r) _ _) as [[[p1 p2] p3] img']. apply G.
  intros y [[[q1 q2] q3] im] Him. cbn [snd] in Him.
  match goal with |- context [forZ 0 (rect_w r) ?body ?s0] =>
    pose proof (sameShape_forZ snd a 0 (rect_w r) body s0 Him) as G2 end.
  destruct (forZ 0 (rect_w r) _ _) as [[b1 b2] im']. cbn [snd] in *. apply G2.
  intros x [[u1 u2] im2] Him2. cbn [snd] in *. apply sameShape_setPixel, Him2.
Qed.

Lemma sameShape_tightCopy a pf tps r data img :
  sameShape a img → sameShape a (tightCopy pf tps r data img).
Proof.
  intros H. unfold tightCopy.
  match goal with |- context [forZ 0 (rect_h r) ?body ?s0] =>
    pose proof (sameShape_forZ snd a 0 (rect_h r) body s0 H) as G end.
  destruct (forZ 0 (rect_h r) _ _) as [p1 img']. apply G.
  intros y acc Him. apply (sameShape_forZ snd); [exact Him|].
  intros x [u1 im2] Him2. cbn [snd] in *. apply sameShape_setPixel, Him2.
Qed.

Lemma decodes_tightBasicConsume c0 tps r id hasFilter h c :
  decodes c0 c → decodes c0 (tightBasicConsume tps r id hasFilter h c).
Proof.
  intros H. unfold tightBasicConsume.
  pose proof (decodes_readBytes c0 1 c H) as H1. destruct (readBytes 1 c) as [x1 c1].
  cbn [snd] in H1.
  assert (H2 : decodes c0 (if hasFilter then (readBytes 1 c1).2 else c1)).
  { destruct hasFilter; [apply decodes_readBytes|]; exact H1. }
  set (c2 := if hasFilter then _ else c1) in *. clearbody c2.
  match goal with |- context [if th_filterId h =? 1 then ?a else ?b] =>
    assert (H3 : decodes c0 (if th_filterId h =? 1 then a else b).2) end.
  { destruct (th_filterId h =? 1); [|exact H2].
    pose proof (decodes_readBytes c0 1 c2 H2) as G1. destruct (readBytes 1 c2) as [x2 c3].
    cbn [snd] in G1.
    pose proof (decodes_readBytes c0 (th_paletteDataBytes h) c3 G1) as G2.
    destruct (readBytes _ c3) as [x3 c4]. exact G2. }
  destruct (if th_filterId h =? 1 then _ else _) as [palette c3] eqn:E3. cbn [snd] in H3.
  clear E3.
  match goal with |- context [if th_dataSize h <? 12 then ?a else ?b] =>
    assert (H4 : decodes c0 (if th_dataSize h <? 12 then a else b).2) end.
  { destruct (th_dataSize h <? 12).
    - pose proof (decodes_readBytes c0 (th_dataSize h) c3 H3) as G1.
      destruct (readBytes _ c3) as [x2 c4]. exact G1.
    - pose proof (decodes_readBytes c0 (th_lenBytes h) c3 H3) as G1.
      destruct (readBytes (th_lenBytes h) c3) as [x2 c4]. cbn [snd] in G1.
      pose proof (decodes_readBytes c0 (th_compressedLength h) c4 G1) as G2.
      destruct (readBytes _ c4) as [x3 c5]. cbn [snd] in G2.
      match goal with |- context [decompressTightData id x3 (th_dataSize h) ?cc] =>
        assert (G3 : decodes c0 cc) by (destruct (streamAt _ _); auto with frame);
        pose proof (decodes_decompressTightData c0 id x3 (th_dataSize h) cc G3) as G4;
        destruct (decompressTightData id x3 (th_dataSize h) cc) as [pd c6] end.
      cbn [snd] in G4. destruct pd; cbn [snd]; auto with frame. }
  destruct (if th_dataSize h <? 12 then _ else _) as [[pixelData failed] c4].
  cbn [snd] in H4. destruct failed; [exact H4|].
  repeat case_match; (apply decodes_upd_image; [|exact H4]); intros a img;
    auto using sameShape_tightPaletteBits, sameShape_tightPaletteBytes,
      sameShape_tightGradient, sameShape_tightCopy.
Qed.

Lemma decodes_tightDispatch c0 r pk cc c :
  decodes c0 c → decodes c0 (tightDispatch r pk cc c).2.
Proof.
  intros H. unfold tightDispatch. cbv zeta.
  destruct (_ =? 8).
  { destruct (_ <? _); [exact H|].
    pose proof (decodes_readBytes c0 1 c H) as H1. destruct (readBytes 1 c) as [x1 c1].
    cbn [snd] in H1.
    pose proof (decodes_readBytes c0 (tpixelSize (pixelFormat c)) c1 H1) as H2.
    destruct (readBytes _ c1) as [x2 c2]. cbn [snd] in *.
    apply decodes_upd_image; [|exact H2]. intros a img. apply sameShape_fillRect. }
  destruct (_ =? 9).
  { destruct (parseCompactLength pk 1 0) as [lenBytes dataLength].
    destruct (lenBytes =? 0); [exact H|]. destruct (_ <? _); [exact H|].
    pose proof (decodes_readBytes c0 1 c H) as H1. destruct (readBytes 1 c) as [x1 c1].
    cbn [snd] in H1.
    pose proof (decodes_readBytes c0 lenBytes c1 H1) as H2.
    destruct (readBytes lenBytes c1) as [x2 c2]. cbn [snd] in *.
    apply decodes_handleTightJpeg, H2. }
  destruct (tightBasicHeader _ _ _ _) as [h|]; [|exact H].
  destruct (_ <? _); [exact H|]. cbn [snd]. apply decodes_tightBasicConsume, H.
Qed.

Lemma decodes_handleTightEncoding r c : decodes c (handleTightEncoding r c).2.
Proof.
  unfold handleTightEncoding. destruct (_ <? 1); [apply decodes_refl|].
  cbv zeta. destruct (peek _ _) as [|b pk]; [apply decodes_refl|].
  apply decodes_tightDispatch, decodes_set_tightData, decodes_refl.
Qed.

Lemma decodes_decodeRect c : decodes c (decodeRect c).2.
Proof.
  unfold decodeRect. cbv zeta. repeat case_match; cbn [snd];
    auto using decodes_handleZRLEEncoding, decodes_handleTightEncoding,
      decodes_handleHextileEncoding, decodes_handleRawEncoding with frame.
Qed.

End Frame.

Section Updates.
Import Client.
Context {zl : Zlib} {jp : JpegCodec}.

Lemma outbound_framebufferUpdateRequest (incremental : bool) (c : Client) :
  isValid c = true →
  outbound (socket (framebufferUpdateRequest incremental c))
  = outbound (socket c)
    ++ [3; if incremental then 1 else 0; 0; 0; 0; 0]
    ++ to_be 2 (frameBufferWidth c mod 2 ^ 16) ++ to_be 2 (frameBufferHeight c mod 2 ^ 16).
Proof.
  intros Hv. unfold framebufferUpdateRequest, write, isValid in *. cbn. rewrite Hv. cbn.
  rewrite Hv. cbn. rewrite Hv. cbn. rewrite <- !app_assoc. reflexivity.
Qed.

Lemma keeps_refl c : keeps c c.
Proof. repeat split. Qed.

Lemma keeps_trans c1 c2 c3 : keeps c1 c2 → keeps c2 c3 → keeps c1 c3.
Proof.
  unfold keeps. intros (?&?&?&?&?&?&?) (?&?&?&?&?&?&?).
  repeat match goal with |- _ ∧ _ => split end; try congruence.
  eapply sameShape_trans; eassumption.
Qed.

Lemma decodes_keeps c c' : decodes c c' → keeps c c'.
Proof.
  unfold decodes, keeps. intros H. decompose [and] H.
  repeat match goal with |- _ ∧ _ => split end; assumption.
Qed.

Lemma keeps_readRectHeader c :
  keeps c (readRectHeader c) ∧ outbound (socket (readRectHeader c)) = outbound (socket c)
  ∧ active (fbu (readRectHeader c)) = active (fbu c)
  ∧ currentRect (fbu (readRectHeader c)) = currentRect (fbu c)
  ∧ totalRects (fbu (readRectHeader c)) = totalRects (fbu c).
Proof.
  unfold readRectHeader, readT, isValid.
  destruct c as [? ? ? ? [[] ? ?] ? ? ? ? ? ? ? ? ? ? ?]; cbn; repeat split.
Qed.

Lemma rectLoop_effect (n : nat) (c : Client) :
  isValid c = true →
  n = Z.to_nat (totalRects (fbu c) - currentRect (fbu c)) →
  let c' := rectLoop n c in
  keeps c c'
  ∧ ((active (fbu c') = false
      ∧ totalRects (fbu c') ≤ currentRect (fbu c')
      ∧ outbound (socket c') = outbound (socket c) ++ incrementalRequest c)
     ∨ (active (fbu c') = active (fbu c)
        ∧ currentRect (fbu c') < totalRects (fbu c')
        ∧ outbound (socket c') = outbound (socket c))).
Proof.
  revert c. induction n as [|n IH]; intros c Hv Hn; cbn zeta.
  - cbn [rectLoop]. split.
    + unfold framebufferUpdateRequest, write, isValid in *. cbn. rewrite Hv. cbn.
      rewrite Hv. cbn. rewrite Hv. cbn. repeat split.
    + left. rewrite outbound_framebufferUpdateRequest by exact Hv.
      unfold framebufferUpdateRequest, write, isValid in *. cbn. rewrite Hv. cbn.
      rewrite Hv. cbn. rewrite Hv. cbn. repeat split. lia.
  - cbn [rectLoop].
    destruct (negb (rectHeaderRead (fbu c)) && (bytesAvailable (socket c) <? 12)).
    { split; [apply keeps_refl|]. right. repeat split. lia. }
    destruct (keeps_readRectHeader c) as (K0 & O0 & A0 & C0 & T0).
    assert (K1 : keeps c (if negb (rectHeaderRead (fbu c)) then readRectHeader c else c)
                 ∧ outbound (socket (if negb (rectHeaderRead (fbu c))
                                     then readRectHeader c else c)) = outbound (socket c)
                 ∧ active (fbu (if negb (rectHeaderRead (fbu c))
                                then readRectHeader c else c)) = active (fbu c)
                 ∧ currentRect (fbu (if negb (rectHeaderRead (fbu c))
                                     then readRectHeader c else c)) = currentRect (fbu c)
                 ∧ totalRects (fbu (if negb (rectHeaderRead (fbu c))
                                    then readRectHeader c else c)) = totalRects (fbu c)).
    { destruct (negb _); [tauto|]. repeat split. }
    set (c1 := if negb (rectHeaderRead (fbu c)) then readRectHeader c else c) in *.
    clearbody c1. destruct K1 as (K1 & O1 & A1 & C1 & T1).
    pose proof (decodes_decodeRect c1) as D.
    destruct (decodeRect c1) as [ok c2]. cbn [snd] in D.
    pose proof (decodes_keeps _ _ D) as K2.
    unfold decodes in D. decompose [and] D. clear D.
    destruct ok; cbn [negb].
    2: { split; [eapply keeps_trans; eassumption|]. right.
         repeat split; try congruence. lia. }
    match goal with |- context [rectLoop n ?cc] => set (c3 := cc) end.
    assert (K3 : keeps c2 c3) by (repeat split).
    assert (Hv3 : isValid c3 = true).
    { unfold isValid in *. destruct K1 as (_&_&_&_&_&Hc&_). cbn. congruence. }
    assert (Hn3 : n = Z.to_nat (totalRects (fbu c3) - currentRect (fbu c3))).
    { cbn. lia. }
    destruct (IH c3 Hv3 Hn3) as (K4 & R).
    split; [eapply keeps_trans; [exact K1|]; eapply keeps_trans; [exact K2|];
            eapply keeps_trans; [exact K3 | exact K4]|].
    assert (O3 : outbound (socket c3) = outbound (socket c)) by (cbn; congruence).
    assert (A3 : active (fbu c3) = active (fbu c)) by (cbn; congruence).
    assert (I3 : incrementalRequest c3 = incrementalRequest c).
    { unfold incrementalRequest. destruct K1 as (_&_&_&W1&G1&_).
      destruct K2 as (_&_&_&W2&G2&_). cbn. congruence. }
    rewrite O3, A3, I3 in R. exact R.
Qed.

Lemma keeps_framebufferUpdateRequest b c : keeps c (framebufferUpdateRequest b c).
Proof.
  unfold framebufferUpdateRequest, write, isValid.
  destruct c as [? ? ? ? [[] ? ?] ? ? ? ? ? ? ? ? ? ? ?]; cbn; repeat split.
Qed.

Lemma keeps_rectLoop (n : nat) (c : Client) : keeps c (rectLoop n c).
Proof.
  revert c. induction n as [|n IH]; intros c; cbn [rectLoop].
  - eapply keeps_trans; [|apply keeps_framebufferUpdateRequest]. repeat split.
  - destruct (_ && _); [apply keeps_refl|].
    assert (K1 : keeps c (if negb (rectHeaderRead (fbu c)) then readRectHeader c else c)).
    { destruct (negb _); [apply keeps_readRectHeader | apply keeps_refl]. }
    set (c1 := if negb (rectHeaderRead (fbu c)) then readRectHeader c else c) in *.
    clearbody c1.
    pose proof (decodes_keeps _ _ (decodes_decodeRect c1)) as K2.
    destruct (decodeRect c1) as [ok c2]. cbn [snd] in K2.
    destruct ok; cbn [negb]; [|eapply keeps_trans; eassumption].
    eapply keeps_trans; [exact K1|]. eapply keeps_trans; [exact K2|].
    eapply keeps_trans; [|apply IH]. repeat split.
Qed.

Lemma keeps_parseServerMessages (c : Client) : keeps c (parseServerMessages c).
Proof.
  unfold parseServerMessages. destruct (active (fbu c)); [apply keeps_rectLoop|].
  destruct (_ <? 1); [apply keeps_refl|].
  assert (K1 : keeps c (readT 1 [0] c).2).
  { unfold readT, isValid.
    destruct c as [? ? ? ? [[] ? ?] ? ? ? ? ? ? ? ? ? ? ?]; cbn; repeat split. }
  destruct (readT 1 [0] c) as [b c1]. cbn [snd] in K1.
  eapply keeps_trans; [exact K1|].
  destruct (_ =? FramebufferUpdate); [|repeat split].
  unfold framebufferUpdate. destruct (_ <? 3); [apply keeps_refl|].
  assert (K2 : keeps c1 (readBytes 1 c1).2) by (repeat split).
  destruct (readBytes 1 c1) as [x c2]. cbn [snd] in K2.
  eapply keeps_trans; [exact K2|].
  assert (K3 : keeps c2 (readT 2 (replicate 2 0) c2).2).
  { unfold readT, isValid.
    destruct c2 as [? ? ? ? [[] ? ?] ? ? ? ? ? ? ? ? ? ? ?]; cbn; repeat split. }
  destruct (readT 2 (replicate 2 0) c2) as [nb c3]. cbn [snd] in K3.
  eapply keeps_trans; [exact K3|].
  eapply keeps_trans; [|apply keeps_rectLoop]. repeat split.
Qed.

(** X5.  Once the client is running, no data from the server takes it
    out of the running state, changes the pixel format in use or
    resizes the framebuffer: a call of [read] in [WaitingState] ends in
    [WaitingState], whatever is buffered. *)
Theorem running_state_is_kept (c : Client) :
  state c = WaitingState →
  let c' := read c in
  state c' = WaitingState
  ∧ pixelFormat c' = pixelFormat c
  ∧ frameBufferWidth c' = frameBufferWidth c
  ∧ frameBufferHeight c' = frameBufferHeight c
  ∧ img_width (image c') = img_width (image c)
  ∧ img_height (image c') = img_height (image c)
  ∧ length (img_pixels (image c')) = length (img_pixels (image c)).
Proof.
  intros Hs. cbv zeta. unfold read. destruct (reading c) eqn:Hr.
  { repeat split; exact Hs. }
  change (state (set_reading true c)) with (state c). rewrite Hs.
  pose proof (keeps_parseServerMessages (set_reading true c)) as K.
  set (c1 := parseServerMessages (set_reading true c)) in *. clearbody c1.
  destruct K as (K1&K2&K3&K4&K5&K6&K7&K8&K9). cbn in K1, K3, K4, K5, K7, K8, K9.
  destruct (_ && _); cbn; repeat split; congruence.
Qed.

(** X6.  A completed FramebufferUpdate is answered by one incremental
    FramebufferUpdateRequest for the whole framebuffer, and nothing is
    written before: a pass over the rectangles of an update in progress
    either decodes the last rectangle, clears [fbu.active] and writes
    the ten bytes of the request, or stops for want of data with the
    update still in progress and nothing written. *)
Theorem update_request_follows_completion (c : Client) :
  isValid c = true →
  active (fbu c) = true →
  let c' := processFramebufferRects c in
  (active (fbu c') = false
   ∧ totalRects (fbu c') ≤ currentRect (fbu c')
   ∧ outbound (socket c')
     = outbound (socket c) ++ [3; 1; 0; 0; 0; 0]
       ++ to_be 2 (frameBufferWidth c mod 2 ^ 16) ++ to_be 2 (frameBufferHeight c mod 2 ^ 16))
  ∨ (active (fbu c') = true
     ∧ currentRect (fbu c') < totalRects (fbu c')
     ∧ outbound (socket c') = outbound (socket c)).
Proof.
  intros Hv Ha. cbv zeta. unfold processFramebufferRects.
  destruct (rectLoop_effect _ c Hv eq_refl) as (_ & [R|R]).
  - left. exact R.
  - right. rewrite Ha in R. exact R.
Qed.

(** X7.  Decoding a rectangle, in any of the encodings and whatever the
    rectangle and the data, leaves the framebuffer image with its
    dimensions and its number of pixels: a rectangle that reaches
    outside the framebuffer is clipped to it. *)
Theorem decoders_keep_framebuffer_shape (c : Client) :
  let c' := (decodeRect c).2 in
  img_width (image c') = img_width (image c)
  ∧ img_height (image c') = img_height (image c)
  ∧ length (img_pixels (image c')) = length (img_pixels (image c)).
Proof.
  cbv zeta. pose proof (decodes_decodeRect c) as D.
  unfold decodes in D. decompose [and] D. assumption.
Qed.

(** X8.  Decoding a rectangle has no effect on the protocol: nothing is
    written to the server, no signal is emitted (warnings only), input
    is only consumed from the front of the queue, and the state, the
    pixel format, the framebuffer size and the progress of the update
    are as before. *)
Theorem decoders_only_consume_and_paint (c : Client) :
  let c' := (decodeRect c).2 in
  outbound (socket c') = outbound (socket c)
  ∧ (∃ k, inbound (socket c') = drop k (inbound (socket c)))
  ∧ (∃ ws, trace c' = trace c ++ (Warn <$> ws))
  ∧ state c' = state c
  ∧ pixelFormat c' = pixelFormat c
  ∧ frameBufferWidth c' = frameBufferWidth c
  ∧ frameBufferHeight c' = frameBufferHeight c
  ∧ totalRects (fbu c') = totalRects (fbu c)
  ∧ currentRect (fbu c') = currentRect (fbu c)
  ∧ active (fbu c') = active (fbu c).
Proof.
  cbv zeta. pose proof (decodes_decodeRect c) as D.
  unfold decodes in D. decompose [and] D.
  repeat match goal with |- _ ∧ _ => split end; assumption.
Qed.

End Updates.

(** ** Raw encoding *)

Ltac bcases :=
  repeat match goal with
  | |- context [?a <=? ?b] => destruct (Z.leb_spec a b)
  | |- context [?a <? ?b] => destruct (Z.ltb_spec a b)
  | |- context [?a =? ?b] => destruct (Z.eqb_spec a b)
  end; cbn [andb orb negb].

Section Raw.
Import Client.
Context {zl : Zlib} {jp : JpegCodec}.

Lemma readPixel32_valid px py (c : Client) :
  isValid c = true →
  readPixel32 px py c
  = upd_image (setPixel px py (toRgb (pixelFormat c) (le (take 4 (inbound (socket c))))))
      (consumed 4 c).
Proof.
  intros Hv. unfold readPixel32. rewrite readT_valid by exact Hv.
  cbv beta iota. rewrite le_pad. reflexivity.
Qed.

Lemma rawDone_step r c0 region j i c :
  0 ≤ j → 0 ≤ i < rect_w r →
  rawDone r c0 region (j * rect_w r + i) c →
  rawDone r c0 (λ x y, region x y || ((rect_x r + i =? x) && (rect_y r + j =? y)))
    (j * rect_w r + (i + 1)) (readPixel32 (rect_x r + i) (rect_y r + j) c).
Proof.
  intros Hj Hi (Hv & Hpf & Hin & Hwf & Hw & Hh & Hp).
  rewrite readPixel32_valid by exact Hv.
  destruct (size_setPixel (rect_x r + i) (rect_y r + j)
              (toRgb (pixelFormat c) (le (take 4 (inbound (socket c))))) (image c)) as [Ew Eh].
  split; [exact Hv|]. split; [exact Hpf|]. split; [|split; [|split; [|split]]].
  - cbn. rewrite Hin, drop_drop. f_equal. nia.
  - cbn. apply wfImage_setPixel, Hwf.
  - cbn. congruence.
  - cbn. congruence.
  - intros x y Hx Hy. cbn [image upd_image set_image consumed set_socket].
    rewrite pixel_setPixel by (try exact Hwf; lia).
    rewrite Hp by assumption.
    destruct (Z.eqb_spec (rect_x r + i) x) as [Ex|Ex], (Z.eqb_spec (rect_y r + j) y) as [Ey|Ey];
      cbn [andb]; rewrite ?orb_false_r; try reflexivity.
    rewrite orb_true_r. unfold rawPixel. rewrite Hpf, Hin. do 4 f_equal. nia.
Qed.

Lemma rawDone_ext r c0 region region' n n' c :
  (∀ x y, region x y = region' x y) → n = n' →
  rawDone r c0 region n c → rawDone r c0 region' n' c.
Proof.
  intros E -> (Hv & Hpf & Hin & Hwf & Hw & Hh & Hp). unfold rawDone.
  repeat match goal with |- _ ∧ _ => split end; try assumption.
  intros x y Hx Hy. rewrite <- E. apply Hp; assumption.
Qed.

Lemma rawDone_row r c0 region j c :
  0 ≤ j → 0 ≤ rect_w r →
  rawDone r c0 region (j * rect_w r) c →
  rawDone r c0 (λ x y, region x y || (inSpan (rect_x r) (rect_w r) x && (rect_y r + j =? y)))
    ((j + 1) * rect_w r)
    (forZ 0 (rect_w r) (λ x c, readPixel32 (rect_x r + x) (rect_y r + j) c) c).
Proof.
  intros Hj Hw H.
  eapply rawDone_ext; [intros; reflexivity | |
    apply (forZ_ind (λ i cc, rawDone r c0
             (λ x y, region x y || (inSpan (rect_x r) i x && (rect_y r + j =? y)))
             (j * rect_w r + i) cc)); [exact Hw | |]].
  - lia.
  - eapply rawDone_ext; [| |exact H]; [|lia].
    intros x y. unfold inSpan. bcases; rewrite ?orb_false_r; try reflexivity; lia.
  - intros i acc Hi Hacc. eapply rawDone_ext; [| reflexivity | apply rawDone_step, Hacc; lia].
    intros x y. cbv beta. unfold inSpan. destruct (region x y); cbn [orb]; [reflexivity|].
    bcases; try reflexivity; lia.
Qed.

Lemma rawDone_rect r c0 :
  isValid c0 = true → wfImage (image c0) → 0 ≤ rect_w r → 0 ≤ rect_h r →
  rawDone r c0 (λ x y, inSpan (rect_x r) (rect_w r) x && inSpan (rect_y r) (rect_h r) y)
    (rect_h r * rect_w r)
    (forZ 0 (rect_h r)
       (λ y c, forZ 0 (rect_w r) (λ x c, readPixel32 (rect_x r + x) (rect_y r + y) c) c) c0).
Proof.
  intros Hv Hwf Hw Hh.
  apply (forZ_ind (λ j cc, rawDone r c0
           (λ x y, inSpan (rect_x r) (rect_w r) x && inSpan (rect_y r) j y)
           (j * rect_w r) cc)); [exact Hh | |].
  - unfold rawDone.
    repeat match goal with |- _ ∧ _ => split end; try reflexivity; try assumption.
    intros x y Hx Hy. unfold inSpan. bcases; try reflexivity; lia.
  - intros j acc Hj Hacc. eapply rawDone_ext; [| reflexivity | apply rawDone_row, Hacc; lia].
    intros x y. cbv beta. unfold inSpan. bcases; try reflexivity; lia.
Qed.

(** X9.  Raw encoding at 32 bits per pixel.  With fewer than
    [4 * w * h] bytes buffered the handler reports "not enough data" and
    leaves the client as it was.  Otherwise it consumes exactly
    [4 * w * h] bytes and, for a pixel format whose three shifts are
    below 32, the pixel of the framebuffer at
    [(rect.x + i, rect.y + j)] becomes the conversion of the
    little-endian pixel at offset [4 * (j * w + i)]; pixels of the
    framebuffer outside the rectangle are untouched, and the part of the
    rectangle outside the framebuffer is dropped. *)
Theorem handleRawEncoding_spec (r : Rectangle) (c : Client) :
  isValid c = true →
  bitsPerPixel (pixelFormat c) = 32 →
  wfImage (image c) →
  0 ≤ rect_w r → 0 ≤ rect_h r →
  let n := 4 * (rect_h r * rect_w r) in
  let c' := (handleRawEncoding r c).2 in
  (bytesAvailable (socket c) < n → handleRawEncoding r c = (false, c))
  ∧ (n ≤ bytesAvailable (socket c) →
     (handleRawEncoding r c).1 = true
     ∧ inbound (socket c') = drop (Z.to_nat n) (inbound (socket c))
     ∧ outbound (socket c') = outbound (socket c)
     ∧ wfImage (image c')
     ∧ (shiftsDefined (pixelFormat c) →
        ∀ x y, 0 ≤ x < img_width (image c) → 0 ≤ y < img_height (image c) →
          pixel x y (image c')
          = if inSpan (rect_x r) (rect_w r) x && inSpan (rect_y r) (rect_h r) y
            then rawPixel (pixelFormat c) r (inbound (socket c)) x y
            else pixel x y (image c))).
Proof.
  intros Hv Hbpp Hwf Hw Hh. cbv zeta. unfold handleRawEncoding. rewrite Hbpp.
  replace (rect_w r * rect_h r * 32 / 8) with (4 * (rect_h r * rect_w r))
    by (replace (rect_w r * rect_h r * 32) with (4 * (rect_h r * rect_w r) * 8) by lia;
        rewrite Z.div_mul by lia; reflexivity).
  split; intros Hn.
  - destruct (Z.ltb_spec (bytesAvailable (socket c)) (4 * (rect_h r * rect_w r))); [reflexivity | lia].
  - destruct (Z.ltb_spec (bytesAvailable (socket c)) (4 * (rect_h r * rect_w r))); [lia|].
    cbn [Z.eqb Pos.eqb fst snd].
    destruct (rawDone_rect r c Hv Hwf Hw Hh) as (_ & _ & Hin & Hwf' & _ & _ & Hp).
    split; [reflexivity|]. split; [exact Hin|].
    split; [|split; [exact Hwf' | intros _; exact Hp]].
    pose proof (decodes_handleRawEncoding r c) as D.
    unfold handleRawEncoding in D. rewrite Hbpp in D.
    replace (rect_w r * rect_h r * 32 / 8) with (4 * (rect_h r * rect_w r)) in D
      by (replace (rect_w r * rect_h r * 32) with (4 * (rect_h r * rect_w r) * 8) by lia;
          rewrite Z.div_mul by lia; reflexivity).
    destruct (Z.ltb_spec (bytesAvailable (socket c)) (4 * (rect_h r * rect_w r))) in D; [lia|].
    cbn [Z.eqb Pos.eqb fst snd] in D. unfold decodes in D. decompose [and] D. assumption.
Qed.

End Raw.

(** ** Handshake *)

Section Handshake.
Import Client.
Context {zl : Zlib} {jp : JpegCodec}.

Lemma readBytes_app (c : Client) (a rest : list Z) :
  inbound (socket c) = a ++ rest →
  readBytes (Z.of_nat (length a)) c = (a, consumed (Z.of_nat (length a)) c)
  ∧ inbound (socket (consumed (Z.of_nat (length a)) c)) = rest.
Proof.
  intros E. unfold readBytes, consumed, sock_read. cbn. rewrite E, Nat2Z.id.
  rewrite take_app_length, drop_app_length. split; reflexivity.
Qed.

(** X10.  Version negotiation.  Of the twelve bytes of the server's
    banner the client accepts exactly "RFB 003.003\n", "RFB 003.007\n"
    and "RFB 003.008\n"; it answers with the very same banner and moves
    on to the security handshake.  Any other banner is consumed and
    logged, and nothing is sent: the client stays where it was. *)
Theorem parseProtocolVersion_echo (c : Client) (value rest : list Z) :
  protocolVersion c = ProtocolVersionUnknown →
  inbound (socket c) = value ++ rest →
  length value = 12%nat →
  let c' := parseProtocolVersion c in
  inbound (socket c') = rest
  ∧ (∀ d v, (d, v) ∈ [(51, ProtocolVersion33); (55, ProtocolVersion37); (56, ProtocolVersion38)] →
       value = banner d →
       outbound (socket c') = outbound (socket c) ++ value
       ∧ protocolVersion c' = v
       ∧ state c' = SecurityState
       ∧ trace c' = trace c ++ [SigProtocolVersionChanged v])
  ∧ (value ≠ banner 51 → value ≠ banner 55 → value ≠ banner 56 →
     outbound (socket c') = outbound (socket c)
     ∧ protocolVersion c' = ProtocolVersionUnknown
     ∧ state c' = state c
     ∧ trace c' = trace c ++ [Warn (UnsupportedProtocolVersion value)]).
Proof.
  intros Hpv Hin Hlen. cbv zeta. unfold parseProtocolVersion, bytesAvailable.
  rewrite Hin, length_app, Hlen.
  destruct (Z.ltb_spec (Z.of_nat (12 + length rest)) 12) as [?|_]; [lia|].
  destruct (readBytes_app c value rest Hin) as [Er Ei]. rewrite Hlen in Er, Ei.
  change (Z.of_nat 12) with 12 in Er, Ei. rewrite Er. clear Er.
  unfold setProtocolVersion.
  change (protocolVersion (consumed 12 c)) with (protocolVersion c). rewrite Hpv.
  split; [|split].
  - repeat case_bool_decide; try discriminate; exact Ei.
  - intros d v Hd Hv.
    rewrite !elem_of_cons in Hd. rewrite elem_of_nil in Hd.
    destruct Hd as [Hd|[Hd|[Hd|[]]]]; inversion Hd; subst d v; subst value;
      repeat (case_bool_decide; try discriminate; try congruence);
      cbn; repeat split.
  - intros N1 N2 N3. repeat (case_bool_decide; try congruence). cbn.
    repeat split. exact Hpv.
Qed.

Lemma consumed_consumed (n m : Z) (c : Client) :
  0 ≤ n → 0 ≤ m → consumed m (consumed n c) = consumed (n + m) c.
Proof.
  intros Hn Hm. unfold consumed, sock_read, set_socket. cbn.
  rewrite drop_drop, Z2Nat.inj_add by lia. reflexivity.
Qed.

Lemma consumed_0 (c : Client) : consumed 0 c = c.
Proof. destruct c as [? ? ? ? [] ? ? ? ? ? ? ? ? ? ? ?]. reflexivity. Qed.

(** The loop that reads the list of security types. *)
Lemma read_security_types (c : Client) (types rest : list Z) :
  isValid c = true →
  inbound (socket c) = types ++ rest →
  forZ 0 (Z.of_nat (length types))
    (λ _ '(securityTypes, c), let '(t, c) := readT 1 [0] c in (securityTypes ++ [at_ t 0], c))
    ([], c)
  = (types, consumed (Z.of_nat (length types)) c).
Proof.
  intros Hv Hin.
  match goal with |- forZ 0 ?n ?body ?s = _ =>
    assert (G : forZ 0 n body s = (take (Z.to_nat n) types, consumed n c)) end.
  2: { rewrite G, Nat2Z.id, firstn_all. reflexivity. }
  apply (forZ_ind (λ i st, st = (take (Z.to_nat i) types, consumed i c))
           0 (Z.of_nat (length types))); [lia | |].
  - cbn. rewrite consumed_0. reflexivity.
  - intros i [ts c1] Hi E. inversion E; subst ts c1. clear E.
    rewrite readT_valid by exact Hv. rewrite sub_byte.
    rewrite consumed_consumed by lia. f_equal.
    cbn. rewrite Hin.
    replace (Z.to_nat (i + 1)) with (S (Z.to_nat i)) by lia.
    assert (Hl : (Z.to_nat i < length types)%nat) by lia.
    destruct (lookup_lt_is_Some_2 types (Z.to_nat i) Hl) as [t Ht].
    rewrite (take_S_r _ _ _ Ht). f_equal. f_equal.
    unfold at_. change (Z.to_nat 0) with 0%nat.
    rewrite lookup_drop, Nat.add_0_r, lookup_app_l by lia. rewrite Ht. reflexivity.
Qed.

Lemma parseSecurityReason_keeps (c : Client) :
  securityType (parseSecurityReason c) = securityType c
  ∧ outbound (socket (parseSecurityReason c)) = outbound (socket c)
  ∧ state (parseSecurityReason c) = state c.
Proof.
  unfold parseSecurityReason, readT, readBytes, isValid.
  destruct c as [? ? ? ? [[] ? ?] ? ? ? ? ? ? ? ? ? ? ?]; cbn;
    repeat (case_match; cbn); repeat split.
Qed.

(** X11.  Security negotiation in 3.7 and 3.8.  Once the count byte and
    the whole list of types are buffered, the client consumes them and
    chooses VNC authentication if the list offers type 2, wherever it
    stands; otherwise None if it offers type 1; otherwise it records
    Invalid and sends nothing.  The choice is sent as one byte; under
    3.7 a choice of None is followed at once by the ClientInit byte. *)
Theorem parseSecurity37_selection (c : Client) (types rest : list Z) :
  isValid c = true →
  securityType c = SecurityTypeUnknwon →
  protocolVersion c = ProtocolVersion37 ∨ protocolVersion c = ProtocolVersion38 →
  inbound (socket c) = Z.of_nat (length types) :: types ++ rest →
  (0 < length types < 256)%nat →
  let c' := parseSecurity37 c in
  (contains types 2 = true →
   securityType c' = SecurityTypeVncAuthentication
   ∧ inbound (socket c') = rest
   ∧ outbound (socket c') = outbound (socket c) ++ [2]
   ∧ state c' = VncAuthenticationState)
  ∧ (contains types 2 = false → contains types 1 = true →
     securityType c' = SecurityTypeNone
     ∧ inbound (socket c') = rest
     ∧ (protocolVersion c = ProtocolVersion38 →
        outbound (socket c') = outbound (socket c) ++ [1] ∧ state c' = SecurityResultState)
     ∧ (protocolVersion c = ProtocolVersion37 →
        outbound (socket c') = outbound (socket c) ++ [1; 1] ∧ state c' = ServerInitState))
  ∧ (contains types 2 = false → contains types 1 = false →
     securityType c' = SecurityTypeInvalid
     ∧ outbound (socket c') = outbound (socket c)).
Proof.
  intros Hv Hst Hpv Hin Hn. cbv zeta. unfold parseSecurity37, bytesAvailable.
  rewrite Hin. cbn [length].
  destruct (Z.ltb_spec (Z.of_nat (S (length (types ++ rest)))) 1) as [?|_]; [lia|].
  rewrite readT_valid by exact Hv. rewrite sub_byte, Hin.
  change (at_ (Z.of_nat (length types) :: types ++ rest) 0) with (Z.of_nat (length types)).
  destruct (Z.eqb_spec (Z.of_nat (length types)) 0) as [?|_]; [lia|].
  assert (Hin1 : inbound (socket (consumed 1 c)) = types ++ rest).
  { cbn. rewrite Hin. reflexivity. }
  rewrite Hin1, length_app.
  destruct (Z.ltb_spec (Z.of_nat (length types + length rest)) (Z.of_nat (length types)))
    as [?|_]; [lia|].
  rewrite (read_security_types (consumed 1 c) types rest Hv Hin1).
  set (c2 := consumed (Z.of_nat (length types)) (consumed 1 c)).
  assert (Hin2 : inbound (socket c2) = rest).
  { transitivity (drop (Z.to_nat (Z.of_nat (length types))) (inbound (socket (consumed 1 c))));
      [reflexivity|]. rewrite Hin1, Nat2Z.id, drop_app_length. reflexivity. }
  assert (Hv2 : connected (socket c2) = true) by exact Hv.
  assert (Ho2 : outbound (socket c2) = outbound (socket c)) by reflexivity.
  assert (Hst2 : securityType c2 = SecurityTypeUnknwon) by exact Hst.
  assert (Hpv2 : protocolVersion c2 = protocolVersion c) by reflexivity.
  clearbody c2. unfold setSecurityType. rewrite Hst2.
  split; [|split].
  - intros ->. rewrite bool_decide_eq_false_2 by discriminate.
    unfold securityTypeChanged. cbn [protocolVersion emit set_trace set_securityType].
    unfold write, isValid. cbn. rewrite Hv2.
    destruct Hpv as [E|E]; rewrite Hpv2, E; cbn; rewrite Hin2, Ho2; repeat split.
  - intros -> ->. rewrite bool_decide_eq_false_2 by discriminate.
    unfold securityTypeChanged, clientInit, write, isValid. cbn. 
    destruct Hpv as [E|E]; rewrite Hpv2, E; cbn; rewrite ?Hv2; cbn; rewrite ?Hv2; cbn;
      rewrite Hin2, Ho2; repeat split; try discriminate; try congruence.
    rewrite <- app_assoc. reflexivity.
  - intros -> ->. rewrite bool_decide_eq_false_2 by discriminate.
    unfold securityTypeChanged.
    destruct (parseSecurityReason_keeps
                (emit (SigSecurityTypeChanged SecurityTypeInvalid)
                   (set_securityType SecurityTypeInvalid c2))) as (E1 & E2 & _).
    rewrite E1, E2. cbn. split; [reflexivity | exact Ho2].
Qed.

Lemma parseVncAuthentication_complete (c : Client) :
  16 ≤ bytesAvailable (socket c) →
  parseVncAuthentication c
  = let c1 := set_vncChallenge (take 16 (inbound (socket c))) (consumed 16 c) in
    match password c with
    | [] => emit SigPasswordRequested c1
    | _ => sendVncAuthResponse c1
    end.
Proof.
  intros Ha. unfold parseVncAuthentication.
  destruct (Z.ltb_spec (bytesAvailable (socket c)) 16) as [?|_]; [lia|]. reflexivity.
Qed.

Lemma setPassword_changes (p : list Z) (c : Client) :
  password c ≠ p →
  setPassword p c
  = let c1 := emit (SigPasswordChanged p) (set_password p c) in
    if bool_decide (state c = VncAuthenticationState)
       && negb (bool_decide (vncChallenge c = []))
       && negb (bool_decide (p = []))
    then sendVncAuthResponse c1 else c1.
Proof.
  intros Hne. unfold setPassword. rewrite bool_decide_eq_false_2 by exact Hne. reflexivity.
Qed.

(** X12.  The password may be supplied before or after the challenge
    arrives.  A client without a password keeps the sixteen bytes of the
    challenge and asks for the password; [setPassword] then sends the
    response.  The bytes on the wire and the state reached are those of
    a client that had the password before the challenge came: the
    response to the buffered challenge, followed under 3.3 by the
    ClientInit byte; in both orders the stored challenge is cleared. *)
Theorem password_may_follow_challenge (c : Client) (p : list Z) :
  state c = VncAuthenticationState →
  password c = [] →
  vncChallenge c = [] →
  p ≠ [] →
  isValid c = true →
  16 ≤ bytesAvailable (socket c) →
  let asked := parseVncAuthentication c in
  let late := setPassword p asked in
  let early := parseVncAuthentication (setPassword p c) in
  vncChallenge asked = take 16 (inbound (socket c))
  ∧ outbound (socket asked) = outbound (socket c)
  ∧ trace asked = trace c ++ [SigPasswordRequested]
  ∧ socket late = socket early
  ∧ state late = state early
  ∧ password late = p ∧ password early = p
  ∧ vncChallenge late = [] ∧ vncChallenge early = []
  ∧ outbound (socket late)
    = outbound (socket c) ++ Des.vncEncryptChallenge p (take 16 (inbound (socket c)))
      ++ (if bool_decide (protocolVersion c = ProtocolVersion33) then [1] else []).
Proof.
  intros Hs Hp Hc Hne Hv Ha. cbv zeta.
  assert (Hch : take 16 (inbound (socket c)) ≠ []).
  { unfold bytesAvailable in Ha. destruct (inbound (socket c)); [cbn in Ha; lia | discriminate]. }
  rewrite (parseVncAuthentication_complete c Ha), Hp. cbv zeta.
  rewrite setPassword_changes by (cbn; congruence).
  rewrite (setPassword_changes p c) by congruence.
  cbn [state vncChallenge emit set_trace set_vncChallenge consumed set_socket].
  rewrite Hs, Hc.
  rewrite (bool_decide_eq_true_2 (VncAuthenticationState = VncAuthenticationState))
    by reflexivity.
  rewrite (bool_decide_eq_false_2 (take 16 (inbound (socket c)) = [])) by exact Hch.
  rewrite (bool_decide_eq_true_2 ([] = [])) by reflexivity.
  rewrite (bool_decide_eq_false_2 (p = [])) by exact Hne.
  cbn [andb negb].
  rewrite parseVncAuthentication_complete by exact Ha. cbv zeta.
  cbn [password emit set_trace set_password].
  destruct p as [|a p]; [congruence|].
  unfold sendVncAuthResponse, clientInit, write, writeRaw, isValid in *.
  destruct c as [st rd fb pf [cn ib ob] td zs pv sec pw ch im fw fh tr qr].
  cbn in Hv. subst cn.
  destruct pv; cbn -[Des.vncEncryptChallenge]; rewrite <- ?app_assoc, ?app_nil_r;
    repeat split.
Qed.

End Handshake.

(** ** ServerInit *)

Section ServerInit.
Import Client.
Context {zl : Zlib} {jp : JpegCodec}.

(** Two bytes, decoded and encoded again. *)
Lemma to_be_2_be (a b : Z) :
  0 ≤ a < 256 → 0 ≤ b < 256 →
  to_be 2 (be [a; b]) = [a; b] ∧ quint16 (be [a; b]) = be [a; b].
Proof.
  intros Ha Hb. unfold be, quint16. cbn [fold_left to_be app].
  replace (0 * 256 + a) with a by lia. split.
  - f_equal; [|f_equal].
    + rewrite Z.div_add_l by lia. rewrite (Z.div_small b) by lia.
      rewrite Z.add_0_r. apply Z.mod_small. lia.
    + rewrite Z.add_comm, Z.mod_add by lia. apply Z.mod_small. lia.
  - apply Z.mod_small. lia.
Qed.

(** The pixel format sent back is the one received, byte for byte. *)
Lemma pixelFormatBytes_ofBytes (b : list Z) :
  length b = 16%nat → Forall (λ x, 0 ≤ x < 256) b →
  pixelFormatBytes (pixelFormatOfBytes b) = b.
Proof.
  intros Hl Hb.
  do 17 (destruct b as [|? b]; try discriminate Hl). clear Hl.
  repeat match goal with
         | H : Forall _ (_ :: _) |- _ => apply Forall_cons in H; destruct H
         end.
  unfold pixelFormatBytes, pixelFormatOfBytes.
  cbn [bitsPerPixel depth bigEndianFlag trueColourFlag redMax greenMax blueMax
       redShift greenShift blueShift padding1 padding2 padding3].
  change (at_ ?l 0) with (default 0 (l !! 0%nat)).
  unfold at_. cbn [Z.to_nat Pos.to_nat Pos.iter_op Nat.add lookup list_lookup default].
  repeat match goal with
         | |- context [to_be 2 (be [?a; ?b])] =>
             rewrite (proj1 (to_be_2_be a b ltac:(assumption) ltac:(assumption)))
         end.
  reflexivity.
Qed.

Lemma readT_app (c : Client) (a rest prior : list Z) :
  isValid c = true →
  inbound (socket c) = a ++ rest →
  (length prior ≤ length a)%nat →
  readT (Z.of_nat (length a)) prior c = (a, consumed (Z.of_nat (length a)) c)
  ∧ inbound (socket (consumed (Z.of_nat (length a)) c)) = rest.
Proof.
  intros Hv E Hp. rewrite readT_valid by exact Hv. unfold peek, consumed, sock_read. cbn.
  rewrite E, Nat2Z.id, take_app_length, drop_app_length.
  rewrite drop_ge by exact Hp. rewrite app_nil_r. split; reflexivity.
Qed.

Lemma write_valid (bytes : list Z) (c : Client) :
  isValid c = true → write bytes c = upd_socket (sock_write bytes) c.
Proof. intros Hv. unfold write. rewrite Hv. reflexivity. Qed.

Lemma write_write (b1 b2 : list Z) (c : Client) :
  upd_socket (sock_write b2) (upd_socket (sock_write b1) c)
  = upd_socket (sock_write (b1 ++ b2)) c.
Proof. unfold upd_socket, sock_write, set_socket. cbn. rewrite app_assoc. reflexivity. Qed.

Lemma setPixelFormat_valid (c : Client) :
  isValid c = true →
  setPixelFormat c
  = upd_socket (sock_write ([0; 32; 32; 32] ++ pixelFormatBytes (pixelFormat c))) c.
Proof.
  intros Hv. unfold setPixelFormat.
  rewrite (write_valid [SetPixelFormat] c) by exact Hv.
  rewrite (write_valid [32; 32; 32]) by exact Hv. rewrite write_write.
  rewrite write_valid by exact Hv. rewrite write_write. reflexivity.
Qed.

Lemma framebufferUpdateRequest_valid (incremental : bool) (c : Client) :
  isValid c = true →
  framebufferUpdateRequest incremental c
  = upd_socket
      (sock_write
         ([3; if incremental then 1 else 0; 0; 0; 0; 0]
          ++ to_be 2 (quint16 (frameBufferWidth c))
          ++ to_be 2 (quint16 (frameBufferHeight c))))
      c.
Proof.
  intros Hv. unfold framebufferUpdateRequest.
  rewrite (write_valid [FramebufferUpdateRequest] c) by exact Hv.
  rewrite (write_valid [if incremental then 1 else 0]) by exact Hv. rewrite write_write.
  rewrite write_valid by exact Hv. rewrite write_write. reflexivity.
Qed.

Lemma setEncodings_valid (c : Client) :
  isValid c = true →
  setEncodings [Tight; ZRLE; Hextile; RawEncoding] c
  = upd_socket
      (sock_write [2; 32; 0; 4; 0; 0; 0; 7; 0; 0; 0; 16; 0; 0; 0; 5; 0; 0; 0; 0]) c.
Proof.
  intros Hv. unfold setEncodings. cbn [fold_left].
  rewrite (write_valid [SetEncodings] c) by exact Hv.
  do 6 (rewrite (write_valid _ (upd_socket _ c)) by exact Hv; rewrite write_write).
  reflexivity.
Qed.

(** X13.  ServerInit.  Once the 24 fixed bytes and the whole name are
    buffered, the client consumes them, adopts the advertised size and
    pixel format, allocates a white framebuffer of that size, enters the
    running state and sends three messages: SetPixelFormat with the
    sixteen bytes of the server's own format, SetEncodings for Tight,
    ZRLE, Hextile and Raw in this order, and a non-incremental
    FramebufferUpdateRequest for the advertised size.  The padding bytes
    of the first two messages are spaces (0x20). *)
Theorem parserServerInit_complete (c : Client) (wb hb pfb nl name rest : list Z) :
  isValid c = true →
  inbound (socket c) = wb ++ hb ++ pfb ++ nl ++ name ++ rest →
  length wb = 2%nat → length hb = 2%nat → length pfb = 16%nat → length nl = 4%nat →
  Forall (λ x, 0 ≤ x < 256) (wb ++ hb ++ pfb) →
  be nl = Z.of_nat (length name) →
  let c' := parserServerInit c in
  state c' = WaitingState
  ∧ inbound (socket c') = rest
  ∧ frameBufferWidth c' = be wb
  ∧ frameBufferHeight c' = be hb
  ∧ pixelFormat c' = pixelFormatOfBytes pfb
  ∧ image c' = newFramebuffer (be wb) (be hb)
  ∧ trace c' = trace c ++ [SigFramebufferSizeChanged (be wb) (be hb)]
  ∧ outbound (socket c')
    = outbound (socket c) ++ [0; 32; 32; 32] ++ pfb ++ setEncodingsMessage
      ++ [3; 0; 0; 0; 0; 0] ++ wb ++ hb.
Proof.
  intros Hv Hin Lw Lh Lp Ln Hb Hname. cbv zeta.
  apply Forall_app in Hb as [Bw Hb]. apply Forall_app in Hb as [Bh Bp].
  unfold parserServerInit.
  destruct (Z.ltb_spec (bytesAvailable (socket c)) (2 + 2 + 16 + 4)) as [Hlt|_].
  { unfold bytesAvailable in Hlt. rewrite Hin, !length_app in Hlt. lia. }
  destruct (readT_app c wb _ (replicate 2 0) Hv Hin ltac:(rewrite Lw; cbn; lia)) as [E1 I1].
  rewrite Lw in E1, I1. change (Z.of_nat 2) with 2 in E1, I1. rewrite E1. clear E1.
  set (c1 := consumed 2 c) in *.
  assert (Hv1 : isValid c1 = true) by exact Hv.
  destruct (readT_app c1 hb _ (replicate 2 0) Hv1 I1 ltac:(rewrite Lh; cbn; lia)) as [E2 I2].
  rewrite Lh in E2, I2. change (Z.of_nat 2) with 2 in E2, I2. rewrite E2. clear E2.
  set (c2 := consumed 2 c1) in *.
  match goal with |- context [readT 16 ?prior ?cc] => set (c3 := cc) end.
  set (pr := pixelFormatBytes (pixelFormat c3)).
  assert (Hv3 : isValid c3 = true) by exact Hv.
  assert (I3 : inbound (socket c3) = pfb ++ nl ++ name ++ rest) by exact I2.
  assert (Lpr : (length pr ≤ length pfb)%nat) by (rewrite Lp; reflexivity).
  destruct (readT_app c3 pfb _ pr Hv3 I3 Lpr) as [E3 I4].
  rewrite Lp in E3, I4. change (Z.of_nat 16) with 16 in E3, I4. rewrite E3. clear E3.
  match goal with |- context [readT 4 (replicate 4 0) ?cc] => set (c4 := cc) end.
  assert (Hv4 : isValid c4 = true) by exact Hv.
  assert (I5 : inbound (socket c4) = nl ++ name ++ rest) by exact I4.
  destruct (readT_app c4 nl _ (replicate 4 0) Hv4 I5 ltac:(rewrite Ln; cbn; lia)) as [E4 I6].
  rewrite Ln in E4, I6. change (Z.of_nat 4) with 4 in E4, I6. rewrite E4. clear E4.
  rewrite Hname.
  set (c5 := consumed 4 c4) in *.
  destruct (Z.ltb_spec (bytesAvailable (socket c5)) (Z.of_nat (length name))) as [Hlt|_].
  { unfold bytesAvailable in Hlt. rewrite I6, length_app in Hlt. lia. }
  destruct (readBytes_app c5 name rest I6) as [E5 I7]. rewrite E5. clear E5.
  set (c6 := consumed (Z.of_nat (length name)) c5) in *.
  assert (Hv6 : connected (socket c6) = true) by exact Hv.
  assert (O6 : outbound (socket c6) = outbound (socket c)) by reflexivity.
  assert (P6 : pixelFormat c6 = pixelFormatOfBytes pfb) by reflexivity.
  assert (W6 : frameBufferWidth c6 = be wb) by reflexivity.
  assert (H6 : frameBufferHeight c6 = be hb) by reflexivity.
  assert (M6 : image c6 = newFramebuffer (be wb) (be hb)) by reflexivity.
  assert (T6 : trace c6 = trace c ++ [SigFramebufferSizeChanged (be wb) (be hb)])
    by reflexivity.
  assert (S6 : state (set_state WaitingState c6) = WaitingState) by reflexivity.
  clearbody c6. clear - Hv6 O6 P6 W6 H6 M6 T6 I7 Lw Lh Lp Bw Bh Bp.
  assert (E : framebufferUpdateRequest false
                (setEncodings [Tight; ZRLE; Hextile; RawEncoding]
                   (setPixelFormat (set_state WaitingState c6)))
              = upd_socket
                  (sock_write
                     ([0; 32; 32; 32] ++ pfb ++ setEncodingsMessage
                      ++ [3; 0; 0; 0; 0; 0] ++ wb ++ hb))
                  (set_state WaitingState c6)).
  { set (c7 := set_state WaitingState c6).
    assert (Hv7 : isValid c7 = true) by exact Hv6.
    assert (P7 : pixelFormat c7 = pixelFormatOfBytes pfb) by exact P6.
    assert (W7 : frameBufferWidth c7 = be wb) by exact W6.
    assert (H7 : frameBufferHeight c7 = be hb) by exact H6.
    clearbody c7.
    rewrite (setPixelFormat_valid c7 Hv7).
    rewrite setEncodings_valid by exact Hv7. rewrite write_write.
    rewrite framebufferUpdateRequest_valid by exact Hv7. rewrite write_write.
    cbn [pixelFormat frameBufferWidth frameBufferHeight upd_socket set_socket].
    rewrite P7, W7, H7, pixelFormatBytes_ofBytes by assumption.
    do 3 (destruct wb as [|? wb]; try discriminate Lw).
    do 3 (destruct hb as [|? hb]; try discriminate Lh).
    repeat match goal with
           | H : Forall _ (_ :: _) |- _ => apply Forall_cons in H; destruct H
           end.
    repeat match goal with
           | |- context [quint16 (be [?a; ?b])] =>
               rewrite (proj2 (to_be_2_be a b ltac:(assumption) ltac:(assumption)))
           end.
    repeat match goal with
           | |- context [to_be 2 (be [?a; ?b])] =>
               rewrite (proj1 (to_be_2_be a b ltac:(assumption) ltac:(assumption)))
           end.
    f_equal. f_equal. rewrite <- !app_assoc. reflexivity. }
  rewrite E. cbn [state inbound outbound socket upd_socket set_socket sock_write
                  set_state pixelFormat frameBufferWidth frameBufferHeight image trace].
  rewrite O6. repeat split; assumption.
Qed.

End ServerInit.

(** ** Input events and the tool set *)

Section Input.
Import Client.
Context {zl : Zlib} {jp : JpegCodec}.

(** Every key of [keyMap] is a Qt key code of the 0x01000000 block. *)
Lemma keyMap_below (k : Z) : k < 0x01000000 → keyMap !! k = None.
Proof.
  intros Hk. unfold keyMap, keyList. cbn [insertKeys].
  unfold Key_Tab, Key_Backspace, Key_Return, Key_Enter, Key_Insert, Key_Delete, Key_Home,
    Key_End, Key_Left, Key_Up, Key_Right, Key_Down, Key_PageUp, Key_PageDown, Key_Shift,
    Key_Control, Key_Meta, Key_Alt, Key_F1, Key_F2, Key_F3, Key_F4, Key_F5, Key_F6, Key_F7,
    Key_F8, Key_F9, Key_F10, Key_F11, Key_F12.
  rewrite !lookup_insert_ne by lia. apply lookup_empty.
Qed.

Lemma isValid_written (b : list Z) (c : Client) :
  isValid (upd_socket (sock_write b) c) = isValid c.
Proof. reflexivity. Qed.

(** What [keyEvent] writes on a connected socket. *)
Lemma keyEvent_valid (e : KeyEvent) (garbage : Z) (c : Client) :
  isValid c = true →
  keyEvent e garbage c
  = upd_socket
      (sock_write
         ([4; if key_press e then 1 else 0; 32; 32]
          ++ to_be 4 (match keyMap !! key_code e with
                      | Some keysym => keysym
                      | None => match key_text e with ch :: _ => ch | [] => garbage end
                      end)))
      c.
Proof.
  intros Hv. unfold keyEvent, writeRaw. cbv zeta.
  rewrite (write_valid [4] c) by exact Hv.
  rewrite (write_valid _ (upd_socket _ c)) by exact Hv. rewrite !write_write.
  rewrite (write_valid _ (upd_socket _ c)) by exact Hv. rewrite write_write.
  rewrite <- !app_assoc. reflexivity.
Qed.

(** X14.  [Tools::sendText] types a text one UTF-16 code unit at a time:
    on a connected client it writes, for every unit in order, a KeyEvent
    (type 4) with the down flag set and then one with the flag clear,
    both carrying the code unit itself as the 32-bit keysym, and
    nothing else; the two padding bytes of each message are spaces
    (0x20).  No key map entry interferes, and the uninitialised keysym
    of [keyEvent] is never sent. *)
Theorem sendText_messages (text : list Z) (garbage : Z) (d : Tools.Private) :
  isValid (Tools.vncClient d) = true →
  let d' := Tools.sendText text garbage d in
  outbound (socket (Tools.vncClient d'))
  = outbound (socket (Tools.vncClient d)) ++ concat (typedChar <$> text)
  ∧ inbound (socket (Tools.vncClient d')) = inbound (socket (Tools.vncClient d))
  ∧ Tools.pos d' = Tools.pos d.
Proof.
  cbv zeta. unfold Tools.sendText. revert d.
  induction text as [|ch text IH]; intros d Hv; cbn [fold_left fmap list_fmap concat].
  - rewrite app_nil_r. repeat split.
  - match goal with |- context [fold_left ?f text ?d1] => set (d2 := d1) end.
    assert (E : Tools.vncClient d2
                = upd_socket (sock_write (typedChar ch)) (Tools.vncClient d)).
    { unfold d2, Tools.upd_vncClient, handleKeyEvent. cbn [Tools.vncClient].
      rewrite (keyEvent_valid _ _ (Tools.vncClient d) Hv).
      rewrite keyEvent_valid by exact Hv.
      cbn [key_press key_code key_text]. rewrite keyMap_below by lia.
      unfold upd_socket, sock_write, typedChar. cbn -[to_be].
      rewrite <- !app_assoc. reflexivity. }
    assert (Hv2 : isValid (Tools.vncClient d2) = true) by (rewrite E; exact Hv).
    destruct (IH d2 Hv2) as (I1 & I2 & I3). rewrite I1, I2, I3, E.
    cbn -[typedChar]. rewrite <- app_assoc. repeat split.
Qed.

(** X15.  [Tools::sendKey] does not send the keysym it is given.  The
    event it builds has the keysym as its Qt key and no text; a keysym
    below 0x01000000 (every X11 keysym but the Unicode extensions,
    Return 0xff0d and the like included) is not a key of [keyMap], so
    [keyEvent] assigns nothing to [code]: the KeyEvent message carries
    what the uninitialised variable held, the same for every such
    keysym. *)
Theorem sendKey_ignores_keysym (keysym : Z) (down : bool) (garbage : Z) (d : Tools.Private) :
  isValid (Tools.vncClient d) = true →
  keysym < 0x01000000 →
  outbound (socket (Tools.vncClient (Tools.sendKey keysym down garbage d)))
  = outbound (socket (Tools.vncClient d))
    ++ [4; if down then 1 else 0; 32; 32] ++ to_be 4 garbage.
Proof.
  intros Hv Hk. unfold Tools.sendKey, Tools.upd_vncClient, handleKeyEvent.
  cbn [Tools.vncClient]. rewrite keyEvent_valid by exact Hv.
  cbn [key_press key_code key_text]. rewrite keyMap_below by exact Hk. reflexivity.
Qed.

(** What [pointerEvent] writes on a connected socket. *)
Lemma pointerEvent_valid (e : MouseEvent) (c : Client) :
  isValid c = true →
  pointerEvent e c
  = upd_socket
      (sock_write
         ([5; (if truthy (Z.land (mouse_buttons e) LeftButton) then 1 else 0)
              + (if truthy (Z.land (mouse_buttons e) MiddleButton) then 2 else 0)
              + (if truthy (Z.land (mouse_buttons e) RightButton) then 4 else 0)]
          ++ to_be 2 (quint16 (mouse_x e)) ++ to_be 2 (quint16 (mouse_y e))))
      c.
Proof.
  intros Hv. unfold pointerEvent. cbv zeta.
  rewrite (write_valid [5] c) by exact Hv.
  do 3 (rewrite (write_valid _ (upd_socket _ c)) by exact Hv; rewrite write_write).
  destruct (truthy (Z.land (mouse_buttons e) LeftButton)),
    (truthy (Z.land (mouse_buttons e) MiddleButton)),
    (truthy (Z.land (mouse_buttons e) RightButton));
    rewrite <- !app_assoc; reflexivity.
Qed.

Lemma pointer_tool (button x y : Z) (held : bool) (c : Client) :
  isValid c = true →
  handlePointerEvent
    (mkMouseEvent (if held then Tools.qtButtonOf button else NoButton) x y) c
  = upd_socket (sock_write (pointerMessage (if held then buttonMaskOf button else 0) x y)) c.
Proof.
  intros Hv. unfold handlePointerEvent. rewrite pointerEvent_valid by exact Hv.
  unfold pointerMessage, quint16, Tools.qtButtonOf, buttonMaskOf.
  cbn [mouse_buttons mouse_x mouse_y].
  destruct held; [|reflexivity].
  destruct (button =? 2); [reflexivity|]. destruct (button =? 3); reflexivity.
Qed.

(** X16.  [Tools::mouseClick] and [Tools::dragAndDrop] on a connected
    client.  A click writes two PointerEvent messages at the given
    position: the button pressed, then no button.  A drag writes three:
    the button pressed at the position left by the previous tool call,
    the button still held at the target, and no button at the target.
    Button 2 is sent as mask 2 (middle), button 3 as mask 4 (right) and
    every other number as mask 1 (left); coordinates are sent modulo
    2^16; both calls leave the target as the current position. *)
Theorem pointer_tools_messages (x y button : Z) (d : Tools.Private) :
  isValid (Tools.vncClient d) = true →
  let out := outbound (socket (Tools.vncClient d)) in
  let m := buttonMaskOf button in
  let click := Tools.mouseClick x y button d in
  let drag := Tools.dragAndDrop x y button d in
  outbound (socket (Tools.vncClient click))
  = out ++ pointerMessage m x y ++ pointerMessage 0 x y
  ∧ Tools.pos click = (x, y)
  ∧ outbound (socket (Tools.vncClient drag))
    = out ++ pointerMessage m (Tools.pos d).1 (Tools.pos d).2
      ++ pointerMessage m x y ++ pointerMessage 0 x y
  ∧ Tools.pos drag = (x, y).
Proof.
  intros Hv. cbv zeta. unfold Tools.mouseClick, Tools.dragAndDrop, Tools.upd_vncClient.
  cbn [Tools.vncClient Tools.pos fst snd].
  pose proof (λ c, pointer_tool button x y true c) as Pt.
  pose proof (λ c, pointer_tool button x y false c) as Pf.
  pose proof (λ c, pointer_tool button (Tools.pos d).1 (Tools.pos d).2 true c) as Po.
  cbn [negb] in Pt, Pf, Po.
  rewrite (Pt (Tools.vncClient d)), (Po (Tools.vncClient d)) by exact Hv.
  rewrite !Pt by exact Hv. rewrite !Pf by exact Hv.
  cbn -[pointerMessage]. rewrite <- !app_assoc. repeat split.
Qed.

End Input.

Section Resume.
Import Client.
Context {zl : Zlib} {jp : JpegCodec}.

Lemma arrive_upd_image (g : Image → Image) (more : list Z) (c : Client) :
  upd_image g (arrive more c) = arrive more (upd_image g c).
Proof. reflexivity. Qed.

Lemma arrive_upd_fbu (g : Fbu → Fbu) (more : list Z) (c : Client) :
  upd_fbu g (arrive more c) = arrive more (upd_fbu g c).
Proof. reflexivity. Qed.

Lemma arrive_consumed (n : Z) (more : list Z) (c : Client) :
  n ≤ bytesAvailable (socket c) →
  consumed n (arrive more c) = arrive more (consumed n c).
Proof.
  intros Hn. unfold consumed, arrive, upd_socket, sock_read, set_socket, bytesAvailable in *.
  cbn. rewrite drop_app_le by lia. reflexivity.
Qed.

Lemma peek_arrive (n : Z) (more : list Z) (c : Client) :
  n ≤ bytesAvailable (socket c) →
  peek n (socket (arrive more c)) = peek n (socket c).
Proof.
  intros Hn. unfold peek, arrive, bytesAvailable in *. cbn.
  rewrite take_app_le by lia. reflexivity.
Qed.

Lemma bytesAvailable_arrive (more : list Z) (c : Client) :
  bytesAvailable (socket (arrive more c))
  = bytesAvailable (socket c) + Z.of_nat (length more).
Proof. unfold bytesAvailable, arrive. cbn. rewrite length_app. lia. Qed.

Lemma bytesAvailable_drop (k : Z) (c c' : Client) :
  0 ≤ k ≤ bytesAvailable (socket c) →
  inbound (socket c') = drop (Z.to_nat k) (inbound (socket c)) →
  bytesAvailable (socket c') = bytesAvailable (socket c) - k.
Proof. unfold bytesAvailable. intros Hk ->. rewrite length_drop. lia. Qed.

Lemma reads_id : reads 0 (λ c, c).
Proof. intros c Hv Hk. split; [exact Hv|]. repeat split. Qed.

Lemma readsAt_compose (k1 k2 : Z) (f g : Client → Client) (c : Client) :
  0 ≤ k1 → 0 ≤ k2 → readsAt k1 f c → readsAt k2 g (f c) → readsAt (k1 + k2) (λ c, g (f c)) c.
Proof.
  intros H1 H2 Hf Hg Hv Hk.
  destruct (Hf Hv ltac:(lia)) as (Fv & Fp & Fi & Fm).
  pose proof (bytesAvailable_drop k1 c (f c) ltac:(lia) Fi) as Fa.
  destruct (Hg Fv ltac:(lia)) as (Gv & Gp & Gi & Gm).
  split; [exact Gv|]. split; [congruence|]. split.
  - rewrite Gi, Fi, drop_drop. f_equal. lia.
  - intros more. rewrite Fm, Gm. reflexivity.
Qed.

Lemma reads_forZ (k n : Z) (body : Z → Client → Client) :
  0 ≤ k → 0 ≤ n → (∀ i, reads k (body i)) → reads (n * k) (forZ 0 n body).
Proof.
  intros Hk Hn Hb c Hv Ha.
  apply (forZ_ind (λ i cc,
           isValid cc = true ∧ pixelFormat cc = pixelFormat c
           ∧ inbound (socket cc) = drop (Z.to_nat (i * k)) (inbound (socket c))
           ∧ ∀ more, forZ 0 i body (arrive more c) = arrive more cc)); [exact Hn | |].
  - split; [exact Hv|]. repeat split.
  - intros i cc Hi (Cv & Cp & Ci & Cm).
    pose proof (bytesAvailable_drop (i * k) c cc ltac:(nia) Ci) as Ca.
    destruct (Hb i cc Cv ltac:(nia)) as (Bv & Bp & Bi & Bm).
    split; [exact Bv|]. split; [congruence|]. split.
    + rewrite Bi, Ci, drop_drop. f_equal. nia.
    + intros more. rewrite forZ_snoc by lia. rewrite Cm, Bm. reflexivity.
Qed.

Lemma reads_compose (k1 k2 : Z) (f g : Client → Client) :
  0 ≤ k1 → 0 ≤ k2 → reads k1 f → reads k2 g → reads (k1 + k2) (λ c, g (f c)).
Proof. intros H1 H2 Hf Hg c. apply readsAt_compose; auto. Qed.

Lemma readsAt_ext (k k' : Z) (f f' : Client → Client) (c : Client) :
  k = k' → (∀ c, f c = f' c) → readsAt k f c → readsAt k' f' c.
Proof.
  intros <- E H Hv Hk. destruct (H Hv Hk) as (A & B & C & D).
  rewrite <- E. repeat split; try assumption. intros more. rewrite <- !E. apply D.
Qed.

Lemma reads_ext (k k' : Z) (f f' : Client → Client) :
  k = k' → (∀ c, f c = f' c) → reads k f → reads k' f'.
Proof. intros Hk E H c. eapply readsAt_ext; eauto. Qed.

(** A read of [n] bytes followed by a step that uses them. *)
Lemma readsAt_readT (n k : Z) (prior : list Z) (g : list Z → Client → Client) (c : Client) :
  0 ≤ n → 0 ≤ k →
  readsAt k (g (peek n (socket c) ++ drop (length (peek n (socket c))) prior)) (consumed n c) →
  readsAt (n + k) (λ c, let '(b, c1) := readT n prior c in g b c1) c.
Proof.
  intros Hn Hk Hg Hv Ha. rewrite readT_valid by exact Hv.
  assert (Hv1 : isValid (consumed n c) = true) by exact Hv.
  assert (Hi1 : inbound (socket (consumed n c)) = drop (Z.to_nat n) (inbound (socket c)))
    by reflexivity.
  pose proof (bytesAvailable_drop n c (consumed n c) ltac:(lia) Hi1) as Ha1.
  destruct (Hg Hv1 ltac:(lia)) as (Gv & Gp & Gi & Gm).
  split; [exact Gv|]. split; [exact Gp|]. split.
  - rewrite Gi, Hi1, drop_drop. f_equal. lia.
  - intros more. rewrite readT_valid by exact Hv.
    rewrite peek_arrive, arrive_consumed by lia. apply Gm.
Qed.

Lemma reads_readT (n k : Z) (prior : list Z) (g : list Z → Client → Client) :
  0 ≤ n → 0 ≤ k →
  (∀ b, reads k (g b)) →
  reads (n + k) (λ c, let '(b, c1) := readT n prior c in g b c1).
Proof. intros Hn Hk Hg c. apply readsAt_readT; auto. apply Hg. Qed.

Lemma reads_upd_image (g : Client → Image → Image) :
  (∀ more c, g (arrive more c) = g c) →
  reads 0 (λ c, upd_image (g c) c).
Proof.
  intros Hg c Hv Ha. split; [exact Hv|]. repeat split.
  intros more. rewrite Hg. reflexivity.
Qed.

Lemma reads_upd_fbu (g : Fbu → Fbu) : reads 0 (upd_fbu g).
Proof. intros c Hv Ha. split; [exact Hv|]. repeat split. Qed.

Lemma reads_readPixel32 (px py : Z) : reads 4 (readPixel32 px py).
Proof.
  eapply reads_ext; [| |apply (reads_readT 4 0 (replicate 4 0)
      (λ b c1, upd_image (setPixel px py (toRgb (pixelFormat c1) (le b))) c1)); try lia].
  - lia.
  - intros c. reflexivity.
  - intros b. apply (reads_upd_image (λ c1, setPixel px py (toRgb (pixelFormat c1) (le b)))).
    intros more c. reflexivity.
Qed.


(** *** The steps of a Hextile tile at 4 bytes per pixel *)

Lemma reads_hextileSubrect r ty th tx tw sub :
  reads (if flagged sub SubrectsColoured then 6 else 2) (hextileSubrect r ty th tx tw 4 sub).
Proof.
  destruct (flagged sub SubrectsColoured) eqn:Hf.
  - eapply reads_ext; [| |apply (reads_readT 4 2 (replicate 4 0)
        (λ b c1,
           let '(xy, c2) := readT 1 [0] c1 in
           (λ xy c2,
              let '(wh, c3) := readT 1 [0] c2 in
              (λ wh c3,
                 upd_image
                   (fillRect (rect_x r + tx + Z.land (Z.shiftr (at_ xy 0) 4) 0xf)
                      (rect_y r + ty + Z.land (at_ xy 0) 0xf)
                      (Z.min (Z.land (Z.shiftr (at_ wh 0) 4) 0xf + 1)
                         (tw - Z.land (Z.shiftr (at_ xy 0) 4) 0xf))
                      (Z.min (Z.land (at_ wh 0) 0xf + 1) (th - Z.land (at_ xy 0) 0xf))
                      (toRgb (pixelFormat c3) (le b)))
                   c3) wh c3) xy c2)); try lia].
    + reflexivity.
    + intros c. unfold hextileSubrect. rewrite Hf. cbn [Z.eqb Pos.eqb].
      destruct (readT 4 (replicate 4 0) c) as [b c1].
      destruct (readT 1 [0] c1) as [xy c2]. destruct (readT 1 [0] c2) as [wh c3]. reflexivity.
    + intros b. apply (reads_readT 1 1 [0]); try lia.
      intros xy. apply (reads_readT 1 0 [0]); try lia.
      intros wh. cbv beta.
      apply (reads_upd_image (λ c3, fillRect _ _ _ _ (toRgb (pixelFormat c3) (le b)))).
      intros more c. reflexivity.
  - eapply reads_ext; [| |apply (reads_readT 1 1 [0]
        (λ xy c2,
           let '(wh, c3) := readT 1 [0] c2 in
           (λ wh c3,
              upd_image
                (fillRect (rect_x r + tx + Z.land (Z.shiftr (at_ xy 0) 4) 0xf)
                   (rect_y r + ty + Z.land (at_ xy 0) 0xf)
                   (Z.min (Z.land (Z.shiftr (at_ wh 0) 4) 0xf + 1)
                      (tw - Z.land (Z.shiftr (at_ xy 0) 4) 0xf))
                   (Z.min (Z.land (at_ wh 0) 0xf + 1) (th - Z.land (at_ xy 0) 0xf))
                   (toRgb (pixelFormat c3) (hextileFG (fbu c3))))
                c3) wh c3)); try lia].
    + reflexivity.
    + intros c. unfold hextileSubrect. rewrite Hf.
      pose proof (fbu_readT 1 [0] c) as E1. destruct (readT 1 [0] c) as [xy c2].
      pose proof (fbu_readT 1 [0] c2) as E2. destruct (readT 1 [0] c2) as [wh c3].
      cbn [snd] in *. rewrite E2, E1. reflexivity.
    + intros xy. apply (reads_readT 1 0 [0]); try lia.
      intros wh. cbv beta.
      apply (reads_upd_image
               (λ c3, fillRect _ _ _ _ (toRgb (pixelFormat c3) (hextileFG (fbu c3))))).
      intros more c. reflexivity.
Qed.

(** The optional colour that opens a tile, stored by [set]. *)
Lemma reads_hextileColour (flag : bool) (set : Z → Fbu → Fbu) :
  reads (if flag then 4 else 0)
    (λ c, if flag
          then if 4 =? 4
               then let '(v, c1) := readT 4 (replicate 4 0) c in upd_fbu (set (le v)) c1
               else c
          else c).
Proof.
  destruct flag; [|apply reads_id]. cbn [Z.eqb Pos.eqb].
  apply (reads_readT 4 0 (replicate 4 0) (λ v c1, upd_fbu (set (le v)) c1)); try lia.
  intros v. apply reads_upd_fbu.
Qed.

Lemma reads_hextileRaw r ty th tx tw :
  0 ≤ tw → 0 ≤ th →
  reads (th * (tw * 4))
    (forZ 0 th
       (λ y c,
          forZ 0 tw
            (λ x c, if 4 =? 4 then readPixel32 (rect_x r + tx + x) (rect_y r + ty + y) c else c)
            c)).
Proof.
  intros Hw Hh. apply reads_forZ; [lia | exact Hh |].
  intros y. apply (reads_forZ 4 tw); [lia | exact Hw |].
  intros x. cbn [Z.eqb Pos.eqb]. apply reads_readPixel32.
Qed.


Lemma at_peek (n i : Z) (s : Socket) : 0 ≤ i < n → at_ (peek n s) i = at_ (inbound s) i.
Proof. intros H. unfold peek. apply at_take. lia. Qed.

Lemma at_drop (l : list Z) (k i : Z) : 0 ≤ k → 0 ≤ i → at_ (drop (Z.to_nat k) l) i = at_ l (k + i).
Proof.
  intros Hk Hi. unfold at_. rewrite lookup_drop. do 2 f_equal. lia.
Qed.

(** The subrectangles of a tile, after their count has been read. *)
Lemma readsAt_hextileCount r ty th tx tw sub (c : Client) :
  0 ≤ at_ (inbound (socket c)) 0 →
  readsAt (1 + at_ (inbound (socket c)) 0 * (if flagged sub SubrectsColoured then 6 else 2))
    (λ c, let '(n, c1) := readT 1 [0] c in
          forZ 0 (at_ n 0) (λ _ c, hextileSubrect r ty th tx tw 4 sub c) c1)
    c.
Proof.
  intros Hn.
  apply (readsAt_readT 1 _ [0]
           (λ n c1, forZ 0 (at_ n 0) (λ _ c, hextileSubrect r ty th tx tw 4 sub c) c1));
    [lia | destruct (flagged sub SubrectsColoured); lia |].
  rewrite sub_byte.
  apply (reads_forZ _ _ (λ _ c, hextileSubrect r ty th tx tw 4 sub c));
    [destruct (flagged sub SubrectsColoured); lia | exact Hn |].
  intros _. apply reads_hextileSubrect.
Qed.

(** A whole tile: [hextileConsumeTile] reads the bytes counted by
    [hextileTileBytes]. *)
Lemma readsAt_hextileConsumeTile r ty th tx tw tb (c : Client) :
  0 ≤ tw → 0 ≤ th →
  Forall (λ b, 0 ≤ b < 256) (inbound (socket c)) →
  1 ≤ bytesAvailable (socket c) →
  hextileTileBytes (peek (Z.min (bytesAvailable (socket c)) 2048) (socket c)) tw th 4 = Some tb →
  readsAt tb (hextileConsumeTile r ty th tx tw 4) c.
Proof.
  intros Hw Hh Hb Ha Htb Hv0 Ha0.
  cut (readsAt tb (hextileConsumeTile r ty th tx tw 4) c); [intros G; exact (G Hv0 Ha0)|].
  clear Ha0.
  set (inb := inbound (socket c)) in *.
  set (pk := peek (Z.min (bytesAvailable (socket c)) 2048) (socket c)) in *.
  assert (Hla : Z.of_nat (length pk) ≤ bytesAvailable (socket c)).
  { unfold pk, peek, bytesAvailable. rewrite length_take. lia. }
  assert (Hpk : ∀ i, 0 ≤ i < Z.of_nat (length pk) → at_ pk i = at_ inb i).
  { intros i Hi. unfold pk in *. apply at_peek.
    unfold peek in Hi. rewrite length_take in Hi. lia. }
  assert (Hl : 1 ≤ Z.of_nat (length pk)).
  { unfold pk, peek, bytesAvailable in *. rewrite length_take. lia. }
  unfold hextileTileBytes in Htb. rewrite (Hpk 0) in Htb by lia.
  set (sub := at_ inb 0) in *.
  assert (Hfp : Forall (λ b, 0 ≤ b < 256) pk) by (unfold pk, peek; apply Forall_take, Hb).
  unfold hextileConsumeTile.
  destruct (flagged sub RawSubencoding) eqn:Hraw.
  { inversion Htb; subst tb. clear Htb.
    apply (readsAt_readT 1 (tw * th * 4) [0]); [lia | nia |].
    rewrite sub_byte. fold inb. fold sub. rewrite Hraw.
    eapply readsAt_ext; [| intros; reflexivity | apply (reads_hextileRaw r ty th tx tw Hw Hh)].
    lia. }
  destruct (flagged sub AnySubrects) eqn:Hany.
  2: { set (kb := if flagged sub BackgroundSpecified then 4 else 0).
       assert (Etb : tb = 1 + (kb + 0)).
       { unfold kb. destruct (flagged sub BackgroundSpecified); inversion Htb; lia. }
       rewrite Etb. clear Htb Etb.
       apply (readsAt_readT 1 (kb + 0) [0]);
         [lia | unfold kb; destruct (flagged sub BackgroundSpecified); lia |].
       rewrite sub_byte. fold inb. fold sub. rewrite Hraw, Hany.
       apply (reads_compose kb 0
                (λ c, if flagged sub BackgroundSpecified
                      then if 4 =? 4
                           then let '(v, c1) := readT 4 (replicate 4 0) c in
                                upd_fbu (set_hextileBG (le v)) c1
                           else c
                      else c)
                (λ c, upd_image
                        (fillRect (rect_x r + tx) (rect_y r + ty) tw th
                           (toRgb (pixelFormat c) (hextileBG (fbu c)))) c));
         [unfold kb; destruct (flagged sub BackgroundSpecified); lia | lia | |].
       - apply reads_hextileColour.
       - apply (reads_upd_image
                  (λ c, fillRect (rect_x r + tx) (rect_y r + ty) tw th
                          (toRgb (pixelFormat c) (hextileBG (fbu c))))).
         intros more c0. reflexivity. }
  set (kb := if flagged sub BackgroundSpecified then 4 else 0).
  set (kf := if flagged sub ForegroundSpecified then 4 else 0).
  set (ks := if flagged sub SubrectsColoured then 6 else 2).
  assert (Et0 : (if flagged sub ForegroundSpecified
                 then (if flagged sub BackgroundSpecified then 1 + 4 else 1) + 4
                 else if flagged sub BackgroundSpecified then 1 + 4 else 1) + 1
                = 1 + kb + kf + 1).
  { unfold kb, kf. destruct (flagged sub ForegroundSpecified),
      (flagged sub BackgroundSpecified); lia. }
  rewrite Et0 in Htb.
  destruct (Z.ltb_spec (Z.of_nat (length pk)) (1 + kb + kf + 1)) as [?|Hlen];
    [discriminate|].
  assert (Hkb : 0 ≤ kb) by (unfold kb; destruct (flagged sub BackgroundSpecified); lia).
  assert (Hkf : 0 ≤ kf) by (unfold kf; destruct (flagged sub ForegroundSpecified); lia).
  assert (Hks : 0 ≤ ks) by (unfold ks; destruct (flagged sub SubrectsColoured); lia).
  rewrite Hpk in Htb by lia.
  replace (1 + kb + kf + 1 - 1) with (1 + kb + kf) in Htb by lia.
  set (n := at_ inb (1 + kb + kf)) in *.
  assert (Hn : 0 ≤ n) by (pose proof (at_byte inb (1 + kb + kf) Hb); lia).
  assert (Etb : tb = 1 + ((kb + 0 + kf) + (1 + n * ks))).
  { unfold ks. destruct (flagged sub SubrectsColoured); inversion Htb; lia. }
  rewrite Etb. clear Htb Etb.
  apply (readsAt_readT 1 ((kb + 0 + kf) + (1 + n * ks)) [0]); [lia | nia |].
  rewrite sub_byte. fold inb. fold sub. rewrite Hraw, Hany.
  set (c1 := consumed 1 c).
  pose (BGs := λ c : Client,
          if flagged sub BackgroundSpecified
          then if 4 =? 4
               then let '(v, c1) := readT 4 (replicate 4 0) c in
                    upd_fbu (set_hextileBG (le v)) c1
               else c
          else c).
  pose (FILLs := λ c : Client,
          upd_image
            (fillRect (rect_x r + tx) (rect_y r + ty) tw th
               (toRgb (pixelFormat c) (hextileBG (fbu c)))) c).
  pose (FGs := λ c : Client,
          if flagged sub ForegroundSpecified
          then if 4 =? 4
               then let '(v, c1) := readT 4 (replicate 4 0) c in
                    upd_fbu (set_hextileFG (le v)) c1
               else c
          else c).
  pose (F3 := λ c : Client, FGs (FILLs (BGs c))).
  assert (RB : reads kb BGs) by apply reads_hextileColour.
  assert (RF : reads kf FGs) by apply reads_hextileColour.
  assert (RI : reads 0 FILLs).
  { apply (reads_upd_image
             (λ c, fillRect (rect_x r + tx) (rect_y r + ty) tw th
                     (toRgb (pixelFormat c) (hextileBG (fbu c))))).
    intros more c0. reflexivity. }
  assert (R3 : reads (kb + 0 + kf) F3).
  { refine (reads_compose (kb + 0) kf (λ c, FILLs (BGs c)) FGs _ _ _ RF); [lia | lia |].
    refine (reads_compose kb 0 BGs FILLs _ _ RB RI); lia. }
  refine (readsAt_compose (kb + 0 + kf) (1 + n * ks) F3
            (λ c, let '(nb, c5) := readT 1 [0] c in
                  forZ 0 (at_ nb 0) (λ _ c, hextileSubrect r ty th tx tw 4 sub c) c5)
            c1 _ _ (R3 c1) _); [lia | nia |].
  clearbody BGs FILLs FGs.
  intros Hv4 Ha4.
  assert (Hin4 : at_ (inbound (socket (F3 c1))) 0 = n).
  { assert (Hv1 : isValid c1 = true) by exact Hv0.
    assert (Ha1 : bytesAvailable (socket c1) = bytesAvailable (socket c) - 1).
    { apply (bytesAvailable_drop 1 c c1); [lia | reflexivity]. }
    destruct (R3 c1 Hv1 ltac:(lia)) as (_ & _ & Hi3 & _).
    rewrite Hi3. change (inbound (socket c1)) with (drop (Z.to_nat 1) inb).
    rewrite !at_drop by lia. unfold n. f_equal. lia. }
  pose proof (readsAt_hextileCount r ty th tx tw sub (F3 c1)) as G.
  rewrite Hin4 in G. fold ks in G. apply G; [exact Hn | exact Hv4 | exact Ha4].
Qed.


(** The size of a tile does not change when more data is buffered. *)
Lemma hextileTileBytes_arrive tw th tb more (c : Client) :
  1 ≤ bytesAvailable (socket c) →
  hextileTileBytes (peek (Z.min (bytesAvailable (socket c)) 2048) (socket c)) tw th 4 = Some tb →
  hextileTileBytes
    (peek (Z.min (bytesAvailable (socket (arrive more c))) 2048) (socket (arrive more c)))
    tw th 4 = Some tb.
Proof.
  intros Ha.
  set (pk := peek (Z.min (bytesAvailable (socket c)) 2048) (socket c)).
  set (pk' := peek _ (socket (arrive more c))).
  assert (Hl : Z.of_nat (length pk) = Z.min (bytesAvailable (socket c)) 2048).
  { unfold pk, peek, bytesAvailable. rewrite length_take. lia. }
  assert (Hl' : Z.of_nat (length pk) ≤ Z.of_nat (length pk')).
  { unfold pk', peek. rewrite Hl, length_take, bytesAvailable_arrive.
    unfold bytesAvailable, arrive. cbn. rewrite length_app. lia. }
  assert (Hsame : ∀ i, 0 ≤ i < Z.of_nat (length pk) → at_ pk' i = at_ pk i).
  { intros i Hi. unfold pk', pk. rewrite !at_peek by (rewrite ?bytesAvailable_arrive; lia).
    unfold at_, arrive. cbn. rewrite lookup_app_l; [reflexivity|].
    unfold bytesAvailable in *. lia. }
  unfold hextileTileBytes. rewrite (Hsame 0) by lia.
  destruct (flagged (at_ pk 0) RawSubencoding); [tauto|].
  destruct (flagged (at_ pk 0) AnySubrects); [|tauto].
  match goal with |- context [Z.of_nat (length pk) <? ?t] => set (t0 := t) end.
  assert (Ht0 : 2 ≤ t0).
  { unfold t0. destruct (flagged _ ForegroundSpecified), (flagged _ BackgroundSpecified); lia. }
  destruct (Z.ltb_spec (Z.of_nat (length pk)) t0); [discriminate|].
  destruct (Z.ltb_spec (Z.of_nat (length pk')) t0); [lia|].
  rewrite Hsame by lia. tauto.
Qed.

Lemma hextileTile_false r ty th tx tw (c : Client) :
  (hextileTile r ty th tx tw c).1 = false → (hextileTile r ty th tx tw c).2 = c.
Proof. unfold hextileTile. repeat (case_match; try discriminate; try reflexivity). Qed.

(** The cursor of the tile loops is not moved by a tile. *)
Lemma cursor_hextileConsumeTile r ty th tx tw bpp (c : Client) :
  hextileTX (fbu (hextileConsumeTile r ty th tx tw bpp c)) = hextileTX (fbu c)
  ∧ hextileTY (fbu (hextileConsumeTile r ty th tx tw bpp c)) = hextileTY (fbu c).
Proof.
  unfold hextileConsumeTile.
  pose proof (fbu_readT 1 [0] c) as E1. destruct (readT 1 [0] c) as [b c1]. cbn [snd] in E1.
  destruct (flagged _ RawSubencoding).
  { rewrite fbu_forZ; [rewrite E1; split; reflexivity|].
    intros y c0. apply fbu_forZ. intros x c2.
    destruct (bpp =? 4); [apply fbu_readPixel32 | reflexivity]. }
  assert (Hsub : ∀ n c0, fbu (forZ 0 n (λ _ c2, hextileSubrect r ty th tx tw bpp (at_ b 0) c2) c0)
                         = fbu c0).
  { intros n c0. apply fbu_forZ. intros. apply fbu_hextileSubrect. }
  assert (Hc : ∀ (flag : bool) (set : Z → Fbu → Fbu) (c0 : Client),
             (∀ v f, hextileTX (set v f) = hextileTX f ∧ hextileTY (set v f) = hextileTY f) →
             let c2 := if flag
                       then if bpp =? 4
                            then let '(v, c3) := readT 4 (replicate 4 0) c0 in
                                 upd_fbu (set (le v)) c3
                            else c0
                       else c0 in
             hextileTX (fbu c2) = hextileTX (fbu c0) ∧ hextileTY (fbu c2) = hextileTY (fbu c0)).
  { intros flag set c0 Hset. cbv zeta. destruct flag; [|tauto]. destruct (bpp =? 4); [|tauto].
    pose proof (fbu_readT 4 (replicate 4 0) c0) as E. destruct (readT 4 _ c0) as [v c3].
    cbn [snd] in E. cbn. rewrite <- E. apply Hset. }
  pose proof (Hc (flagged (at_ b 0) BackgroundSpecified) set_hextileBG c1
                ltac:(intros; split; reflexivity)) as [B1 B2].
  cbv zeta in B1, B2.
  set (c2 := if flagged (at_ b 0) BackgroundSpecified then _ else c1) in *. clearbody c2.
  set (c3 := upd_image _ c2).
  assert (I1 : fbu c3 = fbu c2) by reflexivity. clearbody c3.
  destruct (flagged _ AnySubrects); [|rewrite I1, B1, B2, E1; tauto].
  pose proof (Hc (flagged (at_ b 0) ForegroundSpecified) set_hextileFG c3
                ltac:(intros; split; reflexivity)) as [F1 F2].
  cbv zeta in F1, F2.
  set (c4 := if flagged (at_ b 0) ForegroundSpecified then _ else c3) in *. clearbody c4.
  pose proof (fbu_readT 1 [0] c4) as E5. destruct (readT 1 [0] c4) as [n c5]. cbn [snd] in E5.
  rewrite Hsub, E5, F1, F2, I1, B1, B2, E1. tauto.
Qed.

(** A completed tile is decoded the same with more data behind it. *)
Lemma hextileTile_arrive r ty th tx tw more (c : Client) :
  isValid c = true →
  bitsPerPixel (pixelFormat c) = 32 →
  Forall (λ b, 0 ≤ b < 256) (inbound (socket c)) →
  0 ≤ tw → 0 ≤ th →
  (hextileTile r ty th tx tw c).1 = true →
  let c' := (hextileTile r ty th tx tw c).2 in
  hextileTile r ty th tx tw (arrive more c) = (true, arrive more c')
  ∧ isValid c' = true
  ∧ pixelFormat c' = pixelFormat c
  ∧ Forall (λ b, 0 ≤ b < 256) (inbound (socket c'))
  ∧ hextileTX (fbu c') = hextileTX (fbu c)
  ∧ hextileTY (fbu c') = hextileTY (fbu c).
Proof.
  intros Hv Hbpp Hb Hw Hh. cbv zeta. unfold hextileTile.
  change (pixelFormat (arrive more c)) with (pixelFormat c). rewrite Hbpp.
  change (32 / 8) with 4.
  destruct (Z.ltb_spec (bytesAvailable (socket c)) 1) as [?|Ha]; [discriminate|].
  destruct (hextileTileBytes _ tw th 4) as [tb|] eqn:Etb; [|discriminate].
  destruct (Z.ltb_spec (bytesAvailable (socket c)) tb) as [?|Hat]; [discriminate|].
  intros _. cbn [snd].
  destruct (readsAt_hextileConsumeTile r ty th tx tw tb c Hw Hh Hb Ha Etb Hv Hat)
    as (Cv & Cp & Ci & Cm).
  destruct (cursor_hextileConsumeTile r ty th tx tw 4 c) as [X1 X2].
  split; [|split; [exact Cv | split; [exact Cp | split; [|split; assumption]]]].
  - pose proof (bytesAvailable_arrive more c) as Ea.
    destruct (Z.ltb_spec (bytesAvailable (socket (arrive more c))) 1); [lia|].
    rewrite (hextileTileBytes_arrive tw th tb more c Ha Etb).
    destruct (Z.ltb_spec (bytesAvailable (socket (arrive more c))) tb); [lia|].
    rewrite Cm. reflexivity.
  - rewrite Ci. apply Forall_drop, Hb.
Qed.

Lemma strides_step (n : nat) (pos extent : Z) :
  S n = strides pos extent 16 → n = strides (pos + 16) extent 16 ∧ pos < extent.
Proof.
  unfold strides. intros H.
  replace (extent - (pos + 16) + (16 - 1)) with (extent - pos + (16 - 1) + (-1) * 16) by lia.
  rewrite Z.div_add by lia.
  assert (1 ≤ (extent - pos + (16 - 1)) / 16) by lia.
  split; [lia|].
  destruct (Z.lt_ge_cases pos extent) as [?|Hge]; [assumption|].
  assert ((extent - pos + (16 - 1)) / 16 ≤ 0); [|lia].
  apply Z.lt_succ_r. apply Z.div_lt_upper_bound; lia.
Qed.


(** A row of tiles: a completed row is decoded the same with more data
    behind it, and an interrupted row goes on from its cursor. *)
Lemma hextileRow_arrive r ty th more (n : nat) (c : Client) :
  0 ≤ th →
  isValid c = true →
  bitsPerPixel (pixelFormat c) = 32 →
  Forall (λ b, 0 ≤ b < 256) (inbound (socket c)) →
  n = strides (hextileTX (fbu c)) (rect_w r) 16 →
  let res := hextileRow n r ty th c in
  isValid res.2 = true
  ∧ pixelFormat res.2 = pixelFormat c
  ∧ Forall (λ b, 0 ≤ b < 256) (inbound (socket res.2))
  ∧ hextileTY (fbu res.2) = hextileTY (fbu c)
  ∧ (res.1 = true → hextileRow n r ty th (arrive more c) = (true, arrive more res.2))
  ∧ (res.1 = false →
     hextileRow n r ty th (arrive more c)
     = hextileRow (strides (hextileTX (fbu res.2)) (rect_w r) 16) r ty th (arrive more res.2)).
Proof.
  intros Hh. revert c. induction n as [|n IH]; intros c Hv Hbpp Hb Hn; cbv zeta.
  { cbn [hextileRow fst snd]. repeat split; try assumption. discriminate. }
  destruct (strides_step n _ _ Hn) as [Hn' Hlt].
  cbn [hextileRow].
  change (hextileTX (fbu (arrive more c))) with (hextileTX (fbu c)).
  set (tx := hextileTX (fbu c)) in *.
  set (tw := Z.min 16 (rect_w r - tx)).
  assert (Hw : 0 ≤ tw) by (unfold tw; lia).
  pose proof (hextileTile_arrive r ty th tx tw more c Hv Hbpp Hb Hw Hh) as A.
  pose proof (hextileTile_false r ty th tx tw c) as F.
  destruct (hextileTile r ty th tx tw c) as [ok c1]. cbn [fst snd] in A, F.
  destruct ok.
  - destruct (A eq_refl) as (At & Av & Ap & Ab & Ax & Ay). rewrite At.
    set (c2 := upd_fbu (set_hextileTX (tx + 16)) c1).
    change (upd_fbu (set_hextileTX (tx + 16)) (arrive more c1)) with (arrive more c2).
    assert (Hn2 : n = strides (hextileTX (fbu c2)) (rect_w r) 16) by exact Hn'.
    destruct (IH c2 Av ltac:(cbn; congruence) Ab Hn2) as (Iv & Ip & Ib & Iy & It & If).
    cbv zeta in *.
    split; [exact Iv|]. split; [cbn in Ip; congruence|]. split; [exact Ib|].
    split; [cbn in Iy; congruence|]. split; [exact It | exact If].
  - specialize (F eq_refl). subst c1. cbn [fst snd].
    split; [exact Hv|]. split; [reflexivity|]. split; [exact Hb|]. split; [reflexivity|].
    split; [discriminate|]. intros _. fold tx. rewrite <- Hn.
    cbn [hextileRow]. reflexivity.
Qed.

(** The rows of a rectangle. *)
Lemma hextileRows_arrive r more (n : nat) (c : Client) :
  isValid c = true →
  bitsPerPixel (pixelFormat c) = 32 →
  Forall (λ b, 0 ≤ b < 256) (inbound (socket c)) →
  n = strides (hextileTY (fbu c)) (rect_h r) 16 →
  let res := hextileRows n r c in
  (res.1 = true → hextileRows n r (arrive more c) = (true, arrive more res.2))
  ∧ (res.1 = false →
     hextileRows n r (arrive more c)
     = hextileRows (strides (hextileTY (fbu res.2)) (rect_h r) 16) r (arrive more res.2)).
Proof.
  revert c. induction n as [|n IH]; intros c Hv Hbpp Hb Hn; cbv zeta.
  { cbn [hextileRows fst snd]. split; [reflexivity | discriminate]. }
  destruct (strides_step n _ _ Hn) as [Hn' Hlt].
  cbn [hextileRows].
  change (hextileTY (fbu (arrive more c))) with (hextileTY (fbu c)).
  change (hextileTX (fbu (arrive more c))) with (hextileTX (fbu c)).
  set (ty := hextileTY (fbu c)) in *.
  set (th := Z.min 16 (rect_h r - ty)).
  assert (Hh : 0 ≤ th) by (unfold th; lia).
  pose proof (hextileRow_arrive r ty th more (strides (hextileTX (fbu c)) (rect_w r) 16) c
                Hh Hv Hbpp Hb eq_refl) as R.
  cbv zeta in R.
  destruct (hextileRow _ r ty th c) as [ok c1]. cbn [fst snd] in R.
  destruct R as (Rv & Rp & Rb & Ry & Rt & Rf).
  destruct ok.
  - rewrite (Rt eq_refl).
    set (c2 := upd_fbu (set_hextileTY (ty + 16)) (upd_fbu (set_hextileTX 0) c1)).
    change (upd_fbu (set_hextileTY (ty + 16)) (upd_fbu (set_hextileTX 0) (arrive more c1)))
      with (arrive more c2).
    assert (Hn2 : n = strides (hextileTY (fbu c2)) (rect_h r) 16) by exact Hn'.
    apply (IH c2 Rv ltac:(cbn; congruence) Rb Hn2).
  - cbn [fst snd]. split; [discriminate|]. intros _.
    rewrite (Rf eq_refl). rewrite Ry. fold ty. rewrite <- Hn.
    cbn [hextileRows].
    change (hextileTY (fbu (arrive more c1))) with (hextileTY (fbu c1)). rewrite Ry.
    fold ty. fold th. reflexivity.
Qed.

(** X17.  Hextile decoding is resumable (32 bits per pixel).  When a
    Hextile rectangle cannot be completed for want of data, the handler
    returns false having consumed and painted the tiles that were whole;
    calling it again once more data has arrived gives the very result
    (return value and client) of a single call with all of that data
    buffered from the start.  A rectangle that completes is decoded the
    same whatever is buffered behind it. *)
Theorem hextile_decoding_resumes (r : Rectangle) (more : list Z) (c : Client) :
  isValid c = true →
  bitsPerPixel (pixelFormat c) = 32 →
  Forall (λ b, 0 ≤ b < 256) (inbound (socket c)) →
  let res := handleHextileEncoding r c in
  (res.1 = false →
   handleHextileEncoding r (arrive more res.2) = handleHextileEncoding r (arrive more c))
  ∧ (res.1 = true →
     handleHextileEncoding r (arrive more c) = (true, arrive more res.2)).
Proof.
  intros Hv Hbpp Hb. cbv zeta. unfold handleHextileEncoding.
  change (hextileTY (fbu (arrive more c))) with (hextileTY (fbu c)).
  pose proof (hextileRows_arrive r more (strides (hextileTY (fbu c)) (rect_h r) 16) c
                Hv Hbpp Hb eq_refl) as R.
  cbv zeta in R.
  destruct (hextileRows _ r c) as [ok c1]. cbn [fst snd] in R. destruct R as [Rt Rf].
  destruct ok; cbn [fst snd].
  - split; [discriminate|]. intros _. rewrite (Rt eq_refl). reflexivity.
  - split; [|discriminate]. intros _. rewrite (Rf eq_refl).
    change (hextileTY (fbu (arrive more c1))) with (hextileTY (fbu c1)). reflexivity.
Qed.

End Resume.

Section TightFill.
Import Client.
Context {zl : Zlib} {jp : JpegCodec}.


End TightFill.

Section Password.
Import Client.
Context {zl : Zlib} {jp : JpegCodec}.

Lemma password_readT n prior (c : Client) : password (readT n prior c).2 = password c.
Proof. unfold readT. destruct (isValid c); reflexivity. Qed.

Lemma password_write b (c : Client) : password (write b c) = password c.
Proof. unfold write. destruct (isValid c); reflexivity. Qed.

Lemma password_clientInit (c : Client) : password (clientInit c) = password c.
Proof. unfold clientInit. cbn. apply password_write. Qed.

Lemma password_parseSecurityReason (c : Client) :
  password (parseSecurityReason c) = password c.
Proof.
  unfold parseSecurityReason. destruct (_ <? 4); [reflexivity|].
  pose proof (password_readT 4 (replicate 4 0) c) as E.
  destruct (readT 4 (replicate 4 0) c) as [b c1]. cbn [snd] in E.
  destruct (_ <? _); [exact E|]. cbn. exact E.
Qed.

Lemma password_parseVncAuthentication (c : Client) :
  password (parseVncAuthentication c) = password c.
Proof.
  unfold parseVncAuthentication. destruct (_ <? 16); [reflexivity|]. cbn [readBytes sock_read].
  cbn [password set_vncChallenge set_socket].
  destruct (password c) eqn:E; [cbn; exact E|].
  rewrite password_sendVncAuthResponse. cbn. exact E.
Qed.

Lemma password_setProtocolVersion v (c : Client) :
  password (setProtocolVersion v c) = password c.
Proof.
  unfold setProtocolVersion. case_bool_decide; [reflexivity|]. destruct v; reflexivity.
Qed.

Lemma password_securityTypeChanged t (c : Client) :
  password (securityTypeChanged t c) = password c.
Proof.
  unfold securityTypeChanged.
  destruct t; try reflexivity.
  - apply password_parseSecurityReason.
  - destruct (protocolVersion c); try reflexivity.
    + rewrite password_clientInit. reflexivity.
    + rewrite password_clientInit, password_write. reflexivity.
    + cbn. apply password_write.
  - destruct (protocolVersion c); try reflexivity.
    + rewrite password_parseVncAuthentication. reflexivity.
    + cbn. apply password_write.
    + cbn. apply password_write.
Qed.

Lemma password_setSecurityType t (c : Client) :
  password (setSecurityType t c) = password c.
Proof.
  unfold setSecurityType. case_bool_decide; [reflexivity|].
  rewrite password_securityTypeChanged. reflexivity.
Qed.

Lemma password_parseProtocolVersion (c : Client) :
  password (parseProtocolVersion c) = password c.
Proof.
  unfold parseProtocolVersion. destruct (_ <? 12); [reflexivity|].
  cbn [readBytes sock_read].
  repeat case_bool_decide; rewrite ?password_setProtocolVersion; reflexivity.
Qed.

Lemma password_parseSecurity (c : Client) : password (parseSecurity c) = password c.
Proof.
  unfold parseSecurity.
  assert (H37 : password (parseSecurity37 c) = password c).
  { unfold parseSecurity37. destruct (_ <? 1); [reflexivity|].
    pose proof (password_readT 1 [0] c) as E1. destruct (readT 1 [0] c) as [b c1].
    cbn [snd] in E1. destruct (_ =? 0); [rewrite password_parseSecurityReason; exact E1|].
    destruct (_ <? _); [exact E1|].
    match goal with |- context [forZ 0 ?n ?body ?s0] =>
      assert (E2 : password (forZ 0 n body s0).2 = password c) end.
    { apply (forZ_invariant (λ st, password st.2 = password c)); [exact E1|].
      intros i [ts c2] _ E. cbn [snd] in E.
      pose proof (password_readT 1 [0] c2) as E3. destruct (readT 1 [0] c2). cbn [snd] in *.
      congruence. }
    destruct (forZ 0 _ _ _) as [ts c2]. cbn [snd] in E2.
    repeat case_match; rewrite password_setSecurityType; exact E2. }
  destruct (protocolVersion c); try assumption; try reflexivity.
  unfold parseSecurity33. destruct (_ <? 4); [reflexivity|].
  pose proof (password_readT 4 (replicate 4 0) c) as E1.
  destruct (readT 4 (replicate 4 0) c) as [b c1]. cbn [snd] in E1.
  rewrite password_setSecurityType. exact E1.
Qed.

Lemma password_parseSecurityResult (c : Client) :
  password (parseSecurityResult c) = password c.
Proof.
  unfold parseSecurityResult. destruct (_ <? 4); [reflexivity|].
  pose proof (password_readT 4 (replicate 4 0) c) as E1.
  destruct (readT 4 (replicate 4 0) c) as [b c1]. cbn [snd] in E1.
  destruct (_ =? 0); [rewrite password_clientInit; exact E1|].
  case_bool_decide; [rewrite password_parseSecurityReason|]; exact E1.
Qed.

Lemma password_framebufferUpdateRequest b (c : Client) :
  password (framebufferUpdateRequest b c) = password c.
Proof. unfold framebufferUpdateRequest. rewrite !password_write. reflexivity. Qed.

Lemma password_parserServerInit (c : Client) :
  password (parserServerInit c) = password c.
Proof.
  unfold parserServerInit. destruct (_ <? _); [reflexivity|].
  pose proof (password_readT 2 (replicate 2 0) c) as E1.
  destruct (readT 2 (replicate 2 0) c) as [bw c1]. cbn [snd] in E1.
  pose proof (password_readT 2 (replicate 2 0) c1) as E2.
  destruct (readT 2 (replicate 2 0) c1) as [bh c2]. cbn [snd] in E2.
  match goal with |- context [readT 16 ?p ?cc] =>
    pose proof (password_readT 16 p cc) as E3; destruct (readT 16 p cc) as [pfb c3] end.
  cbn [snd] in E3.
  match goal with |- context [readT 4 ?p ?cc] =>
    pose proof (password_readT 4 p cc) as E4; destruct (readT 4 p cc) as [nl c4] end.
  cbn [snd] in E4. cbn in E3, E4.
  destruct (_ <? _); [congruence|]. cbn [readBytes sock_read].
  rewrite password_framebufferUpdateRequest. unfold setEncodings. cbn [fold_left].
  rewrite !password_write. unfold setPixelFormat. rewrite !password_write. cbn. congruence.
Qed.

Lemma password_rectLoop (n : nat) (c : Client) : password (rectLoop n c) = password c.
Proof.
  revert c. induction n as [|n IH]; intros c; cbn [rectLoop].
  - rewrite password_framebufferUpdateRequest. reflexivity.
  - destruct (_ && _); [reflexivity|].
    assert (E1 : password (if negb (rectHeaderRead (fbu c)) then readRectHeader c else c)
                 = password c).
    { destruct (negb _); [|reflexivity]. unfold readRectHeader.
      pose proof (password_readT 8 (rectangleBytes (rect (fbu c))) c) as E.
      destruct (readT 8 _ c) as [b c1]. cbn [snd] in E.
      match goal with |- context [readT 4 ?p ?cc] =>
        pose proof (password_readT 4 p cc) as E'; destruct (readT 4 p cc) as [e c2] end.
      cbn in *. congruence. }
    set (c1 := if negb (rectHeaderRead (fbu c)) then readRectHeader c else c) in *.
    clearbody c1.
    pose proof (decodes_decodeRect c1) as D. destruct (decodeRect c1) as [ok c2].
    cbn [snd] in D. unfold decodes in D. destruct D as (_&_&_&_&_&D&_).
    destruct ok; cbn [negb]; [|congruence]. rewrite IH. cbn. congruence.
Qed.

Lemma password_parseServerMessages (c : Client) :
  password (parseServerMessages c) = password c.
Proof.
  unfold parseServerMessages, processFramebufferRects.
  destruct (active (fbu c)); [apply password_rectLoop|].
  destruct (_ <? 1); [reflexivity|].
  pose proof (password_readT 1 [0] c) as E1. destruct (readT 1 [0] c) as [b c1].
  cbn [snd] in E1. destruct (_ =? FramebufferUpdate); [|exact E1].
  unfold framebufferUpdate, processFramebufferRects. destruct (_ <? 3); [exact E1|].
  cbn [readBytes sock_read].
  match goal with |- context [readT 2 ?p ?cc] =>
    pose proof (password_readT 2 p cc) as E2; destruct (readT 2 p cc) as [nb c2] end.
  cbn [snd] in E2. rewrite password_rectLoop. cbn in *. congruence.
Qed.

Lemma password_read (c : Client) : password (read c) = password c.
Proof.
  unfold read. destruct (reading c); [reflexivity|].
  match goal with |- context [set_reading false ?x] =>
    assert (E : password x = password c) end.
  { change (state (set_reading true c)) with (state c).
    destruct (state c);
      rewrite ?password_parseProtocolVersion, ?password_parseSecurity,
        ?password_parseSecurityResult, ?password_parseVncAuthentication,
        ?password_parserServerInit, ?password_parseServerMessages; reflexivity. }
  destruct (_ && _); cbn; exact E.
Qed.

Lemma password_reset (c : Client) : password (reset c) = password c.
Proof.
  unfold reset. cbn. rewrite password_setSecurityType, password_setProtocolVersion. reflexivity.
Qed.

(** X19.  Only [setPassword] changes the stored password.  [read] in any
    state and on any input, the handlers of the socket's connected and
    disconnected signals (the reset included), key and pointer events,
    and [Tools::connect] called with an empty password all leave it as
    it was.  A password given for one connection therefore stays in
    force after a disconnect: on the next connection a VNC challenge is
    answered with it, and no password is requested. *)
Theorem password_outlives_connection (c : Client) :
  password (read c) = password c
  ∧ password (onConnected c) = password c
  ∧ password (onDisconnected c) = password c
  ∧ (∀ e g, password (handleKeyEvent e g c) = password c)
  ∧ (∀ e, password (handlePointerEvent e c) = password c)
  ∧ (∀ d, Tools.vncClient (Tools.connect [] d) = Tools.vncClient d)
  ∧ (password c ≠ [] → 16 ≤ bytesAvailable (socket c) →
     parseVncAuthentication c
     = sendVncAuthResponse
         (set_vncChallenge (take 16 (inbound (socket c))) (consumed 16 c))).
Proof.
  split; [apply password_read|]. split; [|split; [|split; [|split; [|split]]]].
  - unfold onConnected. rewrite password_read, password_setSecurityType,
      password_setProtocolVersion. reflexivity.
  - unfold onDisconnected. rewrite password_reset. reflexivity.
  - intros e g. unfold handleKeyEvent, keyEvent, writeRaw. rewrite password_write.
    cbn. rewrite !password_write. reflexivity.
  - intros e. unfold handlePointerEvent, pointerEvent. rewrite !password_write. reflexivity.
  - intros d. reflexivity.
  - intros Hp Ha. unfold parseVncAuthentication.
    destruct (Z.ltb_spec (bytesAvailable (socket c)) 16); [lia|].
    cbn [readBytes sock_read]. cbn [password set_vncChallenge set_socket].
    destruct (password c); [congruence|]. reflexivity.
Qed.

End Password.

Section EndToEnd.
Import Client.
Context {zl : Zlib} {jp : JpegCodec}.

(** X20.  The 3.8 handshake with VNC authentication, message by message.
    A freshly connected client that holds a non-empty password and
    receives, one [read] each, the banner "RFB 003.008\n", the security
    list (None, VNC authentication), a sixteen-byte challenge and the
    SecurityResult 0, has written exactly the banner, the selection
    byte 02, the sixteen bytes of [vncEncryptChallenge] for its password
    and that challenge, and the ClientInit byte 01; it has consumed all
    its input and waits for ServerInit. *)
Theorem handshake_38_vnc_authentication (p challenge : list Z) :
  p ≠ [] →
  length challenge = 16%nat →
  let c0 := set_password p (initialClient (mkSocket true [] [])) in
  let c1 := read (arrive (banner 56) c0) in
  let c2 := read (arrive [2; 1; 2] c1) in
  let c3 := read (arrive challenge c2) in
  let c4 := read (arrive [0; 0; 0; 0] c3) in
  state c1 = SecurityState
  ∧ state c2 = VncAuthenticationState
  ∧ state c3 = SecurityResultState
  ∧ state c4 = ServerInitState
  ∧ outbound (socket c4)
    = banner 56 ++ [2] ++ Des.vncEncryptChallenge p challenge ++ [1]
  ∧ inbound (socket c4) = []
  ∧ trace c4 = [SigProtocolVersionChanged ProtocolVersion38;
                SigSecurityTypeChanged SecurityTypeVncAuthentication]
  ∧ queuedReads c4 = 0%nat.
Proof.
  intros Hp Hl. destruct p as [|a p]; [congruence|].
  do 17 (destruct challenge as [|? challenge]; try discriminate Hl). clear Hl Hp.
  cbv zeta.
  lazy -[Des.vncEncryptChallenge]. repeat split.
Qed.

End EndToEnd.

Section Spin.
Import Client.
Context {zl : Zlib} {jp : JpegCodec}.

Lemma read_partialMessage (c : Client) :
  reading c = false → active (fbu c) = false → partialMessage c →
  read c = set_queuedReads (S (queuedReads c)) c.
Proof.
  intros Hr Ha (Hn & Hs). unfold read. rewrite Hr.
  change (state (set_reading true c)) with (state c).
  assert (E : match state c with
              | ProtocolVersionState => parseProtocolVersion (set_reading true c)
              | SecurityState => parseSecurity (set_reading true c)
              | SecurityResultState => parseSecurityResult (set_reading true c)
              | VncAuthenticationState => parseVncAuthentication (set_reading true c)
              | ClientInitState =>
                  (readBytes (bytesAvailable (socket (set_reading true c)))
                     (set_reading true c)).2
              | ServerInitState => parserServerInit (set_reading true c)
              | WaitingState => parseServerMessages (set_reading true c)
              end = set_reading true c).
  { destruct Hs as [[-> H]|[(-> & Hv & H)|[[-> H]|[[-> H]|[-> H]]]]].
    - unfold parseProtocolVersion. cbn [socket set_reading].
      destruct (Z.ltb_spec (bytesAvailable (socket c)) 12); [reflexivity | lia].
    - unfold parseSecurity. cbn [protocolVersion set_reading]. rewrite Hv.
      unfold parseSecurity33. cbn [socket set_reading].
      destruct (Z.ltb_spec (bytesAvailable (socket c)) 4); [reflexivity | lia].
    - unfold parseVncAuthentication. cbn [socket set_reading].
      destruct (Z.ltb_spec (bytesAvailable (socket c)) 16); [reflexivity | lia].
    - unfold parseSecurityResult. cbn [socket set_reading].
      destruct (Z.ltb_spec (bytesAvailable (socket c)) 4); [reflexivity | lia].
    - unfold parserServerInit. cbn [socket set_reading].
      destruct (Z.ltb_spec (bytesAvailable (socket c)) (2 + 2 + 16 + 4)); [reflexivity | lia]. }
  rewrite E. cbn [socket set_reading fbu]. rewrite Ha.
  destruct (Z.gtb_spec (bytesAvailable (socket c)) 0); [|lia]. cbn [andb negb].
  destruct c; cbn in *; subst; reflexivity.
Qed.

(** X21.  A handshake message that has arrived in part makes [read]
    poll.  In a state that waits for a message of fixed size (the
    banner, the 3.3 security word, the challenge, the SecurityResult,
    the ServerInit header), with at least one byte and fewer than that
    size buffered, [read] changes nothing and queues another [read];
    the queued call finds the same situation, so any number of calls
    leaves the client as it was but for the count of queued calls, until
    more bytes arrive. *)
Theorem partial_message_polls (k : nat) (c : Client) :
  reading c = false →
  active (fbu c) = false →
  partialMessage c →
  Nat.iter k read c = set_queuedReads (k + queuedReads c) c.
Proof.
  intros Hr Ha Hp. induction k as [|k IH].
  - destruct c; reflexivity.
  - rewrite Nat.iter_succ, IH.
    rewrite read_partialMessage.
    + destruct c; reflexivity.
    + destruct c; exact Hr.
    + destruct c; exact Ha.
    + destruct c; exact Hp.
Qed.

(** X22.  The header of a FramebufferUpdate is not read as a whole.
    With no update in progress, [read] consumes the message type as
    soon as one byte is buffered; if fewer than the three further bytes
    of the header are there, the update is not started and the type byte
    is gone: the bytes that follow are left at the head of the queue,
    where the next [read] looks for a message type.  If any are there,
    that [read] is queued at once. *)
Theorem update_header_loses_type_byte (c : Client) (hdr : list Z) :
  isValid c = true →
  state c = WaitingState →
  reading c = false →
  active (fbu c) = false →
  inbound (socket c) = FramebufferUpdate :: hdr →
  (length hdr < 3)%nat →
  read c
  = match hdr with
    | [] => consumed 1 c
    | _ => set_queuedReads (S (queuedReads c)) (consumed 1 c)
    end.
Proof.
  intros Hv Hs Hr Ha Hin Hl.
  assert (Hb : bytesAvailable (socket c) = Z.of_nat (S (length hdr))).
  { unfold bytesAvailable. rewrite Hin. reflexivity. }
  assert (E : parseServerMessages (set_reading true c) = consumed 1 (set_reading true c)).
  { unfold parseServerMessages. cbn [fbu set_reading socket]. rewrite Ha, Hb.
    destruct (Z.ltb_spec (Z.of_nat (S (length hdr))) 1); [lia|].
    rewrite readT_valid by exact Hv. rewrite sub_byte.
    cbn [socket set_reading]. rewrite Hin.
    change (at_ (FramebufferUpdate :: hdr) 0 =? FramebufferUpdate) with true. cbv iota.
    unfold framebufferUpdate.
    replace (bytesAvailable (socket (consumed 1 (set_reading true c))))
      with (Z.of_nat (length hdr)).
    2:{ unfold bytesAvailable. cbn. rewrite Hin. reflexivity. }
    destruct (Z.ltb_spec (Z.of_nat (length hdr)) 3); [reflexivity | lia]. }
  unfold read. rewrite Hr.
  change (state (set_reading true c)) with (state c). rewrite Hs, E.
  replace (bytesAvailable (socket (consumed 1 (set_reading true c))))
    with (Z.of_nat (length hdr)).
  2:{ unfold bytesAvailable. cbn. rewrite Hin. reflexivity. }
  replace (active (fbu (consumed 1 (set_reading true c)))) with false.
  clear E Hb Hl.
  destruct c as [? ? ? ? [] ? ? ? ? ? ? ? ? ? ? ?]; cbn in Hv, Hs, Hr, Ha, Hin; subst.
  destruct hdr as [|h hdr]; unfold bytesAvailable; cbn; rewrite Ha; reflexivity.
Qed.

End Spin.

Section Skipping.
Import Client.
Context {zl : Zlib} {jp : JpegCodec}.

Lemma read_unknown_message (c : Client) (t : Z) (rest : list Z) :
  isValid c = true →
  state c = WaitingState →
  reading c = false →
  active (fbu c) = false →
  inbound (socket c) = t :: rest →
  t ≠ FramebufferUpdate →
  read c
  = match rest with
    | [] => warn (UnknownMessageType t) (consumed 1 c)
    | _ => set_queuedReads (S (queuedReads c)) (warn (UnknownMessageType t) (consumed 1 c))
    end.
Proof.
  intros Hv Hs Hr Ha Hin Ht.
  assert (E : parseServerMessages (set_reading true c)
              = warn (UnknownMessageType t) (consumed 1 (set_reading true c))).
  { unfold parseServerMessages. cbn [fbu set_reading socket]. rewrite Ha.
    unfold bytesAvailable at 1. rewrite Hin. cbn [length].
    destruct (Z.ltb_spec (Z.of_nat (S (length rest))) 1); [lia|].
    rewrite readT_valid by exact Hv. rewrite sub_byte.
    cbn [socket set_reading]. rewrite Hin.
    change (at_ (t :: rest) 0) with t.
    destruct (Z.eqb_spec t FramebufferUpdate); [contradiction | reflexivity]. }
  unfold read. rewrite Hr.
  change (state (set_reading true c)) with (state c). rewrite Hs, E. clear E.
  destruct c as [? ? ? ? [] ? ? ? ? ? ? ? ? ? ? ?]; cbn in Hv, Hs, Hr, Ha, Hin; subst.
  destruct rest as [|h rest]; unfold bytesAvailable; cbn; rewrite Ha; reflexivity.
Qed.

(** X23.  Of the server-to-client messages only FramebufferUpdate is
    understood, and the others are not skipped as messages.  At a
    message boundary every byte other than 0 is taken for a message
    type, logged as unknown and dropped by itself: a run of such bytes
    costs one [read] each and leaves one warning each, in order, while
    nothing is written and nothing else of the client changes.  The
    bytes that follow the type of a SetColourMapEntries or ServerCutText
    message are thus read as message types in their turn. *)
Theorem unknown_messages_are_skipped_bytewise (junk rest : list Z) (c : Client) :
  isValid c = true →
  state c = WaitingState →
  reading c = false →
  active (fbu c) = false →
  Forall (λ b, 0 < b < 256) junk →
  inbound (socket c) = junk ++ rest →
  let c' := Nat.iter (length junk) read c in
  inbound (socket c') = rest
  ∧ trace c' = trace c ++ (Warn ∘ UnknownMessageType <$> junk)
  ∧ outbound (socket c') = outbound (socket c)
  ∧ state c' = WaitingState
  ∧ fbu c' = fbu c
  ∧ image c' = image c
  ∧ reading c' = false.
Proof.
  revert c. induction junk as [|t junk IH]; intros c Hv Hs Hr Ha Hj Hin; cbv zeta.
  - cbn. rewrite app_nil_r. repeat split; assumption.
  - cbn [length]. rewrite Nat.iter_succ_r.
    apply Forall_cons in Hj as [Ht Hj]. cbn [app] in Hin.
    pose proof (read_unknown_message c t (junk ++ rest) Hv Hs Hr Ha Hin
                  ltac:(unfold FramebufferUpdate; lia)) as E.
    assert (P : isValid (read c) = true ∧ state (read c) = WaitingState
                ∧ reading (read c) = false ∧ fbu (read c) = fbu c
                ∧ inbound (socket (read c)) = junk ++ rest
                ∧ trace (read c) = trace c ++ [Warn (UnknownMessageType t)]
                ∧ outbound (socket (read c)) = outbound (socket c)
                ∧ image (read c) = image c).
    { rewrite E. clear E IH.
      destruct c as [? ? ? ? [] ? ? ? ? ? ? ? ? ? ? ?]; cbn in Hv, Hs, Hr, Ha, Hin; subst.
      destruct (junk ++ rest); cbn; repeat split. }
    destruct P as (Pv & Ps & Pr & Pf & Pi & Pt & Po & Pm).
    specialize (IH (read c) Pv Ps Pr ltac:(rewrite Pf; exact Ha) Hj Pi). cbv zeta in IH.
    destruct IH as (I1 & I2 & I3 & I4 & I5 & I6 & I7).
    rewrite I1, I2, I3, I4, I5, I6, I7, Pt, Po, Pf, Pm.
    rewrite fmap_cons, <- app_assoc. repeat split.
Qed.

End Skipping.

Section ZrleFraming.
Import Client.
Context {zl : Zlib} {jp : JpegCodec}.

Lemma be_bytes_nonneg (l : list Z) : Forall (λ b, 0 ≤ b < 256) l → 0 ≤ be l.
Proof.
  unfold be. intros H.
  assert (G : ∀ acc, 0 ≤ acc → 0 ≤ fold_left (λ acc b, acc * 256 + b) l acc).
  { induction H as [|b l Hb H IH]; intros acc Hacc; cbn; [exact Hacc|].
    apply IH. lia. }
  apply G. lia.
Qed.

(** X24.  ZRLE framing.  A ZRLE rectangle is a four-byte big-endian
    length [L] and [L] bytes of zlib data.  On a connected client the
    handler is all or nothing on the input: while fewer than four bytes,
    or a non-zero [L] and fewer than [4 + L] bytes, are buffered it
    returns false and changes nothing; otherwise it returns true having
    consumed exactly [4 + L] bytes, whether or not the data inflates or
    decodes, so the stream of rectangles stays aligned.  It writes
    nothing, and a zlib stream that was active stays active. *)
Theorem zrle_framing (r : Rectangle) (c : Client) :
  isValid c = true →
  Forall (λ b, 0 ≤ b < 256) (inbound (socket c)) →
  let L := be (take 4 (inbound (socket c))) in
  let n := bytesAvailable (socket c) in
  let res := handleZRLEEncoding r c in
  if (n <? 4) || (negb (L =? 0) && (n <? 4 + L))
  then res = (false, c)
  else res.1 = true
       ∧ inbound (socket res.2) = drop (Z.to_nat (4 + L)) (inbound (socket c))
       ∧ outbound (socket res.2) = outbound (socket c)
       ∧ (is_Some (zrleStream c) → is_Some (zrleStream res.2)).
Proof.
  intros Hv Hb. cbv zeta. unfold handleZRLEEncoding.
  destruct (Z.ltb_spec (bytesAvailable (socket c)) 4) as [H4|H4]; cbn [orb]; [reflexivity|].
  change (peek 4 (socket c)) with (take 4 (inbound (socket c))).
  assert (HL : 0 ≤ be (take 4 (inbound (socket c)))).
  { apply be_bytes_nonneg. apply Forall_take. exact Hb. }
  set (L := be (take 4 (inbound (socket c)))) in *.
  destruct (Z.eqb_spec L 0) as [H0|H0]; cbn [negb andb].
  - rewrite H0. cbn. repeat split. intros H; exact H.
  - destruct (Z.ltb_spec (bytesAvailable (socket c)) (4 + L)) as [HLt|HLt]; [reflexivity|].
    rewrite readT_valid by exact Hv.
    assert (Hpk : peek 4 (socket c) ++ drop (length (peek 4 (socket c))) (take 4 (inbound (socket c)))
                  = take 4 (inbound (socket c))).
    { unfold peek. change (Z.to_nat 4) with 4%nat.
      rewrite drop_ge, app_nil_r by (rewrite !length_take; lia). reflexivity. }
    rewrite Hpk. fold L.
    unfold readBytes, sock_read. cbn [fst snd].
    set (c1 := set_socket _ (consumed 4 c)).
    assert (Hin : inbound (socket c1) = drop (Z.to_nat (4 + L)) (inbound (socket c))).
    { unfold c1. cbn. rewrite drop_drop. f_equal. lia. }
    assert (Hout : outbound (socket c1) = outbound (socket c)) by reflexivity.
    assert (Hz : zrleStream c1 = zrleStream c) by reflexivity.
    clearbody c1.
    destruct (zrleStream c1) as [s|] eqn:Es.
    + destruct (zrleInflate _ s _ []) as [[failure un] s'].
      destruct failure as [ret|]; [|destruct un as [|u un]].
      * cbn. rewrite Hin, Hout. repeat split. intros _. eexists; reflexivity.
      * cbn. rewrite Hin, Hout. repeat split. intros _. eexists; reflexivity.
      * destruct (zrleDecode _ _ r _) as [[[? ?] img] ws].
        cbn [fst snd].
        assert (G : ∀ ws c2, inbound (socket (fold_left (λ c w, warn w c) ws c2)) = inbound (socket c2)
                            ∧ outbound (socket (fold_left (λ c w, warn w c) ws c2)) = outbound (socket c2)
                            ∧ zrleStream (fold_left (λ c w, warn w c) ws c2) = zrleStream c2).
        { clear. induction ws as [|w ws IH]; intros c2; cbn; [repeat split|].
          destruct (IH (warn w c2)) as (-> & -> & ->). repeat split. }
        destruct (G ws (set_image img (set_zrleStream (Some s') c1))) as (-> & -> & ->).
        cbn. rewrite Hin, Hout. repeat split. intros _. eexists; reflexivity.
    + destruct inflateInit as [ret s]. destruct (ret =? Z_OK).
      * destruct (zrleInflate _ s _ []) as [[failure un] s'].
        rewrite <- Hz.
        destruct failure as [ret'|]; [|destruct un as [|u un]].
        -- cbn. rewrite Hin, Hout. repeat split. intros _. eexists; reflexivity.
        -- cbn. rewrite Hin, Hout. repeat split. intros _. eexists; reflexivity.
        -- destruct (zrleDecode _ _ r _) as [[[? ?] img] ws].
           cbn [fst snd].
           assert (G : ∀ ws c2, inbound (socket (fold_left (λ c w, warn w c) ws c2)) = inbound (socket c2)
                               ∧ outbound (socket (fold_left (λ c w, warn w c) ws c2)) = outbound (socket c2)
                               ∧ zrleStream (fold_left (λ c w, warn w c) ws c2) = zrleStream c2).
           { clear. induction ws as [|w ws IH]; intros c2; cbn; [repeat split|].
             destruct (IH (warn w c2)) as (-> & -> & ->). repeat split. }
           destruct (G ws (set_image img (set_zrleStream (Some s') c1))) as (-> & -> & ->).
           cbn. rewrite Hin, Hout. repeat split. intros _. eexists; reflexivity.
      * cbn. rewrite Hin, Hout, <- Hz, Es. repeat split. intros [? ?]; discriminate.
Qed.

End ZrleFraming.

Section Announce.
Import Client.
Context {zl : Zlib} {jp : JpegCodec}.

Lemma imageChanges_app (a b : list Event) :
  imageChanges (a ++ b) = imageChanges a + imageChanges b.
Proof. unfold imageChanges. rewrite List.filter_app, length_app. lia. Qed.

Lemma imageChanges_warnings (ws : list Warning) : imageChanges (Warn <$> ws) = 0.
Proof. unfold imageChanges. induction ws as [|w ws IH]; [reflexivity | exact IH]. Qed.

Lemma framebufferUpdateRequest_quiet (incremental : bool) (c : Client) :
  trace (framebufferUpdateRequest incremental c) = trace c
  ∧ fbu (framebufferUpdateRequest incremental c) = fbu c.
Proof.
  unfold framebufferUpdateRequest, write, isValid.
  destruct c as [? ? ? ? [[] ? ?] ? ? ? ? ? ? ? ? ? ? ?]; cbn; split; reflexivity.
Qed.

Lemma readRectHeader_quiet (c : Client) :
  trace (readRectHeader c) = trace c
  ∧ currentRect (fbu (readRectHeader c)) = currentRect (fbu c)
  ∧ totalRects (fbu (readRectHeader c)) = totalRects (fbu c)
  ∧ active (fbu (readRectHeader c)) = active (fbu c).
Proof.
  unfold readRectHeader, readT, isValid.
  destruct c as [? ? ? ? [[] ? ?] ? ? ? ? ? ? ? ? ? ? ?]; cbn; repeat split.
Qed.

Lemma rectLoop_announces (n : nat) (c : Client) :
  n = Z.to_nat (totalRects (fbu c) - currentRect (fbu c)) →
  let c' := rectLoop n c in
  imageChanges (trace c') = imageChanges (trace c) + (currentRect (fbu c') - currentRect (fbu c))
  ∧ totalRects (fbu c') = totalRects (fbu c)
  ∧ ((active (fbu c') = false
      ∧ currentRect (fbu c') = Z.max (currentRect (fbu c)) (totalRects (fbu c)))
     ∨ (active (fbu c') = active (fbu c)
        ∧ currentRect (fbu c) ≤ currentRect (fbu c') < totalRects (fbu c))).
Proof.
  revert c. induction n as [|n IH]; intros c Hn; cbv zeta.
  - cbn [rectLoop]. destruct (framebufferUpdateRequest_quiet true (upd_fbu (set_active false) c))
      as [-> ->]. cbn. split; [lia|]. split; [reflexivity|]. left. split; [reflexivity|]. lia.
  - cbn [rectLoop].
    destruct (negb (rectHeaderRead (fbu c)) && (bytesAvailable (socket c) <? 12)).
    { split; [lia|]. split; [reflexivity|]. right. split; [reflexivity|]. lia. }
    destruct (readRectHeader_quiet c) as (T0 & C0 & N0 & A0).
    assert (K1 : trace (if negb (rectHeaderRead (fbu c)) then readRectHeader c else c) = trace c
                 ∧ currentRect (fbu (if negb (rectHeaderRead (fbu c))
                                     then readRectHeader c else c)) = currentRect (fbu c)
                 ∧ totalRects (fbu (if negb (rectHeaderRead (fbu c))
                                    then readRectHeader c else c)) = totalRects (fbu c)
                 ∧ active (fbu (if negb (rectHeaderRead (fbu c))
                                then readRectHeader c else c)) = active (fbu c)).
    { destruct (negb _); [tauto|]. repeat split. }
    set (c1 := if negb (rectHeaderRead (fbu c)) then readRectHeader c else c) in *.
    clearbody c1. destruct K1 as (T1 & C1 & N1 & A1).
    pose proof (decodes_decodeRect c1) as D.
    destruct (decodeRect c1) as [ok c2]. cbn [snd] in D.
    destruct D as (_&_&_&_&_&_&_&_&_&_&_&_&_&_&(ws & T2)&N2&C2&_&_&A2&_).
    destruct ok; cbn [negb].
    2: { rewrite T2, N2, C2, A2, T1, N1, C1, A1, imageChanges_app, imageChanges_warnings.
         split; [lia|]. split; [reflexivity|]. right. split; [reflexivity|]. lia. }
    match goal with |- context [rectLoop n ?cc] => set (c3 := cc) end.
    assert (T3 : imageChanges (trace c3) = imageChanges (trace c) + 1).
    { unfold c3, emit. cbn. rewrite imageChanges_app, T2, imageChanges_app,
        imageChanges_warnings, T1.
      change (imageChanges [SigImageChanged _ _ _ _]) with 1. lia. }
    assert (C3 : currentRect (fbu c3) = currentRect (fbu c) + 1) by (cbn; lia).
    assert (N3 : totalRects (fbu c3) = totalRects (fbu c)) by (cbn; congruence).
    assert (A3 : active (fbu c3) = active (fbu c)) by (cbn; congruence).
    assert (Hn3 : n = Z.to_nat (totalRects (fbu c3) - currentRect (fbu c3))) by lia.
    clearbody c3.
    destruct (IH c3 Hn3) as (I1 & I2 & I3). rewrite I1, I2, T3, C3, N3.
    split; [lia|]. split; [reflexivity|].
    destruct I3 as [[Ia Ic]|[Ia Ic]].
    + left. split; [exact Ia|]. lia.
    + right. split; [congruence|]. lia.
Qed.

(** X25.  Every completed rectangle is announced once.  Whatever the
    input, a run of [processFramebufferRects] emits exactly as many
    [imageChanged] signals as it advances [fbu.currentRect]: one for each
    rectangle it completes, those of an unsupported encoding, which paint
    nothing, included, and none for a rectangle it leaves unfinished.
    The count of rectangles announced for the update is not changed, and
    with an update in progress the update ends exactly when the counter
    has reached it. *)
Theorem image_changed_once_per_rectangle (c : Client) :
  let c' := processFramebufferRects c in
  imageChanges (trace c')
  = imageChanges (trace c) + (currentRect (fbu c') - currentRect (fbu c))
  ∧ currentRect (fbu c) ≤ currentRect (fbu c')
  ∧ totalRects (fbu c') = totalRects (fbu c)
  ∧ (currentRect (fbu c) ≤ totalRects (fbu c) → active (fbu c) = true →
     (active (fbu c') = false ↔ currentRect (fbu c') = totalRects (fbu c))).
Proof.
  cbv zeta. unfold processFramebufferRects.
  destruct (rectLoop_announces _ c eq_refl) as (H1 & H2 & H3). cbv zeta in *.
  split; [exact H1|]. split; [destruct H3 as [[_ ?]|[_ ?]]; lia|]. split; [exact H2|].
  intros Hle Ha. destruct H3 as [[Hf Hc]|[Hf Hc]].
  - split; [intros _; lia | intros _; exact Hf].
  - split; [intros E; congruence | intros E; lia].
Qed.

End Announce.

(** ** Hextile: the colours across tiles, rectangles and connections *)

Section HextileColours.
Import Client.
Context {zl : Zlib} {jp : JpegCodec}.

(** One raw pixel of a tile, the [k]-th of [raw]. *)
Lemma readPixel32_encoded (px py k : Z) (raw rest : list Z) (c : Client) :
  isValid c = true →
  0 ≤ k → 4 * k + 4 ≤ Z.of_nat (length raw) →
  inbound (socket c) = drop (Z.to_nat (4 * k)) raw ++ rest →
  let c' := readPixel32 px py c in
  isValid c' = true
  ∧ pixelFormat c' = pixelFormat c
  ∧ fbu c' = fbu c
  ∧ inbound (socket c') = drop (Z.to_nat (4 * (k + 1))) raw ++ rest
  ∧ image c'
    = setPixel px py
        (toRgb (pixelFormat c) (le (take 4 (drop (Z.to_nat (4 * k)) raw)))) (image c).
Proof.
  intros Hv Hk Hl Hin. cbv zeta. unfold readPixel32.
  set (d := drop (Z.to_nat (4 * k)) raw) in *.
  assert (Hd : d = take 4 d ++ drop (Z.to_nat (4 * (k + 1))) raw).
  { unfold d. rewrite <- (take_drop 4 (drop (Z.to_nat (4 * k)) raw)) at 1.
    f_equal. rewrite drop_drop. f_equal. lia. }
  assert (Hl4 : length (take 4 d) = 4%nat).
  { unfold d. rewrite length_take, length_drop. lia. }
  rewrite Hd, <- app_assoc in Hin.
  destruct (readT_app c (take 4 d) _ (replicate 4 0) Hv Hin ltac:(rewrite Hl4; cbn; lia))
    as [R N].
  rewrite Hl4 in R, N. change (Z.of_nat 4) with 4 in R, N. rewrite R.
  repeat split; try assumption.
Qed.

(** The pixels of a Raw tile. *)
Lemma hextileRaw_encoded r ty th tx tw (raw rest : list Z) (c : Client) :
  isValid c = true →
  0 ≤ tw → 0 ≤ th →
  Z.of_nat (length raw) = th * (tw * 4) →
  inbound (socket c) = raw ++ rest →
  let c' := forZ 0 th
              (λ y c,
                 forZ 0 tw
                   (λ x c,
                      if 4 =? 4
                      then readPixel32 (rect_x r + tx + x) (rect_y r + ty + y) c
                      else c)
                   c)
              c in
  hexAfter c c' rest
  ∧ fbu c' = fbu c
  ∧ image c'
    = Spec.paintRaw (pixelFormat c) (rect_x r + tx) (rect_y r + ty) tw th raw (image c).
Proof.
  intros Hv Hw Hh Hl Hin. cbv zeta. unfold Spec.paintRaw, hexAfter.
  set (inner := λ (y x : Z) (img : Image),
         setPixel (rect_x r + tx + x) (rect_y r + ty + y)
           (toRgb (pixelFormat c) (le (take 4 (drop (Z.to_nat (4 * (y * tw + x))) raw)))) img).
  set (P := λ (k : Z) (img : Image) (acc : Client),
         isValid acc = true ∧ pixelFormat acc = pixelFormat c ∧ fbu acc = fbu c
         ∧ inbound (socket acc) = drop (Z.to_nat (4 * k)) raw ++ rest
         ∧ image acc = img).
  assert (Hrow : ∀ y acc, 0 ≤ y < th →
            P (y * tw) (image acc) acc →
            P ((y + 1) * tw) (forZ 0 tw (inner y) (image acc))
              (forZ 0 tw
                 (λ x c0, if 4 =? 4
                          then readPixel32 (rect_x r + tx + x) (rect_y r + ty + y) c0
                          else c0) acc)).
  { intros y acc Hy (V & Pf & F & N & _).
    replace ((y + 1) * tw) with (y * tw + tw) by lia.
    apply (forZ_ind (λ x a, P (y * tw + x) (forZ 0 x (inner y) (image acc)) a)); [exact Hw | |].
    - rewrite Z.add_0_r, forZ_nil by lia. repeat split; assumption.
    - intros x a Hx (V1 & P1 & F1 & N1 & I1).
      change (4 =? 4) with true. cbv iota.
      destruct (readPixel32_encoded (rect_x r + tx + x) (rect_y r + ty + y) (y * tw + x)
                  raw rest a V1 ltac:(nia) ltac:(nia) N1) as (V2 & P2 & F2 & N2 & I2).
      cbv zeta in V2, P2, F2, N2, I2.
      rewrite forZ_snoc by lia.
      split; [exact V2|]. split; [congruence|]. split; [congruence|].
      split; [rewrite N2; do 3 f_equal; lia|].
      rewrite I2, P1, I1. reflexivity. }
  assert (G : P (th * tw)
                (forZ 0 th (λ y img, forZ 0 tw (inner y) img) (image c))
                (forZ 0 th
                   (λ y c0,
                      forZ 0 tw
                        (λ x c1, if 4 =? 4
                                 then readPixel32 (rect_x r + tx + x) (rect_y r + ty + y) c1
                                 else c1) c0) c)).
  { apply (forZ_ind (λ y a, P (y * tw)
                      (forZ 0 y (λ y img, forZ 0 tw (inner y) img) (image c)) a));
      [exact Hh | |].
    - rewrite forZ_nil by lia. unfold P. split; [exact Hv|]. repeat split. exact Hin.
    - intros y a Hy Ha. rewrite forZ_snoc by lia.
      destruct Ha as (V1 & P1 & F1 & N1 & I1).
      rewrite <- I1. apply Hrow; [exact Hy|]. repeat split; assumption. }
  destruct G as (V & Pf & F & N & I).
  rewrite drop_ge, app_nil_l in N by lia.
  repeat split; assumption.
Qed.

Lemma forZ_times {S : Type} (n : nat) (f : S → S) (s : S) :
  forZ 0 (Z.of_nat (Datatypes.S n)) (λ _, f) s = forZ 0 (Z.of_nat n) (λ _, f) (f s).
Proof.
  unfold forZ.
  assert (G : ∀ (l l' : list Z) (s : S), length l = length l' →
                fold_left (λ acc _, f acc) l s = fold_left (λ acc _, f acc) l' s).
  { induction l as [|a l IH]; intros [|a' l'] s0 Hl; try discriminate; [reflexivity|].
    cbn. apply IH. cbn in Hl. lia. }
  replace (Z.of_nat (Datatypes.S n) - 0) with (1 + Z.of_nat n) by lia.
  rewrite seqZ_app by lia. rewrite fold_left_app. cbn [seqZ fold_left].
  change (seqZ 0 1) with [0]. cbn [fold_left].
  apply G. rewrite !length_seqZ. lia.
Qed.

Lemma hextileSubrect_encoded r ty th tx tw sub (c : Client) (s : list Z * Z * Z) rest :
  isValid c = true →
  length s.1.1 = (if flagged sub SubrectsColoured then 4 else 0)%nat →
  inbound (socket c) = Spec.encodeSubrect s ++ rest →
  let c' := hextileSubrect r ty th tx tw 4 sub c in
  hexAfter c c' rest
  ∧ fbu c' = fbu c
  ∧ image c' = Spec.paintSubrect (pixelFormat c) (rect_x r + tx) (rect_y r + ty) tw th
                 (hextileFG (fbu c)) (image c) s.
Proof.
  intros Hv Hl Hin. cbv zeta.
  destruct s as [[col xy] wh]. cbn [fst snd] in *. unfold Spec.encodeSubrect in Hin. cbn [fst snd] in Hin.
  unfold hextileSubrect, Spec.paintSubrect, hexAfter. cbn [fst snd].
  destruct c as [? ? ? ? [conn inb outb] ? ? ? ? ? ? ? ? ? ? ?].
  cbn in Hv, Hin. subst conn inb.
  destruct (flagged sub SubrectsColoured).
  - destruct col as [|c0 [|c1 [|c2 [|c3 [|]]]]]; try discriminate Hl.
    cbn -[fillRect toRgb le]. repeat split.
  - destruct col; try discriminate Hl.
    cbn -[fillRect toRgb le]. repeat split.
Qed.


Lemma hexAfter_trans (c c1 c2 : Client) rest1 rest2 :
  hexAfter c c1 rest1 → hexAfter c1 c2 rest2 → hexAfter c c2 rest2.
Proof. unfold hexAfter. intros (?&?&?) (?&?&?). repeat split; congruence. Qed.

Lemma hextileSubrects_encoded r ty th tx tw sub (subs : list (list Z * Z * Z)) :
  ∀ (c : Client) rest,
    isValid c = true →
    Forall (λ s : list Z * Z * Z,
              length s.1.1 = (if flagged sub SubrectsColoured then 4 else 0)%nat) subs →
    inbound (socket c) = concat (Spec.encodeSubrect <$> subs) ++ rest →
    let c' := forZ 0 (Z.of_nat (length subs))
                (λ _ c, hextileSubrect r ty th tx tw 4 sub c) c in
    hexAfter c c' rest
    ∧ fbu c' = fbu c
    ∧ image c' = fold_left (Spec.paintSubrect (pixelFormat c) (rect_x r + tx) (rect_y r + ty) tw th
                              (hextileFG (fbu c))) subs (image c).
Proof.
  induction subs as [|s subs IH]; intros c rest Hv Hl Hin; cbv zeta.
  - cbn [length]. rewrite forZ_nil by (cbn; lia). cbn in Hin. repeat split; assumption.
  - cbn [length]. rewrite forZ_times.
    apply Forall_cons in Hl as [Hs Hl].
    cbn [fmap list_fmap concat] in Hin. rewrite <- app_assoc in Hin.
    destruct (hextileSubrect_encoded r ty th tx tw sub c s _ Hv Hs Hin) as (A1 & F1 & I1).
    cbv zeta in A1, F1, I1.
    destruct A1 as (V1 & P1 & N1).
    destruct (IH (hextileSubrect r ty th tx tw 4 sub c) rest V1 Hl N1) as (A2 & F2 & I2).
    cbv zeta in A2, F2, I2.
    split; [exact (hexAfter_trans c _ _ _ rest (conj V1 (conj P1 N1)) A2)|].
    split; [congruence|].
    rewrite I2, P1, F1, I1. reflexivity.
Qed.

Lemma length_encodeSubrects sub (subs : list (list Z * Z * Z)) :
  Forall (λ s : list Z * Z * Z,
            length s.1.1 = (if flagged sub SubrectsColoured then 4 else 0)%nat) subs →
  Z.of_nat (length (concat (Spec.encodeSubrect <$> subs)))
  = Z.of_nat (length subs) * (if flagged sub SubrectsColoured then 4 + 2 else 2).
Proof.
  induction 1 as [|s subs Hs _ IH]; [reflexivity|].
  cbn [fmap list_fmap concat length]. rewrite length_app.
  unfold Spec.encodeSubrect at 1. rewrite length_app, Hs. cbn [length].
  destruct (flagged sub SubrectsColoured); lia.
Qed.

Lemma encodeHexTile_colour (t : Spec.HexTile) :
  flagged (Spec.ht_sub t) RawSubencoding = false →
  Spec.encodeHexTile t
  = Spec.ht_sub t :: Spec.ht_bg t
    ++ (if flagged (Spec.ht_sub t) AnySubrects
        then Spec.ht_fg t ++ Z.of_nat (length (Spec.ht_subrects t))
                              :: concat (Spec.encodeSubrect <$> Spec.ht_subrects t)
        else []).
Proof. intros H. unfold Spec.encodeHexTile. rewrite H. reflexivity. Qed.

Lemma wfColourTile_subrects (t : Spec.HexTile) :
  Spec.wfColourTile t →
  Forall (λ s : list Z * Z * Z,
            length s.1.1 = (if flagged (Spec.ht_sub t) SubrectsColoured then 4 else 0)%nat)
    (Spec.ht_subrects t).
Proof.
  intros (_&_&_&_&_&_&_&H&_). eapply Forall_impl; [exact H|]. intros s [G _]. exact G.
Qed.


Lemma hextileTileBytes_colour (t : Spec.HexTile) (rest : list Z) (tw th : Z) :
  Spec.wfColourTile t →
  let bs := Spec.encodeHexTile t ++ rest in
  hextileTileBytes (take (Z.to_nat (Z.min (Z.of_nat (length bs)) 2048)) bs) tw th 4
  = Some (Z.of_nat (length (Spec.encodeHexTile t))).
Proof.
  intros Hwf. pose proof (wfColourTile_subrects t Hwf) as Hsubs.
  pose proof (length_encodeSubrects (Spec.ht_sub t) (Spec.ht_subrects t) Hsubs) as Hlen.
  destruct Hwf as (Hsub & Hraw & Hbg & Hfg & Hnone & Hn & _ & _).
  rewrite (encodeHexTile_colour t Hraw).
  destruct t as [sub raw bg fg subs]. cbn [Spec.ht_sub Spec.ht_bg Spec.ht_fg Spec.ht_subrects] in *.
  cbv zeta. set (bs := (sub :: _) ++ rest).
  set (pk := take (Z.to_nat (Z.min (Z.of_nat (length bs)) 2048)) bs).
  assert (HL : Z.of_nat (length pk) = Z.min (Z.of_nat (length bs)) 2048).
  { unfold pk. rewrite length_take. lia. }
  assert (HA : ∀ i, 0 ≤ i < Z.of_nat (length pk) → at_ pk i = at_ bs i).
  { intros i Hi. apply at_take. lia. }
  assert (HE : Z.of_nat (length (sub :: bg
                 ++ (if flagged sub AnySubrects
                     then fg ++ Z.of_nat (length subs)
                                :: concat (Spec.encodeSubrect <$> subs)
                     else [])))
               ≤ Z.of_nat (length bs)).
  { unfold bs. rewrite length_app. lia. }
  clearbody pk. subst bs.
  set (tail := concat (Spec.encodeSubrect <$> subs)) in *. clearbody tail.
  unfold hextileTileBytes.
  rewrite (HA 0) by (cbn [length] in HE; lia).
  change (at_ ((sub :: bg ++ _) ++ rest) 0) with sub.
  rewrite Hraw.
  destruct (flagged sub BackgroundSpecified), (flagged sub AnySubrects) eqn:Eany;
    cbn [andb] in Hfg;
    [ destruct (flagged sub ForegroundSpecified) | | destruct (flagged sub ForegroundSpecified) | ];
    repeat match goal with
           | H : length ?l = 4%nat |- _ =>
               destruct l as [|? [|? [|? [|? [|]]]]]; try discriminate H; clear H
           | H : length ?l = 0%nat |- _ => destruct l; try discriminate H; clear H
           end;
    try (rewrite (Hnone eq_refl) in * );
    cbn [app length] in *; try reflexivity.
  all: rewrite ?length_app in *; cbn [length] in *.
  all: match goal with
       | |- context [Z.of_nat (length ?p) <? ?k] =>
           destruct (Z.ltb_spec (Z.of_nat (length p)) k); [lia|]
       end.
  all: rewrite HA by lia.
  all: match goal with
       | |- context [at_ ?l ?i] =>
           let v := eval vm_compute in (Z.to_nat i) in
           change (at_ l i) with (default 0 (l !! v)); cbn [lookup list_lookup default]
       end.
  all: unfold id; f_equal; destruct (flagged sub SubrectsColoured); lia.
Qed.


(** The optional background pixel of a tile. *)
Lemma hextileBackground_encoded (flag : bool) (px rest : list Z) (c : Client) :
  isValid c = true →
  length px = (if flag then 4 else 0)%nat →
  inbound (socket c) = px ++ rest →
  let c' := if flag
            then let '(bg, c) := readT 4 (replicate 4 0) c in
                 upd_fbu (set_hextileBG (le bg)) c
            else c in
  hexAfter c c' rest
  ∧ image c' = image c
  ∧ hextileBG (fbu c') = Spec.inherit px (hextileBG (fbu c))
  ∧ hextileFG (fbu c') = hextileFG (fbu c)
  ∧ hextileTX (fbu c') = hextileTX (fbu c)
  ∧ hextileTY (fbu c') = hextileTY (fbu c).
Proof.
  intros Hv Hl Hin. cbv zeta. unfold hexAfter. destruct flag.
  - destruct px as [|b0 [|b1 [|b2 [|b3 [|]]]]]; try discriminate Hl.
    destruct (readT_app c [b0; b1; b2; b3] rest (replicate 4 0) Hv Hin ltac:(cbn; lia))
      as [R N].
    change (Z.of_nat (length [b0; b1; b2; b3])) with 4 in R, N. rewrite R.
    cbn [Spec.inherit]. repeat split; try assumption.
  - destruct px; try discriminate Hl. cbn in Hin. repeat split; assumption.
Qed.

(** The optional foreground pixel of a tile. *)
Lemma hextileForeground_encoded (flag : bool) (px rest : list Z) (c : Client) :
  isValid c = true →
  length px = (if flag then 4 else 0)%nat →
  inbound (socket c) = px ++ rest →
  let c' := if flag
            then let '(fg, c) := readT 4 (replicate 4 0) c in
                 upd_fbu (set_hextileFG (le fg)) c
            else c in
  hexAfter c c' rest
  ∧ image c' = image c
  ∧ hextileBG (fbu c') = hextileBG (fbu c)
  ∧ hextileFG (fbu c') = Spec.inherit px (hextileFG (fbu c))
  ∧ hextileTX (fbu c') = hextileTX (fbu c)
  ∧ hextileTY (fbu c') = hextileTY (fbu c).
Proof.
  intros Hv Hl Hin. cbv zeta. unfold hexAfter. destruct flag.
  - destruct px as [|b0 [|b1 [|b2 [|b3 [|]]]]]; try discriminate Hl.
    destruct (readT_app c [b0; b1; b2; b3] rest (replicate 4 0) Hv Hin ltac:(cbn; lia))
      as [R N].
    change (Z.of_nat (length [b0; b1; b2; b3])) with 4 in R, N. rewrite R.
    cbn [Spec.inherit]. repeat split; try assumption.
  - destruct px; try discriminate Hl. cbn in Hin. repeat split; assumption.
Qed.

Lemma hextileConsumeTile_colour r ty th tx tw (t : Spec.HexTile) (c : Client) rest :
  isValid c = true →
  Spec.wfColourTile t →
  inbound (socket c) = Spec.encodeHexTile t ++ rest →
  let c' := hextileConsumeTile r ty th tx tw 4 c in
  let bg := Spec.inherit (Spec.ht_bg t) (hextileBG (fbu c)) in
  let fg := Spec.inherit (Spec.ht_fg t) (hextileFG (fbu c)) in
  hexAfter c c' rest
  ∧ hextileTX (fbu c') = hextileTX (fbu c)
  ∧ hextileTY (fbu c') = hextileTY (fbu c)
  ∧ hexState c'
    = (bg, fg,
       Spec.paintHexTile (pixelFormat c) (rect_x r + tx) (rect_y r + ty) tw th bg fg t (image c)).
Proof.
  intros Hv Hwf Hin. pose proof (wfColourTile_subrects t Hwf) as Hsubs.
  destruct Hwf as (Hsub & Hraw & Hbg & Hfg & Hnone & Hn & _ & _).
  rewrite (encodeHexTile_colour t Hraw) in Hin.
  cbv zeta. unfold hextileConsumeTile, hexState, Spec.paintHexTile. rewrite Hraw.
  destruct t as [sub raw bg fg subs]. cbn [Spec.ht_sub Spec.ht_bg Spec.ht_fg Spec.ht_subrects] in *.
  change (sub :: bg ++ ?m) with ([sub] ++ (bg ++ m)) in Hin. rewrite <- !app_assoc in Hin.
  destruct (readT_app c [sub] _ [0] Hv Hin ltac:(cbn; lia)) as [R1 N1].
  change (Z.of_nat (length [sub])) with 1 in R1, N1. rewrite R1.
  change (at_ [sub] 0) with sub. rewrite Hraw.
  assert (V1 : isValid (consumed 1 c) = true) by exact Hv.
  assert (P1 : pixelFormat (consumed 1 c) = pixelFormat c) by reflexivity.
  assert (F1 : fbu (consumed 1 c) = fbu c) by reflexivity.
  assert (I1 : image (consumed 1 c) = image c) by reflexivity.
  set (c1 := consumed 1 c) in *. clearbody c1. clear R1.
  change (4 =? 4) with true. cbv iota.
  pose proof (hextileBackground_encoded (flagged sub BackgroundSpecified) bg _ c1 V1 Hbg N1)
    as ((V2 & P2 & N2) & I2 & B2 & G2 & X2 & Y2). cbv zeta in V2, P2, N2, I2, B2, G2, X2, Y2.
  set (c2 := if flagged sub BackgroundSpecified then _ else c1) in *. clearbody c2.
  set (c3 := upd_image _ c2).
  assert (V3 : isValid c3 = true) by exact V2.
  assert (P3 : pixelFormat c3 = pixelFormat c) by (unfold c3; cbn; congruence).
  assert (N3 : inbound (socket c3) = inbound (socket c2)) by reflexivity.
  assert (F3 : fbu c3 = fbu c2) by reflexivity.
  assert (I3 : image c3 = fillRect (rect_x r + tx) (rect_y r + ty) tw th
                            (toRgb (pixelFormat c) (Spec.inherit bg (hextileBG (fbu c)))) (image c)).
  { unfold c3. cbn. rewrite P2, P1, B2, F1, I2, I1. reflexivity. }
  clearbody c3. rewrite N2 in N3.
  destruct (flagged sub AnySubrects) eqn:Eany; cbn [andb] in Hfg.
  - rewrite <- app_assoc in N3.
    pose proof (hextileForeground_encoded (flagged sub ForegroundSpecified) fg _ c3 V3 Hfg N3)
      as ((V4 & P4 & N4) & I4 & B4 & G4 & X4 & Y4).
    cbv zeta in V4, P4, N4, I4, B4, G4, X4, Y4.
    set (c4 := if flagged sub ForegroundSpecified then _ else c3) in *. clearbody c4.
    change (Z.of_nat (length subs) :: ?m ++ rest)
      with ([Z.of_nat (length subs)] ++ m ++ rest) in N4.
    destruct (readT_app c4 [Z.of_nat (length subs)] _ [0] V4 N4 ltac:(cbn; lia)) as [R5 N5].
    change (Z.of_nat (length [Z.of_nat (length subs)])) with 1 in R5, N5. rewrite R5.
    change (at_ [Z.of_nat (length subs)] 0) with (Z.of_nat (length subs)).
    destruct (hextileSubrects_encoded r ty th tx tw sub subs (consumed 1 c4) rest V4 Hsubs N5)
      as ((V6 & P6 & N6) & F6 & I6). cbv zeta in V6, P6, N6, F6, I6.
    set (c6 := forZ 0 _ _ (consumed 1 c4)) in *. clearbody c6.
    change (fbu (consumed 1 c4)) with (fbu c4) in *.
    change (image (consumed 1 c4)) with (image c4) in *.
    change (pixelFormat (consumed 1 c4)) with (pixelFormat c4) in *.
    unfold hexAfter. rewrite F6, I6, P6, P4, P3, G4, B4, X4, Y4, I4, I3, F3, B2, G2, X2, Y2, F1.
    repeat split; assumption.
  - rewrite (Hnone eq_refl) in *. destruct fg; try discriminate Hfg.
    cbn [app fold_left Spec.inherit] in *. rewrite app_nil_r in N3 || cbn in N3.
    unfold hexAfter. rewrite F3, I3, P3, B2, G2, X2, Y2, F1.
    repeat split; assumption.
Qed.

(** *** Raw tiles *)

Lemma encodeHexTile_raw (t : Spec.HexTile) :
  flagged (Spec.ht_sub t) RawSubencoding = true →
  Spec.encodeHexTile t = Spec.ht_sub t :: Spec.ht_raw t.
Proof. intros H. unfold Spec.encodeHexTile. rewrite H. reflexivity. Qed.

Lemma hextileTileBytes_raw (t : Spec.HexTile) (rest : list Z) (tw th : Z) :
  Spec.wfRawTile tw th t →
  let bs := Spec.encodeHexTile t ++ rest in
  hextileTileBytes (take (Z.to_nat (Z.min (Z.of_nat (length bs)) 2048)) bs) tw th 4
  = Some (Z.of_nat (length (Spec.encodeHexTile t))).
Proof.
  intros (Hsub & Hraw & Hw & Hh & Hl & _). cbv zeta.
  rewrite (encodeHexTile_raw t Hraw). unfold hextileTileBytes.
  rewrite at_take by (cbn [length app]; lia).
  change (at_ ((Spec.ht_sub t :: Spec.ht_raw t) ++ rest) 0) with (Spec.ht_sub t).
  rewrite Hraw. f_equal. cbn [length]. lia.
Qed.

Lemma hextileConsumeTile_raw r ty th tx tw (t : Spec.HexTile) (c : Client) rest :
  isValid c = true →
  Spec.wfRawTile tw th t →
  inbound (socket c) = Spec.encodeHexTile t ++ rest →
  let c' := hextileConsumeTile r ty th tx tw 4 c in
  let bg := Spec.inherit (Spec.ht_bg t) (hextileBG (fbu c)) in
  let fg := Spec.inherit (Spec.ht_fg t) (hextileFG (fbu c)) in
  hexAfter c c' rest
  ∧ hextileTX (fbu c') = hextileTX (fbu c)
  ∧ hextileTY (fbu c') = hextileTY (fbu c)
  ∧ hexState c'
    = (bg, fg,
       Spec.paintHexTile (pixelFormat c) (rect_x r + tx) (rect_y r + ty) tw th bg fg t (image c)).
Proof.
  intros Hv (Hsub & Hraw & Hw & Hh & Hl & _ & Hbg & Hfg & _) Hin. cbv zeta.
  rewrite (encodeHexTile_raw t Hraw) in Hin.
  unfold hextileConsumeTile, hexState, Spec.paintHexTile. rewrite Hraw, Hbg, Hfg.
  cbn [Spec.inherit].
  change (Spec.ht_sub t :: Spec.ht_raw t) with ([Spec.ht_sub t] ++ Spec.ht_raw t) in Hin.
  rewrite <- app_assoc in Hin.
  destruct (readT_app c [Spec.ht_sub t] _ [0] Hv Hin ltac:(cbn; lia)) as [R1 N1].
  change (Z.of_nat (length [Spec.ht_sub t])) with 1 in R1, N1. rewrite R1.
  change (at_ [Spec.ht_sub t] 0) with (Spec.ht_sub t). rewrite Hraw.
  assert (V1 : isValid (consumed 1 c) = true) by exact Hv.
  destruct (hextileRaw_encoded r ty th tx tw (Spec.ht_raw t) rest (consumed 1 c)
              V1 Hw Hh Hl N1) as ((V2 & P2 & N2) & F2 & I2).
  cbv zeta in V2, P2, N2, F2, I2.
  set (c2 := forZ 0 th _ (consumed 1 c)) in *. clearbody c2.
  change (fbu (consumed 1 c)) with (fbu c) in F2.
  change (image (consumed 1 c)) with (image c) in I2.
  change (pixelFormat (consumed 1 c)) with (pixelFormat c) in *.
  unfold hexAfter. rewrite F2, I2. repeat split; assumption.
Qed.

(** *** Any tile *)

Lemma hextileTileBytes_encoded (t : Spec.HexTile) (rest : list Z) (tw th : Z) :
  Spec.wfHexTile tw th t →
  let bs := Spec.encodeHexTile t ++ rest in
  hextileTileBytes (take (Z.to_nat (Z.min (Z.of_nat (length bs)) 2048)) bs) tw th 4
  = Some (Z.of_nat (length (Spec.encodeHexTile t))).
Proof.
  intros [H|H]; [apply hextileTileBytes_raw | apply hextileTileBytes_colour]; exact H.
Qed.

Lemma hextileConsumeTile_encoded r ty th tx tw (t : Spec.HexTile) (c : Client) rest :
  isValid c = true →
  Spec.wfHexTile tw th t →
  inbound (socket c) = Spec.encodeHexTile t ++ rest →
  let c' := hextileConsumeTile r ty th tx tw 4 c in
  let bg := Spec.inherit (Spec.ht_bg t) (hextileBG (fbu c)) in
  let fg := Spec.inherit (Spec.ht_fg t) (hextileFG (fbu c)) in
  hexAfter c c' rest
  ∧ hextileTX (fbu c') = hextileTX (fbu c)
  ∧ hextileTY (fbu c') = hextileTY (fbu c)
  ∧ hexState c'
    = (bg, fg,
       Spec.paintHexTile (pixelFormat c) (rect_x r + tx) (rect_y r + ty) tw th bg fg t (image c)).
Proof.
  intros Hv [H|H] Hin;
    [apply hextileConsumeTile_raw | apply hextileConsumeTile_colour]; assumption.
Qed.

(** A tile that is buffered whole is consumed, and painted with its
    pixels or in the colours in force after its own flags. *)
Lemma hextileTile_encoded r ty th tx tw (t : Spec.HexTile) (c : Client) rest :
  isValid c = true →
  bitsPerPixel (pixelFormat c) = 32 →
  Spec.wfHexTile tw th t →
  inbound (socket c) = Spec.encodeHexTile t ++ rest →
  let res := hextileTile r ty th tx tw c in
  let bg := Spec.inherit (Spec.ht_bg t) (hextileBG (fbu c)) in
  let fg := Spec.inherit (Spec.ht_fg t) (hextileFG (fbu c)) in
  res.1 = true
  ∧ hexAfter c res.2 rest
  ∧ hextileTX (fbu res.2) = hextileTX (fbu c)
  ∧ hextileTY (fbu res.2) = hextileTY (fbu c)
  ∧ hexState res.2
    = (bg, fg,
       Spec.paintHexTile (pixelFormat c) (rect_x r + tx) (rect_y r + ty) tw th bg fg t (image c)).
Proof.
  intros Hv Hbpp Hwf Hin. cbv zeta. unfold hextileTile. rewrite Hbpp.
  change (32 / 8) with 4.
  assert (Ha : bytesAvailable (socket c)
               = Z.of_nat (length (Spec.encodeHexTile t)) + Z.of_nat (length rest)).
  { unfold bytesAvailable. rewrite Hin, length_app. lia. }
  assert (H1 : 1 ≤ Z.of_nat (length (Spec.encodeHexTile t))).
  { unfold Spec.encodeHexTile. destruct (flagged _ RawSubencoding); cbn [length]; lia. }
  destruct (Z.ltb_spec (bytesAvailable (socket c)) 1); [lia|].
  unfold peek, bytesAvailable. rewrite Hin.
  rewrite (hextileTileBytes_encoded t rest tw th Hwf).
  rewrite <- Hin. fold (bytesAvailable (socket c)).
  destruct (Z.ltb_spec (bytesAvailable (socket c)) (Z.of_nat (length (Spec.encodeHexTile t))));
    [lia|].
  cbn [fst snd]. split; [reflexivity|].
  exact (hextileConsumeTile_encoded r ty th tx tw t c rest Hv Hwf Hin).
Qed.

Lemma hextileRow_encoded r ty th (tiles : list Spec.HexTile) :
  ∀ (c : Client) rest,
    isValid c = true →
    bitsPerPixel (pixelFormat c) = 32 →
    Spec.hexRowFits r th (hextileTX (fbu c)) tiles →
    inbound (socket c) = concat (Spec.encodeHexTile <$> tiles) ++ rest →
    let res := hextileRow (length tiles) r ty th c in
    res.1 = true
    ∧ hexAfter c res.2 rest
    ∧ hextileTY (fbu res.2) = hextileTY (fbu c)
    ∧ hexState res.2 = Spec.paintHexRow (pixelFormat c) r ty th (hextileTX (fbu c)) tiles (hexState c).
Proof.
  induction tiles as [|t tiles IH]; intros c rest Hv Hbpp Hwf Hin; cbv zeta.
  - cbn in *. repeat split; assumption.
  - cbn [length hextileRow]. cbn [Spec.hexRowFits] in Hwf. destruct Hwf as [Ht Hwf].
    cbn [fmap list_fmap concat] in Hin. rewrite <- app_assoc in Hin.
    destruct (hextileTile_encoded r ty th (hextileTX (fbu c))
                (Z.min 16 (rect_w r - hextileTX (fbu c))) t c _ Hv Hbpp Ht Hin)
      as (T1 & (V1 & P1 & N1) & X1 & Y1 & S1).
    cbv zeta in T1, V1, P1, N1, X1, Y1, S1.
    destruct (hextileTile r ty th _ _ c) as [ok c1]. cbn [fst snd] in *. subst ok.
    destruct (IH (upd_fbu (set_hextileTX (hextileTX (fbu c) + 16)) c1) rest V1
                ltac:(cbn; congruence) Hwf N1) as (T2 & (V2 & P2 & N2) & Y2 & S2).
    cbv zeta in T2, V2, P2, N2, Y2, S2.
    split; [exact T2|]. split; [repeat split; [exact V2 | cbn in P2; congruence | exact N2]|].
    split; [cbn in Y2; congruence|].
    rewrite S2. cbn [Spec.paintHexRow].
    change (pixelFormat (upd_fbu _ c1)) with (pixelFormat c1). rewrite P1.
    change (hextileTX (fbu (upd_fbu (set_hextileTX (hextileTX (fbu c) + 16)) c1)))
      with (hextileTX (fbu c) + 16).
    change (hexState (upd_fbu (set_hextileTX (hextileTX (fbu c) + 16)) c1)) with (hexState c1).
    rewrite S1. reflexivity.
Qed.

Lemma hextileRows_encoded r (rows : list (list Spec.HexTile)) :
  ∀ (c : Client) rest,
    isValid c = true →
    bitsPerPixel (pixelFormat c) = 32 →
    Spec.hexRowsFitFrom r (hextileTY (fbu c)) rows →
    hextileTX (fbu c) = 0 →
    inbound (socket c) = Spec.encodeHexRows rows ++ rest →
    let res := hextileRows (length rows) r c in
    res.1 = true
    ∧ hexAfter c res.2 rest
    ∧ hextileTX (fbu res.2) = 0
    ∧ hextileTY (fbu res.2) = hextileTY (fbu c) + 16 * Z.of_nat (length rows)
    ∧ hexState res.2 = Spec.paintHexRows (pixelFormat c) r (hextileTY (fbu c)) rows (hexState c).
Proof.
  induction rows as [|row rows IH]; intros c rest Hv Hbpp Hwf Hx Hin; cbv zeta.
  - cbn in *. repeat split; try assumption. lia.
  - cbn [length hextileRows]. cbn [Spec.hexRowsFitFrom] in Hwf.
    destruct Hwf as (Hl & Hrow & Hwf).
    unfold Spec.encodeHexRows in Hin. cbn [concat] in Hin.
    rewrite fmap_app, concat_app, <- app_assoc in Hin.
    rewrite Hx, <- Hl. rewrite <- Hx in Hrow.
    destruct (hextileRow_encoded r (hextileTY (fbu c))
                (Z.min 16 (rect_h r - hextileTY (fbu c))) row c _ Hv Hbpp Hrow Hin)
      as (T1 & (V1 & P1 & N1) & Y1 & S1).
    cbv zeta in T1, V1, P1, N1, Y1, S1.
    destruct (hextileRow (length row) r _ _ c) as [ok c1]. cbn [fst snd] in *. subst ok.
    set (c2 := upd_fbu (set_hextileTY (hextileTY (fbu c) + 16))
                 (upd_fbu (set_hextileTX 0) c1)).
    destruct (IH c2 rest V1 ltac:(cbn; congruence) Hwf eq_refl N1)
      as (T2 & (V2 & P2 & N2) & X2 & Y2 & S2).
    cbv zeta in T2, V2, P2, N2, X2, Y2, S2.
    split; [exact T2|]. split; [repeat split; [exact V2 | cbn in P2; congruence | exact N2]|].
    split; [exact X2|].
    split; [rewrite Y2; cbn; lia|].
    rewrite S2. cbn [Spec.paintHexRows].
    change (pixelFormat c2) with (pixelFormat c1). rewrite P1.
    change (hextileTY (fbu c2)) with (hextileTY (fbu c) + 16).
    change (hexState c2) with (hexState c1).
    rewrite S1, Hx. reflexivity.
Qed.

(** A rectangle whose tiles are buffered whole. *)
Lemma handleHextileEncoding_encoded r (rows : list (list Spec.HexTile)) (c : Client) rest :
  isValid c = true →
  bitsPerPixel (pixelFormat c) = 32 →
  Spec.hexRowsFit r rows →
  hextileTX (fbu c) = 0 →
  hextileTY (fbu c) = 0 →
  inbound (socket c) = Spec.encodeHexRows rows ++ rest →
  let res := handleHextileEncoding r c in
  res.1 = true
  ∧ hexAfter c res.2 rest
  ∧ hextileTX (fbu res.2) = 0
  ∧ hextileTY (fbu res.2) = 0
  ∧ hexState res.2 = Spec.paintHexRows (pixelFormat c) r 0 rows (hexState c).
Proof.
  intros Hv Hbpp [Hl Hwf] Hx Hy Hin. cbv zeta. unfold handleHextileEncoding.
  rewrite Hy, <- Hl. rewrite <- Hy in Hwf.
  destruct (hextileRows_encoded r rows c rest Hv Hbpp Hwf Hx Hin)
    as (T & (V & P & N) & X & Y & S).
  cbv zeta in T, V, P, N, X, Y, S. rewrite Hy in S.
  destruct (hextileRows (length rows) r c) as [ok c1]. cbn [fst snd] in *. subst ok.
  cbn [fst snd]. repeat split; assumption.
Qed.

(** The header of a Hextile rectangle. *)
Lemma readRectHeader_encoded (c : Client) (hdr rest : list Z) :
  isValid c = true →
  length hdr = 8%nat →
  inbound (socket c) = hdr ++ to_be 4 Hextile ++ rest →
  let c' := readRectHeader c in
  hexAfter c c' rest
  ∧ hexState c' = hexState c
  ∧ rect (fbu c') = rectangleOfBytes hdr
  ∧ encoding (fbu c') = Hextile
  ∧ hextileTX (fbu c') = 0
  ∧ hextileTY (fbu c') = 0
  ∧ rectHeaderRead (fbu c') = true
  ∧ active (fbu c') = active (fbu c)
  ∧ totalRects (fbu c') = totalRects (fbu c)
  ∧ currentRect (fbu c') = currentRect (fbu c).
Proof.
  intros Hv Hl Hin. cbv zeta. unfold readRectHeader, hexAfter, hexState.
  destruct (readT_app c hdr _ (rectangleBytes (rect (fbu c))) Hv Hin
              ltac:(rewrite Hl; cbn; lia)) as [R1 N1].
  rewrite Hl in R1, N1. change (Z.of_nat 8) with 8 in R1, N1. rewrite R1.
  set (c1 := upd_fbu (set_rect (rectangleOfBytes hdr)) (consumed 8 c)).
  assert (V1 : isValid c1 = true) by exact Hv.
  assert (N1' : inbound (socket c1) = to_be 4 Hextile ++ rest) by exact N1.
  destruct (readT_app c1 (to_be 4 Hextile) rest (replicate 4 0) V1 N1' ltac:(cbn; lia))
    as [R2 N2].
  change (Z.of_nat (length (to_be 4 Hextile))) with 4 in R2, N2. rewrite R2.
  repeat split; try assumption.
Qed.

(** A Hextile rectangle, header and tiles, in the rectangle loop. *)
Lemma decodeRect_hextile (c : Client) (hdr : list Z) (rows : list (list Spec.HexTile)) rest :
  isValid c = true →
  bitsPerPixel (pixelFormat c) = 32 →
  length hdr = 8%nat →
  Spec.hexRowsFit (rectangleOfBytes hdr) rows →
  inbound (socket c) = hdr ++ to_be 4 Hextile ++ Spec.encodeHexRows rows ++ rest →
  let res := decodeRect (readRectHeader c) in
  res.1 = true
  ∧ hexAfter c res.2 rest
  ∧ hexState res.2 = Spec.paintHexRows (pixelFormat c) (rectangleOfBytes hdr) 0 rows (hexState c)
  ∧ active (fbu res.2) = active (fbu c)
  ∧ totalRects (fbu res.2) = totalRects (fbu c)
  ∧ currentRect (fbu res.2) = currentRect (fbu c).
Proof.
  intros Hv Hbpp Hl Hfit Hin. cbv zeta.
  destruct (readRectHeader_encoded c hdr _ Hv Hl Hin)
    as ((V1 & P1 & N1) & S1 & R1 & E1 & X1 & Y1 & _ & A1 & T1 & C1).
  cbv zeta in V1, P1, N1, S1, R1, E1, X1, Y1, A1, T1, C1.
  set (c1 := readRectHeader c) in *. clearbody c1.
  pose proof (decodes_decodeRect c1) as D.
  unfold decodeRect in *. rewrite E1 in *. cbn [Z.eqb Pos.eqb Hextile ZRLE Tight] in *.
  rewrite R1 in *.
  destruct (handleHextileEncoding_encoded (rectangleOfBytes hdr) rows c1 rest V1
              ltac:(congruence) Hfit X1 Y1 N1) as (T2 & (V2 & P2 & N2) & _ & _ & S2).
  cbv zeta in T2, V2, P2, N2, S2.
  destruct (handleHextileEncoding (rectangleOfBytes hdr) c1) as [ok c2].
  cbn [fst snd] in *. subst ok.
  destruct D as (_&_&_&_&_&_&_&_&_&_&_&_&_&_&_&T3&C3&_&_&A3&_).
  split; [reflexivity|]. split; [repeat split; congruence|].
  split; [rewrite S2, P1, S1; reflexivity|].
  repeat split; congruence.
Qed.


(** A FramebufferUpdate message of one Hextile rectangle, as [read]
    decodes it. *)
Lemma read_hextile_message (c : Client) (pad : Z) (hdr : list Z)
    (rows : list (list Spec.HexTile)) rest :
  isValid c = true →
  state c = WaitingState →
  reading c = false →
  active (fbu c) = false →
  bitsPerPixel (pixelFormat c) = 32 →
  length hdr = 8%nat →
  Spec.hexRowsFit (rectangleOfBytes hdr) rows →
  inbound (socket c)
  = [FramebufferUpdate; pad; 0; 1] ++ hdr ++ to_be 4 Hextile ++ Spec.encodeHexRows rows ++ rest →
  let c' := read c in
  hexAfter c c' rest
  ∧ hexState c' = Spec.paintHexRows (pixelFormat c) (rectangleOfBytes hdr) 0 rows (hexState c)
  ∧ active (fbu c') = false.
Proof.
  intros Hv Hs Hr Ha Hbpp Hl Hfit Hin. cbv zeta.
  assert (E : ∃ c1, parseServerMessages (set_reading true c) = c1
                    ∧ hexAfter c c1 rest
                    ∧ hexState c1
                      = Spec.paintHexRows (pixelFormat c) (rectangleOfBytes hdr) 0 rows (hexState c)
                    ∧ active (fbu c1) = false).
  { unfold parseServerMessages. cbn [fbu set_reading socket]. rewrite Ha.
    change ([FramebufferUpdate; pad; 0; 1] ++ ?m)
      with ([FramebufferUpdate] ++ [pad] ++ [0; 1] ++ m) in Hin.
    assert (Hb : 4 + 12 ≤ bytesAvailable (socket c)).
    { unfold bytesAvailable. rewrite Hin. rewrite !length_app, Hl.
      change (length (to_be 4 Hextile)) with 4%nat. cbn [length]. lia. }
    destruct (Z.ltb_spec (bytesAvailable (socket c)) 1); [lia|].
    destruct (readT_app (set_reading true c) [FramebufferUpdate] _ [0] Hv Hin ltac:(cbn; lia))
      as [R1 N1].
    change (Z.of_nat (length [FramebufferUpdate])) with 1 in R1, N1. rewrite R1.
    change (at_ [FramebufferUpdate] 0 =? FramebufferUpdate) with true. cbv iota.
    set (c1 := consumed 1 (set_reading true c)) in *.
    assert (V1 : isValid c1 = true) by exact Hv.
    unfold framebufferUpdate.
    assert (Hb1 : bytesAvailable (socket c1) = bytesAvailable (socket c) - 1).
    { unfold bytesAvailable. rewrite N1, Hin. rewrite !length_app. cbn [length]. lia. }
    destruct (Z.ltb_spec (bytesAvailable (socket c1)) 3); [lia|].
    destruct (readBytes_app c1 [pad] _ N1) as [R2 N2].
    change (Z.of_nat (length [pad])) with 1 in R2, N2. rewrite R2.
    set (c2 := consumed 1 c1) in *.
    assert (V2 : isValid c2 = true) by exact Hv.
    destruct (readT_app c2 [0; 1] _ (replicate 2 0) V2 N2 ltac:(cbn; lia)) as [R3 N3].
    change (Z.of_nat (length [0; 1])) with 2 in R3, N3. rewrite R3.
    change (be [0; 1]) with 1.
    set (c3 := upd_fbu (set_rectHeaderRead false) _).
    assert (V3 : isValid c3 = true) by exact Hv.
    assert (P3 : pixelFormat c3 = pixelFormat c) by reflexivity.
    assert (N3' : inbound (socket c3)
                  = hdr ++ to_be 4 Hextile ++ Spec.encodeHexRows rows ++ rest) by exact N3.
    assert (S3 : hexState c3 = hexState c) by reflexivity.
    assert (T3 : totalRects (fbu c3) = 1) by reflexivity.
    assert (C3 : currentRect (fbu c3) = 0) by reflexivity.
    assert (A3 : active (fbu c3) = true) by reflexivity.
    assert (H3 : rectHeaderRead (fbu c3) = false) by reflexivity.
    assert (Hb3 : 12 ≤ bytesAvailable (socket c3)).
    { unfold bytesAvailable. rewrite N3', !length_app, Hl.
      change (length (to_be 4 Hextile)) with 4%nat. lia. }
    clearbody c3.
    unfold processFramebufferRects. rewrite T3, C3.
    change (Z.to_nat (1 - 0)) with 1%nat. cbn [rectLoop]. rewrite H3. cbn [negb andb].
    destruct (Z.ltb_spec (bytesAvailable (socket c3)) 12); [lia|].
    destruct (decodeRect_hextile c3 hdr rows rest V3 ltac:(congruence) Hl Hfit N3')
      as (T4 & (V4 & P4 & N4) & S4 & A4 & _ & _).
    cbv zeta in T4, V4, P4, N4, S4, A4.
    destruct (decodeRect (readRectHeader c3)) as [ok c4]. cbn [fst snd] in *. subst ok.
    cbn [negb].
    set (c5 := upd_fbu (set_currentRect _) _).
    assert (V5 : isValid c5 = true) by exact V4.
    rewrite framebufferUpdateRequest_valid by exact V5.
    eexists. split; [reflexivity|].
    split; [repeat split; [exact V4 | cbn; congruence | exact N4]|].
    split; [|reflexivity].
    change (hexState (upd_socket _ (upd_fbu (set_active false) c5))) with (hexState c4).
    rewrite S4, P3, S3. reflexivity. }
  destruct E as (c1 & E & (V1 & P1 & N1) & S1 & A1).
  unfold read. rewrite Hr.
  change (state (set_reading true c)) with (state c). rewrite Hs, E.
  cbn [socket set_reading fbu]. rewrite A1. cbn [negb].
  destruct (bytesAvailable (socket c1) >? 0); cbn [andb].
  - repeat split; assumption.
  - repeat split; assumption.
Qed.

(** A disconnect leaves the Hextile colours as they are; a new client
    object has none. *)
Lemma hextile_colours_onDisconnected (c : Client) :
  hextileBG (fbu (onDisconnected c)) = hextileBG (fbu c)
  ∧ hextileFG (fbu (onDisconnected c)) = hextileFG (fbu c).
Proof.
  unfold onDisconnected, reset, setSecurityType, setProtocolVersion, emit.
  repeat case_bool_decide; cbn; split; reflexivity.
Qed.


(** The colours a rectangle leaves are the last ones its tiles gave. *)
Lemma paintHexRow_colours pf r ty th (tiles : list Spec.HexTile) :
  ∀ tx st,
    (Spec.paintHexRow pf r ty th tx tiles st).1.1
    = fold_left (λ bg t, Spec.inherit (Spec.ht_bg t) bg) tiles st.1.1
    ∧ (Spec.paintHexRow pf r ty th tx tiles st).1.2
      = fold_left (λ fg t, Spec.inherit (Spec.ht_fg t) fg) tiles st.1.2.
Proof.
  induction tiles as [|t tiles IH]; intros tx st; [split; reflexivity|].
  cbn [Spec.paintHexRow fold_left]. destruct (IH (tx + 16)
    (Spec.inherit (Spec.ht_bg t) st.1.1, Spec.inherit (Spec.ht_fg t) st.1.2,
     Spec.paintHexTile pf (rect_x r + tx) (rect_y r + ty) (Z.min 16 (rect_w r - tx)) th
       (Spec.inherit (Spec.ht_bg t) st.1.1) (Spec.inherit (Spec.ht_fg t) st.1.2) t st.2))
    as [B F].
  split; [exact B | exact F].
Qed.

Lemma paintHexRows_colours pf r (rows : list (list Spec.HexTile)) :
  ∀ ty st,
    (Spec.paintHexRows pf r ty rows st).1.1
    = fold_left (λ bg t, Spec.inherit (Spec.ht_bg t) bg) (concat rows) st.1.1
    ∧ (Spec.paintHexRows pf r ty rows st).1.2
      = fold_left (λ fg t, Spec.inherit (Spec.ht_fg t) fg) (concat rows) st.1.2.
Proof.
  induction rows as [|row rows IH]; intros ty st; [split; reflexivity|].
  cbn [Spec.paintHexRows concat]. rewrite !fold_left_app.
  destruct (IH (ty + 16) (Spec.paintHexRow pf r ty (Z.min 16 (rect_h r - ty)) 0 row st))
    as [B F].
  destruct (paintHexRow_colours pf r ty (Z.min 16 (rect_h r - ty)) row 0 st) as [B1 F1].
  rewrite B, F, B1, F1. split; reflexivity.
Qed.

Lemma strides_one (extent : Z) : 0 < extent ≤ 16 → strides 0 extent 16 = 1%nat.
Proof.
  intros H. unfold strides.
  replace ((extent - 0 + (16 - 1)) / 16) with 1; [reflexivity|].
  apply (Z.div_unique _ _ _ (extent - 1)); lia.
Qed.

Lemma strides_two (extent : Z) : 16 < extent ≤ 32 → strides 0 extent 16 = 2%nat.
Proof.
  intros H. unfold strides.
  replace ((extent - 0 + (16 - 1)) / 16) with 2; [reflexivity|].
  apply (Z.div_unique _ _ _ (extent - 17)); lia.
Qed.

(** C6.  Within a Hextile rectangle the background and foreground
    colours persist from tile to tile.  Tile by tile: a tile that cannot
    be completed leaves the client, colours included, as it was; a
    completed tile replaces the background only under BackgroundSpecified
    and the foreground only under ForegroundSpecified (with AnySubrects),
    by the pixel that follows, never in a Raw tile; a tile without Raw
    and AnySubrects is painted solid in the background then current.
    Through the loops of the handler: a rectangle of tiles, Raw or not,
    buffered whole at 32 bits per pixel, is decoded to its end, and its
    colours and pixels are those of [Spec.paintHexRows], where a tile is
    painted in the colours the tiles before it left unless its own flags
    give others; the background and the foreground it leaves are the
    last ones a tile gave, or else those it began with.  So, of two
    tiles side by side without subrectangles, a second one that gives no
    background is painted, like the first, in the background in force
    after the first.  Worked: in the 32x16 rectangle whose first tile
    carries BackgroundSpecified and a red pixel and whose second tile has
    subencoding 0, every pixel ends up red; a second tile with one
    subrectangle and no colour of its own is painted in the background
    and the foreground of the first; a tile of subencoding 0 that
    follows a Raw tile is painted in the background given before the Raw
    tile.  Colours are stated for pixel formats whose shifts are below
    32. *)
Theorem hextile_colours_persist (r : Rectangle) (ty th tx tw : Z) (c : Client) :
  isValid c = true →
  let sub := at_ (inbound (socket c)) 0 in
  let bpp := bitsPerPixel (pixelFormat c) / 8 in
  let t := hextileTile r ty th tx tw c in
  (t.1 = false → t.2 = c)
  ∧ (t.1 = true →
     hextileBG (fbu t.2)
     = (if negb (flagged sub RawSubencoding) && flagged sub BackgroundSpecified && (bpp =? 4)
        then le (take 4 (drop 1 (inbound (socket c))))
        else hextileBG (fbu c))
     ∧ hextileFG (fbu t.2)
       = (if negb (flagged sub RawSubencoding) && flagged sub AnySubrects
             && flagged sub ForegroundSpecified && (bpp =? 4)
          then le (take 4 (drop (if flagged sub BackgroundSpecified then 5 else 1)
                             (inbound (socket c))))
          else hextileFG (fbu c))
     ∧ (flagged sub RawSubencoding = false → flagged sub AnySubrects = false →
        shiftsDefined (pixelFormat c) →
        wfImage (image c) →
        ∀ x y, 0 ≤ x < img_width (image c) → 0 ≤ y < img_height (image c) →
          pixel x y (image t.2)
          = if inSpan (rect_x r + tx) tw x && inSpan (rect_y r + ty) th y
            then toRgb (pixelFormat c) (hextileBG (fbu t.2))
            else pixel x y (image c)))
  ∧ (∀ rows rest,
       bitsPerPixel (pixelFormat c) = 32 →
       shiftsDefined (pixelFormat c) →
       Spec.hexRowsFit r rows →
       hextileTX (fbu c) = 0 → hextileTY (fbu c) = 0 →
       inbound (socket c) = Spec.encodeHexRows rows ++ rest →
       let res := handleHextileEncoding r c in
       res.1 = true
       ∧ inbound (socket res.2) = rest
       ∧ hexState res.2 = Spec.paintHexRows (pixelFormat c) r 0 rows (hexState c)
       ∧ hextileBG (fbu res.2)
         = fold_left (λ bg t, Spec.inherit (Spec.ht_bg t) bg) (concat rows)
             (hextileBG (fbu c))
       ∧ hextileFG (fbu res.2)
         = fold_left (λ fg t, Spec.inherit (Spec.ht_fg t) fg) (concat rows)
             (hextileFG (fbu c)))
  ∧ (∀ t0 t1 rest,
       bitsPerPixel (pixelFormat c) = 32 →
       shiftsDefined (pixelFormat c) →
       wfImage (image c) →
       16 < rect_w r ≤ 32 → 0 < rect_h r ≤ 16 →
       Spec.wfColourTile t0 → Spec.wfColourTile t1 →
       Spec.ht_subrects t0 = [] → Spec.ht_subrects t1 = [] → Spec.ht_bg t1 = [] →
       hextileTX (fbu c) = 0 → hextileTY (fbu c) = 0 →
       inbound (socket c) = Spec.encodeHexTile t0 ++ Spec.encodeHexTile t1 ++ rest →
       let res := handleHextileEncoding r c in
       res.1 = true
       ∧ hextileBG (fbu res.2) = Spec.inherit (Spec.ht_bg t0) (hextileBG (fbu c))
       ∧ ∀ x y, 0 ≤ x < img_width (image c) → 0 ≤ y < img_height (image c) →
           pixel x y (image res.2)
           = if inSpan (rect_x r) (rect_w r) x && inSpan (rect_y r) (rect_h r) y
             then toRgb (pixelFormat c) (Spec.inherit (Spec.ht_bg t0) (hextileBG (fbu c)))
             else pixel x y (image c))
  ∧ (let e := handleHextileEncoding (mkRectangle 0 0 32 16) Example.hextileE4Client in
     e.1 = true
     ∧ inbound (socket e.2) = []
     ∧ img_pixels (image e.2) = replicate 512 (qRgb 255 0 0))
  ∧ (let e := handleHextileEncoding (mkRectangle 0 0 32 16)
                Example.hextileForegroundClient in
     e.1 = true
     ∧ inbound (socket e.2) = []
     ∧ img_pixels (image e.2)
       = concat (replicate 16 (replicate 16 (qRgb 255 0 0) ++ replicate 8 (qRgb 0 0 255)
                               ++ replicate 8 (qRgb 255 0 0))))
  ∧ (let e := handleHextileEncoding (mkRectangle 0 0 34 1) Example.hextileRawClient in
     e.1 = true
     ∧ inbound (socket e.2) = []
     ∧ hextileBG (fbu e.2) = 0x00FF0000
     ∧ img_pixels (image e.2)
       = replicate 16 (qRgb 255 0 0) ++ replicate 16 (qRgb 0 255 0)
         ++ replicate 2 (qRgb 255 0 0)).
Proof.
  intros Hv. cbv zeta. split; [|split; [|split; [|split; [|split; [|split]]]]].
  - unfold hextileTile. repeat (case_match; try discriminate; try reflexivity).
  - intros Ht.
    assert (E : (hextileTile r ty th tx tw c).2
                = hextileConsumeTile r ty th tx tw (bitsPerPixel (pixelFormat c) / 8) c).
    { revert Ht. unfold hextileTile.
      repeat (case_match; try discriminate; try reflexivity). }
    rewrite E.
    destruct (hextileConsumeTile_colours r ty th tx tw (bitsPerPixel (pixelFormat c) / 8) c Hv)
      as [Hbg Hfg].
    split; [exact Hbg | split; [exact Hfg |]].
    intros Hraw Hany _ Hwf x y Hx Hy.
    rewrite (hextileConsumeTile_solid r ty th tx tw _ c Hv Hraw Hany).
    apply pixel_fillRect; assumption.
  - intros rows rest Hbpp _ Hfit Hx Hy Hin.
    destruct (handleHextileEncoding_encoded r rows c rest Hv Hbpp Hfit Hx Hy Hin)
      as (T & (_ & _ & N) & _ & _ & S).
    cbv zeta in S.
    destruct (paintHexRows_colours (pixelFormat c) r rows 0 (hexState c)) as [B F].
    rewrite <- S in B, F.
    split; [exact T | split; [exact N | split; [exact S | split; [exact B | exact F]]]].
  - intros t0 t1 rest Hbpp _ Hwf Hw Hh W0 W1 S0 S1 B1 Hx Hy Hin.
    assert (Hfit : Spec.hexRowsFit r [[t0; t1]]).
    { split; [cbn [length]; symmetry; apply strides_one; exact Hh|].
      cbn [Spec.hexRowsFitFrom Spec.hexRowFits].
      split; [cbn [length]; symmetry; apply strides_two; exact Hw|].
      repeat split; right; assumption. }
    assert (R0 : flagged (Spec.ht_sub t0) RawSubencoding = false) by apply W0.
    assert (R1 : flagged (Spec.ht_sub t1) RawSubencoding = false) by apply W1.
    assert (Hin' : inbound (socket c) = Spec.encodeHexRows [[t0; t1]] ++ rest).
    { unfold Spec.encodeHexRows. cbn. rewrite app_nil_r, <- app_assoc. exact Hin. }
    destruct (handleHextileEncoding_encoded r [[t0; t1]] c rest Hv Hbpp Hfit Hx Hy Hin')
      as (T & _ & _ & _ & S).
    cbv zeta in T, S. split; [exact T|].
    unfold hexState in S. cbn [Spec.paintHexRows Spec.paintHexRow fst snd] in S.
    unfold Spec.paintHexTile in S. rewrite R0, R1, S0, S1, B1 in S.
    cbn [fold_left Spec.inherit] in S.
    injection S as SB SF SI. split; [exact SB|].
    intros x y Hx' Hy'. rewrite SI.
    set (col := toRgb (pixelFormat c) (Spec.inherit (Spec.ht_bg t0) (hextileBG (fbu c)))).
    pose proof (fillRect_painted _ (rect_x r + (0 + 16)) (rect_y r + 0)
                  (Z.min 16 (rect_w r - (0 + 16))) (Z.min 16 (rect_h r - 0)) col _ _
                  (fillRect_painted _ (rect_x r + 0) (rect_y r + 0)
                     (Z.min 16 (rect_w r - 0)) (Z.min 16 (rect_h r - 0)) col _ _
                     (painted_refl col (image c) Hwf))) as (_ & _ & _ & Hp).
    rewrite (Hp x y Hx' Hy'). unfold inSpan. cbn [orb].
    destruct (Z.leb_spec (rect_x r + 0) x), (Z.ltb_spec x (rect_x r + 0 + Z.min 16 (rect_w r - 0))),
      (Z.leb_spec (rect_y r + 0) y), (Z.ltb_spec y (rect_y r + 0 + Z.min 16 (rect_h r - 0))),
      (Z.leb_spec (rect_x r + (0 + 16)) x),
      (Z.ltb_spec x (rect_x r + (0 + 16) + Z.min 16 (rect_w r - (0 + 16)))),
      (Z.leb_spec (rect_x r) x), (Z.ltb_spec x (rect_x r + rect_w r)),
      (Z.leb_spec (rect_y r) y), (Z.ltb_spec y (rect_y r + rect_h r));
      cbn [andb orb]; try reflexivity; lia.
  - vm_compute. repeat split; reflexivity.
  - vm_compute. repeat split; reflexivity.
  - vm_compute. repeat split; reflexivity.
Qed.


(** C8, as the code has it.  The inherited Hextile colours are not
    reset when a rectangle, or a FramebufferUpdate message, begins, nor
    when the connection is lost.  Reading a rectangle header keeps
    [hextileBG] and [hextileFG] and zeroes only the tile cursor.  A
    Hextile rectangle, in the rectangle loop or alone in a message given
    to [read], is painted from the colours the client has when the
    rectangle begins; so a first tile that is not Raw and gives no
    background, of whatever subencoding, is painted in the background
    left by the Hextile tiles decoded before, and without subrectangles
    it is solid in that colour.  A disconnect leaves the colours as they
    are; they are 0, black, on a new client object.  Worked: a tile with
    BackgroundSpecified red in one message makes the plain tile of the
    next message red; on a new client the plain tile is black.  Colours
    are stated for pixel formats whose shifts are below 32. *)
Theorem hextile_colours_survive_rectangles (c : Client) :
  (let c' := readRectHeader c in
   hextileBG (fbu c') = hextileBG (fbu c)
   ∧ hextileFG (fbu c') = hextileFG (fbu c)
   ∧ hextileTX (fbu c') = 0
   ∧ hextileTY (fbu c') = 0)
  ∧ (∀ hdr rows rest,
       isValid c = true →
       bitsPerPixel (pixelFormat c) = 32 →
       shiftsDefined (pixelFormat c) →
       length hdr = 8%nat →
       Spec.hexRowsFit (rectangleOfBytes hdr) rows →
       inbound (socket c) = hdr ++ to_be 4 Hextile ++ Spec.encodeHexRows rows ++ rest →
       let res := decodeRect (readRectHeader c) in
       res.1 = true
       ∧ inbound (socket res.2) = rest
       ∧ hexState res.2
         = Spec.paintHexRows (pixelFormat c) (rectangleOfBytes hdr) 0 rows (hexState c))
  ∧ (∀ pad hdr rows rest,
       isValid c = true →
       state c = WaitingState → reading c = false → active (fbu c) = false →
       bitsPerPixel (pixelFormat c) = 32 →
       shiftsDefined (pixelFormat c) →
       length hdr = 8%nat →
       Spec.hexRowsFit (rectangleOfBytes hdr) rows →
       inbound (socket c)
       = [FramebufferUpdate; pad; 0; 1] ++ hdr ++ to_be 4 Hextile
         ++ Spec.encodeHexRows rows ++ rest →
       let c' := read c in
       inbound (socket c') = rest
       ∧ active (fbu c') = false
       ∧ hexState c'
         = Spec.paintHexRows (pixelFormat c) (rectangleOfBytes hdr) 0 rows (hexState c))
  ∧ (∀ pad hdr t rest,
       isValid c = true →
       state c = WaitingState → reading c = false → active (fbu c) = false →
       bitsPerPixel (pixelFormat c) = 32 →
       shiftsDefined (pixelFormat c) →
       wfImage (image c) →
       length hdr = 8%nat →
       let r := rectangleOfBytes hdr in
       0 < rect_w r ≤ 16 → 0 < rect_h r ≤ 16 →
       Spec.wfColourTile t → Spec.ht_bg t = [] → Spec.ht_subrects t = [] →
       inbound (socket c)
       = [FramebufferUpdate; pad; 0; 1] ++ hdr ++ to_be 4 Hextile
         ++ Spec.encodeHexTile t ++ rest →
       let c' := read c in
       hextileBG (fbu c') = hextileBG (fbu c)
       ∧ ∀ x y, 0 ≤ x < img_width (image c) → 0 ≤ y < img_height (image c) →
           pixel x y (image c')
           = if inSpan (rect_x r) (rect_w r) x && inSpan (rect_y r) (rect_h r) y
             then toRgb (pixelFormat c) (hextileBG (fbu c))
             else pixel x y (image c))
  ∧ (hextileBG (fbu (onDisconnected c)) = hextileBG (fbu c)
     ∧ hextileFG (fbu (onDisconnected c)) = hextileFG (fbu c))
  ∧ (∀ s, hextileBG (fbu (initialClient s)) = 0 ∧ hextileFG (fbu (initialClient s)) = 0)
  ∧ (let c1 := read (Example.runningClient 32 16
                       (Example.fbuMessage 0 0 16 16 Hextile [2; 0x00; 0x00; 0xFF; 0x00])) in
     let c2 := read (arrive (Example.fbuMessage 16 0 16 16 Hextile [0]) c1) in
     inbound (socket c1) = []
     ∧ active (fbu c1) = false
     ∧ hextileBG (fbu c1) = 0x00FF0000
     ∧ inbound (socket c2) = []
     ∧ active (fbu c2) = false
     ∧ img_pixels (image c2) = replicate 512 (qRgb 255 0 0)
     ∧ trace c2 = [SigImageChanged 0 0 16 16; SigImageChanged 16 0 16 16])
  ∧ (let c1 := read (Example.runningClient 16 16
                       (Example.fbuMessage 0 0 16 16 Hextile [0])) in
     hextileBG (fbu (Example.runningClient 16 16 [])) = 0
     ∧ img_pixels (image c1) = replicate 256 (qRgb 0 0 0)).
Proof.
  split; [apply fbu_readRectHeader|].
  split.
  { intros hdr rows rest Hv Hbpp _ Hl Hfit Hin.
    destruct (decodeRect_hextile c hdr rows rest Hv Hbpp Hl Hfit Hin)
      as (T & (_ & _ & N) & S & _).
    split; [exact T | split; [exact N | exact S]]. }
  split.
  { intros pad hdr rows rest Hv Hs Hr Ha Hbpp _ Hl Hfit Hin.
    destruct (read_hextile_message c pad hdr rows rest Hv Hs Hr Ha Hbpp Hl Hfit Hin)
      as ((_ & _ & N) & S & A).
    split; [exact N | split; [exact A | exact S]]. }
  split.
  { intros pad hdr t rest Hv Hs Hr Ha Hbpp _ Hwf Hl. cbv zeta.
    intros Hw Hh Wt Bt St Hin.
    assert (Hfit : Spec.hexRowsFit (rectangleOfBytes hdr) [[t]]).
    { split; [cbn [length]; symmetry; apply strides_one; exact Hh|].
      cbn [Spec.hexRowsFitFrom Spec.hexRowFits].
      split; [cbn [length]; symmetry; apply strides_one; exact Hw|].
      repeat split; right; assumption. }
    assert (Rt : flagged (Spec.ht_sub t) RawSubencoding = false) by apply Wt.
    assert (Hin' : inbound (socket c)
                   = [FramebufferUpdate; pad; 0; 1] ++ hdr ++ to_be 4 Hextile
                     ++ Spec.encodeHexRows [[t]] ++ rest).
    { unfold Spec.encodeHexRows. cbn [concat fmap list_fmap app]. rewrite !app_nil_r. exact Hin. }
    destruct (read_hextile_message c pad hdr [[t]] rest Hv Hs Hr Ha Hbpp Hl Hfit Hin')
      as (_ & S & _).
    cbv zeta in S. set (r := rectangleOfBytes hdr) in *. clearbody r.
    unfold hexState in S. cbn [Spec.paintHexRows Spec.paintHexRow fst snd] in S.
    unfold Spec.paintHexTile in S. rewrite Rt, St, Bt in S. cbn [fold_left Spec.inherit] in S.
    injection S as SB SF SI. split; [exact SB|].
    intros x y Hx Hy. rewrite SI, pixel_fillRect by assumption.
    unfold inSpan.
    destruct (Z.leb_spec (rect_x r + 0) x), (Z.ltb_spec x (rect_x r + 0 + Z.min 16 (rect_w r - 0))),
      (Z.leb_spec (rect_y r + 0) y), (Z.ltb_spec y (rect_y r + 0 + Z.min 16 (rect_h r - 0))),
      (Z.leb_spec (rect_x r) x), (Z.ltb_spec x (rect_x r + rect_w r)),
      (Z.leb_spec (rect_y r) y), (Z.ltb_spec y (rect_y r + rect_h r));
      cbn [andb orb]; try reflexivity; lia. }
  split; [apply hextile_colours_onDisconnected|].
  split; [intros s; split; reflexivity|].
  split; vm_compute; repeat split; reflexivity.
Qed.

End HextileColours.

(** ** The theorems at concrete inputs *)

(** The response to the all-zero challenge under the password "p". *)
Lemma vncEncryptChallenge_bytes_witness :
  Forall (λ b, 0 ≤ b < 256) (Des.vncEncryptChallenge [0x70] (replicate 16 0)).
Proof. exact (proj2 (vncEncryptChallenge_bytes [0x70] (replicate 16 0) eq_refl)). Defined.

(** A 2x1 Raw rectangle, a blue pixel then a green one, on a white 2x1
    framebuffer. *)
Lemma handleRawEncoding_spec_witness :
  let c := Example.runningClient 2 1 [0xFF; 0; 0; 0; 0; 0xFF; 0; 0] in
  let r := Client.mkRectangle 0 0 2 1 in
  (Client.handleRawEncoding r c).1 = true
  ∧ Client.inbound (Client.socket (Client.handleRawEncoding r c).2)
    = drop (Z.to_nat 8) (Client.inbound (Client.socket c))
  ∧ Client.pixel 1 0 (Client.image (Client.handleRawEncoding r c).2)
    = rawPixel (Client.pixelFormat c) r (Client.inbound (Client.socket c)) 1 0.
Proof.
  cbv zeta.
  assert (Hwf : wfImage (Client.image (Example.runningClient 2 1 [0xFF; 0; 0; 0; 0; 0xFF; 0; 0])))
    by (vm_compute; repeat split; congruence).
  destruct (handleRawEncoding_spec (Client.mkRectangle 0 0 2 1)
              (Example.runningClient 2 1 [0xFF; 0; 0; 0; 0; 0xFF; 0; 0])
              eq_refl eq_refl Hwf ltac:(simpl; lia) ltac:(simpl; lia)) as [_ W].
  destruct (W ltac:(vm_compute; congruence)) as (W1 & W2 & _ & _ & W5).
  split; [exact W1 | split; [exact W2 |]].
  exact (W5 ltac:(unfold shiftsDefined; simpl; lia) 1 0 ltac:(simpl; lia) ltac:(simpl; lia)).
Defined.

(** The banner of a 3.8 server, followed by one more byte. *)
Lemma parseProtocolVersion_echo_witness :
  Client.inbound
    (Client.socket
       (Client.parseProtocolVersion
          (Client.initialClient (Client.mkSocket true (Client.banner 56 ++ [1]) []))))
  = [1].
Proof.
  exact (proj1 (parseProtocolVersion_echo
                  (Client.initialClient (Client.mkSocket true (Client.banner 56 ++ [1]) []))
                  (Client.banner 56) [1] eq_refl eq_refl eq_refl)).
Defined.

(** A 3.8 server that offers None and then VNC authentication. *)
Lemma parseSecurity37_selection_witness :
  let c := Client.set_protocolVersion Client.ProtocolVersion38
             (Client.set_state Client.SecurityState
                (Client.initialClient (Client.mkSocket true [2; 1; 2] []))) in
  Client.securityType (Client.parseSecurity37 c) = Client.SecurityTypeVncAuthentication
  ∧ Client.outbound (Client.socket (Client.parseSecurity37 c)) = [2].
Proof.
  cbv zeta.
  destruct (parseSecurity37_selection
              (Client.set_protocolVersion Client.ProtocolVersion38
                 (Client.set_state Client.SecurityState
                    (Client.initialClient (Client.mkSocket true [2; 1; 2] []))))
              [1; 2] [] eq_refl eq_refl (or_intror eq_refl) eq_refl
              ltac:(simpl; lia)) as [W _].
  destruct (W eq_refl) as (W1 & _ & W3 & _).
  split; [exact W1 | exact W3].
Defined.

(** A 3.8 client without a password that receives a challenge of
    sixteen bytes 7 and is then given the password "p". *)
Lemma password_may_follow_challenge_witness :
  let c := Client.set_state Client.VncAuthenticationState
             (Client.set_protocolVersion Client.ProtocolVersion38
                (Client.initialClient (Client.mkSocket true (replicate 16 7) []))) in
  Client.socket (Client.setPassword [0x70] (Client.parseVncAuthentication c))
  = Client.socket (Client.parseVncAuthentication (Client.setPassword [0x70] c)).
Proof.
  cbv zeta.
  assert (Hne : [0x70] ≠ []) by discriminate.
  pose proof (password_may_follow_challenge
                (Client.set_state Client.VncAuthenticationState
                   (Client.set_protocolVersion Client.ProtocolVersion38
                      (Client.initialClient (Client.mkSocket true (replicate 16 7) []))))
                [0x70] eq_refl eq_refl eq_refl Hne eq_refl ltac:(vm_compute; congruence)) as W.
  cbv zeta in W. exact (proj1 (proj2 (proj2 (proj2 W)))).
Defined.

(** The ServerInit of a 2x1 framebuffer named "test". *)
Lemma parserServerInit_complete_witness :
  let c := Client.set_state Client.ServerInitState
             (Client.initialClient
                (Client.mkSocket true (Example.serverInitHeader ++ [0x74; 0x65; 0x73; 0x74]) [])) in
  Client.state (Client.parserServerInit c) = Client.WaitingState
  ∧ Client.inbound (Client.socket (Client.parserServerInit c)) = [].
Proof.
  cbv zeta.
  assert (Hb : Forall (λ x, 0 ≤ x < 256)
                 ([0; 2] ++ [0; 1]
                  ++ [32; 24; 0; 1; 0; 255; 0; 255; 0; 255; 16; 8; 0; 0; 0; 0]))
    by (repeat constructor; lia).
  pose proof (parserServerInit_complete
                (Client.set_state Client.ServerInitState
                   (Client.initialClient
                      (Client.mkSocket true
                         (Example.serverInitHeader ++ [0x74; 0x65; 0x73; 0x74]) [])))
                [0; 2] [0; 1] [32; 24; 0; 1; 0; 255; 0; 255; 0; 255; 16; 8; 0; 0; 0; 0]
                [0; 0; 0; 4] [0x74; 0x65; 0x73; 0x74] []
                eq_refl eq_refl eq_refl eq_refl eq_refl eq_refl Hb eq_refl) as W.
  cbv zeta in W. split; [exact (proj1 W) | exact (proj1 (proj2 W))].
Defined.

(** An update in progress with no rectangle left. *)
Lemma update_request_follows_completion_witness :
  let c := Client.upd_fbu (Client.set_active true) (Example.runningClient 2 1 []) in
  let c' := Client.processFramebufferRects c in
  (Client.active (Client.fbu c') = false
   ∧ Client.totalRects (Client.fbu c') ≤ Client.currentRect (Client.fbu c')
   ∧ Client.outbound (Client.socket c')
     = Client.outbound (Client.socket c) ++ [3; 1; 0; 0; 0; 0]
       ++ Client.to_be 2 (Client.frameBufferWidth c mod 2 ^ 16)
       ++ Client.to_be 2 (Client.frameBufferHeight c mod 2 ^ 16))
  ∨ (Client.active (Client.fbu c') = true
     ∧ Client.currentRect (Client.fbu c') < Client.totalRects (Client.fbu c')
     ∧ Client.outbound (Client.socket c') = Client.outbound (Client.socket c)).
Proof.
  exact (update_request_follows_completion
           (Client.upd_fbu (Client.set_active true) (Example.runningClient 2 1 []))
           eq_refl eq_refl).
Defined.

(** A running client that receives a Raw rectangle. *)
Lemma running_state_is_kept_witness :
  Client.state
    (Client.read
       (Example.runningClient 2 1
          (Example.fbuMessage 0 0 2 1 Client.RawEncoding [0xFF; 0; 0; 0; 0; 0xFF; 0; 0])))
  = Client.WaitingState.
Proof.
  exact (proj1 (running_state_is_kept
                  (Example.runningClient 2 1
                     (Example.fbuMessage 0 0 2 1 Client.RawEncoding
                        [0xFF; 0; 0; 0; 0; 0xFF; 0; 0]))
                  eq_refl)).
Defined.

(** Typing "hi". *)
Lemma sendText_messages_witness :
  let d := Tools.mkPrivate (Example.runningClient 2 1 []) (0, 0) in
  Client.outbound (Client.socket (Tools.vncClient (Tools.sendText [0x68; 0x69] 0 d)))
  = Client.outbound (Client.socket (Tools.vncClient d))
    ++ concat (typedChar <$> [0x68; 0x69]).
Proof.
  exact (proj1 (sendText_messages [0x68; 0x69] 0
                  (Tools.mkPrivate (Example.runningClient 2 1 []) (0, 0)) eq_refl)).
Defined.

(** The keysym of Return, with 0xDEADBEEF in the storage of [code]. *)
Lemma sendKey_ignores_keysym_witness :
  let d := Tools.mkPrivate (Example.runningClient 2 1 []) (0, 0) in
  Client.outbound (Client.socket (Tools.vncClient (Tools.sendKey 0xff0d true 0xDEADBEEF d)))
  = Client.outbound (Client.socket (Tools.vncClient d))
    ++ [4; 1; 32; 32] ++ Client.to_be 4 0xDEADBEEF.
Proof.
  exact (sendKey_ignores_keysym 0xff0d true 0xDEADBEEF
           (Tools.mkPrivate (Example.runningClient 2 1 []) (0, 0)) eq_refl
           ltac:(lia)).
Defined.

(** A right click at (3, 4). *)
Lemma pointer_tools_messages_witness :
  let d := Tools.mkPrivate (Example.runningClient 2 1 []) (0, 0) in
  Client.outbound (Client.socket (Tools.vncClient (Tools.mouseClick 3 4 3 d)))
  = Client.outbound (Client.socket (Tools.vncClient d))
    ++ pointerMessage (buttonMaskOf 3) 3 4 ++ pointerMessage 0 3 4.
Proof.
  exact (proj1 (pointer_tools_messages 3 4 3
                  (Tools.mkPrivate (Example.runningClient 2 1 []) (0, 0)) eq_refl)).
Defined.

(** A 32x16 Hextile rectangle of two tiles: the first tile, a blue
    background, is buffered, the subencoding byte of the second arrives
    later. *)
Lemma hextile_decoding_resumes_witness :
  let c := Example.runningClient 32 16 [2; 0xFF; 0; 0; 0] in
  let r := Client.mkRectangle 0 0 32 16 in
  Client.handleHextileEncoding r (Client.arrive [0] (Client.handleHextileEncoding r c).2)
  = Client.handleHextileEncoding r (Client.arrive [0] c).
Proof.
  cbv zeta.
  apply (proj1 (hextile_decoding_resumes (Client.mkRectangle 0 0 32 16) [0]
                  (Example.runningClient 32 16 [2; 0xFF; 0; 0; 0])
                  eq_refl eq_refl ltac:(repeat constructor; lia))).
  vm_compute. reflexivity.
Defined.


(** A client with the password "p" that has a challenge buffered. *)
Lemma password_outlives_connection_witness :
  let c := Client.set_password [0x70]
             (Client.set_state Client.VncAuthenticationState
                (Client.initialClient (Client.mkSocket true (replicate 16 7) []))) in
  Client.password (Client.read c) = Client.password c
  ∧ Client.parseVncAuthentication c
    = Client.sendVncAuthResponse
        (Client.set_vncChallenge (take 16 (Client.inbound (Client.socket c)))
           (consumed 16 c)).
Proof.
  cbv zeta.
  pose proof (password_outlives_connection
                (Client.set_password [0x70]
                   (Client.set_state Client.VncAuthenticationState
                      (Client.initialClient (Client.mkSocket true (replicate 16 7) [])))))
    as (H1 & _ & _ & _ & _ & _ & H7).
  split; [exact H1|].
  apply H7; [discriminate | vm_compute; discriminate].
Defined.

(** The password "p" and the challenge of sixteen sevens. *)
Lemma handshake_38_vnc_authentication_witness :
  let c0 := Client.set_password [0x70] (Client.initialClient (Client.mkSocket true [] [])) in
  let c1 := Client.read (Client.arrive (Client.banner 56) c0) in
  let c2 := Client.read (Client.arrive [2; 1; 2] c1) in
  let c3 := Client.read (Client.arrive (replicate 16 7) c2) in
  let c4 := Client.read (Client.arrive [0; 0; 0; 0] c3) in
  Client.outbound (Client.socket c4)
  = Client.banner 56 ++ [2] ++ Des.vncEncryptChallenge [0x70] (replicate 16 7) ++ [1].
Proof.
  exact (proj1 (proj2 (proj2 (proj2 (proj2
           (handshake_38_vnc_authentication [0x70] (replicate 16 7)
              ltac:(discriminate) eq_refl)))))).
Defined.

(** The first three bytes of a banner, and three calls of [read]. *)
Lemma partial_message_polls_witness :
  let c := Client.initialClient (Client.mkSocket true [82; 70; 66] []) in
  Nat.iter 3 Client.read c = Client.set_queuedReads 3 c.
Proof.
  cbv zeta.
  apply (partial_message_polls 3
           (Client.initialClient (Client.mkSocket true [82; 70; 66] [])) eq_refl eq_refl).
  split; [reflexivity|]. left. split; reflexivity.
Defined.

(** The type byte and the padding of a FramebufferUpdate. *)
Lemma update_header_loses_type_byte_witness :
  let c := Example.runningClient 2 1 [0; 0] in
  Client.read c = Client.set_queuedReads 1 (consumed 1 c).
Proof.
  exact (update_header_loses_type_byte (Example.runningClient 2 1 [0; 0]) [0]
           eq_refl eq_refl eq_refl eq_refl eq_refl ltac:(cbn; lia)).
Defined.

(** A Bell and a ServerCutText type byte ahead of a third byte. *)
Lemma unknown_messages_are_skipped_bytewise_witness :
  let c := Example.runningClient 2 1 [2; 3; 7] in
  Client.inbound (Client.socket (Nat.iter 2 Client.read c)) = [7]
  ∧ Client.trace (Nat.iter 2 Client.read c)
    = Client.trace c ++ [Client.Warn (Client.UnknownMessageType 2);
                         Client.Warn (Client.UnknownMessageType 3)].
Proof.
  cbv zeta.
  destruct (unknown_messages_are_skipped_bytewise [2; 3] [7]
              (Example.runningClient 2 1 [2; 3; 7])
              eq_refl eq_refl eq_refl eq_refl ltac:(repeat constructor; lia) eq_refl)
    as (H1 & H2 & _).
  split; [exact H1 | exact H2].
Defined.

(** A length of 2 with one byte of data buffered. *)
Lemma zrle_framing_witness :
  let c := Example.runningClient 2 1 [0; 0; 0; 2; 9] in
  let r := Client.mkRectangle 0 0 2 1 in
  Client.handleZRLEEncoding r c = (false, c).
Proof.
  exact (zrle_framing (Client.mkRectangle 0 0 2 1)
           (Example.runningClient 2 1 [0; 0; 0; 2; 9])
           eq_refl ltac:(repeat constructor; lia)).
Defined.

(** C8 as stated fails: the client object Example.reconnectedClient
    has lost one connection, on which a Hextile tile had set a red
    background, and has made another; the first Hextile tile it receives
    there has subencoding 0, so the background it holds is the red of
    the first connection, and the tile is painted red, not black.  And a first
    tile that is Raw lacks BackgroundSpecified too, and is painted with
    its own pixels: on a new client, whose background is 0, a 1x1 Raw
    tile with a green pixel ends up green. *)
Lemma hextile_background_survives_reconnection :
  (Client.state Example.reconnectedClient = Client.WaitingState
   ∧ Client.hextileBG (Client.fbu Example.reconnectedClient) = 0x00FF0000
   ∧ Client.img_pixels (Client.image Example.reconnectedClient)
     = replicate 256 (Client.qRgb 255 0 0)
   ∧ Client.qRgb 255 0 0 ≠ Client.qRgb 0 0 0)
  ∧ (let c := Example.runningClient 1 1
                (Example.fbuMessage 0 0 1 1 Client.Hextile [1; 0x00; 0xFF; 0x00; 0x00]) in
     Client.hextileBG (Client.fbu c) = 0
     ∧ Client.flagged 1 Client.BackgroundSpecified = false
     ∧ Client.img_pixels (Client.image (Client.read c)) = [Client.qRgb 0 255 0]
     ∧ Client.qRgb 0 255 0 ≠ Client.qRgb 0 0 0).
Proof. vm_compute. repeat split; try reflexivity; discriminate. Qed.

(** The theorem at a rectangle of three tiles, the second of them Raw. *)
Lemma hextile_colours_persist_witness :
  let c := Example.hextileRawClient in
  let r := Client.mkRectangle 0 0 34 1 in
  let rows := [[Spec.mkHexTile 2 [] [0x00; 0x00; 0xFF; 0x00] [] [];
                Spec.mkHexTile 1 (concat (replicate 16 [0x00; 0xFF; 0x00; 0x00])) [] [] [];
                Spec.mkHexTile 0 [] [] [] []]] in
  Client.isValid c = true
  ∧ shiftsDefined (Client.pixelFormat c)
  ∧ Spec.hexRowsFit r rows
  ∧ Client.inbound (Client.socket c) = Spec.encodeHexRows rows ++ []
  ∧ hexState (Client.handleHextileEncoding r c).2
    = Spec.paintHexRows (Client.pixelFormat c) r 0 rows (hexState c)
  ∧ Client.hextileBG (Client.fbu (Client.handleHextileEncoding r c).2) = 0x00FF0000.
Proof.
  cbv zeta.
  assert (Hv : Client.isValid Example.hextileRawClient = true) by reflexivity.
  assert (Hs : shiftsDefined (Client.pixelFormat Example.hextileRawClient))
    by (unfold shiftsDefined; simpl; lia).
  assert (Hfit : Spec.hexRowsFit (Client.mkRectangle 0 0 34 1)
                   [[Spec.mkHexTile 2 [] [0x00; 0x00; 0xFF; 0x00] [] [];
                     Spec.mkHexTile 1 (concat (replicate 16 [0x00; 0xFF; 0x00; 0x00]))
                       [] [] [];
                     Spec.mkHexTile 0 [] [] [] []]]).
  { split; [reflexivity|]. cbn [Spec.hexRowsFitFrom Spec.hexRowFits].
    split; [reflexivity|]. repeat split.
    - right. unfold Spec.wfColourTile. cbn. repeat split; try lia; try discriminate.
      + repeat constructor; lia.
      + constructor.
    - left. unfold Spec.wfRawTile. cbn. repeat split; try lia.
      repeat constructor; lia.
    - right. unfold Spec.wfColourTile. cbn.
      repeat split; try lia; try discriminate; constructor. }
  split; [exact Hv | split; [exact Hs | split; [exact Hfit | split; [reflexivity |]]]].
  destruct (proj1 (proj2 (proj2
              (hextile_colours_persist (Client.mkRectangle 0 0 34 1) 0 1 0 16
                 Example.hextileRawClient Hv)))
              _ [] eq_refl Hs Hfit eq_refl eq_refl eq_refl) as (_ & _ & S & B & _).
  split; [exact S | exact B].
Defined.

(** The theorem at a new running client that receives a plain tile. *)
Lemma hextile_colours_survive_rectangles_witness :
  let c := Example.runningClient 16 16 (Example.fbuMessage 0 0 16 16 Client.Hextile [0]) in
  wfImage (Client.image c)
  ∧ shiftsDefined (Client.pixelFormat c)
  ∧ Spec.wfColourTile (Spec.mkHexTile 0 [] [] [] [])
  ∧ Client.hextileBG (Client.fbu (Client.read c)) = Client.hextileBG (Client.fbu c)
  ∧ Client.pixel 3 5 (Client.image (Client.read c))
    = Client.toRgb (Client.pixelFormat c) (Client.hextileBG (Client.fbu c)).
Proof.
  cbv zeta.
  assert (Hwf : wfImage (Client.image
                   (Example.runningClient 16 16
                      (Example.fbuMessage 0 0 16 16 Client.Hextile [0])))).
  { repeat split; try discriminate. }
  assert (Hs : shiftsDefined (Client.pixelFormat
                   (Example.runningClient 16 16
                      (Example.fbuMessage 0 0 16 16 Client.Hextile [0]))))
    by (unfold shiftsDefined; simpl; lia).
  assert (Wt : Spec.wfColourTile (Spec.mkHexTile 0 [] [] [] [])).
  { unfold Spec.wfColourTile. cbn. repeat split; try lia; try discriminate; constructor. }
  split; [exact Hwf | split; [exact Hs | split; [exact Wt|]]].
  destruct (proj1 (proj2 (proj2 (proj2
              (hextile_colours_survive_rectangles
                 (Example.runningClient 16 16
                    (Example.fbuMessage 0 0 16 16 Client.Hextile [0]))))))
              0 [0; 0; 0; 0; 0; 16; 0; 16] (Spec.mkHexTile 0 [] [] [] []) []
              eq_refl eq_refl eq_refl eq_refl eq_refl Hs Hwf eq_refl
              ltac:(vm_compute; split; [reflexivity | discriminate])
              ltac:(vm_compute; split; [reflexivity | discriminate])
              Wt eq_refl eq_refl eq_refl) as [H1 H2].
  split; [exact H1|].
  exact (H2 3 5 ltac:(simpl; lia) ltac:(simpl; lia)).
Defined.
